(** * Facility intelligence system: the derivation layer

    A shallow embedding of the service layer of the backend
    ([app/services/*.py], [app/models/*.py], [app/schemas/*.py]) and the
    properties its design document states about it.

    Conventions of the embedding.
    - A [datetime] is the number of microseconds since 0001-01-01 00:00,
      the least datetime of Python (datetimes have microsecond resolution;
      the database stores naive datetimes).  A [timedelta] is a difference
      of two of them.  The services compute on them as on integers; Python
      raises [OverflowError] when a datetime leaves its range, so where a
      duration reaches a service unchecked the statement assumes the result
      [representable], and the handlers, which subtract from a datetime of
      the request, raise.
    - A Python [float] is an exact rational ([Qc]); NaN, infinities and
      binary rounding are outside the model.  The library functions whose
      result depends on the binary representation, [round], [math.sqrt]
      and [str], are parameters ([PythonFloat]).  The baseline statistics,
      which the design document states to a tolerance before rounding, go
      through the arithmetic of the database on doubles, a further
      parameter ([SqliteReal]).
    - A SQL table is the list of its rows; a query is a function of the
      tables.  [session.execute] is a step of the [Session] monad of the
      summary builder, which logs every statement it runs.
    - A Python [dict] is a [gmap]; where the code iterates over one in
      insertion order it is an association list. *)

From Stdlib Require Import ZArith QArith Qcanon Qround String List Lia OrdersEx.
From stdpp Require Import base option list numbers strings pretty gmap sorting.

Local Open Scope Z_scope.

(** ** Dates and durations *)

Definition datetime := Z.
Definition timedelta := Z.

Definition MICROSECONDS_PER_SECOND : Z := 1000000.

(** [timedelta(hours=h)] and [timedelta(days=d)]. *)
Definition timedelta_hours (h : Z) : timedelta := h * 3600 * MICROSECONDS_PER_SECOND.
Definition timedelta_days (d : Z) : timedelta := d * 86400 * MICROSECONDS_PER_SECOND.

(** [datetime.min] and [datetime.max]: the years 1 to 9999, which are
    3652059 days. *)
Definition datetime_min : datetime := 0.
Definition datetime_max : datetime := timedelta_days 3652059 - 1.

Definition representable (t : datetime) : Prop := datetime_min ≤ t ∧ t ≤ datetime_max.

Global Instance representable_dec t : Decision (representable t).
Proof. unfold representable. apply _. Defined.

(** [int(td.total_seconds())]: the seconds of a duration, truncated towards
    zero. *)
Definition int_total_seconds (td : timedelta) : Z := Z.quot td MICROSECONDS_PER_SECOND.

(** [strftime("%H", ts)] cast to an integer: the hour of the day. *)
Definition hour_of_day (ts : datetime) : Z :=
  (ts / (3600 * MICROSECONDS_PER_SECOND)) mod 24.

(** [strftime("%Y-%m-%d %H", ts)]: the text names the hour the instant lies
    in, so the hour's number since the epoch stands for it. *)
Definition hour_bucket (ts : datetime) : Z := ts / (3600 * MICROSECONDS_PER_SECOND).

(** [strftime("%Y-%m-%d", ts)], likewise the day's number. *)
Definition day_bucket (ts : datetime) : Z := ts / (86400 * MICROSECONDS_PER_SECOND).

(** Truthiness of an optional string argument ([if sensor_id:]): [None] and
    the empty string are both false. *)
Definition truthy (s : option string) : bool :=
  match s with
  | Some s => negb (String.eqb s "")
  | None => false
  end.

(** ** The tables ([app/models]) *)

Module Sensor.
Record t := mk {
  id : string;
  zone_id : string;
  sensor_type : string;
  label : string;
  warning_threshold : option Qc;
  critical_threshold : option Qc
}.
End Sensor.

Module Zone.
Record t := mk {
  id : string;
  name : string;
  zone_type : string;
  target_temp_min : option Qc;
  target_temp_max : option Qc
}.
End Zone.

Module EnvironmentalReading.
Record t := mk {
  sensor_id : string;
  timestamp : datetime;
  temperature : Qc;
  humidity : Qc
}.
End EnvironmentalReading.

Module AirQualityReading.
Record t := mk {
  sensor_id : string;
  timestamp : datetime;
  co2_ppm : Qc
}.
End AirQualityReading.

Module DoorReading.
Record t := mk {
  sensor_id : string;
  timestamp : datetime;
  is_open : bool
}.
End DoorReading.

Module MotionReading.
Record t := mk {
  sensor_id : string;
  timestamp : datetime;
  motion_detected : bool
}.
End MotionReading.

(** The database the session is bound to.  The autoincrement [id] of a
    reading is never read by the services (only counted), so the rows do
    not carry it. *)
Record Database := {
  sensors : list Sensor.t;
  zones : list Zone.t;
  environmental_readings : list EnvironmentalReading.t;
  air_quality_readings : list AirQualityReading.t;
  door_readings : list DoorReading.t;
  motion_readings : list MotionReading.t
}.

(** ** Derived events ([app/schemas/events.py]) *)

Module DoorEvent.
Record t := mk {
  sensor_id : string;
  opened_at : datetime;
  closed_at : option datetime;
  duration_seconds : Z
}.
End DoorEvent.

Module PresenceEvent.
Record t := mk {
  sensor_id : string;
  zone_id : string;
  started_at : datetime;
  ended_at : option datetime;
  duration_seconds : Z;
  is_safety_concern : bool
}.
End PresenceEvent.

(** ** Ordering of query results

    [ORDER BY sensor_id, timestamp]: sensor ids in the lexical order of
    their characters, then timestamps ascending. *)

Definition key_leb (k1 k2 : string * datetime) : bool :=
  match String_as_OT.compare k1.1 k2.1 with
  | Lt => true
  | Eq => k1.2 <=? k2.2
  | Gt => false
  end.

Definition order_by {A} (key : A → string * datetime) : relation A :=
  λ x y, key_leb (key x) (key y) = true.

Global Instance order_by_dec {A} (key : A → string * datetime) :
  RelDecision (order_by key).
Proof. intros x y. unfold order_by. apply _. Defined.

Global Instance string_lt_dec : RelDecision String_as_OT.lt.
Proof.
  intros a b. unfold String_as_OT.lt.
  destruct (String_as_OT.compare a b); [right|left|right]; congruence.
Defined.

(** ** Event service ([app/services/event_service.py]) *)

Module EventService.

Definition SAFETY_CONCERN_THRESHOLD_SECONDS : Z := 600.

(** [_get_sensor_ids_for_zone] *)
Definition _get_sensor_ids_for_zone (db : Database) (zone_id sensor_type : string)
  : list string :=
  Sensor.id <$>
    filter (λ s, Sensor.zone_id s = zone_id ∧ Sensor.sensor_type s = sensor_type)
           (sensors db).

Module Door.

Definition key (r : DoorReading.t) : string * datetime :=
  (DoorReading.sensor_id r, DoorReading.timestamp r).

(** The statement [get_door_events] builds and runs. *)
Definition query (db : Database) (start end_ : datetime)
    (sensor_id zone_id : option string) : list DoorReading.t :=
  let in_window :=
    filter (λ r, start ≤ DoorReading.timestamp r ∧ DoorReading.timestamp r ≤ end_)
           (door_readings db) in
  let selected :=
    if truthy sensor_id then
      filter (λ r, Some (DoorReading.sensor_id r) = sensor_id) in_window
    else if truthy zone_id then
      let sensor_ids := _get_sensor_ids_for_zone db (default "" zone_id) "door" in
      filter (λ r, DoorReading.sensor_id r ∈ sensor_ids) in_window
    else in_window in
  merge_sort (order_by key) selected.

(** The local variables of the loop. *)
Record locals := mk {
  events : list DoorEvent.t;
  current_sensor_id : option string;
  current_event_start : option datetime;
  prev_is_open : option bool
}.

Definition initial : locals := mk [] None None None.

(** The event appended for a door that is still open, at a change of
    sensor and after the loop. *)
Definition still_open (end_ : datetime) (st : locals) : list DoorEvent.t :=
  match current_event_start st, current_sensor_id st with
  | Some opened, Some sid =>
      [DoorEvent.mk sid opened None (int_total_seconds (end_ - opened))]
  | _, _ => []
  end.

(** One iteration of [for reading in readings]. *)
Definition body (end_ : datetime) (st : locals) (reading : DoorReading.t) : locals :=
  let st :=
    if decide (Some (DoorReading.sensor_id reading) ≠ current_sensor_id st) then
      mk (events st ++ still_open end_ st)
         (Some (DoorReading.sensor_id reading)) None None
    else st in
  let st :=
    match prev_is_open st with
    | Some prev =>
        if negb prev && DoorReading.is_open reading then
          mk (events st) (current_sensor_id st)
             (Some (DoorReading.timestamp reading)) (prev_is_open st)
        else if prev && negb (DoorReading.is_open reading) then
          match current_event_start st with
          | Some opened =>
              mk (events st ++
                    [DoorEvent.mk (DoorReading.sensor_id reading) opened
                       (Some (DoorReading.timestamp reading))
                       (int_total_seconds (DoorReading.timestamp reading - opened))])
                 (current_sensor_id st) None (prev_is_open st)
          | None => st
          end
        else st
    | None =>
        if DoorReading.is_open reading then
          mk (events st) (current_sensor_id st)
             (Some (DoorReading.timestamp reading)) (prev_is_open st)
        else st
    end in
  mk (events st) (current_sensor_id st) (current_event_start st)
     (Some (DoorReading.is_open reading)).

(** The loop and the code after it, on the rows the query returned. *)
Definition events_of (end_ : datetime) (readings : list DoorReading.t)
  : list DoorEvent.t :=
  let st := fold_left (body end_) readings initial in
  events st ++ still_open end_ st.

End Door.

Module Presence.

(** A row of the joined query: the motion reading and the zone of its
    sensor. *)
Definition row : Type := MotionReading.t * string.

Definition key (rw : row) : string * datetime :=
  (MotionReading.sensor_id rw.1, MotionReading.timestamp rw.1).

(** The statement [get_presence_events] builds and runs: motion readings
    joined to their sensor. *)
Definition query (db : Database) (start end_ : datetime)
    (sensor_id zone_id : option string) : list row :=
  let joined : list row :=
    r ← motion_readings db;
    s ← filter (λ s, MotionReading.sensor_id r = Sensor.id s) (sensors db);
    [(r, Sensor.zone_id s)] in
  let in_window :=
    filter (λ rw : row, start ≤ MotionReading.timestamp rw.1
                        ∧ MotionReading.timestamp rw.1 ≤ end_) joined in
  let selected :=
    if truthy sensor_id then
      filter (λ rw : row, Some (MotionReading.sensor_id rw.1) = sensor_id) in_window
    else if truthy zone_id then
      filter (λ rw : row, Some rw.2 = zone_id) in_window
    else in_window in
  merge_sort (order_by key) selected.

Record locals := mk {
  events : list PresenceEvent.t;
  current_sensor_id : option string;
  current_zone_id : option string;
  current_event_start : option datetime;
  prev_motion : option bool
}.

Definition initial : locals := mk [] None None None None.

(** [current_zone_id or ""] *)
Definition zone_or_empty (z : option string) : string := default "" z.

(** The event appended, when long enough, for a presence that is still
    active, at a change of sensor and after the loop. *)
Definition still_active (end_ : datetime) (min_duration_seconds : Z) (st : locals)
  : list PresenceEvent.t :=
  match current_event_start st, current_sensor_id st with
  | Some started, Some sid =>
      let duration := int_total_seconds (end_ - started) in
      if decide (min_duration_seconds ≤ duration) then
        [PresenceEvent.mk sid (zone_or_empty (current_zone_id st)) started None
           duration (bool_decide (SAFETY_CONCERN_THRESHOLD_SECONDS ≤ duration))]
      else []
  | _, _ => []
  end.

(** One iteration of [for reading, zone in rows]. *)
Definition body (end_ : datetime) (min_duration_seconds : Z)
    (st : locals) (rw : row) : locals :=
  let '(reading, zone) := rw in
  let st :=
    if decide (Some (MotionReading.sensor_id reading) ≠ current_sensor_id st) then
      mk (events st ++ still_active end_ min_duration_seconds st)
         (Some (MotionReading.sensor_id reading)) (Some zone) None None
    else st in
  let st :=
    match prev_motion st with
    | Some prev =>
        if negb prev && MotionReading.motion_detected reading then
          mk (events st) (current_sensor_id st) (current_zone_id st)
             (Some (MotionReading.timestamp reading)) (prev_motion st)
        else if prev && negb (MotionReading.motion_detected reading) then
          match current_event_start st with
          | Some started =>
              let duration :=
                int_total_seconds (MotionReading.timestamp reading - started) in
              mk (if decide (min_duration_seconds ≤ duration) then
                    events st ++
                      [PresenceEvent.mk (MotionReading.sensor_id reading) zone started
                         (Some (MotionReading.timestamp reading)) duration
                         (bool_decide (SAFETY_CONCERN_THRESHOLD_SECONDS ≤ duration))]
                  else events st)
                 (current_sensor_id st) (current_zone_id st) None (prev_motion st)
          | None => st
          end
        else st
    | None =>
        if MotionReading.motion_detected reading then
          mk (events st) (current_sensor_id st) (current_zone_id st)
             (Some (MotionReading.timestamp reading)) (prev_motion st)
        else st
    end in
  mk (events st) (current_sensor_id st) (current_zone_id st)
     (current_event_start st) (Some (MotionReading.motion_detected reading)).

Definition events_of (end_ : datetime) (min_duration_seconds : Z) (rows : list row)
  : list PresenceEvent.t :=
  let st := fold_left (body end_ min_duration_seconds) rows initial in
  events st ++ still_active end_ min_duration_seconds st.

End Presence.

Definition get_door_events (db : Database) (start end_ : datetime)
    (sensor_id zone_id : option string) : list DoorEvent.t :=
  Door.events_of end_ (Door.query db start end_ sensor_id zone_id).

(** [min_duration_seconds] defaults to 0. *)
Definition get_presence_events (db : Database) (start end_ : datetime)
    (sensor_id zone_id : option string) (min_duration_seconds : Z)
  : list PresenceEvent.t :=
  Presence.events_of end_ min_duration_seconds
    (Presence.query db start end_ sensor_id zone_id).

End EventService.

(** ** Floats, exceptions

    The operations of Python's float library whose result is not given by
    exact arithmetic: [round(x, ndigits)], [math.sqrt(x)] and [str(x)]. *)

Class PythonFloat := {
  round : Qc → Z → Qc;
  math_sqrt : Qc → Qc;
  float_str : Qc → string
}.

(** The arithmetic of the database on doubles, as far as the baseline
    statistics go through it: [avg(X)] over the values of at least one row,
    [X - Y] and [pow(X, Y)].  Each returns a double near the exact result;
    how near depends on the order of the rows and on the build of the
    library. *)
Class SqliteReal := {
  sqlite_avg : list Qc → Qc;
  sqlite_minus : Qc → Qc → Qc;
  sqlite_pow : Qc → Z → Qc
}.

(** [int(x)]: truncation towards zero. *)
Definition int_of_float (x : Qc) : Z := Z.quot (Qnum x) (Zpos (Qden x)).

(** [float(n)] *)
Definition float_of_int (n : Z) : Qc := Q2Qc (inject_Z n).

(** [float(b)], and a boolean column read as a number: 1.0 or 0.0. *)
Definition float_of_bool (b : bool) : Qc := if b then 1%Qc else 0%Qc.

(** [x or 0] on an optional float: [None] and zero both give zero. *)
Definition or_zero (x : option Qc) : Qc := default 0%Qc x.

Inductive Exception :=
| MultipleResultsFound
| KeyError (key : string)
| ValueError (message : string)
| TypeError (message : string)
| OverflowError (message : string)
| OperationalError (message : string).

Inductive Result (A : Type) :=
| Ok (value : A)
| Raise (e : Exception).
Arguments Ok {A} value.
Arguments Raise {A} e.

Definition result_bind {A B} (r : Result A) (k : A → Result B) : Result B :=
  match r with
  | Ok a => k a
  | Raise e => Raise e
  end.

(** ** Datetimes of a request

    A datetime as the framework hands it to a handler: its wall-clock
    fields and, when the text of the parameter named one ("Z", "+02:00"),
    its offset from UTC.  A datetime without offset is naive; the clock the
    handlers read and the timestamps of the rows are.  Python compares and
    subtracts two datetimes that both have an offset by their instants, two
    naive ones by their fields, and refuses one of each; subtracting a
    duration keeps the offset, and the fields must stay in range. *)

Module PyDatetime.

Record t := mk {
  wall : datetime;
  utcoffset : option timedelta
}.

Definition naive (fields : datetime) : t := mk fields None.

(** [a >= b] *)
Definition ge (a b : t) : Result bool :=
  match utcoffset a, utcoffset b with
  | None, None => Ok (bool_decide (wall b ≤ wall a))
  | Some offset_a, Some offset_b =>
      Ok (bool_decide (wall b - offset_b ≤ wall a - offset_a))
  | _, _ => Raise (TypeError "can't compare offset-naive and offset-aware datetimes")
  end.

(** [a - b] *)
Definition minus (a b : t) : Result timedelta :=
  match utcoffset a, utcoffset b with
  | None, None => Ok (wall a - wall b)
  | Some offset_a, Some offset_b => Ok ((wall a - offset_a) - (wall b - offset_b))
  | _, _ => Raise (TypeError "can't subtract offset-naive and offset-aware datetimes")
  end.

(** [a - delta] *)
Definition minus_timedelta (a : t) (delta : timedelta) : Result t :=
  if decide (representable (wall a - delta)) then Ok (mk (wall a - delta) (utcoffset a))
  else Raise (OverflowError "date value out of range").

End PyDatetime.

(** [scalar_one_or_none()] and [one_or_none()]: the row, nothing, or an
    exception when the statement returned several rows. *)
Definition one_or_none {A} (rows : list A) : Result (option A) :=
  match rows with
  | [] => Ok None
  | [row] => Ok (Some row)
  | _ => Raise MultipleResultsFound
  end.

(** ** The sensor type registry ([app/services/_registry.py]) *)

Module Registry.

(** The reading models and their columns. *)
Inductive Model :=
| EnvironmentalReadingModel
| AirQualityReadingModel
| DoorReadingModel
| MotionReadingModel.

Inductive Column : Model → Type :=
| Temperature : Column EnvironmentalReadingModel
| Humidity : Column EnvironmentalReadingModel
| Co2Ppm : Column AirQualityReadingModel
| IsOpen : Column DoorReadingModel
| MotionDetected : Column MotionReadingModel.

Definition row (model : Model) : Type :=
  match model with
  | EnvironmentalReadingModel => EnvironmentalReading.t
  | AirQualityReadingModel => AirQualityReading.t
  | DoorReadingModel => DoorReading.t
  | MotionReadingModel => MotionReading.t
  end.

Definition table (db : Database) (model : Model) : list (row model) :=
  match model with
  | EnvironmentalReadingModel => environmental_readings db
  | AirQualityReadingModel => air_quality_readings db
  | DoorReadingModel => door_readings db
  | MotionReadingModel => motion_readings db
  end.

Definition sensor_id {model} : row model → string :=
  match model with
  | EnvironmentalReadingModel => EnvironmentalReading.sensor_id
  | AirQualityReadingModel => AirQualityReading.sensor_id
  | DoorReadingModel => DoorReading.sensor_id
  | MotionReadingModel => MotionReading.sensor_id
  end.

Definition timestamp {model} : row model → datetime :=
  match model with
  | EnvironmentalReadingModel => EnvironmentalReading.timestamp
  | AirQualityReadingModel => AirQualityReading.timestamp
  | DoorReadingModel => DoorReading.timestamp
  | MotionReadingModel => MotionReading.timestamp
  end.

(** The value of a column in a row, as a number: the database stores a
    boolean as 1 or 0. *)
Definition cell {model} (column : Column model) : row model → Qc :=
  match column with
  | Temperature => EnvironmentalReading.temperature
  | Humidity => EnvironmentalReading.humidity
  | Co2Ppm => AirQualityReading.co2_ppm
  | IsOpen => λ r, float_of_bool (DoorReading.is_open r)
  | MotionDetected => λ r, float_of_bool (MotionReading.motion_detected r)
  end.

(** The name of a column in its table. *)
Definition column_name {model} (column : Column model) : string :=
  match column with
  | Temperature => "temperature"
  | Humidity => "humidity"
  | Co2Ppm => "co2_ppm"
  | IsOpen => "is_open"
  | MotionDetected => "motion_detected"
  end.

(** Whether the column holds booleans ([isinstance(value, bool)]). *)
Definition is_boolean {model} (column : Column model) : bool :=
  match column with
  | IsOpen | MotionDetected => true
  | _ => false
  end.

Record SensorTypeConfig := {
  model : Model;
  value_column : Column model;
  unit : string;
  secondary_column : option (Column model);
  secondary_unit : option string;
  format_value : option (Qc → string);
  supports_aggregation : bool
}.

Definition _format_door (value : Qc) : string :=
  if decide (value = 0%Qc) then "Closed" else "Open".

Definition _format_motion (value : Qc) : string :=
  if decide (value = 0%Qc) then "No motion" else "Motion detected".

Definition SENSOR_TYPE_REGISTRY : gmap string SensorTypeConfig :=
  list_to_map
    [ ("environmental",
       {| model := EnvironmentalReadingModel; value_column := Temperature;
          unit := "°C"; secondary_column := Some Humidity;
          secondary_unit := Some "%"; format_value := None;
          supports_aggregation := true |});
      ("air_quality",
       {| model := AirQualityReadingModel; value_column := Co2Ppm;
          unit := "ppm"; secondary_column := None;
          secondary_unit := None; format_value := None;
          supports_aggregation := true |});
      ("door",
       {| model := DoorReadingModel; value_column := IsOpen;
          unit := "events"; secondary_column := None;
          secondary_unit := None; format_value := Some _format_door;
          supports_aggregation := false |});
      ("motion",
       {| model := MotionReadingModel; value_column := MotionDetected;
          unit := "events"; secondary_column := None;
          secondary_unit := None; format_value := Some _format_motion;
          supports_aggregation := false |}) ].

Definition get_sensor_config (sensor_type : string) : option SensorTypeConfig :=
  SENSOR_TYPE_REGISTRY !! sensor_type.

End Registry.

(** ** What SQLite accepts

    SQLite checks a statement when it prepares it, before any row is read.
    Of a statement this keeps the expressions of its result columns
    (columns, bound values, functions of one or two arguments), and of
    the check the rule on aggregate and window functions: an aggregate
    function may not stand where aggregates are not allowed, nor a window
    function where window functions are not; within the argument of an
    aggregate function neither is allowed, and within a window function no
    further window function is. *)

Module Sqlite.

Inductive Expr :=
| Column (name : string)
| Bound
| Call (function : string) (arg : Expr)
| Call2 (function : string) (arg1 arg2 : Expr)
| Aggregate (function : string) (arg : Expr)
| Over (function : string) (arg : Expr) (partition_by : Expr).

(** The message of the first misuse met, reading the expression from the
    left. *)
Fixpoint misuse (allow_agg allow_win : bool) (e : Expr) : option string :=
  match e with
  | Column _ | Bound => None
  | Call _ arg => misuse allow_agg allow_win arg
  | Call2 _ arg1 arg2 =>
      match misuse allow_agg allow_win arg1 with
      | Some message => Some message
      | None => misuse allow_agg allow_win arg2
      end
  | Aggregate function arg =>
      if allow_agg then misuse false false arg
      else Some ("misuse of aggregate function " +:+ function +:+ "()")
  | Over function arg partition_by =>
      if allow_win then
        match misuse allow_agg false arg with
        | Some message => Some message
        | None => misuse allow_agg false partition_by
        end
      else Some ("misuse of window function " +:+ function +:+ "()")
  end.

(** Preparing a statement with the given result columns. *)
Definition prepare (columns : list Expr) : Result () :=
  match omap (misuse true true) columns with
  | message :: _ => Raise (OperationalError message)
  | [] => Ok ()
  end.

End Sqlite.

(** ** SQL aggregates *)

Definition sql_count {A} (rows : list A) : Z := Z.of_nat (length rows).

Definition sql_sum (values : list Qc) : Qc := foldr Qcplus 0%Qc values.

(** [avg], [min], [max] are NULL over no rows. *)
Definition sql_avg (values : list Qc) : option Qc :=
  match values with
  | [] => None
  | _ => Some (sql_sum values / float_of_int (sql_count values))%Qc
  end.

Definition sql_min (values : list Qc) : option Qc :=
  match values with
  | [] => None
  | v :: rest => Some (foldr (λ x m, if decide (x < m)%Qc then x else m) v rest)
  end.

Definition sql_max (values : list Qc) : option Qc :=
  match values with
  | [] => None
  | v :: rest => Some (foldr (λ x m, if decide (m < x)%Qc then x else m) v rest)
  end.

(** [GROUP BY key ORDER BY key]: the rows of each key that occurs, keys
    ascending.  (Where the statement has no [ORDER BY] the order of the
    groups is not specified, and the callers do not depend on it.) *)
Definition group_by {A} (key : A → Z) (rows : list A) : list (Z * list A) :=
  (λ k, (k, filter (λ r, key r = k) rows)) <$>
    merge_sort Z.le (remove_dups (key <$> rows)).

(** ** Baseline and reading schemas ([app/schemas/events.py]) *)

Module SensorBaseline.
Record t := mk {
  sensor_id : string;
  mean : Qc;
  std_dev : Qc;
  min : Qc;
  max : Qc;
  unit : string;
  sample_count : Z;
  period_hours : Z
}.
End SensorBaseline.

Module HourlyBaseline.
Record t := mk {
  hour : Z;
  mean : Qc;
  std_dev : Qc;
  sample_count : Z
}.
End HourlyBaseline.

Module ReadingPoint.
Record t := mk {
  timestamp : datetime;
  value : Qc;
  humidity : option Qc
}.
End ReadingPoint.

Module ReadingsResponse.
Record t := mk {
  sensor_id : string;
  sensor_type : string;
  interval : string;
  readings : list ReadingPoint.t
}.
End ReadingsResponse.

(** [select(Sensor).where(Sensor.id == sensor_id)] *)
Definition select_sensor (db : Database) (sensor_id : string) : list Sensor.t :=
  filter (λ s, Sensor.id s = sensor_id) (sensors db).

(** The rows of a reading table for one sensor within a closed window. *)
Definition select_window (db : Database) (model : Registry.Model)
    (sensor_id : string) (start_time end_time : datetime)
  : list (Registry.row model) :=
  filter (λ r, Registry.sensor_id r = sensor_id
               ∧ start_time ≤ Registry.timestamp r
               ∧ Registry.timestamp r ≤ end_time)
         (Registry.table db model).

(** ** Baseline service ([app/services/baseline_service.py]) *)

Module BaselineService.
Import Registry.

Definition DEFAULT_BASELINE_HOURS : Z := 24.
Definition DEFAULT_BASELINE_DAYS : Z := 7.

Section WithFloat.
Context `{!PythonFloat} {Real : SqliteReal}.

(** [2 if config.unit == "°C" else 1] *)
Definition precision (config : SensorTypeConfig) : Z :=
  if decide (unit config = "°C") then 2 else 1.

(** [func.avg(...)] in the statements of this service: the average the
    database computes, NULL over no rows. *)
Definition avg (values : list Qc) : option Qc :=
  match values with
  | [] => None
  | _ => Some (sqlite_avg values)
  end.

(** [_compute_std_dev]: the square root of the average squared distance to
    [mean], over the same window of the same sensor. *)
Definition _compute_std_dev (db : Database) (model : Model)
    (value_column : Column model) (sensor_id : string)
    (start_time end_time : datetime) (mean : Qc) : Qc :=
  let variance :=
    avg ((λ r, sqlite_pow (sqlite_minus (cell value_column r) mean) 2) <$>
           select_window db model sensor_id start_time end_time) in
  match variance with
  | None => 0%Qc
  | Some variance =>
      if decide (variance < 0)%Qc then 0%Qc else math_sqrt variance
  end.

(** [get_sensor_baseline]; [now] is the clock read by [datetime.now()].
    The start of the window is computed on integers: Python raises
    [OverflowError] for [hours] so large that it falls before
    [datetime_min]. *)
Definition get_sensor_baseline (db : Database) (now : datetime)
    (sensor_id : string) (hours : Z) : Result (option SensorBaseline.t) :=
  if decide (hours ≤ 0) then Ok None else
  result_bind (one_or_none (select_sensor db sensor_id)) (λ sensor,
  match sensor with
  | None => Ok None
  | Some sensor =>
      match SENSOR_TYPE_REGISTRY !! Sensor.sensor_type sensor with
      | None => Ok None
      | Some config =>
          if negb (supports_aggregation config) then Ok None else
          let end_time := now in
          let start_time := end_time - timedelta_hours hours in
          let rows := select_window db (model config) sensor_id start_time end_time in
          let values := cell (value_column config) <$> rows in
          let count := sql_count rows in
          match avg values, sql_min values, sql_max values with
          | Some avg, Some min_val, Some max_val =>
              if decide (count = 0) then Ok None else
              let std_dev :=
                _compute_std_dev db (model config) (value_column config) sensor_id
                  start_time end_time avg in
              Ok (Some (SensorBaseline.mk sensor_id
                          (round avg (precision config))
                          (round std_dev (precision config))
                          (round min_val (precision config))
                          (round max_val (precision config))
                          (unit config) count hours))
          | _, _, _ => Ok None
          end
      end
  end).

(** The result columns of the two grouped statements of
    [get_hourly_baselines]. *)
Definition hour_of_timestamp : Sqlite.Expr :=
  Sqlite.Call2 "strftime" Sqlite.Bound (Sqlite.Column "timestamp").

Definition hourly_stats_columns {model} (value_column : Column model)
  : list Sqlite.Expr :=
  [ Sqlite.Call "cast" hour_of_timestamp;
    Sqlite.Aggregate "count" (Sqlite.Column "id");
    Sqlite.Aggregate "avg" (Sqlite.Column (column_name value_column)) ].

Definition hourly_variance_columns {model} (value_column : Column model)
  : list Sqlite.Expr :=
  [ Sqlite.Call "cast" hour_of_timestamp;
    Sqlite.Aggregate "avg"
      (Sqlite.Call2 "pow"
         (Sqlite.Call2 "-"
            (Sqlite.Column (column_name value_column))
            (Sqlite.Over "avg" (Sqlite.Column (column_name value_column))
               hour_of_timestamp))
         Sqlite.Bound) ].

(** The hours of the day that have samples, with their count and average:
    the rows of the first grouped statement, as the dict made of them. *)
Definition hourly_stats_of {model} (value_column : Column model)
    (rows : list (row model)) : gmap Z (Z * Qc) :=
  foldl (λ stats group,
           match avg (cell value_column <$> group.2) with
           | Some avg => <[group.1 := (sql_count group.2, avg)]> stats
           | None => stats
           end)
        ∅ (group_by (λ r, hour_of_day (timestamp r)) rows).

(** The rows the second grouped statement asks for: per hour of the day,
    the average squared distance to the average of that hour. *)
Definition hourly_variance_of {model} (value_column : Column model)
    (rows : list (row model)) : gmap Z Qc :=
  foldl (λ vars group,
           let values := cell value_column <$> group.2 in
           match avg values with
           | Some hour_avg =>
               match avg ((λ v, sqlite_pow (sqlite_minus v hour_avg) 2) <$> values) with
               | Some variance => <[group.1 := variance]> vars
               | None => vars
               end
           | None => vars
           end)
        ∅ (group_by (λ r, hour_of_day (timestamp r)) rows).

(** [range(24)] *)
Definition hours_of_day : list Z := Z.of_nat <$> seq 0 24.

(** [get_hourly_baselines]; the start of the window is computed on
    integers, as in [get_sensor_baseline].  Each of the two grouped
    statements is prepared, then run. *)
Definition get_hourly_baselines (db : Database) (now : datetime)
    (sensor_id : string) (days : Z) : Result (list HourlyBaseline.t) :=
  if decide (days ≤ 0) then Ok [] else
  result_bind (one_or_none (select_sensor db sensor_id)) (λ sensor,
  match sensor with
  | None => Ok []
  | Some sensor =>
      let zero_filled :=
        (λ h, HourlyBaseline.mk h 0%Qc 0%Qc 0) <$> hours_of_day in
      match SENSOR_TYPE_REGISTRY !! Sensor.sensor_type sensor with
      | None => Ok zero_filled
      | Some config =>
          if negb (supports_aggregation config) then Ok zero_filled else
          let end_time := now in
          let start_time := end_time - timedelta_days days in
          let rows := select_window db (model config) sensor_id start_time end_time in
          result_bind (Sqlite.prepare (hourly_stats_columns (value_column config))) (λ _,
          let hourly_stats := hourly_stats_of (value_column config) rows in
          result_bind (Sqlite.prepare (hourly_variance_columns (value_column config))) (λ _,
          let hourly_variance := hourly_variance_of (value_column config) rows in
          Ok ((λ hour,
                 match hourly_stats !! hour with
                 | Some (count, avg) =>
                     let variance := default 0%Qc (hourly_variance !! hour) in
                     let std_dev :=
                       if decide (0 < variance)%Qc then math_sqrt variance else 0%Qc in
                     HourlyBaseline.mk hour (round avg (precision config))
                       (round std_dev (precision config)) count
                 | None => HourlyBaseline.mk hour 0%Qc 0%Qc 0
                 end) <$> hours_of_day)))
      end
  end).

End WithFloat.
End BaselineService.

(** ** Readings service ([app/services/readings_service.py]) *)

Module ReadingsService.
Import Registry.

(** [strftime(format, ts)] for the two formats in use: the day for
    ["%Y-%m-%d"], the hour otherwise. *)
Definition bucket_of (strftime_format : string) (ts : datetime) : Z :=
  if decide (strftime_format = "%Y-%m-%d") then day_bucket ts else hour_bucket ts.

(** [datetime.strptime] of a bucket: the instant the bucket begins. *)
Definition bucket_start (bucket_delta : timedelta) (bucket : Z) : datetime :=
  if decide (bucket_delta = timedelta_hours 1) then bucket * timedelta_hours 1
  else bucket * timedelta_days 1.

(** [ORDER BY timestamp] *)
Definition by_timestamp {model} : relation (row model) :=
  λ r1 r2, timestamp r1 ≤ timestamp r2.

Global Instance by_timestamp_dec {model} : RelDecision (@by_timestamp model).
Proof. intros r1 r2. unfold by_timestamp. apply _. Defined.

Section WithFloat.
Context `{!PythonFloat}.

Definition _get_raw_readings (db : Database) (sensor : Sensor.t)
    (config : SensorTypeConfig) (start end_ : datetime) : list ReadingPoint.t :=
  let rows :=
    merge_sort by_timestamp
      (select_window db (model config) (Sensor.id sensor) start end_) in
  (λ row, ReadingPoint.mk (timestamp row) (cell (value_column config) row)
            ((λ column, cell column row) <$> secondary_column config)) <$> rows.

Definition _get_aggregated_readings (db : Database) (sensor : Sensor.t)
    (config : SensorTypeConfig) (start end_ : datetime)
    (strftime_format : string) (bucket_delta : timedelta) : list ReadingPoint.t :=
  let rows := select_window db (model config) (Sensor.id sensor) start end_ in
  let buckets := group_by (λ r, bucket_of strftime_format (timestamp r)) rows in
  omap (λ bucket : Z * list (row (model config)),
          let values := cell (value_column config) <$> bucket.2 in
          let avg_value :=
            if supports_aggregation config then sql_avg values
            else match values with [] => None | _ => Some (sql_sum values) end in
          (λ v, ReadingPoint.mk (bucket_start bucket_delta bucket.1) (round v 2) None)
            <$> avg_value)
       buckets.

Definition get_sensor_readings (db : Database) (sensor_id : string)
    (start end_ : datetime) (interval : string)
  : Result (option ReadingsResponse.t) :=
  result_bind (one_or_none (select_sensor db sensor_id)) (λ sensor,
  match sensor with
  | None => Ok None
  | Some sensor =>
      match SENSOR_TYPE_REGISTRY !! Sensor.sensor_type sensor with
      | None => Ok None
      | Some config =>
          let readings :=
            if decide (interval = "raw") then
              _get_raw_readings db sensor config start end_
            else if decide (interval = "1h") then
              _get_aggregated_readings db sensor config start end_
                "%Y-%m-%d %H:00:00" (timedelta_hours 1)
            else if decide (interval = "1d") then
              _get_aggregated_readings db sensor config start end_
                "%Y-%m-%d" (timedelta_days 1)
            else _get_raw_readings db sensor config start end_ in
          Ok (Some (ReadingsResponse.mk sensor_id (Sensor.sensor_type sensor)
                      interval readings))
      end
  end).

End WithFloat.
End ReadingsService.

(** ** Dashboard schemas ([app/schemas/sensor.py]) *)

Module SensorThresholds.
Record t := mk {
  warning : option Qc;
  critical : option Qc
}.
End SensorThresholds.

Module SensorStats.
Record t := mk {
  min : Qc;
  max : Qc;
  avg : Qc;
  unit : string
}.
End SensorStats.

Module SensorReading.
Record t := mk {
  value : string;
  unit : option string;
  status : string;
  status_text : string;
  raw_values : option (list (string * bool))
}.
End SensorReading.

Module SensorConfig.
Record t := mk {
  id : string;
  sensor_type : string;
  zone : string;
  label : string;
  reading : SensorReading.t;
  trend : list Qc;
  stats : SensorStats.t;
  thresholds : option SensorThresholds.t
}.
End SensorConfig.

(** ** Sensor service ([app/services/sensor_service.py]) *)

Module SensorService.
Import Registry.

Definition TREND_HOURS : Z := 24.

(** *** The session

    The statements the summary builder sends, and the monad that runs them:
    [execute] appends the statement to the log of the session and hands
    back its rows. *)

Inductive Statement :=
| SelectSensorsWithZones
| SelectSensorWithZone (sensor_id : string)
| SelectZoneSensors (zone_id : string) (sensor_type : option string)
| SelectLatest (model : Model) (sensor_ids : list string)
| SelectLatestWithSecondary (model : Model) (sensor_ids : list string)
| SelectHourlyAvg (model : Model) (sensor_ids : list string) (start_time : datetime)
| SelectHourlySum (model : Model) (sensor_ids : list string) (start_time : datetime)
| SelectStats (model : Model) (sensor_ids : list string) (start_time : datetime).

Definition Session (A : Type) : Type := list Statement → Result A * list Statement.

Definition session_ret {A} (a : A) : Session A := λ log, (Ok a, log).

Definition session_bind {A B} (m : Session A) (k : A → Session B) : Session B :=
  λ log,
    match m log with
    | (Ok a, log') => k a log'
    | (Raise e, log') => (Raise e, log')
    end.

Definition execute {A} (statement : Statement) (rows : A) : Session A :=
  λ log, (Ok rows, log ++ [statement]).

Definition lift {A} (r : Result A) : Session A := λ log, (r, log).

Global Instance session_mret : MRet Session := @session_ret.
Global Instance session_mbind : MBind Session := λ A B k m, session_bind m k.

(** [for x in items: state = body(state, x)] *)
Fixpoint for_each {A S} (body : S → A → Session S) (items : list A) (state : S)
  : Session S :=
  match items with
  | [] => session_ret state
  | x :: rest => state' ← body state x; for_each body rest state'
  end.

(** The same loop without statements. *)
Fixpoint result_for_each {A S} (body : S → A → Result S) (items : list A) (state : S)
  : Result S :=
  match items with
  | [] => Ok state
  | x :: rest => result_bind (body state x) (result_for_each body rest)
  end.

(** [d[key]] *)
Definition getitem {V} (d : gmap string V) (key : string) : Result V :=
  match d !! key with
  | Some v => Ok v
  | None => Raise (KeyError key)
  end.

(** [min(values)] *)
Definition minimum (values : list Z) : Result Z :=
  match values with
  | [] => Raise (ValueError "min() arg is an empty sequence")
  | v :: rest => Ok (foldl Z.min v rest)
  end.

(** *** Grouping sensors by type

    [sensors_by_type.setdefault(sensor.sensor_type, []).append(sensor)]; the
    dict keeps its keys in the order of their first insertion. *)

Fixpoint setdefault_append (groups : list (string * list Sensor.t)) (sensor : Sensor.t)
  : list (string * list Sensor.t) :=
  match groups with
  | [] => [(Sensor.sensor_type sensor, [sensor])]
  | (sensor_type, members) :: rest =>
      if decide (sensor_type = Sensor.sensor_type sensor) then
        (sensor_type, members ++ [sensor]) :: rest
      else (sensor_type, members) :: setdefault_append rest sensor
  end.

Definition sensors_by_type (sensors : list Sensor.t) : list (string * list Sensor.t) :=
  foldl setdefault_append [] sensors.

(** *** The statements' rows *)

(** [select(Sensor, Zone).join(Zone, Sensor.zone_id == Zone.id)], with a
    [where] clause on the sensor. *)
Definition select_sensors_with_zones (db : Database) (keep : Sensor.t → bool)
  : list (Sensor.t * Zone.t) :=
  s ← filter (λ s, keep s = true) (sensors db);
  z ← filter (λ z, Zone.id z = Sensor.zone_id s) (zones db);
  [(s, z)].

(** The row numbered 1 in its partition: a row of the latest timestamp. *)
Definition newest {model} (rows : list (row model)) : option (row model) :=
  foldl (λ best r,
           match best with
           | Some b => if decide (timestamp b < timestamp r) then Some r else Some b
           | None => Some r
           end) None rows.

(** The latest reading of each of the given sensors that has readings. *)
Definition select_latest (db : Database) (model : Model) (sensor_ids : list string)
  : list (row model) :=
  let rows := filter (λ r, sensor_id r ∈ sensor_ids) (table db model) in
  omap (λ sid, newest (filter (λ r, sensor_id r = sid) rows))
       (remove_dups (sensor_id <$> rows)).

(** The same joined back to the table on sensor id and timestamp. *)
Definition select_latest_joined (db : Database) (model : Model)
    (sensor_ids : list string) : list (row model * row model) :=
  l ← select_latest db model sensor_ids;
  m ← filter (λ m, sensor_id m = sensor_id l ∧ timestamp m = timestamp l)
             (table db model);
  [(l, m)].

(** Readings from [start_time] on, grouped by sensor and hour, with an
    aggregate of the value column. *)
Definition select_hourly (db : Database) (model : Model) (value_column : Column model)
    (aggregate : list Qc → option Qc) (sensor_ids : list string)
    (start_time : datetime) : list (string * Z * option Qc) :=
  let rows :=
    filter (λ r, sensor_id r ∈ sensor_ids ∧ start_time ≤ timestamp r)
           (table db model) in
  sid ← remove_dups (sensor_id <$> rows);
  bucket ← group_by (λ r, hour_bucket (timestamp r))
                    (filter (λ r, sensor_id r = sid) rows);
  [(sid, bucket.1, aggregate (cell value_column <$> bucket.2))].

(** Readings from [start_time] on, grouped by sensor: min, max, avg. *)
Definition select_stats (db : Database) (model : Model) (value_column : Column model)
    (sensor_ids : list string) (start_time : datetime)
  : list (string * option Qc * option Qc * option Qc) :=
  let rows :=
    filter (λ r, sensor_id r ∈ sensor_ids ∧ start_time ≤ timestamp r)
           (table db model) in
  (λ sid,
     let values := cell value_column <$> filter (λ r, sensor_id r = sid) rows in
     (sid, sql_min values, sql_max values, sql_avg values))
  <$> remove_dups (sensor_id <$> rows).

Section WithFloat.
Context `{!PythonFloat}.

Definition compute_status (value : Qc) (warning_threshold critical_threshold : option Qc)
  : string * string :=
  match warning_threshold with
  | None => ("normal", "Normal")
  | Some warning_threshold =>
      let is_warning := bool_decide (warning_threshold < value)%Qc in
      let is_critical :=
        match critical_threshold with
        | Some critical_threshold => bool_decide (critical_threshold < value)%Qc
        | None => false
        end in
      if is_critical then ("critical", "Critical")
      else if is_warning then
        if decide (warning_threshold < 0)%Qc then
          ("warning", "Warning — above " +:+ float_str warning_threshold +:+ "°C target")
        else ("warning", "Warning")
      else ("normal", "Normal")
  end.

Definition format_reading_value (config : SensorTypeConfig) (value : Qc) : string :=
  match format_value config with
  | Some format => format value
  | None =>
      if decide (unit config = "°C") then float_str value +:+ "°C"
      else if decide (unit config = "ppm") then pretty (int_of_float value)
      else float_str value
  end.

Definition format_reading_unit (config : SensorTypeConfig) (secondary_value : option Qc)
  : option string :=
  match secondary_column config, secondary_value with
  | Some _, Some secondary_value =>
      Some ("/ " +:+ pretty (int_of_float secondary_value) +:+ "%")
  | _, _ => if decide (unit config = "ppm") then Some "ppm" else None
  end.

(** A latest reading: value, secondary value, timestamp. *)
Definition latest : Type := Qc * option Qc * datetime.

Definition latest_for_type (db : Database) (results : gmap string latest)
    (group : string * list Sensor.t) : Session (gmap string latest) :=
  match SENSOR_TYPE_REGISTRY !! group.1 with
  | None => session_ret results
  | Some config =>
      let sensor_ids := Sensor.id <$> group.2 in
      match secondary_column config with
      | Some secondary =>
          rows ← execute (SelectLatestWithSecondary (model config) sensor_ids)
                   (select_latest_joined db (model config) sensor_ids);
          session_ret
            (foldl (λ results (row : row (model config) * row (model config)),
                      <[sensor_id row.1 :=
                          (cell (value_column config) row.1,
                           Some (cell secondary row.2), timestamp row.1)]> results)
                   results rows)
      | None =>
          rows ← execute (SelectLatest (model config) sensor_ids)
                   (select_latest db (model config) sensor_ids);
          session_ret
            (foldl (λ results (row : row (model config)),
                      <[sensor_id row :=
                          (cell (value_column config) row, None, timestamp row)]> results)
                   results rows)
      end
  end.

Definition _get_latest_readings_batch (db : Database) (sensors : list Sensor.t)
  : Session (gmap string latest) :=
  for_each (latest_for_type db) (sensors_by_type sensors) ∅.

(** [[0.0] * TREND_HOURS] *)
Definition zero_trend : list Qc := replicate (Z.to_nat TREND_HOURS) 0%Qc.

Definition trend_of (config : SensorTypeConfig) (hourly : gmap Z Qc)
    (end_time : datetime) : list Qc :=
  let sensor_start := end_time - timedelta_hours TREND_HOURS in
  (λ hour_offset,
     let hour_dt := sensor_start + timedelta_hours hour_offset in
     let value := default 0%Qc (hourly !! hour_bucket hour_dt) in
     if supports_aggregation config then round value 1
     else float_of_int (int_of_float value))
  <$> (Z.of_nat <$> seq 0 (Z.to_nat TREND_HOURS)).

Definition trends_for_type (db : Database) (now : datetime)
    (end_times : gmap string datetime) (results : gmap string (list Qc))
    (group : string * list Sensor.t) : Session (gmap string (list Qc)) :=
  match SENSOR_TYPE_REGISTRY !! group.1 with
  | None => session_ret results
  | Some config =>
      let sensor_ids := Sensor.id <$> group.2 in
      min_end ← lift (minimum ((λ sid, default now (end_times !! sid)) <$> sensor_ids));
      let start_time := min_end - timedelta_hours TREND_HOURS in
      rows ←
        (if supports_aggregation config then
           execute (SelectHourlyAvg (model config) sensor_ids start_time)
             (select_hourly db (model config) (value_column config) sql_avg
                sensor_ids start_time)
         else
           execute (SelectHourlySum (model config) sensor_ids start_time)
             (select_hourly db (model config) (value_column config)
                (λ values, Some (sql_sum values)) sensor_ids start_time));
      hourly_data ←
        lift (result_for_each
                (λ (hourly_data : gmap string (gmap Z Qc))
                   (row : string * Z * option Qc),
                   match row.2 with
                   | Some avg_value =>
                       result_bind (getitem hourly_data row.1.1) (λ hourly,
                         Ok (<[row.1.1 := <[row.1.2 := avg_value]> hourly]> hourly_data))
                   | None => Ok hourly_data
                   end)
                rows
                (list_to_map ((λ sid, (sid, ∅)) <$> sensor_ids)));
      lift (result_for_each
              (λ (results : gmap string (list Qc)) (sensor_id : string),
                 result_bind (getitem hourly_data sensor_id) (λ hourly,
                   Ok (<[sensor_id :=
                           trend_of config hourly (default now (end_times !! sensor_id))]>
                         results)))
              sensor_ids results)
  end.

Definition _get_24h_trends_batch (db : Database) (now : datetime)
    (sensors : list Sensor.t) (end_times : gmap string datetime)
  : Session (gmap string (list Qc)) :=
  for_each (trends_for_type db now end_times) (sensors_by_type sensors)
    (list_to_map ((λ s, (Sensor.id s, zero_trend)) <$> sensors)).

Definition stats_for_type (db : Database) (now : datetime)
    (end_times : gmap string datetime) (results : gmap string SensorStats.t)
    (group : string * list Sensor.t) : Session (gmap string SensorStats.t) :=
  match SENSOR_TYPE_REGISTRY !! group.1 with
  | None => session_ret results
  | Some config =>
      let sensor_ids := Sensor.id <$> group.2 in
      if negb (supports_aggregation config) then
        session_ret
          (foldl (λ results sid,
                    <[sid := SensorStats.mk 0%Qc 1%Qc (Q2Qc (1 # 2)) "events"]> results)
                 results sensor_ids)
      else
        min_end ← lift (minimum ((λ sid, default now (end_times !! sid)) <$> sensor_ids));
        let start_time := min_end - timedelta_hours TREND_HOURS in
        rows ← execute (SelectStats (model config) sensor_ids start_time)
                 (select_stats db (model config) (value_column config)
                    sensor_ids start_time);
        let precision := if decide (unit config = "°C") then 1 else 0 in
        let results :=
          foldl (λ results (row : string * option Qc * option Qc * option Qc),
                   <[row.1.1.1 :=
                       SensorStats.mk (round (or_zero row.1.1.2) precision)
                         (round (or_zero row.1.2) precision)
                         (round (or_zero row.2) precision) (unit config)]> results)
                results rows in
        session_ret
          (foldl (λ results sid,
                    match results !! sid with
                    | Some _ => results
                    | None => <[sid := SensorStats.mk 0%Qc 0%Qc 0%Qc (unit config)]> results
                    end)
                 results sensor_ids)
  end.

Definition _get_24h_stats_batch (db : Database) (now : datetime)
    (sensors : list Sensor.t) (end_times : gmap string datetime)
  : Session (gmap string SensorStats.t) :=
  for_each (stats_for_type db now end_times) (sensors_by_type sensors) ∅.

Definition _build_sensor_config (sensor : Sensor.t) (zone : Zone.t) (reading : latest)
    (trend : list Qc) (stats : SensorStats.t) : Result SensorConfig.t :=
  match SENSOR_TYPE_REGISTRY !! Sensor.sensor_type sensor with
  | None => Raise (ValueError ("Unknown sensor type: " +:+ Sensor.sensor_type sensor))
  | Some config =>
      let '(value, secondary_value, _) := reading in
      let '(status, status_text) :=
        compute_status value (Sensor.warning_threshold sensor)
          (Sensor.critical_threshold sensor) in
      let raw_values :=
        if decide (Sensor.sensor_type sensor = "door") then
          Some [("isOpen", bool_decide (value ≠ 0%Qc))]
        else None in
      let thresholds :=
        match Sensor.warning_threshold sensor, Sensor.critical_threshold sensor with
        | None, None => None
        | warning, critical => Some (SensorThresholds.mk warning critical)
        end in
      Ok (SensorConfig.mk (Sensor.id sensor) (Sensor.sensor_type sensor)
            (Zone.name zone) (Sensor.label sensor)
            (SensorReading.mk (format_reading_value config value)
               (format_reading_unit config secondary_value)
               status status_text raw_values)
            trend stats thresholds)
  end.

(** The part the three entry points share: from the rows of sensors and
    zones to the records. *)
Definition assemble (db : Database) (now : datetime) (rows : list (Sensor.t * Zone.t))
  : Session (list SensorConfig.t) :=
  let sensors := fst <$> rows in
  let zones_by_sensor : gmap string Zone.t :=
    foldl (λ zones (row : Sensor.t * Zone.t), <[Sensor.id row.1 := row.2]> zones) ∅ rows in
  latest_readings ← _get_latest_readings_batch db sensors;
  let sensors_with_readings :=
    filter (λ s, is_Some (latest_readings !! Sensor.id s)) sensors in
  match sensors_with_readings with
  | [] => session_ret []
  | _ =>
      let end_times : gmap string datetime := (λ data : latest, data.2) <$> latest_readings in
      trends ← _get_24h_trends_batch db now sensors_with_readings end_times;
      stats ← _get_24h_stats_batch db now sensors_with_readings end_times;
      lift (result_for_each
              (λ sensor_configs sensor,
                 result_bind (getitem latest_readings (Sensor.id sensor)) (λ reading,
                 result_bind (getitem zones_by_sensor (Sensor.id sensor)) (λ zone,
                 result_bind
                   (_build_sensor_config sensor zone reading
                      (default zero_trend (trends !! Sensor.id sensor))
                      (default (SensorStats.mk 0%Qc 0%Qc 0%Qc "")
                               (stats !! Sensor.id sensor)))
                   (λ sensor_config, Ok (sensor_configs ++ [sensor_config])))))
              sensors_with_readings [])
  end.

Definition get_all_sensors (db : Database) (now : datetime)
  : Session (list SensorConfig.t) :=
  rows ← execute SelectSensorsWithZones (select_sensors_with_zones db (λ _, true));
  match rows with
  | [] => session_ret []
  | _ => assemble db now rows
  end.

Definition get_sensors_by_zone (db : Database) (now : datetime) (zone_id : string)
    (sensor_type : option string) : Session (list SensorConfig.t) :=
  rows ← execute (SelectZoneSensors zone_id sensor_type)
           (select_sensors_with_zones db
              (λ s, bool_decide (Sensor.zone_id s = zone_id)
                    && (if truthy sensor_type
                        then bool_decide (Some (Sensor.sensor_type s) = sensor_type)
                        else true)));
  match rows with
  | [] => session_ret []
  | _ => assemble db now rows
  end.

Definition get_sensor_by_id (db : Database) (now : datetime) (sensor_id : string)
  : Session (option SensorConfig.t) :=
  rows ← execute (SelectSensorWithZone sensor_id)
           (select_sensors_with_zones db (λ s, bool_decide (Sensor.id s = sensor_id)));
  row ← lift (one_or_none rows);
  match row with
  | None => session_ret None
  | Some (sensor, zone) =>
      let sensors := [sensor] in
      latest_readings ← _get_latest_readings_batch db sensors;
      match latest_readings !! Sensor.id sensor with
      | None => session_ret None
      | Some reading =>
          let end_times : gmap string datetime := {[ Sensor.id sensor := reading.2 ]} in
          trends ← _get_24h_trends_batch db now sensors end_times;
          stats ← _get_24h_stats_batch db now sensors end_times;
          sensor_config ←
            lift (_build_sensor_config sensor zone reading
                    (default zero_trend (trends !! Sensor.id sensor))
                    (default (SensorStats.mk 0%Qc 0%Qc 0%Qc "")
                             (stats !! Sensor.id sensor)));
          session_ret (Some sensor_config)
      end
  end.

End WithFloat.
End SensorService.

(** ** Event responses ([app/schemas/events.py]) *)

Module DoorEventsResponse.
Record t := mk {
  events : list DoorEvent.t;
  total_count : Z
}.
End DoorEventsResponse.

Module PresenceEventsResponse.
Record t := mk {
  events : list PresenceEvent.t;
  total_count : Z;
  safety_concerns_count : Z
}.
End PresenceEventsResponse.

(** ** The event service, called with the datetimes of a request

    [get_door_events] and [get_presence_events] as above take naive
    datetimes.  A handler passes on the datetimes of the request.  The
    statement is sent with the wall-clock fields of [start] and [end] (the
    [DateTime] type of the SQLite dialect writes a datetime from its fields
    and drops the offset), and the loop is the same but for
    [end - current_event_start], computed where an event still open is
    flushed, at a change of sensor and after the loop: the timestamps of the
    rows are naive, so the subtraction is refused when [end] has an
    offset. *)

Module RequestEvents.
Import EventService.

(** [if current_event_start is not None and current_sensor_id is not None]:
    [end - current_event_start] *)
Definition flush (end_ : PyDatetime.t) (current_event_start : option datetime)
    (current_sensor_id : option string) : Result () :=
  match current_event_start, current_sensor_id with
  | Some started, Some _ =>
      result_bind (PyDatetime.minus end_ (PyDatetime.naive started)) (λ _, Ok ())
  | _, _ => Ok ()
  end.

Definition door_body (end_ : PyDatetime.t) (st : Door.locals) (reading : DoorReading.t)
  : Result Door.locals :=
  result_bind
    (if decide (Some (DoorReading.sensor_id reading) ≠ Door.current_sensor_id st) then
       flush end_ (Door.current_event_start st) (Door.current_sensor_id st)
     else Ok ())
    (λ _, Ok (Door.body (PyDatetime.wall end_) st reading)).

Definition get_door_events (db : Database) (start end_ : PyDatetime.t)
    (sensor_id zone_id : option string) : Result (list DoorEvent.t) :=
  let readings :=
    Door.query db (PyDatetime.wall start) (PyDatetime.wall end_) sensor_id zone_id in
  result_bind (SensorService.result_for_each (door_body end_) readings Door.initial)
    (λ st,
  result_bind (flush end_ (Door.current_event_start st) (Door.current_sensor_id st))
    (λ _, Ok (Door.events st ++ Door.still_open (PyDatetime.wall end_) st))).

Definition presence_body (end_ : PyDatetime.t) (min_duration_seconds : Z)
    (st : Presence.locals) (rw : Presence.row) : Result Presence.locals :=
  result_bind
    (if decide (Some (MotionReading.sensor_id rw.1) ≠ Presence.current_sensor_id st) then
       flush end_ (Presence.current_event_start st) (Presence.current_sensor_id st)
     else Ok ())
    (λ _, Ok (Presence.body (PyDatetime.wall end_) min_duration_seconds st rw)).

Definition get_presence_events (db : Database) (start end_ : PyDatetime.t)
    (sensor_id zone_id : option string) (min_duration_seconds : Z)
  : Result (list PresenceEvent.t) :=
  let rows :=
    Presence.query db (PyDatetime.wall start) (PyDatetime.wall end_) sensor_id zone_id in
  result_bind
    (SensorService.result_for_each (presence_body end_ min_duration_seconds) rows
       Presence.initial)
    (λ st,
  result_bind (flush end_ (Presence.current_event_start st) (Presence.current_sensor_id st))
    (λ _, Ok (Presence.events st
              ++ Presence.still_active (PyDatetime.wall end_) min_duration_seconds st))).

End RequestEvents.

(** ** Routes ([app/routes/events.py], [app/routes/sensors.py])

    A handler answers with a body, raises an [HTTPException], or lets an
    exception through.  [now] is the clock the handler reads, a naive
    datetime; [start] and [end] are the datetimes of the request when it
    names them.  The bounds declared on a query parameter ([ge], [le]) are
    checked by the framework before the handler runs. *)

Module Routes.
Import Registry.

Inductive Response (A : Type) :=
| Respond (body : A)
| HTTPException (status_code : Z) (detail : string)
| Unhandled (e : Exception).
Arguments Respond {A} body.
Arguments HTTPException {A} status_code detail.
Arguments Unhandled {A} e.

Definition MAX_EVENTS_DAYS : Z := 7.
Definition DEFAULT_LIMIT : Z := 100.
Definition MAX_LIMIT : Z := 1000.
Definition MAX_READINGS_DAYS : Z := 30.
Definition MAX_BASELINE_HOURS : Z := 168.

(** [items[:stop]]: a negative [stop] counts from the end. *)
Definition slice_to {A} (items : list A) (stop : Z) : list A :=
  if decide (0 ≤ stop) then take (Z.to_nat stop) items
  else take (Z.to_nat (Z.of_nat (length items) + stop)) items.

(** The opening of the three handlers that take a time range: the defaults
    (up to now, the 24 hours before the end), then the two checks. *)
Definition time_range (now : datetime) (start end_ : option PyDatetime.t) (max_days : Z)
  : Response (PyDatetime.t * PyDatetime.t) :=
  let end_ := default (PyDatetime.naive now) end_ in
  let start :=
    match start with
    | Some start => Ok start
    | None => PyDatetime.minus_timedelta end_ (timedelta_hours 24)
    end in
  match start with
  | Raise e => Unhandled e
  | Ok start =>
      match PyDatetime.ge start end_ with
      | Raise e => Unhandled e
      | Ok true => HTTPException 400 "start must be before end"
      | Ok false =>
          match PyDatetime.minus end_ start with
          | Raise e => Unhandled e
          | Ok range =>
              if decide (timedelta_days max_days < range) then
                HTTPException 400
                  ("Time range cannot exceed " +:+ pretty max_days +:+ " days")
              else Respond (start, end_)
          end
      end
  end.

Definition list_door_events (db : Database) (now : datetime)
    (sensor_id zone_id : option string) (start end_ : option PyDatetime.t) (limit : Z)
  : Response DoorEventsResponse.t :=
  match time_range now start end_ MAX_EVENTS_DAYS with
  | Respond (start, end_) =>
      match RequestEvents.get_door_events db start end_ sensor_id zone_id with
      | Ok events =>
          let limited_events := slice_to events limit in
          Respond (DoorEventsResponse.mk limited_events (Z.of_nat (length events)))
      | Raise e => Unhandled e
      end
  | HTTPException status_code detail => HTTPException status_code detail
  | Unhandled e => Unhandled e
  end.

Definition list_presence_events (db : Database) (now : datetime)
    (sensor_id zone_id : option string) (start end_ : option PyDatetime.t)
    (min_duration limit : Z) : Response PresenceEventsResponse.t :=
  match time_range now start end_ MAX_EVENTS_DAYS with
  | Respond (start, end_) =>
      match RequestEvents.get_presence_events db start end_ sensor_id zone_id
              min_duration with
      | Ok events =>
          let safety_concerns :=
            Z.of_nat
              (length (filter (λ e, PresenceEvent.is_safety_concern e = true) events)) in
          let limited_events := slice_to events limit in
          Respond (PresenceEventsResponse.mk limited_events (Z.of_nat (length events))
                     safety_concerns)
      | Raise e => Unhandled e
      end
  | HTTPException status_code detail => HTTPException status_code detail
  | Unhandled e => Unhandled e
  end.

Section WithFloat.
Context `{!PythonFloat} {Real : SqliteReal}.

Definition list_sensors (db : Database) (now : datetime) (log : list SensorService.Statement)
  : Response (list SensorConfig.t) :=
  match (SensorService.get_all_sensors db now log).1 with
  | Ok sensor_configs => Respond sensor_configs
  | Raise e => Unhandled e
  end.

Definition get_sensor (db : Database) (now : datetime) (sensor_id : string)
    (log : list SensorService.Statement) : Response SensorConfig.t :=
  match (SensorService.get_sensor_by_id db now sensor_id log).1 with
  | Ok (Some sensor) => Respond sensor
  | Ok None => HTTPException 404 "Sensor not found"
  | Raise e => Unhandled e
  end.

(** The statements of [get_sensor_readings] are sent with the wall-clock
    fields of [start] and [end]; it computes nothing else with them. *)
Definition get_readings (db : Database) (now : datetime) (sensor_id : string)
    (start end_ : option PyDatetime.t) (interval : string)
  : Response ReadingsResponse.t :=
  match time_range now start end_ MAX_READINGS_DAYS with
  | Respond (start, end_) =>
      match ReadingsService.get_sensor_readings db sensor_id (PyDatetime.wall start)
              (PyDatetime.wall end_) interval with
      | Ok (Some result) => Respond result
      | Ok None => HTTPException 404 "Sensor not found"
      | Raise e => Unhandled e
      end
  | HTTPException status_code detail => HTTPException status_code detail
  | Unhandled e => Unhandled e
  end.

Definition get_baseline (db : Database) (now : datetime) (sensor_id : string) (hours : Z)
  : Response SensorBaseline.t :=
  match BaselineService.get_sensor_baseline db now sensor_id hours with
  | Ok (Some result) => Respond result
  | Ok None => HTTPException 404 "Sensor not found or no data"
  | Raise e => Unhandled e
  end.

End WithFloat.
End Routes.

(** ** Zone definitions of the agent ([app/agent/config.py]) *)

Module AgentConfig.

Record ZoneConfig := {
  name : string;
  description : string;
  temp_min : Z;
  temp_max : Z;
  sensor_id : string
}.

(** The dict [ZONES], in the order its keys are written. *)
Definition ZONES : list (string * ZoneConfig) :=
  [ ("Z1", {| name := "Loading Bay"; description := "Ambient storage";
              temp_min := 15; temp_max := 25; sensor_id := "loading-temp" |});
    ("Z2", {| name := "Cold Room A"; description := "Fresh storage";
              temp_min := 2; temp_max := 4; sensor_id := "cold-a-temp" |});
    ("Z3", {| name := "Cold Room B"; description := "Freezer";
              temp_min := -20; temp_max := -16; sensor_id := "cold-b-temp" |});
    ("Z4", {| name := "Dry Storage"; description := "Ambient storage";
              temp_min := 15; temp_max := 20; sensor_id := "dry-temp" |}) ].

(** [ZONES.get(zone_id)]; every zone has all five fields, so a default
    given for a field applies exactly when the zone is not known. *)
Definition zones_get (zone_id : string) : option ZoneConfig :=
  (list_to_map ZONES : gmap string ZoneConfig) !! zone_id.

End AgentConfig.

(** ** Helpers of the agent tools ([app/agent/tools.py]) *)

Module AgentTools.

Definition _format_duration (seconds : Z) : string :=
  if decide (seconds < 60) then pretty seconds +:+ " seconds"
  else if decide (seconds < 3600) then
    let minutes := seconds / 60 in
    pretty minutes +:+ " minute" +:+ (if decide (minutes ≠ 1) then "s" else "")
  else
    let hours := seconds / 3600 in
    let minutes := (seconds mod 3600) / 60 in
    if decide (minutes ≠ 0) then
      pretty hours +:+ " hour" +:+ (if decide (hours ≠ 1) then "s" else "")
        +:+ " " +:+ pretty minutes +:+ " min"
    else pretty hours +:+ " hour" +:+ (if decide (hours ≠ 1) then "s" else "").

End AgentTools.

(** ** Data for the visualizations ([app/agent/nodes.py]) *)

Module AgentNodes.
Import AgentConfig.

(** The entries of the list [_fetch_zone_health_data] returns. *)
Module ZoneHealth.
Record t := mk {
  id : string;
  name : string;
  currentTemp : option Qc;
  targetMin : Z;
  targetMax : Z;
  status : string
}.
End ZoneHealth.

(** The entries of the list [_fetch_comparison_data] returns. *)
Module ZoneComparison.
Record t := mk {
  id : string;
  name : string;
  temp : option Qc
}.
End ZoneComparison.

Section WithFloat.
Context `{!PythonFloat}.

(** [result.readings[-1].value] when there is a result with readings. *)
Definition last_value (result : option ReadingsResponse.t) : option Qc :=
  match result with
  | Some result => ReadingPoint.value <$> last (ReadingsResponse.readings result)
  | None => None
  end.

Definition _fetch_zone_health_data (db : Database) (simulated_now : datetime)
  : Result (list ZoneHealth.t) :=
  SensorService.result_for_each
    (λ zones_data (item : string * ZoneConfig),
       let '(zone_id, zone_config) := item in
       let sensor_id := sensor_id zone_config in
       let target_min := temp_min zone_config in
       let target_max := temp_max zone_config in
       let zone_name := name zone_config in
       result_bind
         (ReadingsService.get_sensor_readings db sensor_id
            (simulated_now - timedelta_hours 1) simulated_now "raw")
         (λ result,
            let current_temp := last_value result in
            let status :=
              match current_temp with
              | Some current_temp =>
                  if decide (current_temp < float_of_int target_min)%Qc then "cold"
                  else if decide (float_of_int target_max < current_temp)%Qc then "warm"
                  else "normal"
              | None => "normal"
              end in
            Ok (zones_data ++
                  [ZoneHealth.mk zone_id zone_name current_temp target_min target_max
                     status])))
    ZONES [].

Definition _fetch_comparison_data (db : Database) (zones : list string)
    (simulated_now : datetime) : Result (list ZoneComparison.t) :=
  SensorService.result_for_each
    (λ comparison_data zone_id,
       let zone_config := zones_get zone_id in
       let sensor_id := default "cold-a-temp" (sensor_id <$> zone_config) in
       let zone_name := default zone_id (name <$> zone_config) in
       result_bind
         (ReadingsService.get_sensor_readings db sensor_id
            (simulated_now - timedelta_hours 1) simulated_now "raw")
         (λ result,
            let temp := last_value result in
            Ok (comparison_data ++ [ZoneComparison.mk zone_id zone_name temp])))
    zones [].

End WithFloat.
End AgentNodes.

(** ** Sample data *)

Module Samples.

Definition seconds (n : Z) : datetime := n * MICROSECONDS_PER_SECOND.

(** Two doors: the dock door is seen closed, open, closed; the cold-room
    door is open at its first reading and again at its last. *)
Definition door_db : Database :=
  {| sensors := [ Sensor.mk "dock-door" "loading" "door" "Dock door" None None;
                  Sensor.mk "cold-door" "cold-a" "door" "Cold room door" None None ];
     zones := [ Zone.mk "loading" "Loading Bay" "loading" None None;
                Zone.mk "cold-a" "Cold Room A" "cold" None None ];
     environmental_readings := [];
     air_quality_readings := [];
     door_readings :=
       [ DoorReading.mk "dock-door" (seconds 10) false;
         DoorReading.mk "cold-door" (seconds 0) true;
         DoorReading.mk "dock-door" (seconds 20) true;
         DoorReading.mk "cold-door" (seconds 120) false;
         DoorReading.mk "dock-door" (seconds 95) false;
         DoorReading.mk "cold-door" (seconds 300) true ];
     motion_readings := [] |}.

(** One motion sensor: a presence of exactly 600 seconds, then one of 599. *)
Definition motion_db : Database :=
  {| sensors := [ Sensor.mk "cold-a-motion" "cold-a" "motion" "Cold room motion" None None ];
     zones := [ Zone.mk "cold-a" "Cold Room A" "cold" None None ];
     environmental_readings := [];
     air_quality_readings := [];
     door_readings := [];
     motion_readings :=
       [ MotionReading.mk "cold-a-motion" (seconds 0) false;
         MotionReading.mk "cold-a-motion" (seconds 900) true;
         MotionReading.mk "cold-a-motion" (seconds 1500) false;
         MotionReading.mk "cold-a-motion" (seconds 2000) true;
         MotionReading.mk "cold-a-motion" (seconds 2599) false ] |}.

(** One motion sensor with a single reading, motion detected, 60 seconds
    before the end of the window [0 s, 100 s]. *)
Definition brief_motion_db : Database :=
  {| sensors := [ Sensor.mk "cold-a-motion" "cold-a" "motion" "Cold room motion" None None ];
     zones := [ Zone.mk "cold-a" "Cold Room A" "cold" None None ];
     environmental_readings := [];
     air_quality_readings := [];
     door_readings := [];
     motion_readings := [ MotionReading.mk "cold-a-motion" (seconds 40) true ] |}.

(** A float library to run the services with: rounding half to even on
    the exact value, square roots to six decimals, and fractions as text. *)
Definition decimal (numerator : Z) (denominator : positive) : Qc :=
  Q2Qc (numerator # denominator).

Definition round_half_even (x : Qc) (ndigits : Z) : Qc :=
  let scale := float_of_int (10 ^ ndigits) in
  let scaled := (x * scale)%Qc in
  let lower := Qfloor scaled in
  let rest := (scaled - float_of_int lower)%Qc in
  let nearest :=
    if decide (rest < decimal 1 2)%Qc then lower
    else if decide (decimal 1 2 < rest)%Qc then lower + 1
    else if Z.even lower then lower else lower + 1 in
  (float_of_int nearest / scale)%Qc.

Definition sqrt_to_micro (x : Qc) : Qc :=
  decimal (Z.sqrt (Qfloor (x * float_of_int (10 ^ 12))%Qc)) 1000000.

Definition fraction_str (x : Qc) : string :=
  pretty (Qnum x) +:+ "/" +:+ pretty (Zpos (Qden x)).

Definition sample_float : PythonFloat :=
  {| round := round_half_even; math_sqrt := sqrt_to_micro; float_str := fraction_str |}.

(** Doubles as the rationals they are: IEEE 754 binary64, every operation
    rounded to the nearest double, ties to the even one.  Magnitudes beyond
    the largest double are not met in the samples. *)

(** [2^e] *)
Definition pow2 (e : Z) : Qc :=
  if decide (0 ≤ e) then float_of_int (2 ^ e) else (1 / float_of_int (2 ^ (- e)))%Qc.

(** The [e] with [2^e <= |x| < 2^(e+1)], for [x] other than zero. *)
Definition exponent (x : Qc) : Z :=
  let e := Z.log2 (Z.abs (Qnum x)) - Z.log2 (Zpos (Qden x)) in
  if decide (pow2 e ≤ (if decide (0 ≤ x)%Qc then x else - x))%Qc then e else e - 1.

(** The double nearest to [x]: a multiple of the unit in the last of its 53
    binary digits, which is [2^-1074] below the normal range. *)
Definition to_double (x : Qc) : Qc :=
  if decide (x = 0%Qc) then 0%Qc else
  let ulp := pow2 (Z.max (exponent x) (-1022) - 52) in
  (round_half_even (x / ulp) 0 * ulp)%Qc.

(** The double nearest to the square root. *)
Definition sqrt_double (x : Qc) : Qc :=
  if decide (x ≤ 0)%Qc then 0%Qc else
  let ulp := pow2 (exponent x / 2 - 52) in
  let q := (x / (ulp * ulp))%Qc in
  let s := Z.sqrt (Qfloor q) in
  let half_way := ((float_of_int s + decimal 1 2) * (float_of_int s + decimal 1 2))%Qc in
  (float_of_int (if decide (q < half_way)%Qc then s else s + 1) * ulp)%Qc.

(** A sum accumulated row by row, and the average made of it. *)
Definition sum_double (values : list Qc) : Qc :=
  foldl (λ sum v, to_double (sum + v)) 0%Qc values.

Definition avg_double (values : list Qc) : Qc :=
  to_double (sum_double values / float_of_int (Z.of_nat (length values))).

(** Python on doubles: [round] rounds the exact value of the double half
    to even in decimal and returns the double nearest to that. *)
Definition binary64 : PythonFloat :=
  {| round := λ x ndigits, to_double (round_half_even x ndigits);
     math_sqrt := sqrt_double;
     float_str := fraction_str |}.

(** SQLite on doubles. *)
Definition binary64_sqlite : SqliteReal :=
  {| sqlite_avg := avg_double;
     sqlite_minus := λ x y, to_double (x - y);
     sqlite_pow := λ x y, to_double (x ^ Z.to_nat y) |}.

(** A freezer with three temperature readings in the last hour before
    [seconds 7200], a CO2 sensor without readings, a door, and a sensor of
    a type the registry does not know. *)
Definition facility_db : Database :=
  {| sensors := [ Sensor.mk "cold-b-temp" "cold-b" "environmental" "Temperature"
                    (Some (decimal (-18) 1)) (Some (decimal (-10) 1));
                  Sensor.mk "dock-co2" "loading" "air_quality" "CO2" None None;
                  Sensor.mk "dock-door" "loading" "door" "Dock door" None None;
                  Sensor.mk "cold-b-thermal" "cold-b" "thermal_presence" "Thermal" None None ];
     zones := [ Zone.mk "loading" "Loading Bay" "loading" None None;
                Zone.mk "cold-b" "Cold Room B" "cold" None None ];
     environmental_readings :=
       [ EnvironmentalReading.mk "cold-b-temp" (seconds 4000) (decimal (-185) 10) (decimal 60 1);
         EnvironmentalReading.mk "cold-b-temp" (seconds 5000) (decimal (-180) 10) (decimal 61 1);
         EnvironmentalReading.mk "cold-b-temp" (seconds 7200) (decimal (-175) 10) (decimal 62 1) ];
     air_quality_readings := [];
     door_readings :=
       [ DoorReading.mk "dock-door" (seconds 6000) false;
         DoorReading.mk "dock-door" (seconds 6900) true ];
     motion_readings := [] |}.

(** A probe with two readings in the last hour before [seconds 7200]: the
    doubles nearest to 0.01 and to 0.02. *)
Definition probe_db : Database :=
  {| sensors := [ Sensor.mk "probe-temp" "lab" "environmental" "Probe" None None ];
     zones := [ Zone.mk "lab" "Laboratory" "ambient" None None ];
     environmental_readings :=
       [ EnvironmentalReading.mk "probe-temp" (seconds 5400) (to_double (decimal 1 100))
           (decimal 40 1);
         EnvironmentalReading.mk "probe-temp" (seconds 6300) (to_double (decimal 2 100))
           (decimal 40 1) ];
     air_quality_readings := [];
     door_readings := [];
     motion_readings := [] |}.

(** Three temperature sensors, all of the type "environmental", each with
    readings. *)
Definition cold_rooms_db : Database :=
  {| sensors := [ Sensor.mk "cold-a-temp" "cold-a" "environmental" "Temperature"
                    (Some (decimal 4 1)) (Some (decimal 8 1));
                  Sensor.mk "cold-b-temp" "cold-b" "environmental" "Temperature"
                    (Some (decimal (-18) 1)) (Some (decimal (-10) 1));
                  Sensor.mk "freezer-temp" "cold-b" "environmental" "Temperature"
                    (Some (decimal (-18) 1)) (Some (decimal (-10) 1)) ];
     zones := [ Zone.mk "cold-a" "Cold Room A" "cold" None None;
                Zone.mk "cold-b" "Cold Room B" "cold" None None ];
     environmental_readings :=
       [ EnvironmentalReading.mk "cold-a-temp" (seconds 3600) (decimal 3 1) (decimal 70 1);
         EnvironmentalReading.mk "cold-b-temp" (seconds 3600) (decimal (-185) 10) (decimal 60 1);
         EnvironmentalReading.mk "freezer-temp" (seconds 3600) (decimal (-20) 1) (decimal 55 1);
         EnvironmentalReading.mk "cold-a-temp" (seconds 7200) (decimal 35 10) (decimal 71 1);
         EnvironmentalReading.mk "cold-b-temp" (seconds 7200) (decimal (-18) 1) (decimal 61 1);
         EnvironmentalReading.mk "freezer-temp" (seconds 7200) (decimal (-21) 1) (decimal 56 1) ];
     air_quality_readings := [];
     door_readings := [];
     motion_readings := [] |}.

End Samples.

(** * Notions used to state the properties *)

(** ** Door events: well-formedness, order, and the invariants of the loop *)

Module DoorInvariants.
Import EventService.Door.

Abbreviation sid := DoorReading.sensor_id.
Abbreviation ts := DoorReading.timestamp.

(** The state with events [E] put in front of its own. *)
Definition prepend (E : list DoorEvent.t) (st : locals) : locals :=
  mk (E ++ events st) (current_sensor_id st) (current_event_start st) (prev_is_open st).

(** Events carry the sensor id of a reading of the run. *)
Definition known (P : string → Prop) (st : locals) : Prop :=
  Forall (λ e, P (DoorEvent.sensor_id e)) (events st)
  ∧ ∀ c, current_sensor_id st = Some c → P c.

(** Within one sensor the loop remembers the last state it saw, and has an
    event open exactly when that state was "open". *)
Definition tracking (s : string) (st : locals) : Prop :=
  current_sensor_id st = Some s
  ∧ match prev_is_open st with
    | Some true => is_Some (current_event_start st)
    | Some false => current_event_start st = None
    | None => False
    end.

(** [closed_at >= opened_at] when the event is closed, and a duration that
    is not negative. *)
Definition well_formed (e : DoorEvent.t) : Prop :=
  (∀ c, DoorEvent.closed_at e = Some c → DoorEvent.opened_at e ≤ c)
  ∧ 0 ≤ DoorEvent.duration_seconds e.

(** [e1] is over before [e2] begins, and begins before it. *)
Definition precedes (e1 e2 : DoorEvent.t) : Prop :=
  (∃ c, DoorEvent.closed_at e1 = Some c ∧ c ≤ DoorEvent.opened_at e2)
  ∧ DoorEvent.opened_at e1 < DoorEvent.opened_at e2.

(** The loop invariant, [b] being the timestamp of the last reading seen:
    every event so far is closed by [b], and before the open one began. *)
Definition settled (b : datetime) (st : locals) : Prop :=
  Forall (λ e, ∃ c, DoorEvent.closed_at e = Some c
                    ∧ DoorEvent.opened_at e < c ∧ c ≤ b
                    ∧ DoorEvent.duration_seconds e
                      = int_total_seconds (c - DoorEvent.opened_at e)) (events st)
  ∧ (∀ t, current_event_start st = Some t →
          t ≤ b ∧ Forall (λ e, ∃ c, DoorEvent.closed_at e = Some c ∧ c < t) (events st))
  ∧ StronglySorted precedes (events st).

(** A weaker invariant, for readings whose timestamps may repeat: durations
    so far are not negative and the open event began by [b]. *)
Definition timely (b : datetime) (st : locals) : Prop :=
  Forall (λ e, 0 ≤ DoorEvent.duration_seconds e) (events st)
  ∧ ∀ t, current_event_start st = Some t → t ≤ b.

End DoorInvariants.

(** ** Presence events: their relation to the door loop, well-formedness and order *)

Module PresenceInvariants.
Import EventService.

(** A joined row as a state sample, and a presence event without its zone
    and safety flag. *)
Definition to_door (rw : Presence.row) : DoorReading.t :=
  DoorReading.mk (MotionReading.sensor_id rw.1) (MotionReading.timestamp rw.1)
    (MotionReading.motion_detected rw.1).

Definition forget (e : PresenceEvent.t) : DoorEvent.t :=
  DoorEvent.mk (PresenceEvent.sensor_id e) (PresenceEvent.started_at e)
    (PresenceEvent.ended_at e) (PresenceEvent.duration_seconds e).

(** The presence loop with minimum duration [md] and the door loop, run
    side by side, agree on everything but the events dropped. *)
Definition simulates (md : Z) (ps : Presence.locals) (ds : Door.locals) : Prop :=
  forget <$> Presence.events ps
    = filter (λ e, md ≤ DoorEvent.duration_seconds e) (Door.events ds)
  ∧ Presence.current_sensor_id ps = Door.current_sensor_id ds
  ∧ Presence.current_event_start ps = Door.current_event_start ds
  ∧ Presence.prev_motion ps = Door.prev_is_open ds.

(** The safety flag of an event says whether it lasts the threshold. *)
Definition flagged (e : PresenceEvent.t) : Prop :=
  PresenceEvent.is_safety_concern e
  = bool_decide (SAFETY_CONCERN_THRESHOLD_SECONDS ≤ PresenceEvent.duration_seconds e).

(** Two runs of the loop on the same rows differ by their thresholds only
    in the events they keep. *)
Definition keeps (md : Z) (st0 st : Presence.locals) : Prop :=
  Presence.events st
    = filter (λ e, md ≤ PresenceEvent.duration_seconds e) (Presence.events st0)
  ∧ Presence.current_sensor_id st = Presence.current_sensor_id st0
  ∧ Presence.current_zone_id st = Presence.current_zone_id st0
  ∧ Presence.current_event_start st = Presence.current_event_start st0
  ∧ Presence.prev_motion st = Presence.prev_motion st0.

(** [ended_at >= started_at] when the event has ended, and a duration that
    is not negative. *)
Definition presence_well_formed (e : PresenceEvent.t) : Prop :=
  (∀ c, PresenceEvent.ended_at e = Some c → PresenceEvent.started_at e ≤ c)
  ∧ 0 ≤ PresenceEvent.duration_seconds e.

(** The rows before an episode: there is none, or the last of them reports
    no motion. *)
Definition quiet (pre : list Presence.row) : Prop :=
  ∀ p, last pre = Some p → MotionReading.motion_detected p.1 = false.

(** Rows that all report motion. *)
Definition moving (run : list Presence.row) : Prop :=
  Forall (λ rw : Presence.row, MotionReading.motion_detected rw.1 = true) run.

(** [e1] is over before [e2] begins, and begins before it. *)
Definition presence_precedes (e1 e2 : PresenceEvent.t) : Prop :=
  (∃ c, PresenceEvent.ended_at e1 = Some c ∧ c ≤ PresenceEvent.started_at e2)
  ∧ PresenceEvent.started_at e1 < PresenceEvent.started_at e2.

End PresenceInvariants.

(** ** The statistics, in the words of the design document

    The arithmetic mean of the samples, and their population variance: the
    mean of the squared distances to the mean.  The population standard
    deviation is its square root. *)

Module Statistics.

(** The sum of the samples. *)
Fixpoint total (samples : list Qc) : Qc :=
  match samples with
  | [] => 0%Qc
  | x :: rest => (x + total rest)%Qc
  end.

Definition arithmetic_mean (samples : list Qc) : Qc :=
  (total samples / float_of_int (Z.of_nat (length samples)))%Qc.

Definition population_variance (samples : list Qc) : Qc :=
  arithmetic_mean ((λ x, (x - arithmetic_mean samples) ^ 2)%Qc <$> samples).

End Statistics.

(** ** The summary builder: groups, statements and registered sensors *)

Module SummaryInvariants.
Import Registry SensorService.

(** The groups have distinct types; none is empty; each holds sensors of
    its type, taken from the sensors grouped. *)
Definition grouped (P : Sensor.t → Prop) (groups : list (string * list Sensor.t)) : Prop :=
  NoDup groups.*1
  ∧ Forall (λ g, g.2 ≠ []
                 ∧ Forall (λ s, Sensor.sensor_type s = g.1 ∧ P s) g.2) groups.

(** The statements that select the latest row per sensor. *)
Definition latest_statement (statement : Statement) : Prop :=
  match statement with
  | SelectLatest _ _ | SelectLatestWithSecondary _ _ => True
  | _ => False
  end.

(** The statements that aggregate by sensor and hour. *)
Definition hourly_statement (statement : Statement) : Prop :=
  match statement with
  | SelectHourlyAvg _ _ _ | SelectHourlySum _ _ _ => True
  | _ => False
  end.

(** The sensors of the call that have a registered type, by id. *)
Definition registered_id (sensors : list Sensor.t) (sid : string) : Prop :=
  ∃ s, s ∈ sensors ∧ Sensor.id s = sid
       ∧ is_Some (SENSOR_TYPE_REGISTRY !! Sensor.sensor_type s).

End SummaryInvariants.

(** ** Events and the samples they come from *)

Module EventNotions.
Import EventService.

(** A reading of sensor [s] at time [t] in state [state], among [l]. *)
Definition sampled (l : list DoorReading.t) (s : string) (t : datetime) (state : bool)
  : Prop :=
  ∃ r, r ∈ l ∧ DoorReading.sensor_id r = s ∧ DoorReading.timestamp r = t
       ∧ DoorReading.is_open r = state.

(** The event opens at an "open" reading of its sensor and, when closed,
    closes at a "closed" reading of its sensor. *)
Definition anchored (l : list DoorReading.t) (e : DoorEvent.t) : Prop :=
  sampled l (DoorEvent.sensor_id e) (DoorEvent.opened_at e) true
  ∧ ∀ c, DoorEvent.closed_at e = Some c → sampled l (DoorEvent.sensor_id e) c false.

(** The loop invariant for [anchored]. *)
Definition anchoring (l : list DoorReading.t) (st : Door.locals) : Prop :=
  Forall (anchored l) (Door.events st)
  ∧ ∀ s t, Door.current_sensor_id st = Some s → Door.current_event_start st = Some t →
           sampled l s t true.

(** The loop has an event to show: one emitted, or one open. *)
Definition seen_open (st : Door.locals) : Prop :=
  Door.events st ≠ []
  ∨ (is_Some (Door.current_event_start st) ∧ is_Some (Door.current_sensor_id st)).

(** Presence events carry a sensor id and a zone that [P] relates. *)
Definition zoned (P : string → string → Prop) (st : Presence.locals) : Prop :=
  Forall (λ e, P (PresenceEvent.sensor_id e) (PresenceEvent.zone_id e)) (Presence.events st)
  ∧ ∀ s, Presence.current_sensor_id st = Some s →
         ∃ z, Presence.current_zone_id st = Some z ∧ P s z.

End EventNotions.

(** ** Aggregated readings *)

Module ReadingsNotions.
Import Registry Statistics.

(** What an aggregated reading is to its bucket: it sits at the instant the
    bucket begins, has no secondary value, and its value is the rounded
    mean (for a type that supports aggregation) or the rounded sum (for a
    boolean type) of the values of the rows of that bucket, of which there
    is at least one. *)
Definition aggregates `{!PythonFloat} (bucket : datetime → Z) (width : timedelta)
    (config : SensorTypeConfig) (rows : list (row (model config)))
    (p : ReadingPoint.t) : Prop :=
  ReadingPoint.humidity p = None
  ∧ ∃ b, ReadingPoint.timestamp p = b * width
         ∧ let values :=
             cell (value_column config) <$>
               filter (λ r, bucket (timestamp r) = b) rows in
           values ≠ []
           ∧ ReadingPoint.value p
             = round (if supports_aggregation config then arithmetic_mean values
                      else total values) 2.

(** Readings aggregated by bucket: one reading per bucket that has rows, in
    strictly ascending order of time. *)
Definition bucketed `{!PythonFloat} (bucket : datetime → Z) (width : timedelta)
    (config : SensorTypeConfig) (rows : list (row (model config)))
    (readings : list ReadingPoint.t) : Prop :=
  StronglySorted (λ p q, ReadingPoint.timestamp p < ReadingPoint.timestamp q) readings
  ∧ Forall (aggregates bucket width config rows) readings
  ∧ ∀ r, r ∈ rows → ∃ p, p ∈ readings ∧ ReadingPoint.timestamp p = bucket (timestamp r) * width.

End ReadingsNotions.

(** ** The dashboard records and the sensors they describe *)

Module SummaryNotions.
Import Registry SensorService.

(** The sensor has a registered type and at least one row in the table of
    readings of that type. *)
Definition has_reading (db : Database) (s : Sensor.t) : Prop :=
  ∃ config, SENSOR_TYPE_REGISTRY !! Sensor.sensor_type s = Some config
            ∧ ∃ r, r ∈ table db (model config) ∧ sensor_id r = Sensor.id s.

(** The zone of the sensor is in the zone table. *)
Definition has_zone (db : Database) (s : Sensor.t) : Prop :=
  ∃ z, z ∈ zones db ∧ Zone.id z = Sensor.zone_id s.

(** The record is the one of the sensor: its id, type and label, a trend
    of 24 points, and the thresholds of the sensor when it has any. *)
Definition describes (s : Sensor.t) (c : SensorConfig.t) : Prop :=
  SensorConfig.id c = Sensor.id s
  ∧ SensorConfig.sensor_type c = Sensor.sensor_type s
  ∧ SensorConfig.label c = Sensor.label s
  ∧ length (SensorConfig.trend c) = 24%nat
  ∧ SensorConfig.thresholds c
    = match Sensor.warning_threshold s, Sensor.critical_threshold s with
      | None, None => None
      | warning, critical => Some (SensorThresholds.mk warning critical)
      end.

(** The ids that the batch for one group of sensors adds to the latest
    readings. *)
Definition fetched (db : Database) (group : string * list Sensor.t) (sid : string) : Prop :=
  ∃ config, SENSOR_TYPE_REGISTRY !! group.1 = Some config
            ∧ sid ∈ Sensor.id <$> group.2
            ∧ ∃ r, r ∈ table db (model config) ∧ sensor_id r = sid.

(** The statements a group costs: one to fetch latest readings or trends
    when its type is registered, one to fetch statistics when its type
    supports aggregation. *)
Definition registered_cost (group : string * list Sensor.t) : nat :=
  match SENSOR_TYPE_REGISTRY !! group.1 with Some _ => 1 | None => 0 end.

Definition aggregating_cost (group : string * list Sensor.t) : nat :=
  match SENSOR_TYPE_REGISTRY !! group.1 with
  | Some config => if supports_aggregation config then 1 else 0
  | None => 0
  end.

End SummaryNotions.

(** ** Severity of a status *)

Module StatusNotions.

(** "normal" is milder than "warning", which is milder than "critical". *)
Definition severity (status : string) : nat :=
  if decide (status = "critical") then 2
  else if decide (status = "warning") then 1
  else 0.

End StatusNotions.

(** ** The latest value within a window *)

Module NodeNotions.
Import Registry.

(** [v] is the value of a row of the sensor within the window than which
    no row of the window is later; or there is no [v] and the sensor is
    not known, its type is not registered, or the window holds no row. *)
Definition latest_in_window (db : Database) (sensor_id : string)
    (start end_ : datetime) (v : option Qc) : Prop :=
  match v with
  | Some v =>
      ∃ s config row,
        s ∈ sensors db ∧ Sensor.id s = sensor_id
        ∧ SENSOR_TYPE_REGISTRY !! Sensor.sensor_type s = Some config
        ∧ row ∈ select_window db (model config) sensor_id start end_
        ∧ v = cell (value_column config) row
        ∧ ∀ row', row' ∈ select_window db (model config) sensor_id start end_ →
                  timestamp row' ≤ timestamp row
  | None =>
      ∀ s config,
        s ∈ sensors db → Sensor.id s = sensor_id →
        SENSOR_TYPE_REGISTRY !! Sensor.sensor_type s = Some config →
        select_window db (model config) sensor_id start end_ = []
  end.

(** The status of a zone: "cold" below the lower target, "warm" above the
    upper one, "normal" in between and when there is no temperature. *)
Definition zone_status (current_temp : option Qc) (target_min target_max : Z) : string :=
  match current_temp with
  | Some t =>
      if decide (t < float_of_int target_min)%Qc then "cold"
      else if decide (float_of_int target_max < t)%Qc then "warm"
      else "normal"
  | None => "normal"
  end.

End NodeNotions.

(** ** The order and the durations of events *)

Module EventOrderNotions.
Import EventService.

(** Sensor ids in the order of the query: lexical, or equal. *)
Definition sensor_le (s1 s2 : string) : Prop := String_as_OT.lt s1 s2 ∨ s1 = s2.

(** The duration of an event is the whole seconds from its opening to its
    close, or to [end_] while it has none. *)
Definition measured (end_ : datetime) (e : DoorEvent.t) : Prop :=
  DoorEvent.duration_seconds e
  = int_total_seconds (default end_ (DoorEvent.closed_at e) - DoorEvent.opened_at e).

(** The loop invariant for the order of sensors: the events so far are in
    the order of their sensors, none beyond the sensor being read. *)
Definition ordered (st : Door.locals) : Prop :=
  StronglySorted (λ e1 e2, sensor_le (DoorEvent.sensor_id e1) (DoorEvent.sensor_id e2))
    (Door.events st)
  ∧ match Door.current_sensor_id st with
    | Some c => Forall (λ e, sensor_le (DoorEvent.sensor_id e) c) (Door.events st)
    | None => Door.events st = []
    end.

(** The loop invariant for [measured]. *)
Definition measuring (end_ : datetime) (st : Door.locals) : Prop :=
  Forall (measured end_) (Door.events st).

End EventOrderNotions.

(** * Proofs *)

(** * The order of query results *)

Lemma key_leb_cases k1 k2 :
  key_leb k1 k2 = true ↔
  String_as_OT.lt k1.1 k2.1 ∨ (k1.1 = k2.1 ∧ k1.2 ≤ k2.2).
Proof.
  unfold key_leb.
  destruct (String_as_OT.compare_spec k1.1 k2.1) as [Heq|Hlt|Hgt].
  - rewrite Z.leb_le. split; [auto|].
    intros [Hlt|[_ ?]]; [|done].
    rewrite Heq in Hlt. by apply (irreflexivity String_as_OT.lt) in Hlt.
  - split; auto.
  - split; [done|]. intros [Hlt|[Heq _]].
    + destruct (irreflexivity String_as_OT.lt k1.1). by etransitivity.
    + rewrite Heq in Hgt. by apply (irreflexivity String_as_OT.lt) in Hgt.
Qed.

Global Instance order_by_trans {A} (key : A → string * datetime) :
  Transitive (order_by key).
Proof.
  intros x y z. unfold order_by. rewrite !key_leb_cases.
  intros [H1|[H1 H1']] [H2|[H2 H2']].
  - left. by etransitivity.
  - left. by rewrite <- H2.
  - left. by rewrite H1.
  - right. split; [congruence|lia].
Qed.

Global Instance order_by_total {A} (key : A → string * datetime) :
  Total (order_by key).
Proof.
  intros x y. unfold order_by. rewrite !key_leb_cases.
  destruct (String_as_OT.compare_spec (key x).1 (key y).1) as [Heq|Hlt|Hgt]; auto.
  destruct (Z.le_gt_cases (key x).2 (key y).2); [auto|].
  right. right. split; [done|lia].
Qed.

Lemma string_lt_asym a b : String_as_OT.lt a b → String_as_OT.lt b a → False.
Proof. intros H1 H2. exact (irreflexivity String_as_OT.lt a (transitivity H1 H2)). Qed.

Lemma string_lt_neq a b : String_as_OT.lt a b → a ≠ b.
Proof. intros H ->. exact (irreflexivity String_as_OT.lt b H). Qed.

Lemma filter_none {A} (P : A → Prop) `{!∀ x, Decision (P x)} (l : list A) :
  Forall (λ x, ¬ P x) l → filter P l = [].
Proof.
  induction 1 as [|x l Hx _ IH]; [done|].
  by rewrite filter_cons_False.
Qed.

Lemma filter_all {A} (P : A → Prop) `{!∀ x, Decision (P x)} (l : list A) :
  Forall P l → filter P l = l.
Proof.
  induction 1 as [|x l Hx _ IH]; [done|].
  rewrite filter_cons_True by done. by rewrite IH.
Qed.

(** A result ordered by sensor id first is the rows of the smaller ids,
    then the rows of any one sensor, then the rows of the larger ids. *)
Lemma order_by_split {A} (key : A → string * datetime) (s : string) (l : list A) :
  StronglySorted (order_by key) l →
  l = filter (λ x, String_as_OT.lt (key x).1 s) l
      ++ filter (λ x, (key x).1 = s) l
      ++ filter (λ x, String_as_OT.lt s (key x).1) l.
Proof.
  induction 1 as [|x l Hl IH Hx]; [done|].
  assert (Hge : Forall (λ y, String_as_OT.lt (key x).1 (key y).1
                             ∨ (key x).1 = (key y).1) l).
  { eapply Forall_impl; [exact Hx|]. intros y Hy. apply key_leb_cases in Hy. tauto. }
  destruct (String_as_OT.compare_spec (key x).1 s) as [Heq|Hlt|Hgt].
  - assert (Hnone : filter (λ x, String_as_OT.lt (key x).1 s) l = []).
    { apply filter_none.
      eapply Forall_impl; [exact Hge|]. intros y [Hy|Hy] Hlt; rewrite Heq in Hy.
      - exact (string_lt_asym _ _ Hy Hlt).
      - rewrite <- Hy in Hlt. exact (string_lt_neq _ _ Hlt eq_refl). }
    rewrite (filter_cons_False _ x)
      by (intros Hlt; exact (string_lt_neq _ _ Hlt Heq)).
    rewrite (filter_cons_True (λ x, (key x).1 = s)) by done.
    rewrite (filter_cons_False (λ x, String_as_OT.lt s (key x).1))
      by (intros Hlt; exact (string_lt_neq _ _ Hlt (eq_sym Heq))).
    rewrite Hnone in IH |- *. simpl in *. by f_equal.
  - rewrite (filter_cons_True _ x) by done.
    rewrite (filter_cons_False (λ x, (key x).1 = s))
      by (exact (string_lt_neq _ _ Hlt)).
    rewrite (filter_cons_False (λ x, String_as_OT.lt s (key x).1))
      by (exact (string_lt_asym _ _ Hlt)).
    simpl. by f_equal.
  - assert (Hgt' : Forall (λ y, String_as_OT.lt s (key y).1) l).
    { eapply Forall_impl; [exact Hge|]. intros y [Hy|Hy].
      - exact (transitivity Hgt Hy).
      - by rewrite <- Hy. }
    rewrite (filter_cons_False _ x) by (exact (λ H, string_lt_asym _ _ H Hgt)).
    rewrite (filter_cons_False (λ x, (key x).1 = s))
      by (exact (λ H, string_lt_neq _ _ Hgt (eq_sym H))).
    rewrite (filter_cons_True (λ x, String_as_OT.lt s (key x).1)) by done.
    rewrite (filter_none (λ x, String_as_OT.lt (key x).1 s) l).
    2:{ eapply Forall_impl; [exact Hgt'|]. intros y Hy Hlt.
        exact (string_lt_asym _ _ Hy Hlt). }
    rewrite (filter_none (λ x, (key x).1 = s) l).
    2:{ eapply Forall_impl; [exact Hgt'|]. intros y Hy Heq.
        exact (string_lt_neq _ _ Hy (eq_sym Heq)). }
    rewrite (filter_all _ l) by done. done.
Qed.

(** Sensor by sensor, a result without two rows of one sensor at one
    timestamp is in strictly increasing order of time. *)
Lemma order_by_strict {A} (key : A → string * datetime) (s : string) (l : list A) :
  StronglySorted (order_by key) l → NoDup (key <$> l) →
  StronglySorted (λ a b, (key a).2 < (key b).2) (filter (λ x, (key x).1 = s) l).
Proof.
  induction 1 as [|x l Hl IH Hx]; intros Hnd; [constructor|].
  rewrite fmap_cons in Hnd. apply NoDup_cons in Hnd as [Hx' Hnd].
  destruct (decide ((key x).1 = s)) as [Hs|Hs].
  - rewrite filter_cons_True by done. constructor; [by apply IH|].
    apply Forall_forall. intros y [Hy Hyl]%list_elem_of_filter.
    rewrite Forall_forall in Hx. specialize (Hx y Hyl).
    apply key_leb_cases in Hx as [Hlt|[_ Hle]].
    + rewrite Hs, Hy in Hlt. destruct (string_lt_neq _ _ Hlt eq_refl).
    + destruct (decide ((key x).2 = (key y).2)) as [Heq|]; [|lia].
      destruct Hx'. apply list_elem_of_fmap. exists y. split; [|done].
      destruct (key x), (key y); simpl in *; congruence.
  - rewrite filter_cons_False by done. by apply IH.
Qed.

Lemma filter_fmap {A B} (f : A → B) (P : B → Prop) (Q : A → Prop)
    `{!∀ y, Decision (P y)} `{!∀ x, Decision (Q x)} (l : list A) :
  (∀ x, Q x ↔ P (f x)) →
  filter P (f <$> l) = f <$> filter Q l.
Proof.
  intros HPQ. induction l as [|x l IH]; [done|]. rewrite fmap_cons.
  destruct (decide (Q x)) as [Hx|Hx].
  - rewrite !filter_cons_True by (done || by apply HPQ). by rewrite fmap_cons, IH.
  - rewrite !filter_cons_False by (done || by rewrite <- HPQ). done.
Qed.

Lemma StronglySorted_filter {A} (R : relation A) (P : A → Prop)
    `{!∀ x, Decision (P x)} (l : list A) :
  StronglySorted R l → StronglySorted R (filter P l).
Proof.
  induction 1 as [|x l Hl IH Hx]; [constructor|].
  destruct (decide (P x)).
  - rewrite filter_cons_True by done. constructor; [done|].
    apply Forall_forall. intros y [_ Hy]%list_elem_of_filter.
    rewrite Forall_forall in Hx. by apply Hx.
  - by rewrite filter_cons_False.
Qed.

(** Sensor by sensor, an ordered result is in increasing order of time. *)
Lemma order_by_weak {A} (key : A → string * datetime) (s : string) (l : list A) :
  StronglySorted (order_by key) l →
  StronglySorted (λ a b, (key a).2 ≤ (key b).2) (filter (λ x, (key x).1 = s) l).
Proof.
  induction 1 as [|x l Hl IH Hx]; [constructor|].
  destruct (decide ((key x).1 = s)) as [Hs|Hs].
  - rewrite filter_cons_True by done. constructor; [done|].
    apply Forall_forall. intros y [Hy Hyl]%list_elem_of_filter.
    rewrite Forall_forall in Hx. specialize (Hx y Hyl).
    apply key_leb_cases in Hx as [Hlt|[_ Hle]]; [|done].
    rewrite Hs, Hy in Hlt. destruct (string_lt_neq _ _ Hlt eq_refl).
  - by rewrite filter_cons_False.
Qed.

(** * Properties of the event service *)

(** ** The door loop: sensors are processed independently *)

Module DoorFacts.
Import EventService.Door DoorInvariants.

Lemma still_open_prepend end_ E st :
  still_open end_ (prepend E st) = still_open end_ st.
Proof. reflexivity. Qed.

Lemma body_prepend end_ E st r :
  body end_ (prepend E st) r = prepend E (body end_ st r).
Proof.
  destruct st as [ev c s p]. unfold body, prepend, still_open; simpl.
  case_decide; simpl.
  - destruct (DoorReading.is_open r), s, c; simpl; by rewrite ?app_assoc.
  - destruct p as [[]|], (DoorReading.is_open r), s; simpl; by rewrite ?app_assoc.
Qed.

Lemma run_prepend end_ E l st :
  fold_left (body end_) l (prepend E st) = prepend E (fold_left (body end_) l st).
Proof.
  revert st. induction l as [|r l IH]; intros st; simpl; [done|].
  by rewrite body_prepend, IH.
Qed.

(** At a change of sensor the loop flushes the open event and starts afresh. *)
Lemma body_switch end_ st r :
  current_sensor_id st ≠ Some (sid r) →
  body end_ st r = prepend (events st ++ still_open end_ st) (body end_ initial r).
Proof.
  intros Hne. unfold body, prepend, initial; simpl.
  rewrite !decide_True by congruence. simpl.
  destruct (DoorReading.is_open r); simpl; by rewrite ?app_nil_r.
Qed.

Lemma body_current end_ st r :
  current_sensor_id (body end_ st r) = Some (sid r).
Proof.
  unfold body. case_decide as Hd; simpl.
  - by destruct (DoorReading.is_open r).
  - destruct (prev_is_open st) as [[]|], (DoorReading.is_open r),
      (current_event_start st); simpl; congruence.
Qed.

Lemma run_current end_ l r st :
  last l = Some r → current_sensor_id (fold_left (body end_) l st) = Some (sid r).
Proof.
  intros Hl. destruct l as [|x l _] using rev_ind; [done|].
  rewrite last_snoc in Hl. injection Hl as ->.
  rewrite fold_left_app. simpl. apply body_current.
Qed.

(** Two runs of readings that do not share a sensor at their border give
    the events of the first followed by the events of the second. *)
Lemma events_of_app end_ l1 l2 :
  (∀ r1 r2, last l1 = Some r1 → head l2 = Some r2 → sid r1 ≠ sid r2) →
  events_of end_ (l1 ++ l2) = events_of end_ l1 ++ events_of end_ l2.
Proof.
  intros Hb. destruct l2 as [|r2 l2].
  { rewrite app_nil_r. unfold events_of at 3. simpl. by rewrite app_nil_r. }
  unfold events_of. rewrite fold_left_app. simpl.
  set (st1 := fold_left (body end_) l1 initial).
  destruct (last l1) as [r1|] eqn:Hl1.
  - rewrite (body_switch end_ st1 r2).
    + rewrite run_prepend. simpl. by rewrite app_assoc.
    + unfold st1. rewrite (run_current end_ l1 r1) by done.
      intros [= Heq]. by eapply Hb.
  - apply last_None in Hl1. subst l1. done.
Qed.

Lemma still_open_known end_ P st :
  known P st → Forall (λ e, P (DoorEvent.sensor_id e)) (still_open end_ st).
Proof.
  intros [_ Hc]. unfold still_open.
  destruct (current_event_start st), (current_sensor_id st); auto.
Qed.

Lemma body_known end_ P st r :
  P (sid r) → known P st → known P (body end_ st r).
Proof.
  intros Hr Hk. pose proof (still_open_known end_ P st Hk) as Hso.
  destruct Hk as [He Hc]. split.
  - unfold body. case_decide; simpl.
    + destruct (DoorReading.is_open r); simpl; by apply Forall_app.
    + destruct (prev_is_open st) as [[]|], (DoorReading.is_open r),
        (current_event_start st); simpl; auto.
      apply Forall_app. split; [done|]. by apply Forall_singleton.
  - rewrite body_current. by intros c [= <-].
Qed.

Lemma run_known end_ P l st :
  Forall (λ r, P (sid r)) l → known P st → known P (fold_left (body end_) l st).
Proof.
  intros Hl. revert st. induction Hl as [|r l Hr _ IH]; intros st Hk; simpl; [done|].
  by apply IH, body_known.
Qed.

Lemma events_of_known end_ P l :
  Forall (λ r, P (sid r)) l →
  Forall (λ e, P (DoorEvent.sensor_id e)) (events_of end_ l).
Proof.
  intros Hl. unfold events_of.
  assert (Hk : known P (fold_left (body end_) l initial)).
  { apply run_known; [done|]. split; [constructor|done]. }
  apply Forall_app. split; [apply Hk|by apply still_open_known].
Qed.

(** The events of one sensor are the events of that sensor's readings on
    their own, whatever other sensors the query returned. *)
Lemma events_of_project end_ s l :
  StronglySorted (order_by key) l →
  filter (λ e, DoorEvent.sensor_id e = s) (events_of end_ l)
  = events_of end_ (filter (λ r, sid r = s) l).
Proof.
  intros Hl. rewrite (order_by_split key s l Hl) at 1.
  set (A := filter (λ x, String_as_OT.lt (key x).1 s) l).
  set (B := filter (λ x, (key x).1 = s) l).
  set (C := filter (λ x, String_as_OT.lt s (key x).1) l).
  assert (HA : Forall (λ r, String_as_OT.lt (sid r) s) A).
  { apply Forall_forall. intros r Hr. by apply list_elem_of_filter in Hr as [? _]. }
  assert (HB : Forall (λ r, sid r = s) B).
  { apply Forall_forall. intros r Hr. by apply list_elem_of_filter in Hr as [? _]. }
  assert (HC : Forall (λ r, String_as_OT.lt s (sid r)) C).
  { apply Forall_forall. intros r Hr. by apply list_elem_of_filter in Hr as [? _]. }
  rewrite events_of_app.
  2:{ intros r1 r2 H1 H2.
      apply last_Some_elem_of in H1. apply head_Some_elem_of in H2.
      rewrite Forall_forall in HA, HB, HC. apply HA in H1.
      apply elem_of_app in H2 as [H2|H2].
      - apply HB in H2. rewrite H2. by apply string_lt_neq.
      - apply HC in H2. apply string_lt_neq. by etransitivity. }
  rewrite events_of_app.
  2:{ intros r1 r2 H1 H2.
      apply last_Some_elem_of in H1. apply head_Some_elem_of in H2.
      rewrite Forall_forall in HB, HC. apply HB in H1. apply HC in H2.
      rewrite H1. by apply string_lt_neq. }
  rewrite !filter_app.
  rewrite (filter_none _ (events_of end_ A)).
  2:{ eapply Forall_impl; [apply (events_of_known end_ (λ x, String_as_OT.lt x s) A HA)|].
      intros e He. by apply string_lt_neq. }
  rewrite (filter_none _ (events_of end_ C)).
  2:{ eapply Forall_impl; [apply (events_of_known end_ (λ x, String_as_OT.lt s x) C HC)|].
      intros e He Heq. by apply (string_lt_neq _ _ He). }
  rewrite (filter_all _ (events_of end_ B)).
  2:{ apply (events_of_known end_ (λ x, x = s) B HB). }
  by rewrite app_nil_r.
Qed.

(** ** The door loop on the readings of one sensor *)

(** Events are only ever appended. *)
Lemma run_grow end_ l st :
  ∃ more, events (fold_left (body end_) l st) = events st ++ more.
Proof.
  destruct st as [ev c t p].
  replace (mk ev c t p) with (prepend ev (mk [] c t p))
    by (unfold prepend; simpl; by rewrite app_nil_r).
  rewrite run_prepend. simpl. rewrite app_nil_r. by eexists.
Qed.

Lemma body_first end_ r :
  body end_ initial r
  = mk [] (Some (sid r))
       (if DoorReading.is_open r then Some (ts r) else None)
       (Some (DoorReading.is_open r)).
Proof. unfold body, initial; simpl. by destruct (DoorReading.is_open r). Qed.

Lemma body_same end_ ev s t p r :
  sid r = s →
  body end_ (mk ev (Some s) t (Some p)) r
  = if negb p && DoorReading.is_open r then
      mk ev (Some s) (Some (ts r)) (Some (DoorReading.is_open r))
    else if p && negb (DoorReading.is_open r) then
      match t with
      | Some opened =>
          mk (ev ++ [DoorEvent.mk s opened (Some (ts r))
                       (int_total_seconds (ts r - opened))])
             (Some s) None (Some (DoorReading.is_open r))
      | None => mk ev (Some s) None (Some (DoorReading.is_open r))
      end
    else mk ev (Some s) t (Some (DoorReading.is_open r)).
Proof.
  intros <-. unfold body; simpl. rewrite decide_False by (intros H; by apply H).
  simpl. by destruct p, (DoorReading.is_open r), t.
Qed.

Lemma body_tracking end_ s st r :
  sid r = s → st = initial ∨ tracking s st →
  tracking s (body end_ st r)
  ∧ prev_is_open (body end_ st r) = Some (DoorReading.is_open r).
Proof.
  intros Hr [->|[Hc Hp]].
  - rewrite body_first. subst s. unfold tracking. simpl.
    destruct (DoorReading.is_open r); simpl; eauto.
  - destruct st as [ev c t p]. simpl in *. subst c.
    destruct p as [p|]; [|done]. rewrite (body_same end_ ev s t p r Hr).
    unfold tracking.
    destruct p, (DoorReading.is_open r), t; simpl in *; try done; eauto;
      by destruct Hp.
Qed.

Lemma run_tracking end_ s l r :
  Forall (λ r, sid r = s) l → last l = Some r →
  tracking s (fold_left (body end_) l initial)
  ∧ prev_is_open (fold_left (body end_) l initial) = Some (DoorReading.is_open r).
Proof.
  revert r. induction l as [|x l IH] using rev_ind; intros r Hl Hlast; [done|].
  rewrite last_snoc in Hlast. injection Hlast as ->.
  apply Forall_app in Hl as [Hl Hr]. rewrite Forall_singleton in Hr.
  rewrite fold_left_app. simpl. apply body_tracking; [done|].
  destruct (last l) as [y|] eqn:Hy.
  - right. by apply (IH y).
  - left. apply last_None in Hy. by subst l.
Qed.

(** An event that is open is emitted, with the timestamp it was opened at,
    whatever readings of the same sensor follow. *)
Lemma pending_emitted end_ s l ev t :
  Forall (λ r, sid r = s) l →
  let st := fold_left (body end_) l (mk ev (Some s) (Some t) (Some true)) in
  ∃ e more, events st ++ still_open end_ st = ev ++ e :: more
    ∧ DoorEvent.sensor_id e = s ∧ DoorEvent.opened_at e = t.
Proof.
  intros Hl. revert ev. induction Hl as [|r l Hr _ IH]; intros ev; simpl.
  - eexists _, []. split; [reflexivity|done].
  - rewrite (body_same end_ ev s (Some t) true r Hr). simpl.
    destruct (DoorReading.is_open r); simpl.
    + apply IH.
    + match goal with |- context [fold_left _ l ?st0] =>
        destruct (run_grow end_ l st0) as [more Hmore] end.
      rewrite Hmore. simpl. rewrite <- !app_assoc. simpl.
      eexists _, _. split; [reflexivity|done].
Qed.

(** ** Well-formed, ordered events *)

Lemma int_total_seconds_nonneg d : 0 ≤ d → 0 ≤ int_total_seconds d.
Proof. intros Hd. unfold int_total_seconds, MICROSECONDS_PER_SECOND. by apply Z.quot_pos. Qed.

Lemma settled_weaken b b' ev s t p q :
  b ≤ b' → settled b (mk ev s t p) → settled b' (mk ev s t q).
Proof.
  intros Hb (H1 & H2 & H3). split; [|split]; simpl in *; [| |done].
  - eapply Forall_impl; [exact H1|]. intros e (c & ? & ? & ? & ?).
    exists c. repeat split; [done..|lia|done].
  - intros t' Ht'. destruct (H2 t' Ht'). split; [lia|done].
Qed.

Lemma body_settled end_ s ev t p r b :
  sid r = s → b < ts r →
  settled b (mk ev (Some s) t (Some p)) →
  settled (ts r) (body end_ (mk ev (Some s) t (Some p)) r).
Proof.
  intros Hr Hb Hs. rewrite (body_same end_ ev s t p r Hr).
  destruct p, (DoorReading.is_open r) eqn:Ho; simpl.
  - eapply settled_weaken; [|exact Hs]. lia.
  - destruct t as [o|]; [|eapply settled_weaken; [|exact Hs]; lia].
    destruct Hs as (H1 & H2 & H3); simpl in *.
    destruct (H2 o eq_refl) as [Hob Hbefore].
    split; [|split]; simpl; [|done|].
    + apply Forall_app. split.
      * eapply Forall_impl; [exact H1|]. intros e (c & ? & ? & ? & ?).
        exists c. repeat split; [done..|lia|done].
      * apply Forall_singleton. exists (ts r). simpl. repeat split; [lia|lia].
    + apply StronglySorted_app_2; [|done|repeat constructor].
      intros e1 e2 He1 ->%list_elem_of_singleton. simpl.
      rewrite Forall_forall in H1, Hbefore.
      destruct (H1 e1 He1) as (c & Hc & Hoc & _).
      destruct (Hbefore e1 He1) as (c' & Hc' & Hlt).
      rewrite Hc in Hc'. injection Hc' as <-. unfold precedes. simpl.
      split; [exists c; split; [done|lia] | lia].
  - destruct Hs as (H1 & H2 & H3); simpl in *.
    split; [|split]; simpl; [|intros ? [= <-]; split|done].
    + eapply Forall_impl; [exact H1|]. intros e (c & ? & ? & ? & ?).
      exists c. repeat split; [done..|lia|done].
    + lia.
    + eapply Forall_impl; [exact H1|]. intros e (c & ? & ? & ? & ?).
      exists c. split; [done|lia].
  - eapply settled_weaken; [|exact Hs]. lia.
Qed.

Lemma run_settled end_ s l : ∀ ev t p b,
  Forall (λ r, sid r = s) l →
  StronglySorted (λ r1 r2, ts r1 < ts r2) l →
  Forall (λ r, b < ts r) l →
  Forall (λ r, ts r ≤ end_) l → b ≤ end_ →
  settled b (mk ev (Some s) t (Some p)) →
  ∃ b', b' ≤ end_ ∧ settled b' (fold_left (body end_) l (mk ev (Some s) t (Some p))).
Proof.
  induction l as [|r l IH]; intros ev t p b Hs Hinc Hb Hend Hbe Hst; simpl.
  - eauto.
  - apply Forall_cons in Hs as [Hr Hs]. apply Forall_cons in Hb as [Hbr Hb].
    apply Forall_cons in Hend as [Hre Hend].
    apply StronglySorted_cons in Hinc as [Hrl Hinc].
    pose proof (body_settled end_ s ev t p r b Hr Hbr Hst) as Hst'.
    rewrite (body_same end_ ev s t p r Hr) in Hst' |- *.
    destruct (negb p && DoorReading.is_open r);
      [|destruct (p && negb (DoorReading.is_open r)); [destruct t|]];
      by eapply (IH _ _ _ (ts r)).
Qed.

(** On the readings of one sensor, in strictly increasing order of time and
    none after the end of the window, the loop emits well-formed events,
    each over before the next begins. *)
Lemma events_of_single end_ s l :
  Forall (λ r, sid r = s) l →
  StronglySorted (λ r1 r2, ts r1 < ts r2) l →
  Forall (λ r, ts r ≤ end_) l →
  Forall well_formed (events_of end_ l) ∧ StronglySorted precedes (events_of end_ l).
Proof.
  intros Hs Hinc Hend. destruct l as [|r l].
  { split; constructor. }
  apply Forall_cons in Hs as [Hr Hs]. apply Forall_cons in Hend as [Hre Hend].
  apply StronglySorted_cons in Hinc as [Hrl Hinc].
  unfold events_of. simpl. rewrite body_first, Hr.
  edestruct (run_settled end_ s l [] (if DoorReading.is_open r then Some (ts r) else None)
               (DoorReading.is_open r) (ts r)) as (b & Hb & H1 & H2 & H3); try done.
  { split; [|split]; simpl; [constructor| |constructor].
    intros t Ht. destruct (DoorReading.is_open r); [|done].
    injection Ht as <-. split; [lia|constructor]. }
  match goal with |- context [fold_left _ l ?st0] =>
    set (st := fold_left (body end_) l st0) in * end.
  assert (Hwf : Forall well_formed (events st)).
  { eapply Forall_impl; [exact H1|]. intros e (c & Hc & Hoc & _ & Hd).
    split; [intros c'; rewrite Hc; intros [= <-]; lia|].
    rewrite Hd. apply int_total_seconds_nonneg. lia. }
  unfold still_open.
  destruct (current_event_start st) as [t|] eqn:Ht;
    [destruct (current_sensor_id st) as [c|]|]; rewrite ?app_nil_r; try done.
  destruct (H2 t eq_refl) as [Htb Hbefore]. split.
  - apply Forall_app. split; [done|]. apply Forall_singleton. split; simpl; [done|].
    apply int_total_seconds_nonneg. lia.
  - apply StronglySorted_app_2; [|done|repeat constructor].
    intros e1 e2 He1 ->%list_elem_of_singleton.
    rewrite Forall_forall in H1, Hbefore.
    destruct (H1 e1 He1) as (c1 & Hc1 & Hoc & _).
    destruct (Hbefore e1 He1) as (c' & Hc' & Hlt).
    rewrite Hc1 in Hc'. injection Hc' as <-. unfold precedes. simpl.
    split; [exists c1; split; [done|lia] | lia].
Qed.

(** ** Durations are not negative *)

Lemma body_timely end_ s ev t p r b :
  sid r = s → b ≤ ts r →
  timely b (mk ev (Some s) t (Some p)) →
  timely (ts r) (body end_ (mk ev (Some s) t (Some p)) r).
Proof.
  intros Hr Hb [H1 H2]. simpl in *. rewrite (body_same end_ ev s t p r Hr).
  destruct p, (DoorReading.is_open r), t as [o|]; simpl; split; simpl;
    try done; try (intros ? [= <-]; first [lia | specialize (H2 _ eq_refl); lia]).
  apply Forall_app. split; [done|]. apply Forall_singleton. simpl.
  apply int_total_seconds_nonneg. specialize (H2 _ eq_refl). lia.
Qed.

Lemma run_timely end_ s l : ∀ ev t p b,
  Forall (λ r, sid r = s) l →
  StronglySorted (λ r1 r2, ts r1 ≤ ts r2) l →
  Forall (λ r, b ≤ ts r) l →
  Forall (λ r, ts r ≤ end_) l → b ≤ end_ →
  timely b (mk ev (Some s) t (Some p)) →
  ∃ b', b' ≤ end_ ∧ timely b' (fold_left (body end_) l (mk ev (Some s) t (Some p))).
Proof.
  induction l as [|r l IH]; intros ev t p b Hs Hinc Hb Hend Hbe Hst; simpl.
  - eauto.
  - apply Forall_cons in Hs as [Hr Hs]. apply Forall_cons in Hb as [Hbr Hb].
    apply Forall_cons in Hend as [Hre Hend].
    apply StronglySorted_cons in Hinc as [Hrl Hinc].
    pose proof (body_timely end_ s ev t p r b Hr Hbr Hst) as Hst'.
    rewrite (body_same end_ ev s t p r Hr) in Hst' |- *.
    destruct (negb p && DoorReading.is_open r);
      [|destruct (p && negb (DoorReading.is_open r)); [destruct t|]];
      by eapply (IH _ _ _ (ts r)).
Qed.

Lemma events_of_single_nonneg end_ s l :
  Forall (λ r, sid r = s) l →
  StronglySorted (λ r1 r2, ts r1 ≤ ts r2) l →
  Forall (λ r, ts r ≤ end_) l →
  Forall (λ e, 0 ≤ DoorEvent.duration_seconds e) (events_of end_ l).
Proof.
  intros Hs Hinc Hend. destruct l as [|r l]; [constructor|].
  apply Forall_cons in Hs as [Hr Hs]. apply Forall_cons in Hend as [Hre Hend].
  apply StronglySorted_cons in Hinc as [Hrl Hinc].
  unfold events_of. simpl. rewrite body_first, Hr.
  edestruct (run_timely end_ s l [] (if DoorReading.is_open r then Some (ts r) else None)
               (DoorReading.is_open r) (ts r)) as (b & Hb & H1 & H2); try done.
  { split; simpl; [constructor|]. intros t Ht.
    destruct (DoorReading.is_open r); [|done]. injection Ht as <-. lia. }
  match goal with |- context [fold_left _ l ?st0] =>
    set (st := fold_left (body end_) l st0) in * end.
  apply Forall_app. split; [done|]. unfold still_open.
  destruct (current_event_start st) as [t|] eqn:Ht;
    [destruct (current_sensor_id st) as [c|]|]; try constructor; [|constructor].
  simpl. apply int_total_seconds_nonneg. specialize (H2 t eq_refl). lia.
Qed.

Lemma events_of_nonneg end_ l :
  StronglySorted (order_by key) l →
  Forall (λ r, ts r ≤ end_) l →
  Forall (λ e, 0 ≤ DoorEvent.duration_seconds e) (events_of end_ l).
Proof.
  intros Hl Hend. apply Forall_forall. intros e He.
  pose proof (events_of_single_nonneg end_ (DoorEvent.sensor_id e)
                (filter (λ r, sid r = DoorEvent.sensor_id e) l)) as Hone.
  rewrite <- (events_of_project end_ _ l Hl) in Hone.
  assert (Hall : Forall (λ e0, 0 ≤ DoorEvent.duration_seconds e0)
                   (filter (λ e0, DoorEvent.sensor_id e0 = DoorEvent.sensor_id e)
                           (events_of end_ l))).
  { apply Hone.
    - apply Forall_forall. intros r Hr. by apply list_elem_of_filter in Hr as [? _].
    - apply (order_by_weak key _ l Hl).
    - apply Forall_forall. intros r [_ Hr]%list_elem_of_filter.
      rewrite Forall_forall in Hend. by apply Hend. }
  rewrite Forall_forall in Hall. apply Hall. by apply list_elem_of_filter.
Qed.

(** ** Transitions and censoring, sensor by sensor *)

Lemma run_snoc_state end_ s pre a :
  Forall (λ r, sid r = s) (pre ++ [a]) →
  ∃ ev t, fold_left (body end_) (pre ++ [a]) initial
          = mk ev (Some s) t (Some (DoorReading.is_open a))
    ∧ if DoorReading.is_open a then is_Some t else t = None.
Proof.
  intros Hs.
  destruct (run_tracking end_ s (pre ++ [a]) a Hs (last_snoc _ _)) as [[Hc Ht] Hp].
  destruct (fold_left (body end_) (pre ++ [a]) initial) as [ev c t p]. simpl in *.
  subst c p. by exists ev, t.
Qed.

(** A closed-to-open transition opens an event at the timestamp of the
    open sample. *)
Lemma opening_emitted end_ s pre a b post :
  Forall (λ r, sid r = s) (pre ++ a :: b :: post) →
  DoorReading.is_open a = false → DoorReading.is_open b = true →
  ∃ e, e ∈ events_of end_ (pre ++ a :: b :: post)
       ∧ DoorEvent.sensor_id e = s ∧ DoorEvent.opened_at e = ts b.
Proof.
  intros Hs Ha Hb.
  replace (pre ++ a :: b :: post) with ((pre ++ [a]) ++ b :: post) in *
    by (by rewrite <- app_assoc).
  apply Forall_app in Hs as [Hpre Hpost]. apply Forall_cons in Hpost as [Hbs Hpost].
  destruct (run_snoc_state end_ s pre a Hpre) as (ev & t & Hst & Ht).
  rewrite Ha in Hst, Ht. subst t.
  unfold events_of. rewrite fold_left_app, Hst. simpl.
  rewrite (body_same end_ ev s None false b Hbs), Hb. simpl.
  destruct (pending_emitted end_ s post ev (ts b) Hpost) as (e & more & Heq & He1 & He2).
  simpl in Heq. rewrite Heq. exists e. split; [|done].
  apply elem_of_app. right. apply list_elem_of_here.
Qed.

(** An open-to-closed transition closes the event at the timestamp of the
    closed sample, with the whole seconds in between as its duration. *)
Lemma closing_emitted end_ s pre a b post :
  Forall (λ r, sid r = s) (pre ++ a :: b :: post) →
  DoorReading.is_open a = true → DoorReading.is_open b = false →
  ∃ e, e ∈ events_of end_ (pre ++ a :: b :: post)
       ∧ DoorEvent.sensor_id e = s ∧ DoorEvent.closed_at e = Some (ts b)
       ∧ DoorEvent.duration_seconds e
         = int_total_seconds (ts b - DoorEvent.opened_at e).
Proof.
  intros Hs Ha Hb.
  replace (pre ++ a :: b :: post) with ((pre ++ [a]) ++ b :: post) in *
    by (by rewrite <- app_assoc).
  apply Forall_app in Hs as [Hpre Hpost]. apply Forall_cons in Hpost as [Hbs Hpost].
  destruct (run_snoc_state end_ s pre a Hpre) as (ev & t & Hst & Ht).
  rewrite Ha in Hst, Ht. destruct Ht as [o ->].
  unfold events_of. rewrite fold_left_app, Hst. simpl.
  rewrite (body_same end_ ev s (Some o) true b Hbs), Hb. simpl.
  match goal with |- context [fold_left _ post ?st0] =>
    destruct (run_grow end_ post st0) as [more Hmore] end.
  rewrite Hmore. simpl.
  exists (DoorEvent.mk s o (Some (ts b)) (int_total_seconds (ts b - o))).
  split; [|done].
  rewrite <- !app_assoc. apply elem_of_app. right. apply list_elem_of_here.
Qed.

(** A sensor whose first reading is "open" has, as its first event, one
    that begins at that reading. *)
Lemma left_censored_single end_ s r rest :
  Forall (λ r, sid r = s) (r :: rest) → DoorReading.is_open r = true →
  ∃ e more, events_of end_ (r :: rest) = e :: more
    ∧ DoorEvent.sensor_id e = s ∧ DoorEvent.opened_at e = ts r.
Proof.
  intros [Hr Hs]%Forall_cons Ho. unfold events_of. simpl.
  rewrite body_first, Ho, Hr.
  destruct (pending_emitted end_ s rest [] (ts r) Hs) as (e & more & Heq & He).
  simpl in Heq. rewrite Heq. by exists e, more.
Qed.

(** A sensor whose last reading is "open" has, as its last event, one that
    is not closed, and lasts until the end of the window. *)
Lemma right_censored_single end_ s l r :
  Forall (λ r, sid r = s) l → last l = Some r → DoorReading.is_open r = true →
  ∃ e, last (events_of end_ l) = Some e
    ∧ DoorEvent.sensor_id e = s ∧ DoorEvent.closed_at e = None
    ∧ DoorEvent.duration_seconds e
      = int_total_seconds (end_ - DoorEvent.opened_at e).
Proof.
  intros Hs Hl Ho. apply last_Some in Hl as [pre ->].
  destruct (run_snoc_state end_ s pre r Hs) as (ev & t & Hst & Ht).
  rewrite Ho in Hst, Ht. destruct Ht as [o ->].
  unfold events_of. rewrite Hst. unfold still_open. simpl.
  exists (DoorEvent.mk s o None (int_total_seconds (end_ - o))).
  by rewrite last_snoc.
Qed.

Lemma left_censored end_ l s r rest :
  StronglySorted (order_by key) l →
  filter (λ r, sid r = s) l = r :: rest → DoorReading.is_open r = true →
  ∃ e more, filter (λ e, DoorEvent.sensor_id e = s) (events_of end_ l) = e :: more
    ∧ DoorEvent.opened_at e = ts r.
Proof.
  intros Hl Hf Ho. rewrite (events_of_project end_ s l Hl), Hf.
  destruct (left_censored_single end_ s r rest) as (e & more & ? & ? & ?); [|done|eauto].
  rewrite <- Hf. apply Forall_forall. intros x Hx.
  by apply list_elem_of_filter in Hx as [? _].
Qed.

Lemma right_censored end_ l s r :
  StronglySorted (order_by key) l →
  last (filter (λ r, sid r = s) l) = Some r → DoorReading.is_open r = true →
  ∃ e, last (filter (λ e, DoorEvent.sensor_id e = s) (events_of end_ l)) = Some e
    ∧ DoorEvent.closed_at e = None
    ∧ DoorEvent.duration_seconds e
      = int_total_seconds (end_ - DoorEvent.opened_at e).
Proof.
  intros Hl Hf Ho. rewrite (events_of_project end_ s l Hl).
  destruct (right_censored_single end_ s (filter (λ r, sid r = s) l) r)
    as (e & ? & ? & ? & ?); [|done|done|eauto].
  apply Forall_forall. intros x Hx. by apply list_elem_of_filter in Hx as [? _].
Qed.

(** ** Episodes: runs of "open" readings, sensor by sensor *)

(** While the readings say "open" the open event stays as it is. *)
Lemma run_open end_ s ev t l :
  Forall (λ r, sid r = s) l → Forall (λ r, DoorReading.is_open r = true) l →
  fold_left (body end_) l (mk ev (Some s) (Some t) (Some true))
  = mk ev (Some s) (Some t) (Some true).
Proof.
  induction l as [|r l IH]; intros Hs Ho; simpl; [done|].
  apply Forall_cons in Hs as [Hr Hs]. apply Forall_cons in Ho as [Hor Ho].
  rewrite (body_same end_ ev s (Some t) true r Hr), Hor. simpl. by apply IH.
Qed.

(** An "open" reading that is the first of its sensor, or follows a
    "closed" one, opens an event at its timestamp. *)
Lemma onset_state end_ s pre a :
  Forall (λ r, sid r = s) (pre ++ [a]) →
  (∀ p, last pre = Some p → DoorReading.is_open p = false) →
  DoorReading.is_open a = true →
  ∃ ev, fold_left (body end_) (pre ++ [a]) initial
        = mk ev (Some s) (Some (ts a)) (Some true).
Proof.
  intros Hs Hquiet Ha. apply Forall_app in Hs as [Hpre Has].
  rewrite Forall_singleton in Has. rewrite fold_left_app. simpl.
  destruct pre as [|p pre _] using rev_ind.
  - simpl. rewrite body_first, Ha, Has. by eexists.
  - destruct (run_snoc_state end_ s pre p Hpre) as (ev & t & -> & Ht).
    rewrite (Hquiet p (last_snoc _ _)) in Ht |- *. subst t.
    rewrite (body_same end_ ev s None false a Has), Ha. simpl. by eexists.
Qed.

(** A run of "open" readings ended by a "closed" one is one event, from the
    first reading of the run to the closed one. *)
Lemma episode_emitted end_ s pre a run b post :
  Forall (λ r, sid r = s) (pre ++ a :: run ++ b :: post) →
  (∀ p, last pre = Some p → DoorReading.is_open p = false) →
  Forall (λ r, DoorReading.is_open r = true) (a :: run) →
  DoorReading.is_open b = false →
  DoorEvent.mk s (ts a) (Some (ts b)) (int_total_seconds (ts b - ts a))
    ∈ events_of end_ (pre ++ a :: run ++ b :: post).
Proof.
  intros Hs Hquiet Hopen Hb.
  replace (pre ++ a :: run ++ b :: post) with ((pre ++ [a]) ++ run ++ b :: post) in *
    by (by rewrite <- app_assoc).
  apply Forall_app in Hs as [Hpre Hs]. apply Forall_app in Hs as [Hrun Hs].
  apply Forall_cons in Hs as [Hbs Hpost]. apply Forall_cons in Hopen as [Ha Hopen].
  destruct (onset_state end_ s pre a Hpre Hquiet Ha) as [ev Hst].
  unfold events_of.
  rewrite fold_left_app, Hst, fold_left_app, (run_open end_ s ev (ts a) run) by done.
  simpl. rewrite (body_same end_ ev s (Some (ts a)) true b Hbs), Hb. simpl.
  match goal with |- context [fold_left _ post ?st0] =>
    destruct (run_grow end_ post st0) as [more Hmore] end.
  rewrite Hmore. simpl. rewrite <- !app_assoc.
  apply elem_of_app. right. apply list_elem_of_here.
Qed.

(** A run of "open" readings that ends the readings of the sensor is one
    event without a close, lasting to the end of the window. *)
Lemma open_episode_emitted end_ s pre a run :
  Forall (λ r, sid r = s) (pre ++ a :: run) →
  (∀ p, last pre = Some p → DoorReading.is_open p = false) →
  Forall (λ r, DoorReading.is_open r = true) (a :: run) →
  DoorEvent.mk s (ts a) None (int_total_seconds (end_ - ts a))
    ∈ events_of end_ (pre ++ a :: run).
Proof.
  intros Hs Hquiet Hopen.
  replace (pre ++ a :: run) with ((pre ++ [a]) ++ run) in * by (by rewrite <- app_assoc).
  apply Forall_app in Hs as [Hpre Hrun]. apply Forall_cons in Hopen as [Ha Hopen].
  destruct (onset_state end_ s pre a Hpre Hquiet Ha) as [ev Hst].
  unfold events_of. rewrite fold_left_app, Hst, (run_open end_ s ev (ts a) run) by done.
  unfold still_open. simpl. apply elem_of_app. right. apply list_elem_of_here.
Qed.

(** ** The door loop on a whole query result *)

Lemma events_of_wf end_ l :
  StronglySorted (order_by key) l → NoDup (key <$> l) →
  Forall (λ r, ts r ≤ end_) l →
  Forall well_formed (events_of end_ l)
  ∧ ∀ s, StronglySorted precedes
           (filter (λ e, DoorEvent.sensor_id e = s) (events_of end_ l)).
Proof.
  intros Hl Hnd Hend.
  assert (Hone : ∀ s,
    Forall well_formed (events_of end_ (filter (λ r, sid r = s) l))
    ∧ StronglySorted precedes (events_of end_ (filter (λ r, sid r = s) l))).
  { intros s. apply (events_of_single end_ s).
    - apply Forall_forall. intros r Hr. by apply list_elem_of_filter in Hr as [? _].
    - apply (order_by_strict key s l Hl Hnd).
    - apply Forall_forall. intros r [_ Hr]%list_elem_of_filter.
      rewrite Forall_forall in Hend. by apply Hend. }
  split.
  - apply Forall_forall. intros e He.
    destruct (Hone (DoorEvent.sensor_id e)) as [Hwf _].
    rewrite <- (events_of_project end_ _ l Hl) in Hwf.
    rewrite Forall_forall in Hwf. apply Hwf. by apply list_elem_of_filter.
  - intros s. rewrite (events_of_project end_ s l Hl). apply Hone.
Qed.

Lemma query_sorted db start end_ sensor_id zone_id :
  StronglySorted (order_by key) (query db start end_ sensor_id zone_id).
Proof. unfold query. apply StronglySorted_merge_sort; apply _. Qed.

Lemma query_elem db start end_ sensor_id zone_id r :
  r ∈ query db start end_ sensor_id zone_id →
  r ∈ door_readings db ∧ start ≤ ts r ∧ ts r ≤ end_.
Proof.
  unfold query. rewrite merge_sort_Permutation.
  destruct (truthy sensor_id); [|destruct (truthy zone_id)];
    rewrite ?list_elem_of_filter; tauto.
Qed.

Lemma query_sublist db start end_ sensor_id zone_id :
  ∃ l, query db start end_ sensor_id zone_id ≡ₚ l ∧ l `sublist_of` door_readings db.
Proof.
  unfold query. eexists. split; [apply merge_sort_Permutation|].
  destruct (truthy sensor_id); [|destruct (truthy zone_id)];
    repeat (etransitivity; [apply sublist_filter|]); done.
Qed.

Lemma query_NoDup db start end_ sensor_id zone_id :
  NoDup (key <$> door_readings db) →
  NoDup (key <$> query db start end_ sensor_id zone_id).
Proof.
  intros Hnd. destruct (query_sublist db start end_ sensor_id zone_id) as (l & Hp & Hs).
  rewrite Hp. apply (sublist_NoDup _ (key <$> door_readings db)); [done|].
  by apply fmap_sublist.
Qed.

End DoorFacts.

(** ** The presence loop is the door loop followed by the duration filter *)

Module PresenceFacts.
Import EventService PresenceInvariants.

Lemma still_active_simulates end_ md ps ds :
  simulates md ps ds →
  forget <$> Presence.still_active end_ md ps
  = filter (λ e, md ≤ DoorEvent.duration_seconds e) (Door.still_open end_ ds).
Proof.
  intros (_ & Hc & Ht & _). unfold Presence.still_active, Door.still_open.
  rewrite Hc, Ht.
  destruct (Door.current_event_start ds) as [t|], (Door.current_sensor_id ds) as [c|];
    try done.
  case_decide.
  - by rewrite filter_cons_True.
  - by rewrite filter_cons_False.
Qed.

Lemma body_simulates end_ md ps ds rw :
  simulates md ps ds →
  simulates md (Presence.body end_ md ps rw) (Door.body end_ ds (to_door rw)).
Proof.
  intros Hsim. pose proof (still_active_simulates end_ md ps ds Hsim) as Hsa.
  destruct ps as [pe pc pz pt pp], ds as [de dc dt dp].
  destruct Hsim as (He & Hc & Ht & Hp). simpl in He, Hc, Ht, Hp. subst pc pt pp.
  destruct rw as [reading zone].
  unfold simulates, Presence.body, Door.body, to_door. simpl.
  case_decide; simpl.
  - destruct (MotionReading.motion_detected reading); simpl;
      (split; [|done]); by rewrite fmap_app, filter_app, He, Hsa.
  - destruct dp as [[]|], (MotionReading.motion_detected reading), dt as [t|];
      simpl; try done.
    split; [|done]. rewrite filter_app. case_decide.
    + rewrite filter_cons_True by done. by rewrite fmap_app, He.
    + rewrite filter_cons_False by done. simpl. by rewrite app_nil_r.
Qed.

Lemma run_simulates end_ md rows : ∀ ps ds,
  simulates md ps ds →
  simulates md (fold_left (Presence.body end_ md) rows ps)
               (fold_left (Door.body end_) (to_door <$> rows) ds).
Proof.
  induction rows as [|rw rows IH]; intros ps ds Hsim; simpl; [done|].
  by apply IH, body_simulates.
Qed.

Lemma events_of_simulates end_ md rows :
  forget <$> Presence.events_of end_ md rows
  = filter (λ e, md ≤ DoorEvent.duration_seconds e)
           (Door.events_of end_ (to_door <$> rows)).
Proof.
  unfold Presence.events_of, Door.events_of.
  assert (Hsim : simulates md (fold_left (Presence.body end_ md) rows Presence.initial)
                   (fold_left (Door.body end_) (to_door <$> rows) Door.initial)).
  { by apply run_simulates. }
  rewrite fmap_app, filter_app, (still_active_simulates end_ md _ _ Hsim).
  by destruct Hsim as [-> _].
Qed.

(** ** The safety flag *)

Lemma still_active_flagged end_ md st : Forall flagged (Presence.still_active end_ md st).
Proof.
  unfold Presence.still_active.
  destruct (Presence.current_event_start st), (Presence.current_sensor_id st);
    try constructor.
  case_decide; repeat constructor.
Qed.

Lemma body_flagged end_ md st rw :
  Forall flagged (Presence.events st) →
  Forall flagged (Presence.events (Presence.body end_ md st rw)).
Proof.
  intros Hf. pose proof (still_active_flagged end_ md st) as Hsa.
  destruct rw as [reading zone]. unfold Presence.body.
  case_decide; simpl.
  - destruct (MotionReading.motion_detected reading); simpl; by apply Forall_app.
  - destruct (Presence.prev_motion st) as [[]|],
      (MotionReading.motion_detected reading),
      (Presence.current_event_start st); simpl; try done.
    case_decide; [|done]. apply Forall_app. split; [done|]. by repeat constructor.
Qed.

Lemma events_of_flagged end_ md rows : Forall flagged (Presence.events_of end_ md rows).
Proof.
  unfold Presence.events_of. apply Forall_app. split; [|apply still_active_flagged].
  assert (H : ∀ st, Forall flagged (Presence.events st) →
            Forall flagged (Presence.events (fold_left (Presence.body end_ md) rows st))).
  { induction rows as [|rw rows IH]; intros st Hst; simpl; [done|].
    by apply IH, body_flagged. }
  apply H. constructor.
Qed.

(** ** The minimum duration *)

Lemma still_active_keeps end_ md0 md st0 st :
  md0 ≤ md → keeps md st0 st →
  Presence.still_active end_ md st
  = filter (λ e, md ≤ PresenceEvent.duration_seconds e)
           (Presence.still_active end_ md0 st0).
Proof.
  intros Hmd (_ & Hc & Hz & Ht & _). unfold Presence.still_active.
  rewrite Hc, Hz, Ht.
  destruct (Presence.current_event_start st0) as [t|],
    (Presence.current_sensor_id st0) as [c|]; try done.
  cbv zeta. repeat case_decide; try lia; try done.
  all: rewrite ?filter_cons_True by (simpl; lia);
    rewrite ?filter_cons_False by (simpl; lia); done.
Qed.

Lemma body_keeps end_ md0 md st0 st rw :
  md0 ≤ md → keeps md st0 st →
  keeps md (Presence.body end_ md0 st0 rw) (Presence.body end_ md st rw).
Proof.
  intros Hmd Hk. pose proof (still_active_keeps end_ md0 md st0 st Hmd Hk) as Hsa.
  destruct st0 as [e0 c0 z0 t0 p0], st as [e c z t p].
  destruct Hk as (He & Hc & Hz & Ht & Hp). simpl in He, Hc, Hz, Ht, Hp. subst c z t p.
  destruct rw as [reading zone]. unfold keeps, Presence.body.
  cbn -[Presence.still_active]. case_decide; cbn -[Presence.still_active].
  - destruct (MotionReading.motion_detected reading); cbn -[Presence.still_active];
      (split; [|done]); by rewrite filter_app, Hsa, He.
  - destruct p0 as [[]|], (MotionReading.motion_detected reading), t0 as [t|];
      simpl; try done.
    split; [|done]. cbv zeta. repeat case_decide; try lia; rewrite ?filter_app.
    all: rewrite ?filter_cons_True by (simpl; lia);
      rewrite ?filter_cons_False by (simpl; lia); simpl;
      rewrite ?app_nil_r; by rewrite He.
Qed.

Lemma events_of_keeps end_ md0 md rows :
  md0 ≤ md →
  Presence.events_of end_ md rows
  = filter (λ e, md ≤ PresenceEvent.duration_seconds e)
           (Presence.events_of end_ md0 rows).
Proof.
  intros Hmd. unfold Presence.events_of.
  assert (H : ∀ st0 st, keeps md st0 st →
            keeps md (fold_left (Presence.body end_ md0) rows st0)
                     (fold_left (Presence.body end_ md) rows st)).
  { induction rows as [|rw rows IH]; intros st0 st Hk; simpl; [done|].
    by apply IH, body_keeps. }
  specialize (H Presence.initial Presence.initial).
  rewrite filter_app, <- (still_active_keeps end_ md0 md _ _ Hmd (H ltac:(done))).
  by destruct (H ltac:(done)) as [-> _].
Qed.

End PresenceFacts.

(** * The event reconstructor: stated properties *)

Module EventTheorems.
Import EventService Samples PresenceInvariants.

Lemma StronglySorted_fmap_inv {A B} (f : A → B) (R1 : relation A) (R2 : relation B) l :
  (∀ x y, R2 (f x) (f y) → R1 x y) →
  StronglySorted R2 (f <$> l) → StronglySorted R1 l.
Proof.
  intros HR. induction l as [|x l IH]; intros Hs; [constructor|].
  rewrite fmap_cons in Hs. apply StronglySorted_cons in Hs as [Hx Hs].
  constructor; [by apply IH|].
  rewrite Forall_fmap in Hx. eapply Forall_impl; [exact Hx|]. intros y Hy. by apply HR.
Qed.

Lemma presence_query_sorted db start end_ sensor_id zone_id :
  StronglySorted (order_by Door.key)
    (to_door <$> Presence.query db start end_ sensor_id zone_id).
Proof.
  apply (StronglySorted_fmap _ (order_by Presence.key)); [done|].
  unfold Presence.query. apply StronglySorted_merge_sort; apply _.
Qed.

Lemma presence_query_window db start end_ sensor_id zone_id :
  Forall (λ r, DoorReading.timestamp r ≤ end_)
    (to_door <$> Presence.query db start end_ sensor_id zone_id).
Proof.
  rewrite Forall_fmap. apply Forall_forall. intros rw.
  unfold Presence.query. rewrite merge_sort_Permutation.
  destruct (truthy sensor_id); [|destruct (truthy zone_id)];
    rewrite ?list_elem_of_filter; simpl; tauto.
Qed.

Lemma door_query_window db start end_ sensor_id zone_id :
  Forall (λ r, DoorReading.timestamp r ≤ end_) (Door.query db start end_ sensor_id zone_id).
Proof.
  apply Forall_forall. intros r Hr. by apply DoorFacts.query_elem in Hr as (_ & _ & ?).
Qed.

(** The presence events of a sensor, seen as door events, are the door
    events of its rows that reach the minimum duration. *)
Lemma presence_events_project db start end_ sensor_id zone_id md s :
  forget <$>
    filter (λ e, PresenceEvent.sensor_id e = s)
           (get_presence_events db start end_ sensor_id zone_id md)
  = filter (λ e, md ≤ DoorEvent.duration_seconds e)
      (filter (λ e, DoorEvent.sensor_id e = s)
         (Door.events_of end_
            (to_door <$> Presence.query db start end_ sensor_id zone_id))).
Proof.
  unfold get_presence_events.
  rewrite <- (filter_fmap forget (λ e, DoorEvent.sensor_id e = s)
                (λ e, PresenceEvent.sensor_id e = s)) by done.
  rewrite PresenceFacts.events_of_simulates, !list_filter_filter.
  apply list_filter_iff. tauto.
Qed.

Lemma presence_events_project_all db start end_ sensor_id zone_id md s :
  md ≤ 0 →
  forget <$>
    filter (λ e, PresenceEvent.sensor_id e = s)
           (get_presence_events db start end_ sensor_id zone_id md)
  = filter (λ e, DoorEvent.sensor_id e = s)
      (Door.events_of end_
         (to_door <$> Presence.query db start end_ sensor_id zone_id)).
Proof.
  intros Hmd. rewrite presence_events_project. apply filter_all.
  apply Forall_forall. intros e [_ He]%list_elem_of_filter.
  pose proof (DoorFacts.events_of_nonneg end_ _
                (presence_query_sorted db start end_ sensor_id zone_id)
                (presence_query_window db start end_ sensor_id zone_id)) as Hnn.
  rewrite Forall_forall in Hnn. specialize (Hnn e He). lia.
Qed.

Lemma door_events_project db start end_ sensor_id zone_id s :
  filter (λ e, DoorEvent.sensor_id e = s)
         (get_door_events db start end_ sensor_id zone_id)
  = Door.events_of end_
      (filter (λ r, DoorReading.sensor_id r = s)
              (Door.query db start end_ sensor_id zone_id)).
Proof. apply DoorFacts.events_of_project, DoorFacts.query_sorted. Qed.

Lemma door_query_single db start end_ sensor_id zone_id s :
  Forall (λ r, DoorReading.sensor_id r = s)
    (filter (λ r, DoorReading.sensor_id r = s)
            (Door.query db start end_ sensor_id zone_id)).
Proof. apply Forall_forall. intros r Hr. by apply list_elem_of_filter in Hr as [? _]. Qed.

(** C2. A door whose readings in the window are closed at [t0], open at
    [t1], closed at [t2] has exactly one event: opened at [t1], closed at
    [t2], lasting the whole seconds of [t2 - t1].  More generally, among
    the readings of a door, a closed reading followed by an open one opens
    an event at the open reading's timestamp, and an open reading followed
    by a closed one closes an event at the closed reading's timestamp.
    (The query orders the readings of a sensor by time, so [t0 <= t1 <= t2]
    follows from the first hypothesis.) *)
Theorem door_events_round_trip db start end_ sensor_id zone_id s :
  let readings :=
    filter (λ r, DoorReading.sensor_id r = s)
           (Door.query db start end_ sensor_id zone_id) in
  let events :=
    filter (λ e, DoorEvent.sensor_id e = s)
           (get_door_events db start end_ sensor_id zone_id) in
  (∀ t0 t1 t2,
     readings = [DoorReading.mk s t0 false; DoorReading.mk s t1 true;
                 DoorReading.mk s t2 false] →
     events = [DoorEvent.mk s t1 (Some t2) (int_total_seconds (t2 - t1))])
  ∧ (∀ pre a b post,
       readings = pre ++ a :: b :: post →
       DoorReading.is_open a = false → DoorReading.is_open b = true →
       ∃ e, e ∈ events ∧ DoorEvent.opened_at e = DoorReading.timestamp b)
  ∧ (∀ pre a b post,
       readings = pre ++ a :: b :: post →
       DoorReading.is_open a = true → DoorReading.is_open b = false →
       ∃ e, e ∈ events
            ∧ DoorEvent.closed_at e = Some (DoorReading.timestamp b)
            ∧ DoorEvent.duration_seconds e
              = int_total_seconds (DoorReading.timestamp b - DoorEvent.opened_at e)).
Proof.
  intros readings events. subst events. rewrite door_events_project. fold readings.
  pose proof (door_query_single db start end_ sensor_id zone_id s) as Hs.
  fold readings in Hs. clearbody readings. split; [|split].
  - intros t0 t1 t2 ->. unfold Door.events_of. cbn [fold_left].
    rewrite DoorFacts.body_first. cbn [DoorReading.is_open DoorReading.sensor_id].
    rewrite (DoorFacts.body_same end_ [] s None false) by done.
    cbn [DoorReading.is_open negb andb DoorReading.timestamp].
    rewrite (DoorFacts.body_same end_ [] s (Some t1) true) by done.
    reflexivity.
  - intros pre a b post -> Ha Hb.
    destruct (DoorFacts.opening_emitted end_ s pre a b post Hs Ha Hb) as (e & ? & ? & ?).
    eauto.
  - intros pre a b post -> Ha Hb.
    destruct (DoorFacts.closing_emitted end_ s pre a b post Hs Ha Hb)
      as (e & ? & ? & ? & ?).
    eauto.
Qed.

Lemma door_events_round_trip_witness :
  filter (λ e, DoorEvent.sensor_id e = "dock-door")
         (get_door_events door_db 0 (seconds 3600) None None)
  = [DoorEvent.mk "dock-door" (seconds 20) (Some (seconds 95)) 75].
Proof.
  apply (proj1 (door_events_round_trip door_db 0 (seconds 3600) None None "dock-door")
           (seconds 10) (seconds 20) (seconds 95)).
  vm_compute. reflexivity.
Defined.

(** C3, as amended.  Censoring at the borders of the window.  For doors: a
    sensor whose first reading in the window is "open" has, as its first
    event, one that begins at that reading; a sensor whose last reading in
    the window is "open" has, as its last event, one without a closing time
    whose duration is the whole seconds from its opening to the end of the
    window.  For presence the same holds when [min_duration_seconds <= 0]
    (0 is the default); for any minimum the events returned are those of
    such a run that last at least the minimum, so a censored presence event
    shorter than the minimum is dropped. *)
Theorem censored_events db start end_ sensor_id zone_id s :
  (let readings :=
     filter (λ r, DoorReading.sensor_id r = s)
            (Door.query db start end_ sensor_id zone_id) in
   let events :=
     filter (λ e, DoorEvent.sensor_id e = s)
            (get_door_events db start end_ sensor_id zone_id) in
   (∀ r rest, readings = r :: rest → DoorReading.is_open r = true →
      ∃ e more, events = e :: more
        ∧ DoorEvent.opened_at e = DoorReading.timestamp r)
   ∧ (∀ r, last readings = Some r → DoorReading.is_open r = true →
        ∃ e, last events = Some e ∧ DoorEvent.closed_at e = None
          ∧ DoorEvent.duration_seconds e
            = int_total_seconds (end_ - DoorEvent.opened_at e)))
  ∧ ∀ min_duration_seconds,
      let rows :=
        filter (λ rw : Presence.row, MotionReading.sensor_id rw.1 = s)
               (Presence.query db start end_ sensor_id zone_id) in
      let events :=
        filter (λ e, PresenceEvent.sensor_id e = s)
               (get_presence_events db start end_ sensor_id zone_id
                  min_duration_seconds) in
      (min_duration_seconds ≤ 0 →
         ∀ rw rest, rows = rw :: rest → MotionReading.motion_detected rw.1 = true →
           ∃ e more, events = e :: more
             ∧ PresenceEvent.started_at e = MotionReading.timestamp rw.1)
      ∧ (min_duration_seconds ≤ 0 →
           ∀ rw, last rows = Some rw → MotionReading.motion_detected rw.1 = true →
             ∃ e, last events = Some e ∧ PresenceEvent.ended_at e = None
               ∧ PresenceEvent.duration_seconds e
                 = int_total_seconds (end_ - PresenceEvent.started_at e))
      ∧ get_presence_events db start end_ sensor_id zone_id min_duration_seconds
        = filter (λ e, min_duration_seconds ≤ PresenceEvent.duration_seconds e)
            (get_presence_events db start end_ sensor_id zone_id
               (Z.min min_duration_seconds 0)).
Proof.
  split.
  - split.
    + intros r rest Hr Ho. unfold get_door_events.
      by apply (DoorFacts.left_censored end_ _ s r rest (DoorFacts.query_sorted _ _ _ _ _)).
    + intros r Hr Ho. unfold get_door_events.
      by apply (DoorFacts.right_censored end_ _ s r (DoorFacts.query_sorted _ _ _ _ _)).
  - intros md rows events.
    assert (Hrows : filter (λ r, DoorReading.sensor_id r = s)
                      (to_door <$>
                         Presence.query db start end_ sensor_id zone_id)
                    = to_door <$> rows).
    { by apply filter_fmap. }
    split; [|split].
    + intros Hmd rw rest Hr Hm.
      pose proof (presence_events_project_all db start end_ sensor_id zone_id md s Hmd)
        as Hsim. fold events in Hsim.
      destruct (DoorFacts.left_censored end_ _ s (to_door rw)
                  (to_door <$> rest)
                  (presence_query_sorted db start end_ sensor_id zone_id))
        as (de & dmore & Hde & Hopen); [by rewrite Hrows, Hr|done|].
      rewrite Hde in Hsim. apply fmap_cons_inv in Hsim as (e & more & -> & _ & ->).
      by exists e, more.
    + intros Hmd rw Hr Hm.
      pose proof (presence_events_project_all db start end_ sensor_id zone_id md s Hmd)
        as Hsim. fold events in Hsim.
      destruct (DoorFacts.right_censored end_ _ s (to_door rw)
                  (presence_query_sorted db start end_ sensor_id zone_id))
        as (de & Hde & Hclosed & Hdur); [by rewrite Hrows, fmap_last, Hr|done|].
      rewrite <- Hsim, fmap_last in Hde.
      destruct (last events) as [e|]; [|done]. injection Hde as <-.
      by exists e.
    + apply PresenceFacts.events_of_keeps. lia.
Qed.

Lemma censored_events_witness :
  ∃ e, last (filter (λ e, DoorEvent.sensor_id e = "cold-door")
               (get_door_events door_db 0 (seconds 3600) None None)) = Some e
    ∧ DoorEvent.closed_at e = None
    ∧ DoorEvent.duration_seconds e
      = int_total_seconds (seconds 3600 - DoorEvent.opened_at e).
Proof.
  apply (proj2 (proj1 (censored_events door_db 0 (seconds 3600) None None "cold-door"))
           (DoorReading.mk "cold-door" (seconds 300) true)).
  - vm_compute. reflexivity.
  - reflexivity.
Defined.

(** The claim C3 as first stated fails for presence events: with a minimum
    duration of 600 seconds, a sensor whose only reading in the window
    [0 s, 100 s], at 40 s, reports motion has no event at all. *)
Lemma censored_presence_dropped :
  Presence.query brief_motion_db 0 (seconds 100) None None
    = [(MotionReading.mk "cold-a-motion" (seconds 40) true, "cold-a")]
  ∧ get_presence_events brief_motion_db 0 (seconds 100) None None 600 = [].
Proof. split; vm_compute; reflexivity. Qed.

(** C4. Every presence event returned is flagged as a safety concern
    exactly when it lasts 600 seconds or more; the threshold is the
    constant 600 and no argument of the call changes it.  On the sample
    data, the presence of exactly 600 seconds is flagged and the one of 599
    seconds is not. *)
Theorem safety_concern_threshold db start end_ sensor_id zone_id min_duration_seconds :
  Forall (λ e, PresenceEvent.is_safety_concern e
               = bool_decide (600 ≤ PresenceEvent.duration_seconds e))
    (get_presence_events db start end_ sensor_id zone_id min_duration_seconds)
  ∧ SAFETY_CONCERN_THRESHOLD_SECONDS = 600
  ∧ get_presence_events motion_db 0 (seconds 3600) None None 0
    = [ PresenceEvent.mk "cold-a-motion" "cold-a" (seconds 900) (Some (seconds 1500))
          600 true;
        PresenceEvent.mk "cold-a-motion" "cold-a" (seconds 2000) (Some (seconds 2599))
          599 false ].
Proof.
  split; [|split].
  - apply PresenceFacts.events_of_flagged.
  - reflexivity.
  - vm_compute. reflexivity.
Qed.

Lemma presence_rows_project db start end_ sensor_id zone_id s :
  filter (λ e, DoorEvent.sensor_id e = s)
    (Door.events_of end_ (to_door <$> Presence.query db start end_ sensor_id zone_id))
  = Door.events_of end_
      (to_door <$>
         filter (λ rw : Presence.row, MotionReading.sensor_id rw.1 = s)
           (Presence.query db start end_ sensor_id zone_id)).
Proof.
  rewrite (DoorFacts.events_of_project end_ s _
             (presence_query_sorted db start end_ sensor_id zone_id)).
  f_equal. by apply filter_fmap.
Qed.

(** An event of the door loop on the rows of a sensor that lasts the
    minimum is among the presence events returned. *)
Lemma presence_event_kept db start end_ sensor_id zone_id md s (d : DoorEvent.t) :
  d ∈ Door.events_of end_
        (to_door <$>
           filter (λ rw : Presence.row, MotionReading.sensor_id rw.1 = s)
             (Presence.query db start end_ sensor_id zone_id)) →
  md ≤ DoorEvent.duration_seconds d →
  ∃ e, e ∈ get_presence_events db start end_ sensor_id zone_id md
       ∧ PresenceEvent.sensor_id e = s ∧ forget e = d.
Proof.
  intros Hd Hmd. rewrite <- presence_rows_project in Hd.
  assert (Hin : d ∈ forget <$>
                  filter (λ e, PresenceEvent.sensor_id e = s)
                    (get_presence_events db start end_ sensor_id zone_id md)).
  { rewrite presence_events_project. by apply list_elem_of_filter. }
  apply list_elem_of_fmap in Hin as (e & -> & [Hs He]%list_elem_of_filter).
  by exists e.
Qed.

(** C5. Of the presence episodes that the rows of a sensor show, those and
    only those that last the minimum give an event.  An episode is a run of
    rows that report motion, begun by the first row of the sensor or after
    a row that reports none; its duration is computed first: the whole
    seconds from its first row to the row without motion that ends it, or
    to the end of the window while none does.  The event is returned
    exactly when that duration is at least the minimum, so an episode of
    exactly the minimum is kept and a shorter one is left out, also when
    it is still open at the end of the window.  No event returned is
    shorter than the minimum, and the events returned are those of the same
    call with any smaller minimum that last at least the minimum. *)
Theorem min_duration_filter db start end_ sensor_id zone_id min_duration_seconds s :
  let rows :=
    filter (λ rw : Presence.row, MotionReading.sensor_id rw.1 = s)
           (Presence.query db start end_ sensor_id zone_id) in
  let events :=
    get_presence_events db start end_ sensor_id zone_id min_duration_seconds in
  (∀ pre a run b post,
     rows = pre ++ a :: run ++ b :: post → quiet pre → moving (a :: run) →
     MotionReading.motion_detected b.1 = false →
     let duration :=
       int_total_seconds (MotionReading.timestamp b.1 - MotionReading.timestamp a.1) in
     min_duration_seconds ≤ duration
     ↔ ∃ e, e ∈ events ∧ PresenceEvent.sensor_id e = s
            ∧ PresenceEvent.started_at e = MotionReading.timestamp a.1
            ∧ PresenceEvent.ended_at e = Some (MotionReading.timestamp b.1)
            ∧ PresenceEvent.duration_seconds e = duration)
  ∧ (∀ pre a run,
       rows = pre ++ a :: run → quiet pre → moving (a :: run) →
       let duration := int_total_seconds (end_ - MotionReading.timestamp a.1) in
       min_duration_seconds ≤ duration
       ↔ ∃ e, e ∈ events ∧ PresenceEvent.sensor_id e = s
              ∧ PresenceEvent.started_at e = MotionReading.timestamp a.1
              ∧ PresenceEvent.ended_at e = None
              ∧ PresenceEvent.duration_seconds e = duration)
  ∧ Forall (λ e, min_duration_seconds ≤ PresenceEvent.duration_seconds e) events
  ∧ ∀ md0, md0 ≤ min_duration_seconds →
      events
      = filter (λ e, min_duration_seconds ≤ PresenceEvent.duration_seconds e)
          (get_presence_events db start end_ sensor_id zone_id md0).
Proof.
  intros rows events.
  assert (Hshort : Forall (λ e, min_duration_seconds ≤ PresenceEvent.duration_seconds e)
                     events).
  { unfold events, get_presence_events.
    rewrite (PresenceFacts.events_of_keeps end_ min_duration_seconds
               min_duration_seconds) by done.
    apply Forall_forall. intros e He. by apply list_elem_of_filter in He as [? _]. }
  assert (Hsensor : Forall (λ r, DoorReading.sensor_id r = s) (to_door <$> rows)).
  { apply Forall_fmap, Forall_forall. intros rw Hrw.
    by apply list_elem_of_filter in Hrw as [? _]. }
  assert (Hquiet : ∀ pre, quiet pre →
            ∀ p, last (to_door <$> pre) = Some p → DoorReading.is_open p = false).
  { intros pre Hpre p Hp. rewrite fmap_last in Hp.
    destruct (last pre) as [rw|] eqn:Hrw; [|done]. injection Hp as <-.
    by apply Hpre. }
  assert (Hmoving : ∀ run, moving run →
            Forall (λ r, DoorReading.is_open r = true) (to_door <$> run)).
  { intros run Hrun. by apply Forall_fmap. }
  split_and!; [| |done|].
  - intros pre a run b post Hrows Hpre Hrun Hb duration. split.
    + intros Hmd.
      destruct (presence_event_kept db start end_ sensor_id zone_id
                  min_duration_seconds s
                  (DoorEvent.mk s (MotionReading.timestamp a.1)
                     (Some (MotionReading.timestamp b.1)) duration))
        as (e & He & Hs & Hforget); [|done|].
      { fold rows. rewrite Hrows in Hsensor |- *.
        rewrite !fmap_app, !fmap_cons, !fmap_app, !fmap_cons in Hsensor |- *.
        apply (DoorFacts.episode_emitted end_ s (to_door <$> pre) (to_door a) (to_door <$> run)
                 (to_door b) (to_door <$> post) Hsensor (Hquiet pre Hpre)
                 (Hmoving (a :: run) Hrun) Hb). }
      exists e. injection Hforget as ? ? ? ?. by split_and!.
    + intros (e & He & _ & _ & _ & <-).
      rewrite Forall_forall in Hshort. by apply Hshort.
  - intros pre a run Hrows Hpre Hrun duration. split.
    + intros Hmd.
      destruct (presence_event_kept db start end_ sensor_id zone_id
                  min_duration_seconds s
                  (DoorEvent.mk s (MotionReading.timestamp a.1) None duration))
        as (e & He & Hs & Hforget); [|done|].
      { fold rows. rewrite Hrows in Hsensor |- *.
        rewrite !fmap_app, !fmap_cons in Hsensor |- *.
        apply (DoorFacts.open_episode_emitted end_ s (to_door <$> pre) (to_door a)
                 (to_door <$> run) Hsensor (Hquiet pre Hpre) (Hmoving (a :: run) Hrun)). }
      exists e. injection Hforget as ? ? ? ?. by split_and!.
    + intros (e & He & _ & _ & _ & <-).
      rewrite Forall_forall in Hshort. by apply Hshort.
  - intros md0 Hmd. by apply PresenceFacts.events_of_keeps.
Qed.

Lemma min_duration_filter_witness :
  (∃ e, e ∈ get_presence_events motion_db 0 (seconds 3600) None None 600
        ∧ PresenceEvent.sensor_id e = "cold-a-motion"
        ∧ PresenceEvent.started_at e = seconds 900
        ∧ PresenceEvent.ended_at e = Some (seconds 1500)
        ∧ PresenceEvent.duration_seconds e = 600)
  ∧ ¬ (∃ e, e ∈ get_presence_events motion_db 0 (seconds 3600) None None 600
            ∧ PresenceEvent.sensor_id e = "cold-a-motion"
            ∧ PresenceEvent.started_at e = seconds 2000
            ∧ PresenceEvent.ended_at e = Some (seconds 2599)
            ∧ PresenceEvent.duration_seconds e = 599)
  ∧ ∃ e, e ∈ get_presence_events brief_motion_db 0 (seconds 100) None None 60
         ∧ PresenceEvent.sensor_id e = "cold-a-motion"
         ∧ PresenceEvent.started_at e = seconds 40
         ∧ PresenceEvent.ended_at e = None
         ∧ PresenceEvent.duration_seconds e = 60.
Proof.
  pose proof (proj1 (min_duration_filter motion_db 0 (seconds 3600) None None 600
                       "cold-a-motion")) as Hclosed.
  split; [|split].
  - apply (Hclosed [(MotionReading.mk "cold-a-motion" (seconds 0) false, "cold-a")]
             (MotionReading.mk "cold-a-motion" (seconds 900) true, "cold-a") []
             (MotionReading.mk "cold-a-motion" (seconds 1500) false, "cold-a")
             [(MotionReading.mk "cold-a-motion" (seconds 2000) true, "cold-a");
              (MotionReading.mk "cold-a-motion" (seconds 2599) false, "cold-a")]).
    + vm_compute. reflexivity.
    + intros p [= <-]. reflexivity.
    + repeat constructor.
    + reflexivity.
    + vm_compute. discriminate.
  - intros Hkept.
    apply (Hclosed [(MotionReading.mk "cold-a-motion" (seconds 0) false, "cold-a");
                    (MotionReading.mk "cold-a-motion" (seconds 900) true, "cold-a");
                    (MotionReading.mk "cold-a-motion" (seconds 1500) false, "cold-a")]
             (MotionReading.mk "cold-a-motion" (seconds 2000) true, "cold-a") []
             (MotionReading.mk "cold-a-motion" (seconds 2599) false, "cold-a") [])
      in Hkept.
    + vm_compute in Hkept. by apply Hkept.
    + vm_compute. reflexivity.
    + intros p [= <-]. reflexivity.
    + repeat constructor.
    + reflexivity.
  - apply (proj1 (proj2 (min_duration_filter brief_motion_db 0 (seconds 100) None None 60
                           "cold-a-motion"))
             [] (MotionReading.mk "cold-a-motion" (seconds 40) true, "cold-a") []).
    + vm_compute. reflexivity.
    + intros p [=].
    + repeat constructor.
    + vm_compute. discriminate.
Defined.

(** C10. When the rows a call reads have no two readings of one sensor at
    one timestamp (the query orders them, so each sensor's readings are in
    strictly increasing order of time, within the window), every event
    returned has a closing time, if any, that is not before its opening
    time and a duration that is not negative; and the events of any one
    sensor come in the order of their opening times, each closed before
    the next opens. *)
Theorem events_well_formed_and_ordered db start end_ sensor_id zone_id
    min_duration_seconds :
  NoDup (Door.key <$> Door.query db start end_ sensor_id zone_id) →
  NoDup (Presence.key <$> Presence.query db start end_ sensor_id zone_id) →
  (Forall DoorInvariants.well_formed (get_door_events db start end_ sensor_id zone_id)
   ∧ ∀ s, StronglySorted DoorInvariants.precedes
            (filter (λ e, DoorEvent.sensor_id e = s)
                    (get_door_events db start end_ sensor_id zone_id)))
  ∧ (Forall presence_well_formed
       (get_presence_events db start end_ sensor_id zone_id min_duration_seconds)
     ∧ ∀ s, StronglySorted presence_precedes
              (filter (λ e, PresenceEvent.sensor_id e = s)
                      (get_presence_events db start end_ sensor_id zone_id
                         min_duration_seconds))).
Proof.
  intros Hd Hp. split.
  - apply DoorFacts.events_of_wf;
      [apply DoorFacts.query_sorted | done | apply door_query_window].
  - destruct (DoorFacts.events_of_wf end_
                (to_door <$> Presence.query db start end_ sensor_id zone_id))
      as [Hwf Hord].
    { apply presence_query_sorted. }
    { by rewrite <- list_fmap_compose. }
    { apply presence_query_window. }
    split.
    + assert (H : Forall DoorInvariants.well_formed
                    (forget <$>
                       get_presence_events db start end_ sensor_id zone_id
                         min_duration_seconds)).
      { unfold get_presence_events. rewrite PresenceFacts.events_of_simulates.
        apply Forall_forall. intros e [_ He]%list_elem_of_filter.
        rewrite Forall_forall in Hwf. by apply Hwf. }
      rewrite Forall_fmap in H. exact H.
    + intros s.
      apply (StronglySorted_fmap_inv forget _ DoorInvariants.precedes); [done|].
      rewrite presence_events_project. by apply StronglySorted_filter.
Qed.

Lemma events_well_formed_and_ordered_witness :
  StronglySorted DoorInvariants.precedes
    (filter (λ e, DoorEvent.sensor_id e = "cold-door")
            (get_door_events door_db 0 (seconds 3600) None None)).
Proof.
  apply (events_well_formed_and_ordered door_db 0 (seconds 3600) None None 0).
  - apply (bool_decide_eq_true_1 _). vm_compute. reflexivity.
  - apply (bool_decide_eq_true_1 _). vm_compute. reflexivity.
Defined.

End EventTheorems.

(** * Status classification *)

Module StatusTheorems.
Import SensorService Samples.

(** C7. Without a warning threshold the status is "normal".  With one, it
    is "critical" when a critical threshold is configured and the value is
    strictly greater than it; otherwise "warning" when the value is
    strictly greater than the warning threshold; otherwise "normal".  The
    comparison is the same for negative thresholds: with a warning
    threshold of -18.0, the value -17.9 is a warning and -18.0 is normal;
    with a critical threshold of -10.0, the value -9.9 is critical. *)
Theorem status_classification {H : PythonFloat}
    (value : Qc) (warning_threshold critical_threshold : option Qc) :
  (warning_threshold = None →
     (compute_status value warning_threshold critical_threshold).1 = "normal")
  ∧ (∀ w c, warning_threshold = Some w → critical_threshold = Some c → (c < value)%Qc →
       (compute_status value warning_threshold critical_threshold).1 = "critical")
  ∧ (∀ w, warning_threshold = Some w →
       (∀ c, critical_threshold = Some c → (value ≤ c)%Qc) → (w < value)%Qc →
       (compute_status value warning_threshold critical_threshold).1 = "warning")
  ∧ (∀ w, warning_threshold = Some w →
       (∀ c, critical_threshold = Some c → (value ≤ c)%Qc) → (value ≤ w)%Qc →
       (compute_status value warning_threshold critical_threshold).1 = "normal")
  ∧ (compute_status (decimal (-179) 10) (Some (decimal (-18) 1)) (Some (decimal (-10) 1))).1
    = "warning"
  ∧ (compute_status (decimal (-18) 1) (Some (decimal (-18) 1)) (Some (decimal (-10) 1))).1
    = "normal"
  ∧ (compute_status (decimal (-99) 10) (Some (decimal (-18) 1)) (Some (decimal (-10) 1))).1
    = "critical".
Proof.
  split_and!.
  - by intros ->.
  - intros w c -> -> Hc. unfold compute_status.
    by rewrite (bool_decide_eq_true_2 _ Hc).
  - intros w -> Hc Hw. unfold compute_status.
    rewrite (bool_decide_eq_true_2 _ Hw).
    destruct critical_threshold as [c|].
    + rewrite bool_decide_eq_false_2 by (apply Qcle_not_lt; by apply Hc).
      by case_decide.
    + by case_decide.
  - intros w -> Hc Hw. unfold compute_status.
    rewrite (bool_decide_eq_false_2 (w < value)%Qc) by (by apply Qcle_not_lt).
    destruct critical_threshold as [c|]; [|done].
    by rewrite bool_decide_eq_false_2 by (apply Qcle_not_lt; by apply Hc).
  - vm_compute. reflexivity.
  - vm_compute. reflexivity.
  - vm_compute. reflexivity.
Qed.

Lemma status_classification_witness :
  (compute_status (H := sample_float) (decimal 5 1) (Some (decimal 4 1)) None).1 = "warning".
Proof.
  apply (proj1 (proj2 (proj2 (status_classification (H := sample_float)
                                (decimal 5 1) (Some (decimal 4 1)) None)))
           (decimal 4 1)); [reflexivity|discriminate|by vm_compute].
Defined.

End StatusTheorems.

(** * The baseline engine *)

Module BaselineTheorems.
Import Registry BaselineService Samples Statistics.

(** ** Mean, variance, extremes *)

Lemma sql_sum_total samples : sql_sum samples = total samples.
Proof. induction samples as [|x l IH]; [done|]. simpl. by rewrite <- IH. Qed.

Lemma sql_avg_mean samples :
  samples ≠ [] → sql_avg samples = Some (arithmetic_mean samples).
Proof.
  intros Hne. destruct samples as [|x l]; [done|].
  unfold sql_avg, arithmetic_mean, sql_count. by rewrite sql_sum_total.
Qed.

Lemma float_of_int_pos n : 0 < n → (0 < float_of_int n)%Qc.
Proof.
  intros Hn. unfold float_of_int, Qclt. simpl.
  rewrite !Qred_correct. unfold Qlt. simpl. lia.
Qed.

Lemma square_nonneg (x : Qc) : (0 ≤ x ^ 2)%Qc.
Proof.
  simpl. rewrite Qcmult_1_r.
  destruct (Qclt_le_dec x 0) as [Hneg|Hpos].
  - replace (x * x)%Qc with ((- x) * (- x))%Qc by ring.
    assert (0 ≤ - x)%Qc.
    { apply Qclt_le_weak in Hneg. apply Qcopp_le_compat in Hneg.
      by replace (- 0)%Qc with 0%Qc in Hneg by ring. }
    by apply Qcmult_nonneg_nonneg.
  - by apply Qcmult_nonneg_nonneg.
Qed.

Lemma total_nonneg samples : Forall (λ x, (0 ≤ x)%Qc) samples → (0 ≤ total samples)%Qc.
Proof.
  induction 1 as [|x l Hx _ IH]; simpl; [done|]. by apply Qcplus_nonneg_nonneg.
Qed.

Lemma mean_nonneg samples :
  samples ≠ [] → Forall (λ x, (0 ≤ x)%Qc) samples → (0 ≤ arithmetic_mean samples)%Qc.
Proof.
  intros Hne Hall. unfold arithmetic_mean, Qcdiv.
  apply Qcmult_nonneg_nonneg; [by apply total_nonneg|].
  apply Qclt_le_weak, Qcinv_pos, float_of_int_pos.
  destruct samples; [done|]. simpl. lia.
Qed.

Lemma variance_nonneg samples mean :
  samples ≠ [] →
  ¬ (arithmetic_mean ((λ x, (x - mean) ^ 2)%Qc <$> samples) < 0)%Qc.
Proof.
  intros Hne. apply Qcle_not_lt, mean_nonneg.
  - by destruct samples.
  - apply Forall_fmap, Forall_forall. intros x _. apply square_nonneg.
Qed.

Lemma sql_min_spec samples :
  samples ≠ [] →
  ∃ lo, sql_min samples = Some lo ∧ lo ∈ samples ∧ ∀ x, x ∈ samples → (lo ≤ x)%Qc.
Proof.
  destruct samples as [|v rest]; [done|]. intros _. eexists. split; [done|].
  induction rest as [|y rest [IHin IHle]]; simpl.
  - split; [apply list_elem_of_here|].
    intros x ->%list_elem_of_singleton. apply Qcle_refl.
  - set (m := foldr _ v rest) in *. case_decide as Hlt.
    + split; [apply list_elem_of_further, list_elem_of_here|].
      intros x [->|[->|Hx]%elem_of_cons]%elem_of_cons.
      * eapply Qcle_trans; [by apply Qclt_le_weak|]. apply IHle, list_elem_of_here.
      * apply Qcle_refl.
      * eapply Qcle_trans; [by apply Qclt_le_weak|].
        apply IHle. by apply list_elem_of_further.
    + split.
      * apply elem_of_cons in IHin as [->|?];
          [apply list_elem_of_here|by do 2 apply list_elem_of_further].
      * intros x [->|[->|Hx]%elem_of_cons]%elem_of_cons.
        -- apply IHle, list_elem_of_here.
        -- by apply Qcnot_lt_le.
        -- apply IHle. by apply list_elem_of_further.
Qed.

Lemma sql_max_spec samples :
  samples ≠ [] →
  ∃ hi, sql_max samples = Some hi ∧ hi ∈ samples ∧ ∀ x, x ∈ samples → (x ≤ hi)%Qc.
Proof.
  destruct samples as [|v rest]; [done|]. intros _. eexists. split; [done|].
  induction rest as [|y rest [IHin IHle]]; simpl.
  - split; [apply list_elem_of_here|].
    intros x ->%list_elem_of_singleton. apply Qcle_refl.
  - set (m := foldr _ v rest) in *. case_decide as Hlt.
    + split; [apply list_elem_of_further, list_elem_of_here|].
      intros x [->|[->|Hx]%elem_of_cons]%elem_of_cons.
      * eapply Qcle_trans; [|by apply Qclt_le_weak]. apply IHle, list_elem_of_here.
      * apply Qcle_refl.
      * eapply Qcle_trans; [|by apply Qclt_le_weak].
        apply IHle. by apply list_elem_of_further.
    + split.
      * apply elem_of_cons in IHin as [->|?];
          [apply list_elem_of_here|by do 2 apply list_elem_of_further].
      * intros x [->|[->|Hx]%elem_of_cons]%elem_of_cons.
        -- apply IHle, list_elem_of_here.
        -- by apply Qcnot_lt_le.
        -- apply IHle. by apply list_elem_of_further.
Qed.

(** C1, as amended.  For a number of hours that is not positive there is
    no baseline, whatever the samples.  For a positive number of hours
    (the window beginning at a datetime that Python can represent) and a
    sensor of a type that supports aggregation, with at least one sample
    in the window of that many hours up to now, the baseline exists.  Its
    mean is the average of those samples, and its standard deviation the
    square root of the average of their squared distances to that average
    (zero, should the database return a negative one), both averages as
    the database computes them on doubles; its minimum and maximum are the
    least and the greatest sample; each is rounded to 2 decimals when the
    unit of the type is °C (environmental) and to 1 decimal otherwise (air
    quality); the sample count is the number of samples.  Where the
    arithmetic of the database is exact, the mean is the rounded arithmetic
    mean and the standard deviation the rounded square root of the
    population variance. *)
Theorem baseline_statistics {H : PythonFloat} {Real : SqliteReal} db now sensor_id hours :
  (hours ≤ 0 → get_sensor_baseline db now sensor_id hours = Ok None)
  ∧ ∀ sensor config,
      0 < hours → representable now → representable (now - timedelta_hours hours) →
      select_sensor db sensor_id = [sensor] →
      SENSOR_TYPE_REGISTRY !! Sensor.sensor_type sensor = Some config →
      supports_aggregation config = true →
      let samples :=
        cell (value_column config) <$>
          select_window db (model config) sensor_id (now - timedelta_hours hours) now in
      samples ≠ [] →
      let ndigits := if decide (unit config = "°C") then 2 else 1 in
      let mean := sqlite_avg samples in
      let variance :=
        sqlite_avg ((λ x, sqlite_pow (sqlite_minus x mean) 2) <$> samples) in
      ∃ baseline,
        get_sensor_baseline db now sensor_id hours = Ok (Some baseline)
        ∧ SensorBaseline.mean baseline = round mean ndigits
        ∧ SensorBaseline.std_dev baseline
          = round (if decide (variance < 0)%Qc then 0%Qc else math_sqrt variance) ndigits
        ∧ (∃ lo hi, lo ∈ samples ∧ hi ∈ samples
             ∧ (∀ x, x ∈ samples → (lo ≤ x)%Qc ∧ (x ≤ hi)%Qc)
             ∧ SensorBaseline.min baseline = round lo ndigits
             ∧ SensorBaseline.max baseline = round hi ndigits)
        ∧ SensorBaseline.sample_count baseline = Z.of_nat (length samples)
        ∧ (Sensor.sensor_type sensor = "environmental" → ndigits = 2)
        ∧ (Sensor.sensor_type sensor = "air_quality" → ndigits = 1)
        ∧ (mean = arithmetic_mean samples → variance = population_variance samples →
             SensorBaseline.mean baseline = round (arithmetic_mean samples) ndigits
             ∧ SensorBaseline.std_dev baseline
               = round (math_sqrt (population_variance samples)) ndigits).
Proof.
  split.
  { intros Hhours. unfold get_sensor_baseline. by rewrite decide_True. }
  intros sensor config Hhours _ _ Hsensor Hconfig Hagg samples Hne ndigits mean variance.
  destruct (sql_min_spec samples Hne) as (lo & Hlo & Hlo_in & Hlo_le).
  destruct (sql_max_spec samples Hne) as (hi & Hhi & Hhi_in & Hhi_le).
  unfold get_sensor_baseline.
  rewrite decide_False by lia. rewrite Hsensor. simpl.
  rewrite Hconfig, Hagg. simpl. fold samples.
  assert (Havg : ∀ values, values ≠ [] → avg values = Some (sqlite_avg values)).
  { intros values Hvalues. by destruct values. }
  rewrite (Havg samples Hne), Hlo, Hhi. fold mean.
  rewrite decide_False.
  2:{ unfold sql_count. intros Hz. apply Hne. unfold samples.
      destruct (select_window _ _ _ _ _); [done|simpl in Hz; lia]. }
  assert (Hstd : _compute_std_dev db (model config) (value_column config) sensor_id
                   (now - timedelta_hours hours) now mean
                 = if decide (variance < 0)%Qc then 0%Qc else math_sqrt variance).
  { unfold _compute_std_dev.
    assert (Heq : (λ r, sqlite_pow (sqlite_minus (cell (value_column config) r) mean) 2)
                    <$> select_window db (model config) sensor_id
                          (now - timedelta_hours hours) now
                  = (λ x, sqlite_pow (sqlite_minus x mean) 2) <$> samples).
    { unfold samples. by rewrite <- list_fmap_compose. }
    rewrite Heq, Havg by (by destruct samples). done. }
  eexists. split; [reflexivity|]. simpl. rewrite Hstd. split_and!.
  - done.
  - done.
  - exists lo, hi. split_and!; try done. intros x Hx. split; auto.
  - unfold sql_count, samples. by rewrite length_fmap.
  - intros Htype. rewrite Htype in Hconfig. vm_compute in Hconfig.
    injection Hconfig as <-. reflexivity.
  - intros Htype. rewrite Htype in Hconfig. vm_compute in Hconfig.
    injection Hconfig as <-. reflexivity.
  - intros Hmean Hvariance. rewrite Hmean at 1. rewrite Hvariance.
    split; [done|]. by rewrite decide_False by (by apply variance_nonneg).
Qed.

Lemma baseline_statistics_witness :
  (∃ baseline,
     get_sensor_baseline (H := binary64) (Real := binary64_sqlite) probe_db
       (seconds 7200) "probe-temp" 1 = Ok (Some baseline)
     ∧ SensorBaseline.mean baseline = to_double (decimal 1 100)
     ∧ SensorBaseline.std_dev baseline = to_double (decimal 1 100))
  ∧ ∃ baseline,
      get_sensor_baseline (H := binary64) (Real := binary64_sqlite) facility_db
        (seconds 5000) "cold-b-temp" 1 = Ok (Some baseline)
      ∧ SensorBaseline.mean baseline = decimal (-1825) 100
      ∧ SensorBaseline.std_dev baseline = decimal 25 100.
Proof.
  split.
  - destruct (proj2 (baseline_statistics (H := binary64) (Real := binary64_sqlite)
                       probe_db (seconds 7200) "probe-temp" 1)
                (Sensor.mk "probe-temp" "lab" "environmental" "Probe" None None)
                {| model := EnvironmentalReadingModel; value_column := Temperature;
                   unit := "°C"; secondary_column := Some Humidity;
                   secondary_unit := Some "%"; format_value := None;
                   supports_aggregation := true |})
      as (baseline & Hb & Hmean & Hstd & _).
    + lia.
    + vm_compute. split; discriminate.
    + vm_compute. split; discriminate.
    + reflexivity.
    + reflexivity.
    + reflexivity.
    + discriminate.
    + exists baseline. split; [exact Hb|]. split.
      * rewrite Hmean. apply Qc_is_canon. vm_compute. reflexivity.
      * rewrite Hstd. apply Qc_is_canon. vm_compute. reflexivity.
  - destruct (proj2 (baseline_statistics (H := binary64) (Real := binary64_sqlite)
                       facility_db (seconds 5000) "cold-b-temp" 1)
                (Sensor.mk "cold-b-temp" "cold-b" "environmental"
                   "Temperature" (Some (decimal (-18) 1)) (Some (decimal (-10) 1)))
                {| model := EnvironmentalReadingModel; value_column := Temperature;
                   unit := "°C"; secondary_column := Some Humidity;
                   secondary_unit := Some "%"; format_value := None;
                   supports_aggregation := true |})
      as (baseline & Hb & _ & _ & _ & _ & _ & _ & Hexact).
    + lia.
    + vm_compute. split; discriminate.
    + vm_compute. split; discriminate.
    + reflexivity.
    + reflexivity.
    + reflexivity.
    + discriminate.
    + destruct Hexact as [Hmean Hstd].
      * apply Qc_is_canon. vm_compute. reflexivity.
      * apply Qc_is_canon. vm_compute. reflexivity.
      * exists baseline. split; [exact Hb|]. split.
        -- rewrite Hmean. apply Qc_is_canon. vm_compute. reflexivity.
        -- rewrite Hstd. apply Qc_is_canon. vm_compute. reflexivity.
Defined.

(** The claim C1 as first stated fails for [hours = 0]: the window of zero
    hours up to now holds the sample taken at that very instant, and the
    guard on [hours] returns no baseline. *)
Lemma baseline_zero_hours :
  select_window facility_db EnvironmentalReadingModel "cold-b-temp"
    (seconds 7200 - timedelta_hours 0) (seconds 7200)
    = [EnvironmentalReading.mk "cold-b-temp" (seconds 7200) (decimal (-175) 10)
         (decimal 62 1)]
  ∧ get_sensor_baseline (H := binary64) (Real := binary64_sqlite) facility_db
      (seconds 7200) "cold-b-temp" 0
    = Ok None.
Proof. split; reflexivity. Qed.

(** ** Hourly baselines *)

(** SQLite accepts the first grouped statement and refuses the second, in
    which a window function stands within the argument of an aggregate. *)
Lemma hourly_statements_prepared {model} (value_column : Column model) :
  Sqlite.prepare (hourly_stats_columns value_column) = Ok ()
  ∧ Sqlite.prepare (hourly_variance_columns value_column)
    = Raise (OperationalError "misuse of window function avg()").
Proof. split; reflexivity. Qed.

(** C6, as amended.  The hourly baselines are the empty list when the
    number of days is not positive and when no sensor has the id.  For a
    positive number of days and a sensor whose type does not support
    aggregation (door, motion) or has no registry entry, they are exactly
    24 entries, for the hours 0 to 23 in order, each with mean 0, standard
    deviation 0 and count 0. *)
Theorem hourly_baselines_shape {H : PythonFloat} {Real : SqliteReal} db now sensor_id
    days :
  (days ≤ 0 → get_hourly_baselines db now sensor_id days = Ok [])
  ∧ (select_sensor db sensor_id = [] → get_hourly_baselines db now sensor_id days = Ok [])
  ∧ ∀ sensor,
      0 < days → select_sensor db sensor_id = [sensor] →
      (SENSOR_TYPE_REGISTRY !! Sensor.sensor_type sensor = None
       ∨ ∃ config, SENSOR_TYPE_REGISTRY !! Sensor.sensor_type sensor = Some config
                   ∧ supports_aggregation config = false) →
      ∃ baselines,
        get_hourly_baselines db now sensor_id days = Ok baselines
        ∧ length baselines = 24%nat
        ∧ HourlyBaseline.hour <$> baselines = Z.of_nat <$> seq 0 24
        ∧ Forall (λ b, HourlyBaseline.mean b = 0%Qc ∧ HourlyBaseline.std_dev b = 0%Qc
                       ∧ HourlyBaseline.sample_count b = 0) baselines.
Proof.
  split_and!.
  - intros Hdays. unfold get_hourly_baselines. by rewrite decide_True.
  - intros Hsensor. unfold get_hourly_baselines. rewrite Hsensor.
    by case_decide.
  - intros sensor Hdays Hsensor Htype.
    exists ((λ h, HourlyBaseline.mk h 0%Qc 0%Qc 0) <$> hours_of_day). split_and!.
    + unfold get_hourly_baselines.
      rewrite decide_False by lia. rewrite Hsensor. cbn [one_or_none result_bind].
      destruct Htype as [->|(config & -> & ->)]; done.
    + reflexivity.
    + rewrite <- list_fmap_compose. apply list_fmap_id.
    + apply Forall_fmap, Forall_forall. by intros h _.
Qed.

Lemma hourly_baselines_shape_witness :
  ∃ baselines,
    get_hourly_baselines (H := binary64) (Real := binary64_sqlite) facility_db
      (seconds 7200) "dock-door" 7 = Ok baselines
    ∧ length baselines = 24%nat
    ∧ HourlyBaseline.hour <$> baselines = Z.of_nat <$> seq 0 24.
Proof.
  destruct (proj2 (proj2 (hourly_baselines_shape (H := binary64)
                            (Real := binary64_sqlite) facility_db (seconds 7200)
                            "dock-door" 7))
              (Sensor.mk "dock-door" "loading" "door" "Dock door" None None))
    as (baselines & Hb & Hlen & Hhours & _).
  - lia.
  - reflexivity.
  - right. eexists. split; reflexivity.
  - by exists baselines.
Defined.

(** The claim C6 as first stated ("for every call") fails for a sensor id
    that is not known, and for a number of days that is not positive: the
    result is empty. *)
Lemma hourly_baselines_empty :
  get_hourly_baselines (H := binary64) (Real := binary64_sqlite) facility_db
    (seconds 7200) "no-such-sensor" 7
    = Ok []
  ∧ get_hourly_baselines (H := binary64) (Real := binary64_sqlite) facility_db
      (seconds 7200) "cold-b-temp" 0
    = Ok [].
Proof. split; reflexivity. Qed.

End BaselineTheorems.

(** * The summary builder *)

Module SummaryTheorems.
Import Registry SensorService Samples SummaryInvariants.

(** ** Loops in the session *)

Lemma for_each_log {A S} (body : S → A → Session S) (Q : Statement → Prop) :
  (∀ st x log, ∃ new, (body st x log).2 = log ++ new
                      ∧ Forall Q new ∧ (length new ≤ 1)%nat) →
  ∀ items st log,
    ∃ new, (for_each body items st log).2 = log ++ new
           ∧ Forall Q new ∧ (length new ≤ length items)%nat.
Proof.
  intros Hbody. induction items as [|x items IH]; intros st log; simpl.
  - exists []. by rewrite app_nil_r.
  - unfold mbind, session_mbind, session_bind.
    destruct (Hbody st x log) as (new1 & Hlog1 & HQ1 & Hlen1).
    destruct (body st x log) as [[st'|e] log1]; simpl in Hlog1; subst log1.
    + destruct (IH st' (log ++ new1)) as (new2 & -> & HQ2 & Hlen2).
      exists (new1 ++ new2). rewrite app_assoc, length_app.
      split_and!; [done|by apply Forall_app|lia].
    + exists new1. split_and!; [done|done|lia].
Qed.

Lemma for_each_ok {A S} (body : S → A → Session S) (P : A → Prop) (I : S → Prop) :
  (∀ st x log, I st → P x → ∃ st' log', body st x log = (Ok st', log') ∧ I st') →
  ∀ items st log, I st → Forall P items →
    ∃ st' log', for_each body items st log = (Ok st', log') ∧ I st'.
Proof.
  intros Hbody. induction items as [|x items IH]; intros st log Hst Hitems; simpl.
  - by exists st, log.
  - apply Forall_cons in Hitems as [Hx Hitems].
    unfold mbind, session_mbind, session_bind.
    destruct (Hbody st x log Hst Hx) as (st1 & log1 & -> & Hst1).
    by apply IH.
Qed.

Lemma result_for_each_ok {A S} (body : S → A → Result S) (P : A → Prop) (I : S → Prop) :
  (∀ st x, I st → P x → ∃ st', body st x = Ok st' ∧ I st') →
  ∀ items st, I st → Forall P items →
    ∃ st', result_for_each body items st = Ok st' ∧ I st'.
Proof.
  intros Hbody. induction items as [|x items IH]; intros st Hst Hitems; simpl.
  - by exists st.
  - apply Forall_cons in Hitems as [Hx Hitems].
    destruct (Hbody st x Hst Hx) as (st1 & -> & Hst1). simpl. by apply IH.
Qed.

(** ** Grouping by type *)

Lemma setdefault_append_keys groups s :
  (setdefault_append groups s).*1
  = if decide (Sensor.sensor_type s ∈ groups.*1) then groups.*1
    else groups.*1 ++ [Sensor.sensor_type s].
Proof.
  induction groups as [|[k members] groups IH].
  - reflexivity.
  - cbn [setdefault_append]. rewrite !fmap_cons. cbn [fst].
    destruct (decide (k = Sensor.sensor_type s)) as [Hk|Hk].
    + rewrite fmap_cons. cbn [fst]. subst k.
      by rewrite decide_True by apply list_elem_of_here.
    + rewrite fmap_cons, IH. cbn [fst].
      destruct (decide (Sensor.sensor_type s ∈ groups.*1)) as [Hin|Hin].
      * by rewrite decide_True by (by apply list_elem_of_further).
      * rewrite decide_False; [done|].
        intros [?|?]%elem_of_cons; [by apply Hk|done].
Qed.

Lemma setdefault_append_grouped P groups s :
  P s → grouped P groups → grouped P (setdefault_append groups s).
Proof.
  intros Hs [Hnd Hall]. split.
  - rewrite setdefault_append_keys. case_decide as Hin; [done|].
    apply NoDup_app. split_and!; [done| |apply NoDup_singleton].
    by intros x Hx ->%list_elem_of_singleton.
  - clear Hnd. induction Hall as [|[k members] groups [Hne Hmem] Hrest IH]; simpl.
    + repeat constructor; [done|]. by repeat constructor.
    + case_decide as Hk.
      * constructor; [|done]. simpl in *. split; [by destruct members|].
        apply Forall_app. split; [done|]. by repeat constructor.
      * by constructor.
Qed.

Lemma sensors_by_type_grouped sensors :
  grouped (λ s, s ∈ sensors) (sensors_by_type sensors).
Proof.
  unfold sensors_by_type.
  assert (Hgen : ∀ (P : Sensor.t → Prop) l groups,
            Forall P l → grouped P groups → grouped P (foldl setdefault_append groups l)).
  { intros P l. induction l as [|s l IH]; intros groups Hl Hg; simpl; [done|].
    apply Forall_cons in Hl as [Hs Hl]. by apply IH, setdefault_append_grouped. }
  apply Hgen.
  - by apply Forall_forall.
  - split; constructor.
Qed.

Lemma sensors_by_type_same sensors sensor_type :
  Forall (λ s, Sensor.sensor_type s = sensor_type) sensors →
  (length (sensors_by_type sensors) ≤ 1)%nat.
Proof.
  intros Hsame. destruct (sensors_by_type_grouped sensors) as [Hnd Hall].
  assert (Hkeys : Forall (λ k, k = sensor_type) (sensors_by_type sensors).*1).
  { apply Forall_fmap. eapply Forall_impl; [exact Hall|].
    intros [k members] [Hne Hmem]; simpl in *.
    destruct members as [|s members]; [done|].
    apply Forall_cons in Hmem as [[<- Hs] _].
    rewrite Forall_forall in Hsame. by apply Hsame. }
  rewrite <- (length_fmap fst).
  destruct ((sensors_by_type sensors).*1) as [|k1 [|k2 keys]]; simpl; [lia|lia|].
  apply Forall_cons in Hkeys as [-> Hkeys]. apply Forall_cons in Hkeys as [-> _].
  apply NoDup_cons in Hnd as [Hnd _]. destruct Hnd. apply list_elem_of_here.
Qed.

Lemma sensors_by_type_distinct sensors :
  (length (sensors_by_type sensors)
   ≤ length (remove_dups (Sensor.sensor_type <$> sensors)))%nat.
Proof.
  destruct (sensors_by_type_grouped sensors) as [Hnd Hall].
  rewrite <- (length_fmap fst). apply submseteq_length, NoDup_submseteq; [done|].
  intros k (g & -> & Hg)%list_elem_of_fmap. apply elem_of_remove_dups.
  rewrite Forall_forall in Hall. destruct (Hall g Hg) as [Hne Hmem].
  destruct (g.2) as [|s members]; [done|].
  apply Forall_cons in Hmem as [[<- Hs] _]. by apply list_elem_of_fmap_2.
Qed.

(** ** Statements per batch *)

Lemma latest_for_type_log db results group log :
  ∃ new, (latest_for_type db results group log).2 = log ++ new
         ∧ Forall latest_statement new ∧ (length new ≤ 1)%nat.
Proof.
  unfold latest_for_type.
  destruct (SENSOR_TYPE_REGISTRY !! group.1) as [config|].
  - destruct (secondary_column config); simpl;
      (eexists; split; [reflexivity|]; split;
         [apply Forall_singleton; exact I|simpl; lia]).
  - exists []. simpl. rewrite app_nil_r. split_and!; [done|constructor|lia].
Qed.

Lemma trends_for_type_log {H : PythonFloat} db now end_times results group log :
  ∃ new, (trends_for_type db now end_times results group log).2 = log ++ new
         ∧ Forall hourly_statement new ∧ (length new ≤ 1)%nat.
Proof.
  unfold trends_for_type.
  destruct (SENSOR_TYPE_REGISTRY !! group.1) as [config|].
  - unfold mbind, session_mbind, session_bind, lift, execute.
    destruct (minimum _) as [min_end|e].
    + destruct (supports_aggregation config);
        destruct (result_for_each _ _ _) as [hourly_data|e];
        try destruct (result_for_each _ _ _); simpl;
        (eexists; split; [reflexivity|]; split;
           [apply Forall_singleton; exact I|simpl; lia]).
    + exists []. simpl. rewrite app_nil_r. split_and!; [done|constructor|lia].
  - exists []. simpl. rewrite app_nil_r. split_and!; [done|constructor|lia].
Qed.

(** C9. The statements sent to fetch the latest readings, and those sent
    to fetch the 24-hour trends, are one per sensor type at most, whatever
    the number of sensors: no more than one of each for sensors that share
    a type, and in general no more than there are distinct types among the
    sensors.  The former select the latest row per sensor, the latter
    aggregate by sensor and hour. *)
Theorem batched_queries {H : PythonFloat} db now sensors end_times log :
  ∃ latest_new trends_new,
    (_get_latest_readings_batch db sensors log).2 = log ++ latest_new
    ∧ (_get_24h_trends_batch db now sensors end_times log).2 = log ++ trends_new
    ∧ Forall latest_statement latest_new
    ∧ Forall hourly_statement trends_new
    ∧ (length latest_new ≤ length (remove_dups (Sensor.sensor_type <$> sensors)))%nat
    ∧ (length trends_new ≤ length (remove_dups (Sensor.sensor_type <$> sensors)))%nat
    ∧ (∀ sensor_type,
         Forall (λ s, Sensor.sensor_type s = sensor_type) sensors →
         (length latest_new ≤ 1)%nat ∧ (length trends_new ≤ 1)%nat).
Proof.
  unfold _get_latest_readings_batch, _get_24h_trends_batch.
  destruct (for_each_log (latest_for_type db) latest_statement
              (latest_for_type_log db) (sensors_by_type sensors) ∅ log)
    as (latest_new & Hl & HlQ & Hllen).
  destruct (for_each_log (trends_for_type db now end_times) hourly_statement
              (trends_for_type_log db now end_times) (sensors_by_type sensors)
              (list_to_map ((λ s, (Sensor.id s, zero_trend)) <$> sensors)) log)
    as (trends_new & Ht & HtQ & Htlen).
  exists latest_new, trends_new.
  pose proof (sensors_by_type_distinct sensors) as Hd.
  split_and!; [done|done|done|done|lia|lia|].
  intros sensor_type Hsame.
  pose proof (sensors_by_type_same sensors sensor_type Hsame). lia.
Qed.

Lemma batched_queries_witness :
  Sensor.sensor_type <$> sensors cold_rooms_db
    = ["environmental"; "environmental"; "environmental"]
  ∧ (_get_latest_readings_batch cold_rooms_db (sensors cold_rooms_db) []).2
    = [SelectLatestWithSecondary EnvironmentalReadingModel
         ["cold-a-temp"; "cold-b-temp"; "freezer-temp"]]
  ∧ (length (_get_latest_readings_batch cold_rooms_db (sensors cold_rooms_db) []).2
     ≤ 1)%nat
  ∧ (length (_get_24h_trends_batch (H := sample_float) cold_rooms_db (seconds 7200)
               (sensors cold_rooms_db) ∅ []).2
     ≤ 1)%nat.
Proof.
  split; [reflexivity|]. split; [vm_compute; reflexivity|].
  destruct (batched_queries (H := sample_float) cold_rooms_db (seconds 7200)
              (sensors cold_rooms_db) ∅ [])
    as (latest_new & trends_new & Hl & Ht & _ & _ & _ & _ & Hsame).
  rewrite Hl, Ht. simpl.
  apply (Hsame "environmental").
  apply (bool_decide_eq_true_1 _). vm_compute. reflexivity.
Defined.

(** ** The latest readings: only sensors of a registered type *)

Lemma newest_elem {model} (rows : list (row model)) r :
  newest rows = Some r → r ∈ rows.
Proof.
  unfold newest.
  assert (Hgen : ∀ best,
    foldl (λ best r,
             match best with
             | Some b => if decide (timestamp b < timestamp r) then Some r else Some b
             | None => Some r
             end) best rows = Some r →
    best = Some r ∨ r ∈ rows).
  { induction rows as [|x rows IH]; intros best Hf; simpl in Hf; [by left|].
    apply IH in Hf as [Hf|?]; [|right; by apply list_elem_of_further].
    destruct best as [b|].
    - case_decide; injection Hf as <-; [right; apply list_elem_of_here|by left].
    - injection Hf as <-. right. apply list_elem_of_here. }
  intros Hf. by apply Hgen in Hf as [?|?].
Qed.

Lemma select_latest_ids db model sensor_ids (r : row model) :
  r ∈ select_latest db model sensor_ids → sensor_id r ∈ sensor_ids.
Proof.
  unfold select_latest. intros (sid & _ & Hnew)%list_elem_of_omap.
  apply newest_elem in Hnew.
  apply list_elem_of_filter in Hnew as [_ Hr].
  by apply list_elem_of_filter in Hr as [? _].
Qed.

Lemma select_latest_joined_ids db model sensor_ids (rw : row model * row model) :
  rw ∈ select_latest_joined db model sensor_ids → sensor_id rw.1 ∈ sensor_ids.
Proof.
  unfold select_latest_joined.
  intros (l & (m & ->%list_elem_of_singleton & _)%list_elem_of_bind & Hl)%list_elem_of_bind.
  by apply select_latest_ids in Hl.
Qed.

Lemma foldl_insert_keys {A V} (key : A → string) (value : A → V) (Q : string → Prop)
    (rows : list A) : ∀ results : gmap string V,
  (∀ sid, is_Some (results !! sid) → Q sid) →
  Forall (λ r, Q (key r)) rows →
  ∀ sid, is_Some (foldl (λ results r, <[key r := value r]> results) results rows !! sid) →
         Q sid.
Proof.
  induction rows as [|r rows IH]; intros results Hres Hrows sid; simpl; [by apply Hres|].
  apply Forall_cons in Hrows as [Hr Hrows]. apply IH; [|done].
  intros sid' [<-|[_ ?]]%lookup_insert_is_Some; [done|by apply Hres].
Qed.

Lemma latest_for_type_ok db sensors results group log :
  (∀ sid, is_Some (results !! sid) → registered_id sensors sid) →
  Forall (λ s, Sensor.sensor_type s = group.1 ∧ s ∈ sensors) group.2 →
  ∃ results' log',
    latest_for_type db results group log = (Ok results', log')
    ∧ ∀ sid, is_Some (results' !! sid) → registered_id sensors sid.
Proof.
  intros Hres Hgroup. unfold latest_for_type.
  destruct (SENSOR_TYPE_REGISTRY !! group.1) as [config|] eqn:Hconfig;
    [|by exists results, log].
  assert (Hids : ∀ sid, sid ∈ Sensor.id <$> group.2 → registered_id sensors sid).
  { intros sid (s & -> & Hs)%list_elem_of_fmap.
    rewrite Forall_forall in Hgroup. destruct (Hgroup s Hs) as [Htype Hin].
    exists s. split_and!; [done|done|]. by rewrite Htype, Hconfig. }
  destruct (secondary_column config) as [secondary|]; simpl.
  - eexists _, _. split; [reflexivity|].
    apply (foldl_insert_keys (λ row : row (model config) * row (model config),
                                sensor_id row.1)
             (λ row, (cell (value_column config) row.1, Some (cell secondary row.2),
                      timestamp row.1))); [done|].
    apply Forall_forall. intros rw Hrw. by apply Hids, (select_latest_joined_ids db).
  - eexists _, _. split; [reflexivity|].
    apply (foldl_insert_keys (λ row : row (model config), sensor_id row)
             (λ row, (cell (value_column config) row, None, timestamp row))); [done|].
    apply Forall_forall. intros rw Hrw. by apply Hids, (select_latest_ids db).
Qed.

(** The batched fetch of latest readings does not fail, and knows only
    sensors whose type has a registry entry: the others are skipped. *)
Lemma latest_readings_ok db sensors log :
  ∃ results log',
    _get_latest_readings_batch db sensors log = (Ok results, log')
    ∧ ∀ sid, is_Some (results !! sid) → registered_id sensors sid.
Proof.
  unfold _get_latest_readings_batch.
  apply (for_each_ok (latest_for_type db)
           (λ group, Forall (λ s, Sensor.sensor_type s = group.1 ∧ s ∈ sensors) group.2)
           (λ results, ∀ sid, is_Some (results !! sid) → registered_id sensors sid)).
  - intros st x log0 Hst Hx. by apply latest_for_type_ok.
  - intros sid Hsid. rewrite lookup_empty in Hsid. by destruct Hsid.
  - destruct (sensors_by_type_grouped sensors) as [_ Hall].
    eapply Forall_impl; [exact Hall|]. by intros g [_ ?].
Qed.

(** ** Trends and statistics do not fail *)

Lemma minimum_ok values : values ≠ [] → ∃ v, minimum values = Ok v.
Proof. destruct values; [done|]. intros _. by eexists. Qed.

Lemma select_hourly_ids db model (value_column : Column model) aggregate sensor_ids
    start_time (rw : string * Z * option Qc) :
  rw ∈ select_hourly db model value_column aggregate sensor_ids start_time →
  rw.1.1 ∈ sensor_ids.
Proof.
  unfold select_hourly.
  intros (sid & (bucket & ->%list_elem_of_singleton & _)%list_elem_of_bind
              & Hsid)%list_elem_of_bind.
  simpl. rewrite elem_of_remove_dups in Hsid.
  apply list_elem_of_fmap in Hsid as (r & -> & Hr).
  by apply list_elem_of_filter in Hr as [[? _] _].
Qed.

Lemma trends_for_type_ok {H : PythonFloat} db now end_times results group log :
  group.2 ≠ [] →
  ∃ results' log', trends_for_type db now end_times results group log = (Ok results', log').
Proof.
  intros Hne. unfold trends_for_type.
  destruct (SENSOR_TYPE_REGISTRY !! group.1) as [config|]; [|by eexists _, _].
  set (sensor_ids := Sensor.id <$> group.2).
  destruct (minimum_ok ((λ sid, default now (end_times !! sid)) <$> sensor_ids))
    as [min_end Hmin].
  { unfold sensor_ids. by destruct (group.2). }
  unfold mbind, session_mbind, session_bind, lift. rewrite Hmin.
  set (start_time := min_end - timedelta_hours TREND_HOURS).
  (* the rows of the statement, whichever aggregate it computes *)
  assert (Hrows : ∃ statement rows,
    (if supports_aggregation config
     then execute (SelectHourlyAvg (model config) sensor_ids start_time)
            (select_hourly db (model config) (value_column config) sql_avg
               sensor_ids start_time)
     else execute (SelectHourlySum (model config) sensor_ids start_time)
            (select_hourly db (model config) (value_column config)
               (λ values, Some (sql_sum values)) sensor_ids start_time)) log
    = (Ok rows, log ++ [statement])
    ∧ Forall (λ rw : string * Z * option Qc, rw.1.1 ∈ sensor_ids) rows).
  { destruct (supports_aggregation config); eexists _, _; (split; [reflexivity|]);
      apply Forall_forall; intros rw Hrw; by apply select_hourly_ids in Hrw. }
  destruct Hrows as (statement & rows & -> & Hrows).
  (* the first loop fills a dict that has every sensor of the group *)
  pose proof (result_for_each_ok
                (λ (hourly_data : gmap string (gmap Z Qc)) (row : string * Z * option Qc),
                   match row.2 with
                   | Some avg_value =>
                       result_bind (getitem hourly_data row.1.1) (λ hourly,
                         Ok (<[row.1.1 := <[row.1.2 := avg_value]> hourly]> hourly_data))
                   | None => Ok hourly_data
                   end)
                (λ rw, rw.1.1 ∈ sensor_ids)
                (λ hourly_data : gmap string (gmap Z Qc),
                   ∀ sid, sid ∈ sensor_ids → is_Some (hourly_data !! sid))) as Hfill.
  destruct Hfill with (items := rows)
                      (st := (list_to_map ((λ sid, (sid, ∅)) <$> sensor_ids)
                              : gmap string (gmap Z Qc)))
    as (hourly_data & -> & Hdata); [| |done|].
  { intros hourly_data [[sid bucket] [avg_value|]] Hall Hsid; simpl in *; [|by eexists].
    unfold getitem. destruct (Hall sid Hsid) as [hourly ->]. simpl.
    eexists. split; [reflexivity|].
    intros sid' Hsid'. apply lookup_insert_is_Some'. right. by apply Hall. }
  { intros sid Hsid.
    destruct (list_to_map _ !! sid) eqn:Hl; [done|].
    apply not_elem_of_list_to_map_2 in Hl. destruct Hl.
    rewrite <- list_fmap_compose. simpl. by rewrite list_fmap_id. }
  (* the second loop reads it for those sensors *)
  pose proof (result_for_each_ok
                (λ (results : gmap string (list Qc)) (sensor_id : string),
                   result_bind (getitem hourly_data sensor_id) (λ hourly,
                     Ok (<[sensor_id :=
                             trend_of config hourly
                               (default now (end_times !! sensor_id))]> results)))
                (λ sid, sid ∈ sensor_ids) (λ _, True)) as Hread.
  destruct Hread with (items := sensor_ids) (st := results)
    as (results' & -> & _); [|done|by apply Forall_forall|by eexists _, _].
  intros st sid _ Hsid. unfold getitem. destruct (Hdata sid Hsid) as [hourly ->].
  simpl. by eexists.
Qed.

Lemma trends_ok {H : PythonFloat} db now sensors end_times log :
  ∃ trends log', _get_24h_trends_batch db now sensors end_times log = (Ok trends, log').
Proof.
  unfold _get_24h_trends_batch.
  pose proof (for_each_ok (trends_for_type db now end_times) (λ group, group.2 ≠ [])
                (λ _, True)) as Hloop.
  destruct Hloop with (items := sensors_by_type sensors)
                      (st := (list_to_map ((λ s, (Sensor.id s, zero_trend)) <$> sensors)
                              : gmap string (list Qc)))
                      (log := log)
    as (trends & log' & -> & _); [|done| |by eexists _, _].
  - intros st group log0 _ Hne.
    destruct (trends_for_type_ok db now end_times st group log0 Hne) as (? & ? & ->).
    by eexists _, _.
  - destruct (sensors_by_type_grouped sensors) as [_ Hall].
    eapply Forall_impl; [exact Hall|]. by intros g [? _].
Qed.

Lemma stats_for_type_ok {H : PythonFloat} db now end_times results group log :
  group.2 ≠ [] →
  ∃ results' log', stats_for_type db now end_times results group log = (Ok results', log').
Proof.
  intros Hne. unfold stats_for_type.
  destruct (SENSOR_TYPE_REGISTRY !! group.1) as [config|]; [|by eexists _, _].
  destruct (supports_aggregation config); simpl; [|by eexists _, _].
  destruct (minimum_ok ((λ sid, default now (end_times !! sid)) <$> (Sensor.id <$> group.2)))
    as [min_end Hmin].
  { by destruct (group.2). }
  unfold mbind, session_mbind, session_bind, lift. rewrite Hmin. simpl.
  by eexists _, _.
Qed.

Lemma stats_ok {H : PythonFloat} db now sensors end_times log :
  ∃ stats log', _get_24h_stats_batch db now sensors end_times log = (Ok stats, log').
Proof.
  unfold _get_24h_stats_batch.
  pose proof (for_each_ok (stats_for_type db now end_times) (λ group, group.2 ≠ [])
                (λ _, True)) as Hloop.
  destruct Hloop with (items := sensors_by_type sensors)
                      (st := (∅ : gmap string SensorStats.t)) (log := log)
    as (stats & log' & -> & _); [|done| |by eexists _, _].
  - intros st group log0 _ Hne.
    destruct (stats_for_type_ok db now end_times st group log0 Hne) as (? & ? & ->).
    by eexists _, _.
  - destruct (sensors_by_type_grouped sensors) as [_ Hall].
    eapply Forall_impl; [exact Hall|]. by intros g [? _].
Qed.

(** ** Assembly *)

Lemma unique_by_id (l : list Sensor.t) s s' :
  NoDup (Sensor.id <$> l) → s ∈ l → s' ∈ l → Sensor.id s = Sensor.id s' → s = s'.
Proof.
  induction l as [|x l IH]; intros Hnd Hs Hs' Hid; [by apply elem_of_nil in Hs|].
  rewrite fmap_cons in Hnd. apply NoDup_cons in Hnd as [Hx Hnd].
  apply elem_of_cons in Hs as [->|Hs]; apply elem_of_cons in Hs' as [->|Hs'].
  - done.
  - destruct Hx. rewrite Hid. by apply list_elem_of_fmap_2.
  - destruct Hx. rewrite <- Hid. by apply list_elem_of_fmap_2.
  - by apply IH.
Qed.

Lemma select_sensors_with_zones_sensor db keep (rw : Sensor.t * Zone.t) :
  rw ∈ select_sensors_with_zones db keep → rw.1 ∈ sensors db.
Proof.
  unfold select_sensors_with_zones.
  intros (s & (z & ->%list_elem_of_singleton & _)%list_elem_of_bind & Hs)%list_elem_of_bind.
  by apply list_elem_of_filter in Hs as [_ ?].
Qed.

Lemma foldl_insert_mono {A V} (key : A → string) (value : A → V) (rows : list A) :
  ∀ (results : gmap string V) k,
    is_Some (results !! k) →
    is_Some (foldl (λ results r, <[key r := value r]> results) results rows !! k).
Proof.
  induction rows as [|r rows IH]; intros results k Hk; simpl; [done|].
  apply IH, lookup_insert_is_Some'. by right.
Qed.

Lemma foldl_insert_is_Some {A V} (key : A → string) (value : A → V) (rows : list A) :
  ∀ (results : gmap string V) r,
    r ∈ rows →
    is_Some (foldl (λ results r, <[key r := value r]> results) results rows !! key r).
Proof.
  induction rows as [|x rows IH]; intros results r Hr; simpl;
    [by apply elem_of_nil in Hr|].
  apply elem_of_cons in Hr as [->|Hr]; [|by apply IH].
  apply foldl_insert_mono, lookup_insert_is_Some'. by left.
Qed.

Lemma build_sensor_config_ok {H : PythonFloat} sensor zone reading trend stats :
  is_Some (SENSOR_TYPE_REGISTRY !! Sensor.sensor_type sensor) →
  ∃ sensor_config,
    _build_sensor_config sensor zone reading trend stats = Ok sensor_config
    ∧ SensorConfig.sensor_type sensor_config = Sensor.sensor_type sensor.
Proof.
  intros [config Hconfig]. unfold _build_sensor_config. rewrite Hconfig.
  destruct reading as [[value secondary_value] ts].
  destruct (compute_status _ _ _) as [status status_text]. by eexists.
Qed.

(** The records are assembled without an exception, and every record is of
    a registered type: the branch of [_build_sensor_config] that raises for
    an unknown type is not reached. *)
Lemma assemble_ok {H : PythonFloat} db now rows log :
  (∀ s s', s ∈ rows.*1 → s' ∈ rows.*1 → Sensor.id s = Sensor.id s' → s = s') →
  ∃ sensor_configs log',
    assemble db now rows log = (Ok sensor_configs, log')
    ∧ Forall (λ c, is_Some (SENSOR_TYPE_REGISTRY !! SensorConfig.sensor_type c))
        sensor_configs.
Proof.
  intros Hunique. unfold assemble.
  unfold mbind, session_mbind, session_bind.
  destruct (latest_readings_ok db rows.*1 log) as (latest_readings & log1 & -> & Hlatest).
  remember (filter (λ s, is_Some (latest_readings !! Sensor.id s)) rows.*1)
    as sensors_with_readings eqn:Hfilter.
  assert (Hwith : Forall (λ s, s ∈ rows.*1 ∧ is_Some (latest_readings !! Sensor.id s))
                    sensors_with_readings).
  { subst. apply Forall_forall. intros s Hs. apply list_elem_of_filter in Hs. tauto. }
  clear Hfilter. destruct sensors_with_readings as [|s0 others].
  { eexists _, _. split; [reflexivity|constructor]. }
  set (sensors_with_readings := s0 :: others) in *.
  destruct (trends_ok db now sensors_with_readings
              ((λ data : latest, data.2) <$> latest_readings) log1)
    as (trends & log2 & ->).
  destruct (stats_ok db now sensors_with_readings
              ((λ data : latest, data.2) <$> latest_readings) log2)
    as (stats & log3 & ->).
  unfold lift.
  set (zones_by_sensor :=
         foldl (λ zones (row : Sensor.t * Zone.t), <[Sensor.id row.1 := row.2]> zones)
               (∅ : gmap string Zone.t) rows).
  pose proof (result_for_each_ok
                (λ sensor_configs sensor,
                   result_bind (getitem latest_readings (Sensor.id sensor)) (λ reading,
                   result_bind (getitem zones_by_sensor (Sensor.id sensor)) (λ zone,
                   result_bind
                     (_build_sensor_config sensor zone reading
                        (default zero_trend (trends !! Sensor.id sensor))
                        (default (SensorStats.mk 0%Qc 0%Qc 0%Qc "")
                                 (stats !! Sensor.id sensor)))
                     (λ sensor_config, Ok (sensor_configs ++ [sensor_config])))))
                (λ s, s ∈ rows.*1 ∧ is_Some (latest_readings !! Sensor.id s))
                (Forall (λ c, is_Some (SENSOR_TYPE_REGISTRY !! SensorConfig.sensor_type c))))
    as Hloop.
  destruct Hloop with (items := sensors_with_readings) (st := @nil SensorConfig.t)
    as (sensor_configs & -> & Hconfigs); [|constructor|done|by eexists _, _].
  intros sensor_configs s Hconfigs [Hs [reading Hreading]].
  unfold getitem. rewrite Hreading. simpl.
  assert (Hzone : is_Some (zones_by_sensor !! Sensor.id s)).
  { apply list_elem_of_fmap in Hs as (rw & -> & Hrw).
    apply (foldl_insert_is_Some (λ row : Sensor.t * Zone.t, Sensor.id row.1) snd rows ∅ rw Hrw). }
  destruct Hzone as [zone ->]. simpl.
  assert (Hreg : is_Some (SENSOR_TYPE_REGISTRY !! Sensor.sensor_type s)).
  { destruct (Hlatest (Sensor.id s)) as (s' & Hs' & Hid & Hreg); [by eexists|].
    by rewrite <- (Hunique s' s Hs' Hs Hid). }
  destruct (build_sensor_config_ok s zone reading
              (default zero_trend (trends !! Sensor.id s))
              (default (SensorStats.mk 0%Qc 0%Qc 0%Qc "") (stats !! Sensor.id s)) Hreg)
    as (sensor_config & -> & Htype).
  simpl. eexists. split; [reflexivity|].
  apply Forall_app. split; [done|]. apply Forall_singleton. by rewrite Htype.
Qed.

Lemma rows_unique db keep :
  NoDup (Sensor.id <$> sensors db) →
  ∀ s s', s ∈ (select_sensors_with_zones db keep).*1 →
          s' ∈ (select_sensors_with_zones db keep).*1 →
          Sensor.id s = Sensor.id s' → s = s'.
Proof.
  intros Hnd s s' (rw & -> & Hrw)%list_elem_of_fmap (rw' & -> & Hrw')%list_elem_of_fmap.
  apply (unique_by_id (sensors db)); [done|..];
    by eapply select_sensors_with_zones_sensor.
Qed.

Lemma filter_at_most_one {A} (f : A → string) (P : A → Prop)
    `{!∀ x, Decision (P x)} (l : list A) :
  NoDup (f <$> l) → (∀ x y, P x → P y → f x = f y) →
  filter P l = [] ∨ ∃ x, filter P l = [x].
Proof.
  intros Hnd Hsame. induction l as [|x l IH]; [by left|].
  rewrite fmap_cons in Hnd. apply NoDup_cons in Hnd as [Hx Hnd].
  destruct (decide (P x)) as [HPx|HPx].
  - right. exists x. rewrite filter_cons_True by done. f_equal.
    apply filter_none, Forall_forall. intros y Hy HPy.
    destruct Hx. rewrite (Hsame x y HPx HPy). by apply list_elem_of_fmap_2.
  - rewrite filter_cons_False by done. by apply IH.
Qed.

Lemma select_one_sensor db sensor_id :
  NoDup (Sensor.id <$> sensors db) → NoDup (Zone.id <$> zones db) →
  ∃ row, one_or_none
           (select_sensors_with_zones db (λ s, bool_decide (Sensor.id s = sensor_id)))
         = Ok row.
Proof.
  intros Hs Hz. unfold select_sensors_with_zones.
  destruct (filter_at_most_one Sensor.id
              (λ s, bool_decide (Sensor.id s = sensor_id) = true) (sensors db) Hs)
    as [->|[s ->]].
  { intros x y Hx%bool_decide_eq_true_1 Hy%bool_decide_eq_true_1. congruence. }
  - by eexists.
  - simpl. rewrite app_nil_r.
    destruct (filter_at_most_one Zone.id (λ z, Zone.id z = Sensor.zone_id s)
                (zones db) Hz) as [->|[z ->]].
    { intros x y Hx Hy. congruence. }
    + by eexists.
    + by eexists.
Qed.

Lemma get_all_sensors_ok {H : PythonFloat} db now log :
  NoDup (Sensor.id <$> sensors db) →
  ∃ sensor_configs log',
    get_all_sensors db now log = (Ok sensor_configs, log')
    ∧ Forall (λ c, is_Some (SENSOR_TYPE_REGISTRY !! SensorConfig.sensor_type c))
        sensor_configs.
Proof.
  intros Hnd. unfold get_all_sensors, mbind, session_mbind, session_bind, execute.
  pose proof (rows_unique db (λ _, true) Hnd) as Hunique.
  destruct (select_sensors_with_zones db (λ _, true)) as [|rw rows] eqn:Hrows.
  - eexists _, _. split; [reflexivity|constructor].
  - by apply assemble_ok.
Qed.

Lemma get_sensors_by_zone_ok {H : PythonFloat} db now zone_id sensor_type log :
  NoDup (Sensor.id <$> sensors db) →
  ∃ sensor_configs log',
    get_sensors_by_zone db now zone_id sensor_type log = (Ok sensor_configs, log')
    ∧ Forall (λ c, is_Some (SENSOR_TYPE_REGISTRY !! SensorConfig.sensor_type c))
        sensor_configs.
Proof.
  intros Hnd. unfold get_sensors_by_zone, mbind, session_mbind, session_bind, execute.
  match goal with |- context [select_sensors_with_zones db ?keep] =>
    pose proof (rows_unique db keep Hnd) as Hunique;
    destruct (select_sensors_with_zones db keep) as [|rw rows] eqn:Hrows end.
  - eexists _, _. split; [reflexivity|constructor].
  - by apply assemble_ok.
Qed.

Lemma get_sensor_by_id_ok {H : PythonFloat} db now sensor_id log :
  NoDup (Sensor.id <$> sensors db) → NoDup (Zone.id <$> zones db) →
  ∃ sensor_config log', get_sensor_by_id db now sensor_id log = (Ok sensor_config, log').
Proof.
  intros Hs Hz.
  unfold get_sensor_by_id, mbind, session_mbind, session_bind, execute, lift.
  destruct (select_one_sensor db sensor_id Hs Hz) as [row ->].
  destruct row as [[sensor zone]|]; [|by eexists _, _].
  destruct (latest_readings_ok db [sensor] (log ++ [SelectSensorWithZone sensor_id]))
    as (latest_readings & log1 & -> & Hlatest).
  destruct (latest_readings !! Sensor.id sensor) as [reading|] eqn:Hreading;
    [|by eexists _, _].
  destruct (trends_ok db now [sensor] {[Sensor.id sensor := reading.2]} log1)
    as (trends & log2 & ->).
  destruct (stats_ok db now [sensor] {[Sensor.id sensor := reading.2]} log2)
    as (stats & log3 & ->).
  assert (Hreg : is_Some (SENSOR_TYPE_REGISTRY !! Sensor.sensor_type sensor)).
  { destruct (Hlatest (Sensor.id sensor)) as (s' & Hs' & _ & Hreg); [by eexists|].
    by apply list_elem_of_singleton in Hs' as ->. }
  destruct (build_sensor_config_ok sensor zone reading
              (default zero_trend (trends !! Sensor.id sensor))
              (default (SensorStats.mk 0%Qc 0%Qc 0%Qc "") (stats !! Sensor.id sensor)) Hreg)
    as (sensor_config & -> & _).
  by eexists _, _.
Qed.

(** C8, as amended.  Not found and unsupported are results, not exceptions.
    [get_sensor_readings] returns nothing for a sensor id that is not
    known and for a sensor whose type has no registry entry, and a response
    for every registered type, aggregating or not;
    [get_sensor_baseline] returns nothing in these two cases and for a
    sensor whose type does not support aggregation.  In the summary
    builder (sensor and zone ids being primary keys), the batched fetch of
    the latest readings has no entry for a sensor whose type has no
    registry entry, so such a sensor is filtered out before the records are
    assembled: the three entry points return a result, never the
    [ValueError] of [_build_sensor_config] nor any other exception of the
    model, and every record returned is of a registered type. *)
Theorem not_found_is_a_result {H : PythonFloat} {Real : SqliteReal} db now log :
  (∀ sensor_id start end_ interval,
     select_sensor db sensor_id = [] →
     ReadingsService.get_sensor_readings db sensor_id start end_ interval = Ok None)
  ∧ (∀ sensor_id sensor start end_ interval,
       select_sensor db sensor_id = [sensor] →
       SENSOR_TYPE_REGISTRY !! Sensor.sensor_type sensor = None →
       ReadingsService.get_sensor_readings db sensor_id start end_ interval = Ok None)
  ∧ (∀ sensor_id sensor config start end_ interval,
       select_sensor db sensor_id = [sensor] →
       SENSOR_TYPE_REGISTRY !! Sensor.sensor_type sensor = Some config →
       ∃ response,
         ReadingsService.get_sensor_readings db sensor_id start end_ interval
         = Ok (Some response))
  ∧ (∀ sensor_id hours,
       select_sensor db sensor_id = [] →
       BaselineService.get_sensor_baseline db now sensor_id hours = Ok None)
  ∧ (∀ sensor_id sensor hours,
       select_sensor db sensor_id = [sensor] →
       SENSOR_TYPE_REGISTRY !! Sensor.sensor_type sensor = None →
       BaselineService.get_sensor_baseline db now sensor_id hours = Ok None)
  ∧ (∀ sensor_id sensor config hours,
       select_sensor db sensor_id = [sensor] →
       SENSOR_TYPE_REGISTRY !! Sensor.sensor_type sensor = Some config →
       supports_aggregation config = false →
       BaselineService.get_sensor_baseline db now sensor_id hours = Ok None)
  ∧ (∀ sensors sensor,
       NoDup (Sensor.id <$> sensors) → sensor ∈ sensors →
       SENSOR_TYPE_REGISTRY !! Sensor.sensor_type sensor = None →
       ∃ results log',
         _get_latest_readings_batch db sensors log = (Ok results, log')
         ∧ results !! Sensor.id sensor = None)
  ∧ (NoDup (Sensor.id <$> sensors db) → NoDup (Zone.id <$> zones db) →
       (∃ sensor_configs log',
          get_all_sensors db now log = (Ok sensor_configs, log')
          ∧ Forall (λ c, is_Some (SENSOR_TYPE_REGISTRY !! SensorConfig.sensor_type c))
              sensor_configs)
       ∧ (∀ zone_id sensor_type,
            ∃ sensor_configs log',
              get_sensors_by_zone db now zone_id sensor_type log
                = (Ok sensor_configs, log')
              ∧ Forall (λ c, is_Some (SENSOR_TYPE_REGISTRY !! SensorConfig.sensor_type c))
                  sensor_configs)
       ∧ (∀ sensor_id,
            ∃ sensor_config log',
              get_sensor_by_id db now sensor_id log = (Ok sensor_config, log'))).
Proof.
  split_and!.
  - intros sensor_id start end_ interval Hs.
    unfold ReadingsService.get_sensor_readings. by rewrite Hs.
  - intros sensor_id sensor start end_ interval Hs Hreg.
    unfold ReadingsService.get_sensor_readings. rewrite Hs. simpl. by rewrite Hreg.
  - intros sensor_id sensor config start end_ interval Hs Hreg.
    unfold ReadingsService.get_sensor_readings. rewrite Hs. simpl. rewrite Hreg.
    by eexists.
  - intros sensor_id hours Hs. unfold BaselineService.get_sensor_baseline.
    case_decide; [done|]. by rewrite Hs.
  - intros sensor_id sensor hours Hs Hreg. unfold BaselineService.get_sensor_baseline.
    case_decide; [done|]. rewrite Hs. simpl. by rewrite Hreg.
  - intros sensor_id sensor config hours Hs Hreg Hagg.
    unfold BaselineService.get_sensor_baseline.
    case_decide; [done|]. rewrite Hs. simpl. by rewrite Hreg, Hagg.
  - intros sensors sensor Hnd Hsensor Hreg.
    destruct (latest_readings_ok db sensors log) as (results & log' & Hrun & Hlatest).
    exists results, log'. split; [done|].
    destruct (results !! Sensor.id sensor) as [reading|] eqn:Hreading; [|done].
    destruct (Hlatest (Sensor.id sensor)) as (s' & Hs' & Hid & Hreg'); [by eexists|].
    rewrite (unique_by_id sensors s' sensor Hnd Hs' Hsensor Hid), Hreg in Hreg'.
    by destruct Hreg'.
  - intros Hs Hz. split_and!.
    + by apply get_all_sensors_ok.
    + intros zone_id sensor_type. by apply get_sensors_by_zone_ok.
    + intros sensor_id. by apply get_sensor_by_id_ok.
Qed.

Lemma not_found_is_a_result_witness :
  ∃ sensor_configs log',
    get_all_sensors (H := sample_float) facility_db (seconds 7200) []
      = (Ok sensor_configs, log')
    ∧ Forall (λ c, is_Some (SENSOR_TYPE_REGISTRY !! SensorConfig.sensor_type c))
        sensor_configs.
Proof.
  apply (proj1 (proj2 (proj2 (proj2 (proj2 (proj2 (proj2 (proj2
           (not_found_is_a_result (H := sample_float) (Real := binary64_sqlite)
              facility_db (seconds 7200) [])))))))
           ltac:(apply (bool_decide_eq_true_1 _); vm_compute; reflexivity)
           ltac:(apply (bool_decide_eq_true_1 _); vm_compute; reflexivity))).
Defined.

(** The claim C8 as first stated fails for [get_sensor_readings] and a
    sensor whose type does not support aggregation: the door of the sample
    data, of such a type, gets a response with its two readings. *)
Lemma door_readings_answered :
  (∃ config, SENSOR_TYPE_REGISTRY !! "door" = Some config
             ∧ supports_aggregation config = false)
  ∧ ∃ response,
      ReadingsService.get_sensor_readings (H := sample_float) facility_db "dock-door"
        0 (seconds 7200) "raw" = Ok (Some response)
      ∧ ReadingsResponse.sensor_type response = "door"
      ∧ ReadingPoint.timestamp <$> ReadingsResponse.readings response
        = [seconds 6000; seconds 6900].
Proof.
  split.
  - eexists. split; reflexivity.
  - eexists. split; [vm_compute; reflexivity|]. split; reflexivity.
Qed.

End SummaryTheorems.

(** * Further properties of the event service *)

Module EventProperties.
Import EventService Samples DoorInvariants PresenceInvariants EventNotions.

(** ** Events are anchored on samples *)

Lemma sampled_window db start end_ sensor_id zone_id s t state :
  sampled (Door.query db start end_ sensor_id zone_id) s t state →
  start ≤ t ∧ t ≤ end_.
Proof.
  intros (r & Hr & _ & <- & _).
  apply DoorFacts.query_elem in Hr. tauto.
Qed.

Lemma still_open_anchoring end_ l st :
  anchoring l st → Forall (anchored l) (Door.still_open end_ st).
Proof.
  intros [_ Hc]. unfold Door.still_open.
  destruct (Door.current_event_start st) as [t|] eqn:Ht; [|constructor].
  destruct (Door.current_sensor_id st) as [s|] eqn:Hs; [|constructor].
  apply Forall_singleton. split; simpl; [by apply Hc|done].
Qed.

Lemma body_anchoring end_ l st r :
  r ∈ l → anchoring l st → anchoring l (Door.body end_ st r).
Proof.
  intros Hr Ha. pose proof (still_open_anchoring end_ l st Ha) as Hso.
  destruct Ha as [He Hc].
  assert (Hhere : ∀ b, DoorReading.is_open r = b →
            sampled l (DoorReading.sensor_id r) (DoorReading.timestamp r) b).
  { intros b Hb. by exists r. }
  unfold Door.body. case_decide as Hd; simpl.
  - destruct (DoorReading.is_open r) eqn:Ho; simpl; split; simpl;
      try (by apply Forall_app); try done.
    intros s t [= <-] [= <-]. by apply Hhere.
  - assert (Hcur : Door.current_sensor_id st = Some (DoorReading.sensor_id r)).
    { by destruct (decide (Door.current_sensor_id st = Some (DoorReading.sensor_id r)));
        [|destruct Hd]. }
    assert (Hnew : ∀ s t, Door.current_sensor_id st = Some s →
              Some (DoorReading.timestamp r) = Some t →
              DoorReading.is_open r = true → sampled l s t true).
    { intros s t Hs [= <-] Ho. rewrite Hcur in Hs. injection Hs as <-. by apply Hhere. }
    destruct (Door.prev_is_open st) as [[]|], (DoorReading.is_open r) eqn:Ho; simpl;
      try (split; simpl; [done|]); try done; try (by intros s t Hs Ht; eapply Hnew).
    destruct (Door.current_event_start st) as [t|] eqn:Ht; simpl; split; simpl; try done.
    apply Forall_app. split; [done|]. apply Forall_singleton. split; simpl.
    + by apply Hc.
    + intros c [= <-]. by apply Hhere.
    + intros s t _ Ht'. congruence.
Qed.

Lemma run_anchoring end_ l rs st :
  Forall (λ r, r ∈ l) rs → anchoring l st →
  anchoring l (fold_left (Door.body end_) rs st).
Proof.
  intros Hrs. revert st. induction Hrs as [|r rs Hr _ IH]; intros st Ha; simpl; [done|].
  by apply IH, body_anchoring.
Qed.

Lemma events_of_anchored end_ l :
  Forall (anchored l) (Door.events_of end_ l).
Proof.
  assert (Ha : anchoring l (fold_left (Door.body end_) l Door.initial)).
  { apply run_anchoring; [by apply Forall_forall|]. split; [constructor|done]. }
  unfold Door.events_of. apply Forall_app. split; [apply Ha|].
  by apply still_open_anchoring.
Qed.

Lemma door_events_within db start end_ sensor_id zone_id :
  Forall (λ e, start ≤ DoorEvent.opened_at e ∧ DoorEvent.opened_at e ≤ end_
               ∧ ∀ c, DoorEvent.closed_at e = Some c → start ≤ c ∧ c ≤ end_)
    (get_door_events db start end_ sensor_id zone_id).
Proof.
  unfold get_door_events.
  eapply Forall_impl; [apply events_of_anchored|].
  intros e [Ho Hc].
  pose proof (sampled_window _ _ _ _ _ _ _ _ Ho) as [? ?].
  split_and!; try done.
  intros c Hcl. by eapply sampled_window, Hc.
Qed.

(** X1. Every door event opens at the timestamp of an "open" reading of its
    sensor that the query returned, and one that is closed closes at the
    timestamp of a "closed" reading of that sensor; so both instants lie
    within the window asked for, and no event is made up between samples. *)
Theorem door_events_anchored db start end_ sensor_id zone_id :
  Forall (λ e,
            anchored (Door.query db start end_ sensor_id zone_id) e
            ∧ start ≤ DoorEvent.opened_at e ∧ DoorEvent.opened_at e ≤ end_
            ∧ ∀ c, DoorEvent.closed_at e = Some c → start ≤ c ∧ c ≤ end_)
    (get_door_events db start end_ sensor_id zone_id).
Proof.
  pose proof (door_events_within db start end_ sensor_id zone_id) as Hwin.
  unfold get_door_events in *.
  pose proof (events_of_anchored end_ (Door.query db start end_ sensor_id zone_id)) as Ha.
  rewrite Forall_forall in Hwin, Ha. apply Forall_forall. intros e He.
  split; [by apply Ha|by apply Hwin].
Qed.

(** ** What the filters select *)

Lemma door_query_filtered db start end_ sensor_id zone_id r :
  r ∈ Door.query db start end_ sensor_id zone_id →
  (truthy sensor_id = true → Some (DoorReading.sensor_id r) = sensor_id)
  ∧ (truthy sensor_id = false → truthy zone_id = true →
       ∃ z s, zone_id = Some z ∧ s ∈ sensors db ∧ Sensor.id s = DoorReading.sensor_id r
              ∧ Sensor.zone_id s = z ∧ Sensor.sensor_type s = "door").
Proof.
  unfold Door.query. rewrite merge_sort_Permutation.
  destruct (truthy sensor_id) eqn:Hs; [|destruct (truthy zone_id) eqn:Hz].
  - intros [? _]%list_elem_of_filter. split; [done|discriminate].
  - intros [Hin _]%list_elem_of_filter. split; [discriminate|]. intros _ _.
    destruct zone_id as [z|]; [|done]. simpl in Hin.
    unfold _get_sensor_ids_for_zone in Hin.
    apply list_elem_of_fmap in Hin as (s & Hid & [[? ?] ?]%list_elem_of_filter).
    by exists z, s.
  - intros _. split; discriminate.
Qed.

(** X2. With a sensor id given, every door event is of that sensor and the
    zone argument has no effect; with only a zone given, every door event
    is of a sensor that the sensor table places in that zone with type
    "door"; an empty string counts as no filter. *)
Theorem door_events_filters db start end_ sensor_id zone_id :
  (truthy sensor_id = true →
     Forall (λ e, Some (DoorEvent.sensor_id e) = sensor_id)
       (get_door_events db start end_ sensor_id zone_id)
     ∧ get_door_events db start end_ sensor_id zone_id
       = get_door_events db start end_ sensor_id None)
  ∧ (truthy sensor_id = false → truthy zone_id = true →
       Forall (λ e, ∃ s, s ∈ sensors db ∧ Sensor.id s = DoorEvent.sensor_id e
                         ∧ Some (Sensor.zone_id s) = zone_id
                         ∧ Sensor.sensor_type s = "door")
         (get_door_events db start end_ sensor_id zone_id))
  ∧ get_door_events db start end_ (Some "") (Some "")
    = get_door_events db start end_ None None.
Proof.
  split_and!.
  - intros Hs. split.
    + unfold get_door_events.
      apply (DoorFacts.events_of_known end_ (λ sid, Some sid = sensor_id)).
      apply Forall_forall. intros r Hr.
      by apply (door_query_filtered db start end_ sensor_id zone_id r).
    + unfold get_door_events, Door.query. by rewrite Hs.
  - intros Hs Hz. unfold get_door_events.
    apply (DoorFacts.events_of_known end_
             (λ sid, ∃ s, s ∈ sensors db ∧ Sensor.id s = sid
                          ∧ Some (Sensor.zone_id s) = zone_id
                          ∧ Sensor.sensor_type s = "door")).
    apply Forall_forall. intros r Hr.
    destruct (door_query_filtered db start end_ sensor_id zone_id r Hr) as [_ Hq].
    destruct (Hq Hs Hz) as (z & s & -> & ? & ? & <- & ?). by exists s.
  - reflexivity.
Qed.

Lemma door_events_filters_witness :
  Forall (λ e, Some (DoorEvent.sensor_id e) = Some "dock-door")
    (get_door_events door_db 0 (seconds 3600) (Some "dock-door") (Some "cold-a")).
Proof.
  apply (proj1 (door_events_filters door_db 0 (seconds 3600) (Some "dock-door")
                  (Some "cold-a"))).
  reflexivity.
Defined.

(** ** No open sample, no event *)

Lemma body_seen_open end_ st r : seen_open st → seen_open (Door.body end_ st r).
Proof.
  intros Hseen. unfold Door.body. case_decide as Hd; simpl.
  - assert (Hne : Door.events st ++ Door.still_open end_ st ≠ []).
    { destruct Hseen as [Hne|[[t Ht] [s Hs]]].
      - intros [? _]%app_eq_nil. done.
      - unfold Door.still_open. rewrite Ht, Hs. intros [_ ?]%app_eq_nil. done. }
    destruct (DoorReading.is_open r); by left.
  - destruct Hseen as [Hne|[[t Ht] [s Hs]]].
    + destruct (Door.prev_is_open st) as [[]|], (DoorReading.is_open r),
        (Door.current_event_start st); simpl; try (by left).
      all: left; intros [? _]%app_eq_nil; done.
    + rewrite Ht.
      destruct (Door.prev_is_open st) as [[]|], (DoorReading.is_open r); simpl;
        try (by right; rewrite ?Ht, ?Hs); try (by right; split; eauto).
      left. intros [_ ?]%app_eq_nil. done.
Qed.

Lemma body_open_seen end_ st r :
  DoorReading.is_open r = true →
  (Door.prev_is_open st = Some true → seen_open st) →
  seen_open (Door.body end_ st r).
Proof.
  intros Ho Hprev.
  destruct (decide (Door.prev_is_open st = Some true
                    ∧ Some (DoorReading.sensor_id r) = Door.current_sensor_id st))
    as [[Hp _]|Hn].
  { by apply body_seen_open, Hprev. }
  unfold Door.body. case_decide as Hd; simpl.
  - rewrite Ho. right. by split; eexists.
  - rewrite Ho.
    assert (Hcur : is_Some (Door.current_sensor_id st)).
    { destruct (decide (Door.current_sensor_id st = Some (DoorReading.sensor_id r)))
        as [->|?]; [by eexists|]. destruct Hd. congruence. }
    destruct (Door.prev_is_open st) as [[]|] eqn:Hp; simpl.
    + destruct Hn. split; [done|].
      by destruct (decide (Some (DoorReading.sensor_id r) = Door.current_sensor_id st));
        [|destruct Hd].
    + right. split; [by eexists|done].
    + right. split; [by eexists|done].
Qed.

Lemma run_seen_open end_ l : ∀ st,
  (Door.prev_is_open st = Some true → seen_open st) →
  Exists (λ r, DoorReading.is_open r = true) l ∨ seen_open st →
  seen_open (fold_left (Door.body end_) l st).
Proof.
  induction l as [|r l IH]; intros st Hprev Hex; simpl.
  - destruct Hex as [Hex|?]; [by apply Exists_nil in Hex|done].
  - assert (Hr : DoorReading.is_open r = true → seen_open (Door.body end_ st r)).
    { intros Ho. by apply body_open_seen. }
    apply IH.
    + intros Hp. apply Hr.
      assert (Door.prev_is_open (Door.body end_ st r) = Some (DoorReading.is_open r))
        as Hq.
      { unfold Door.body. case_decide; simpl.
        - by destruct (DoorReading.is_open r).
        - by destruct (Door.prev_is_open st) as [[]|], (DoorReading.is_open r),
            (Door.current_event_start st). }
      congruence.
    + destruct Hex as [Hex|Hseen].
      * apply Exists_cons in Hex as [Ho|Hex]; [right; by apply Hr|by left].
      * right. by apply body_seen_open.
Qed.

Lemma run_all_closed end_ l : ∀ st,
  Forall (λ r, DoorReading.is_open r = false) l →
  Door.events st = [] → Door.current_event_start st = None →
  Door.events (fold_left (Door.body end_) l st) = []
  ∧ Door.current_event_start (fold_left (Door.body end_) l st) = None.
Proof.
  induction l as [|r l IH]; intros st Hl He Hs; simpl; [done|].
  apply Forall_cons in Hl as [Hr Hl]. apply IH; [done| |].
  - unfold Door.body, Door.still_open. rewrite He, Hs, Hr.
    case_decide; simpl; [done|].
    destruct (Door.prev_is_open st) as [[]|]; simpl; by rewrite ?Hs, ?He.
  - unfold Door.body, Door.still_open. rewrite Hs, Hr.
    case_decide; simpl; [done|].
    destruct (Door.prev_is_open st) as [[]|]; simpl; by rewrite ?Hs.
Qed.

Lemma events_of_nil_iff end_ l :
  Door.events_of end_ l = [] ↔ Forall (λ r, DoorReading.is_open r = false) l.
Proof.
  split.
  - intros Hnil. apply Forall_forall. intros r Hr.
    destruct (DoorReading.is_open r) eqn:Ho; [|done]. exfalso.
    assert (Hseen : seen_open (fold_left (Door.body end_) l Door.initial)).
    { apply run_seen_open; [done|]. left. apply Exists_exists. by exists r. }
    unfold Door.events_of in Hnil. apply app_eq_nil in Hnil as [He Hso].
    destruct Hseen as [?|[[t Ht] [s Hs]]]; [done|].
    unfold Door.still_open in Hso. by rewrite Ht, Hs in Hso.
  - intros Hl. destruct (run_all_closed end_ l Door.initial Hl) as [He Hs]; [done..|].
    unfold Door.events_of, Door.still_open. by rewrite He, Hs.
Qed.

(** X3. The list of door events is empty exactly when no reading that the
    query returned reports the door open; and with a minimum duration of
    zero or less the list of presence events is empty exactly when no row
    reports motion. *)
Theorem no_events_iff_no_open_sample db start end_ sensor_id zone_id :
  (get_door_events db start end_ sensor_id zone_id = []
   ↔ Forall (λ r, DoorReading.is_open r = false)
       (Door.query db start end_ sensor_id zone_id))
  ∧ ∀ min_duration_seconds, min_duration_seconds ≤ 0 →
      (get_presence_events db start end_ sensor_id zone_id min_duration_seconds = []
       ↔ Forall (λ rw : Presence.row, MotionReading.motion_detected rw.1 = false)
           (Presence.query db start end_ sensor_id zone_id)).
Proof.
  split; [apply events_of_nil_iff|].
  intros md Hmd. unfold get_presence_events.
  pose proof (PresenceFacts.events_of_simulates end_ md
                (Presence.query db start end_ sensor_id zone_id)) as Hsim.
  rewrite filter_all in Hsim.
  2:{ eapply Forall_impl.
      - apply DoorFacts.events_of_nonneg.
        + apply EventTheorems.presence_query_sorted.
        + apply EventTheorems.presence_query_window.
      - simpl. intros e He. lia. }
  transitivity (Forall (λ r, DoorReading.is_open r = false)
                  (to_door <$> Presence.query db start end_ sensor_id zone_id)).
  - rewrite <- events_of_nil_iff, <- Hsim.
    split; [by intros ->|apply fmap_nil_inv].
  - by rewrite Forall_fmap.
Qed.

Lemma no_events_iff_no_open_sample_witness :
  get_presence_events motion_db 0 (seconds 600) None None 0 = []
  ↔ Forall (λ rw : Presence.row, MotionReading.motion_detected rw.1 = false)
      (Presence.query motion_db 0 (seconds 600) None None).
Proof.
  apply (proj2 (no_events_iff_no_open_sample motion_db 0 (seconds 600) None None) 0).
  lia.
Defined.

(** ** Presence events and the sensor table *)

Lemma still_active_zoned end_ md P st :
  zoned P st →
  Forall (λ e, P (PresenceEvent.sensor_id e) (PresenceEvent.zone_id e))
    (Presence.still_active end_ md st).
Proof.
  intros [_ Hc]. unfold Presence.still_active.
  destruct (Presence.current_event_start st) as [t|]; [|constructor].
  destruct (Presence.current_sensor_id st) as [s|]; [|constructor].
  case_decide; [|constructor].
  destruct (Hc s eq_refl) as (z & -> & Hz). by apply Forall_singleton.
Qed.

Lemma body_zoned end_ md P st rw :
  P (MotionReading.sensor_id rw.1) rw.2 → zoned P st →
  zoned P (Presence.body end_ md st rw).
Proof.
  intros Hrw Hz. pose proof (still_active_zoned end_ md P st Hz) as Hsa.
  destruct Hz as [He Hc]. destruct rw as [reading zone]. simpl in Hrw.
  unfold Presence.body. case_decide as Hd; simpl.
  - destruct (MotionReading.motion_detected reading); simpl; split; simpl;
      try (by apply Forall_app); intros s [= <-]; by exists zone.
  - destruct (Presence.prev_motion st) as [[]|],
      (MotionReading.motion_detected reading); simpl; try done.
    destruct (Presence.current_event_start st); simpl; [|done].
    split; simpl; [|done]. case_decide; [|done].
    apply Forall_app. split; [done|]. by apply Forall_singleton.
Qed.

Lemma run_zoned end_ md P rows : ∀ st,
  Forall (λ rw : Presence.row, P (MotionReading.sensor_id rw.1) rw.2) rows →
  zoned P st → zoned P (fold_left (Presence.body end_ md) rows st).
Proof.
  induction rows as [|rw rows IH]; intros st Hrows Hz; simpl; [done|].
  apply Forall_cons in Hrows as [Hrw Hrows]. by apply IH, body_zoned.
Qed.

Lemma events_of_zoned end_ md P rows :
  Forall (λ rw : Presence.row, P (MotionReading.sensor_id rw.1) rw.2) rows →
  Forall (λ e, P (PresenceEvent.sensor_id e) (PresenceEvent.zone_id e))
    (Presence.events_of end_ md rows).
Proof.
  intros Hrows.
  assert (Hz : zoned P (fold_left (Presence.body end_ md) rows Presence.initial)).
  { apply run_zoned; [done|]. split; [constructor|done]. }
  unfold Presence.events_of. apply Forall_app. split; [apply Hz|].
  by apply still_active_zoned.
Qed.

Lemma presence_query_joined db start end_ sensor_id zone_id (rw : Presence.row) :
  rw ∈ Presence.query db start end_ sensor_id zone_id →
  (∃ s, s ∈ sensors db ∧ Sensor.id s = MotionReading.sensor_id rw.1
        ∧ Sensor.zone_id s = rw.2)
  ∧ rw.1 ∈ motion_readings db
  ∧ (truthy sensor_id = true → Some (MotionReading.sensor_id rw.1) = sensor_id)
  ∧ (truthy sensor_id = false → truthy zone_id = true → Some rw.2 = zone_id).
Proof.
  unfold Presence.query. rewrite merge_sort_Permutation. intros Hin.
  assert (Hjoin : rw ∈ (r ← motion_readings db;
                        s ← filter (λ s, MotionReading.sensor_id r = Sensor.id s)
                              (sensors db);
                        [(r, Sensor.zone_id s)])).
  { destruct (truthy sensor_id); [|destruct (truthy zone_id)].
    - by apply list_elem_of_filter in Hin as [_ [_ ?]%list_elem_of_filter].
    - by apply list_elem_of_filter in Hin as [_ [_ ?]%list_elem_of_filter].
    - by apply list_elem_of_filter in Hin as [_ ?]. }
  split_and!.
  - apply list_elem_of_bind in Hjoin as (r & Hs & Hr).
    apply list_elem_of_bind in Hs as (s & Hrw & [Hid Hs]%list_elem_of_filter).
    apply list_elem_of_singleton in Hrw as ->. by exists s.
  - apply list_elem_of_bind in Hjoin as (r & Hs & Hr).
    apply list_elem_of_bind in Hs as (s & Hrw & _).
    by apply list_elem_of_singleton in Hrw as ->.
  - intros Hs. rewrite Hs in Hin. by apply list_elem_of_filter in Hin as [? _].
  - intros Hs Hz. rewrite Hs, Hz in Hin. by apply list_elem_of_filter in Hin as [? _].
Qed.

(** X4. Every presence event names a sensor of the sensor table together
    with the zone that table gives it: motion readings of a sensor the
    table does not hold yield no event.  With a sensor id given every
    event is of that sensor; with only a zone given every event is of that
    zone. *)
Theorem presence_events_zone db start end_ sensor_id zone_id min_duration_seconds :
  Forall (λ e, ∃ s, s ∈ sensors db ∧ Sensor.id s = PresenceEvent.sensor_id e
                    ∧ Sensor.zone_id s = PresenceEvent.zone_id e)
    (get_presence_events db start end_ sensor_id zone_id min_duration_seconds)
  ∧ (truthy sensor_id = true →
       Forall (λ e, Some (PresenceEvent.sensor_id e) = sensor_id)
         (get_presence_events db start end_ sensor_id zone_id min_duration_seconds))
  ∧ (truthy sensor_id = false → truthy zone_id = true →
       Forall (λ e, Some (PresenceEvent.zone_id e) = zone_id)
         (get_presence_events db start end_ sensor_id zone_id min_duration_seconds)).
Proof.
  unfold get_presence_events. split_and!.
  - apply (events_of_zoned end_ min_duration_seconds
             (λ sid z, ∃ s, s ∈ sensors db ∧ Sensor.id s = sid ∧ Sensor.zone_id s = z)).
    apply Forall_forall. intros rw Hrw.
    by apply presence_query_joined in Hrw as [? _].
  - intros Hs.
    apply (events_of_zoned end_ min_duration_seconds (λ sid _, Some sid = sensor_id)).
    apply Forall_forall. intros rw Hrw.
    apply presence_query_joined in Hrw as (_ & _ & H & _). by apply H.
  - intros Hs Hz.
    apply (events_of_zoned end_ min_duration_seconds (λ _ z, Some z = zone_id)).
    apply Forall_forall. intros rw Hrw.
    apply presence_query_joined in Hrw as (_ & _ & _ & H). by apply H.
Qed.

Lemma presence_events_zone_witness :
  Forall (λ e, Some (PresenceEvent.zone_id e) = Some "cold-a")
    (get_presence_events motion_db 0 (seconds 3600) None (Some "cold-a") 0).
Proof.
  apply (proj2 (proj2 (presence_events_zone motion_db 0 (seconds 3600) None
                         (Some "cold-a") 0))); reflexivity.
Defined.

(** X5. Every presence event begins at the timestamp of a row that reports
    motion for its sensor and, when it has ended, ends at the timestamp of a
    row that reports none; both instants lie within the window asked for. *)
Theorem presence_events_anchored db start end_ sensor_id zone_id min_duration_seconds :
  Forall (λ e,
            anchored (to_door <$> Presence.query db start end_ sensor_id zone_id)
              (forget e)
            ∧ start ≤ PresenceEvent.started_at e ∧ PresenceEvent.started_at e ≤ end_
            ∧ ∀ c, PresenceEvent.ended_at e = Some c → start ≤ c ∧ c ≤ end_)
    (get_presence_events db start end_ sensor_id zone_id min_duration_seconds).
Proof.
  unfold get_presence_events.
  set (rows := Presence.query db start end_ sensor_id zone_id).
  assert (Hwin : ∀ s t state, sampled (to_door <$> rows) s t state → start ≤ t ∧ t ≤ end_).
  { intros s t state (r & Hr & _ & <- & _).
    apply list_elem_of_fmap in Hr as (rw & -> & Hrw). simpl.
    unfold rows, Presence.query in Hrw. rewrite merge_sort_Permutation in Hrw.
    destruct (truthy sensor_id); [|destruct (truthy zone_id)].
    - apply list_elem_of_filter in Hrw as [_ [? _]%list_elem_of_filter]. lia.
    - apply list_elem_of_filter in Hrw as [_ [? _]%list_elem_of_filter]. lia.
    - apply list_elem_of_filter in Hrw as [? _]. lia. }
  assert (Hall : Forall (anchored (to_door <$> rows))
                   (forget <$> Presence.events_of end_ min_duration_seconds rows)).
  { rewrite PresenceFacts.events_of_simulates.
    apply Forall_forall. intros e [_ He]%list_elem_of_filter.
    pose proof (events_of_anchored end_ (to_door <$> rows)) as Ha.
    rewrite Forall_forall in Ha. by apply Ha. }
  rewrite Forall_fmap in Hall. eapply Forall_impl; [exact Hall|].
  intros e [Ho Hc]. simpl in Ho, Hc. split; [by split|].
  destruct (Hwin _ _ _ Ho). split_and!; try done.
  intros c Hcl. by eapply Hwin, Hc.
Qed.

(** ** An event without a close time *)

Lemma run_closed end_ s l : ∀ ev t p,
  Forall (λ r, DoorReading.sensor_id r = s) l →
  Forall (λ e, is_Some (DoorEvent.closed_at e)) ev →
  Forall (λ e, is_Some (DoorEvent.closed_at e))
    (Door.events (fold_left (Door.body end_) l (Door.mk ev (Some s) t (Some p)))).
Proof.
  induction l as [|r l IH]; intros ev t p Hl Hev; simpl; [done|].
  apply Forall_cons in Hl as [Hr Hl].
  rewrite (DoorFacts.body_same end_ ev s t p r Hr).
  destruct p, (DoorReading.is_open r); simpl; try by apply IH.
  destruct t; simpl; apply IH; try done.
  apply Forall_app. split; [done|]. apply Forall_singleton. by eexists.
Qed.

Lemma events_of_single_shape end_ s l :
  Forall (λ r, DoorReading.sensor_id r = s) l →
  ∃ closed rest,
    Door.events_of end_ l = closed ++ rest
    ∧ Forall (λ e, is_Some (DoorEvent.closed_at e)) closed
    ∧ (rest = []
       ∨ ∃ e r, rest = [e] ∧ DoorEvent.closed_at e = None
                ∧ DoorEvent.duration_seconds e
                  = int_total_seconds (end_ - DoorEvent.opened_at e)
                ∧ last l = Some r ∧ DoorReading.is_open r = true).
Proof.
  intros Hl. destruct l as [|r0 l].
  { exists [], []. split; [done|]. split; [constructor|by left]. }
  set (st := fold_left (Door.body end_) (r0 :: l) Door.initial).
  exists (Door.events st), (Door.still_open end_ st). split; [done|]. split.
  - unfold st. simpl. rewrite DoorFacts.body_first.
    apply Forall_cons in Hl as [-> Hl]. by apply run_closed.
  - destruct (last (r0 :: l)) as [r|] eqn:Hlast.
    2:{ by apply last_None in Hlast. }
    destruct (DoorFacts.run_tracking end_ s (r0 :: l) r Hl Hlast) as [[Hcur Htr] Hprev].
    fold st in Hcur, Htr, Hprev. rewrite Hprev in Htr.
    unfold Door.still_open. rewrite Hcur.
    destruct (Door.current_event_start st) as [t|] eqn:Ht; [|by left].
    right. eexists _, r. split; [done|]. simpl. split_and!; try done.
    destruct (DoorReading.is_open r); [done|discriminate].
Qed.

(** X6. A door event without a close time is the last event of its sensor;
    its duration runs to the end of the window, and the last reading of
    that sensor in the window reports the door open.  (The claim on
    censoring gives the converse.) *)
Theorem open_ended_event_is_last db start end_ sensor_id zone_id s i e :
  let readings :=
    filter (λ r, DoorReading.sensor_id r = s)
           (Door.query db start end_ sensor_id zone_id) in
  let events :=
    filter (λ e, DoorEvent.sensor_id e = s)
           (get_door_events db start end_ sensor_id zone_id) in
  events !! i = Some e → DoorEvent.closed_at e = None →
  S i = length events
  ∧ DoorEvent.duration_seconds e = int_total_seconds (end_ - DoorEvent.opened_at e)
  ∧ ∃ r, last readings = Some r ∧ DoorReading.is_open r = true.
Proof.
  intros readings events Hi Hopen.
  assert (Hev : events = Door.events_of end_ readings).
  { apply EventTheorems.door_events_project. }
  destruct (events_of_single_shape end_ s readings) as (closed & rest & Heq & Hcl & Hrest).
  { apply EventTheorems.door_query_single. }
  rewrite Heq in Hev. clearbody events readings. subst events.
  apply lookup_app_Some in Hi as [Hi|[Hge Hi]].
  { rewrite Forall_forall in Hcl. apply list_elem_of_lookup_2, Hcl in Hi.
    rewrite Hopen in Hi. by destruct Hi. }
  destruct Hrest as [->|(e' & r & -> & Hnone & Hdur & Hlast & Ho)]; [done|].
  destruct (i - length closed)%nat as [|n] eqn:Hn; [|done].
  injection Hi as <-. rewrite length_app. simpl. split_and!; [lia|done|by exists r].
Qed.

Lemma open_ended_event_is_last_witness :
  let e := DoorEvent.mk "cold-door" (seconds 300) None 3300 in
  2%nat = length (filter (λ e, DoorEvent.sensor_id e = "cold-door")
                    (get_door_events door_db 0 (seconds 3600) None None))
  ∧ DoorEvent.duration_seconds e
    = int_total_seconds (seconds 3600 - DoorEvent.opened_at e)
  ∧ ∃ r, last (filter (λ r, DoorReading.sensor_id r = "cold-door")
                 (Door.query door_db 0 (seconds 3600) None None)) = Some r
         ∧ DoorReading.is_open r = true.
Proof.
  apply (open_ended_event_is_last door_db 0 (seconds 3600) None None "cold-door" 1);
    reflexivity.
Defined.

End EventProperties.

(** * The event routes *)

Module RouteProperties.
Import EventService Routes Samples PresenceInvariants.

(** ** The event service under the datetimes of a request *)

Lemma flush_naive end_ current_event_start current_sensor_id :
  RequestEvents.flush (PyDatetime.naive end_) current_event_start current_sensor_id
  = Ok ().
Proof. unfold RequestEvents.flush. by destruct current_event_start, current_sensor_id. Qed.

(** When the loop gets through, it is the loop on the wall-clock fields. *)
Lemma door_run_ok end_ l : ∀ st st',
  SensorService.result_for_each (RequestEvents.door_body end_) l st = Ok st' →
  st' = fold_left (Door.body (PyDatetime.wall end_)) l st.
Proof.
  induction l as [|r l IH]; intros st st' Hrun; simpl in Hrun |- *; [congruence|].
  unfold RequestEvents.door_body in Hrun at 1.
  destruct (if decide _ then _ else _) as [[]|e]; [|done]. simpl in Hrun.
  by apply IH.
Qed.

Lemma presence_run_ok end_ md l : ∀ st st',
  SensorService.result_for_each (RequestEvents.presence_body end_ md) l st = Ok st' →
  st' = fold_left (Presence.body (PyDatetime.wall end_) md) l st.
Proof.
  induction l as [|r l IH]; intros st st' Hrun; simpl in Hrun |- *; [congruence|].
  unfold RequestEvents.presence_body in Hrun at 1.
  destruct (if decide _ then _ else _) as [[]|e]; [|done]. simpl in Hrun.
  by apply IH.
Qed.

Lemma door_run_naive end_ l : ∀ st,
  SensorService.result_for_each (RequestEvents.door_body (PyDatetime.naive end_)) l st
  = Ok (fold_left (Door.body end_) l st).
Proof.
  induction l as [|r l IH]; intros st; simpl; [done|].
  unfold RequestEvents.door_body at 1. rewrite flush_naive.
  destruct (decide _); simpl; apply IH.
Qed.

Lemma presence_run_naive end_ md l : ∀ st,
  SensorService.result_for_each
    (RequestEvents.presence_body (PyDatetime.naive end_) md) l st
  = Ok (fold_left (Presence.body end_ md) l st).
Proof.
  induction l as [|r l IH]; intros st; simpl; [done|].
  unfold RequestEvents.presence_body at 1. rewrite flush_naive.
  destruct (decide _); simpl; apply IH.
Qed.

Lemma request_door_events_ok db start end_ sensor_id zone_id events :
  RequestEvents.get_door_events db start end_ sensor_id zone_id = Ok events →
  events = get_door_events db (PyDatetime.wall start) (PyDatetime.wall end_)
             sensor_id zone_id.
Proof.
  unfold RequestEvents.get_door_events, get_door_events, Door.events_of.
  destruct (SensorService.result_for_each _ _ _) as [st|e] eqn:Hrun; [|done].
  apply door_run_ok in Hrun as ->. simpl.
  destruct (RequestEvents.flush _ _ _) as [[]|e]; [|done]. simpl. congruence.
Qed.

Lemma request_presence_events_ok db start end_ sensor_id zone_id md events :
  RequestEvents.get_presence_events db start end_ sensor_id zone_id md = Ok events →
  events = get_presence_events db (PyDatetime.wall start) (PyDatetime.wall end_)
             sensor_id zone_id md.
Proof.
  unfold RequestEvents.get_presence_events, get_presence_events, Presence.events_of.
  destruct (SensorService.result_for_each _ _ _) as [st|e] eqn:Hrun; [|done].
  apply presence_run_ok in Hrun as ->. simpl.
  destruct (RequestEvents.flush _ _ _) as [[]|e]; [|done]. simpl. congruence.
Qed.

Lemma request_door_events_naive db start end_ sensor_id zone_id :
  RequestEvents.get_door_events db start (PyDatetime.naive end_) sensor_id zone_id
  = Ok (get_door_events db (PyDatetime.wall start) end_ sensor_id zone_id).
Proof.
  unfold RequestEvents.get_door_events. rewrite door_run_naive. simpl.
  by rewrite flush_naive.
Qed.

Lemma request_presence_events_naive db start end_ sensor_id zone_id md :
  RequestEvents.get_presence_events db start (PyDatetime.naive end_) sensor_id zone_id md
  = Ok (get_presence_events db (PyDatetime.wall start) end_ sensor_id zone_id md).
Proof.
  unfold RequestEvents.get_presence_events. rewrite presence_run_naive. simpl.
  by rewrite flush_naive.
Qed.

(** ** The time range *)

(** A request whose datetimes are naive. *)
Lemma time_range_cases now (start end_ : option datetime) max_days :
  let end' := default now end_ in
  let start' := default (end' - timedelta_hours 24) start in
  (start = None → representable start') →
  (start' < end' ∧ end' - start' ≤ timedelta_days max_days
   ∧ time_range now (PyDatetime.naive <$> start) (PyDatetime.naive <$> end_) max_days
     = Respond (PyDatetime.naive start', PyDatetime.naive end'))
  ∨ ((end' ≤ start' ∨ timedelta_days max_days < end' - start')
     ∧ ∃ detail,
         time_range now (PyDatetime.naive <$> start) (PyDatetime.naive <$> end_) max_days
         = HTTPException 400 detail).
Proof.
  intros end' start' Hrange. unfold time_range.
  assert (Hend : default (PyDatetime.naive now) (PyDatetime.naive <$> end_)
                 = PyDatetime.naive end').
  { unfold end'. by destruct end_. }
  rewrite Hend. cbv zeta.
  assert (Hstart : match PyDatetime.naive <$> start with
                   | Some start => Ok start
                   | None =>
                       PyDatetime.minus_timedelta (PyDatetime.naive end')
                         (timedelta_hours 24)
                   end = Ok (PyDatetime.naive start')).
  { unfold start'. destruct start as [start|]; [done|].
    unfold PyDatetime.minus_timedelta. simpl. by rewrite decide_True by (by apply Hrange). }
  rewrite Hstart. unfold PyDatetime.ge, PyDatetime.minus. simpl.
  destruct (decide (end' ≤ start')) as [Hle|Hlt].
  { right. split; [by left|]. rewrite bool_decide_eq_true_2 by done. by eexists. }
  rewrite bool_decide_eq_false_2 by done.
  destruct (decide (timedelta_days max_days < end' - start')) as [Hlong|Hshort].
  { right. split; [by right|]. by eexists. }
  left. split_and!; [lia|lia|done].
Qed.

(** The range that any request is answered for. *)
Lemma time_range_respond now start end_ max_days range_start range_end :
  time_range now start end_ max_days = Respond (range_start, range_end) →
  range_end = default (PyDatetime.naive now) end_
  ∧ PyDatetime.wall range_start
    = default (PyDatetime.wall range_end - timedelta_hours 24) (PyDatetime.wall <$> start).
Proof.
  unfold time_range. cbv zeta. set (e := default (PyDatetime.naive now) end_).
  intros Hrange.
  assert (Hstart : ∀ s,
            match start with
            | Some start => Ok start
            | None => PyDatetime.minus_timedelta e (timedelta_hours 24)
            end = Ok s →
            PyDatetime.wall s
            = default (PyDatetime.wall e - timedelta_hours 24) (PyDatetime.wall <$> start)).
  { intros s Hs. destruct start as [start|]; simpl; [congruence|].
    unfold PyDatetime.minus_timedelta in Hs. case_decide; [|done].
    by injection Hs as <-. }
  destruct (match start with Some _ => _ | None => _ end) as [s|]; [|done].
  specialize (Hstart s eq_refl).
  destruct (PyDatetime.ge s e) as [[]|]; try done.
  destruct (PyDatetime.minus e s) as [range|]; [|done].
  case_decide; [done|]. injection Hrange as <- <-. done.
Qed.

Lemma slice_to_take {A} (items : list A) (stop : Z) :
  0 ≤ stop →
  slice_to items stop = take (Z.to_nat stop) items
  ∧ Z.of_nat (length (slice_to items stop)) = Z.min stop (Z.of_nat (length items)).
Proof.
  intros Hstop. unfold slice_to. rewrite decide_True by done.
  split; [done|]. rewrite length_take. lia.
Qed.

(** X7. For a request whose datetimes are naive (when it names no start,
    the 24 hours before its end must begin at a datetime that Python can
    represent), the door events route accepts the request exactly when its
    time range, after the defaults (up to now, the 24 hours before the
    end), is not empty and spans at most seven days, and answers 400
    otherwise.  An accepted request is answered with the first [limit]
    events of that range, none outside it, and with the count of all its
    events. *)
Theorem door_events_page db now sensor_id zone_id (start end_ : option datetime) limit :
  1 ≤ limit →
  let end' := default now end_ in
  let start' := default (end' - timedelta_hours 24) start in
  (start = None → representable start') →
  let all := get_door_events db start' end' sensor_id zone_id in
  let response :=
    list_door_events db now sensor_id zone_id (PyDatetime.naive <$> start)
      (PyDatetime.naive <$> end_) limit in
  ((∃ body, response = Respond body)
   ↔ start' < end' ∧ end' - start' ≤ timedelta_days MAX_EVENTS_DAYS)
  ∧ (∀ status_code detail, response = HTTPException status_code detail → status_code = 400)
  ∧ (∀ e, response ≠ Unhandled e)
  ∧ ∀ body, response = Respond body →
      DoorEventsResponse.events body = take (Z.to_nat limit) all
      ∧ DoorEventsResponse.total_count body = Z.of_nat (length all)
      ∧ Z.of_nat (length (DoorEventsResponse.events body))
        = Z.min limit (DoorEventsResponse.total_count body)
      ∧ Forall (λ e, start' ≤ DoorEvent.opened_at e ∧ DoorEvent.opened_at e ≤ end'
                     ∧ ∀ c, DoorEvent.closed_at e = Some c → c ≤ end')
          (DoorEventsResponse.events body).
Proof.
  intros Hlimit end' start' Hrange all response.
  destruct (slice_to_take all limit) as [Htake Hlen]; [lia|].
  unfold response, list_door_events.
  destruct (time_range_cases now start end_ MAX_EVENTS_DAYS Hrange)
    as [(Hlt & Hle & ->)|[Hbad (detail & ->)]];
    fold end' in Hlt, Hle || fold end' in Hbad; fold start' in Hlt, Hle || fold start' in Hbad.
  - rewrite request_door_events_naive. cbn [PyDatetime.wall PyDatetime.naive].
    fold start'. fold end'. fold all. split_and!.
    + split; [done|]. intros _. by eexists.
    + done.
    + done.
    + intros body [= <-].
      cbn [DoorEventsResponse.events DoorEventsResponse.total_count].
      split_and!; try done.
      change (Forall (λ e, start' ≤ DoorEvent.opened_at e ∧ DoorEvent.opened_at e ≤ end'
                           ∧ ∀ c, DoorEvent.closed_at e = Some c → c ≤ end')
                (slice_to all limit)).
      rewrite Htake. apply Forall_take.
      eapply Forall_impl; [apply EventProperties.door_events_within|].
      intros e (? & ? & Hc). split_and!; try done. intros c Hcl. by apply Hc.
  - split_and!.
    + split; [by intros [? ?]|]. intros [? ?]. lia.
    + by intros ? ? [= <- _].
    + done.
    + done.
Qed.

Lemma door_events_page_witness :
  ∃ body,
    list_door_events door_db (seconds 3600) None None (Some (PyDatetime.naive 0)) None 1
      = Respond body
    ∧ DoorEventsResponse.events body
      = [DoorEvent.mk "cold-door" (seconds 0) (Some (seconds 120)) 120]
    ∧ DoorEventsResponse.total_count body = 3.
Proof.
  pose proof (door_events_page door_db (seconds 3600) None None (Some 0) None 1) as Hpage.
  destruct Hpage as ((_ & Haccepted) & _ & _ & Hpage); [lia|done|].
  destruct Haccepted as [body Hbody]; [vm_compute; split; [reflexivity|discriminate]|].
  exists body. split; [exact Hbody|].
  destruct (Hpage body Hbody) as (-> & -> & _). split; reflexivity.
Defined.

Lemma presence_events_at_least end_ md rows :
  Forall (λ e, md ≤ PresenceEvent.duration_seconds e) (Presence.events_of end_ md rows).
Proof.
  rewrite (PresenceFacts.events_of_keeps end_ md md rows) by lia.
  apply Forall_forall. by intros e [? _]%list_elem_of_filter.
Qed.

Lemma filter_length_le {A} (P : A → Prop) `{!∀ x, Decision (P x)} (l : list A) :
  (length (filter P l) ≤ length l)%nat.
Proof. apply sublist_length, sublist_filter. Qed.

Lemma filter_take_length {A} (P : A → Prop) `{!∀ x, Decision (P x)} (l : list A) n :
  (length (filter P (take n l)) ≤ length (filter P l))%nat.
Proof.
  revert n. induction l as [|x l IH]; intros [|n]; simpl; try done.
  - lia.
  - destruct (decide (P x)).
    + rewrite !filter_cons_True by done. simpl. specialize (IH n). lia.
    + rewrite !filter_cons_False by done. apply IH.
Qed.

Lemma filter_ext_elem {A} (P Q : A → Prop) `{!∀ x, Decision (P x)}
    `{!∀ x, Decision (Q x)} (l : list A) :
  Forall (λ x, P x ↔ Q x) l → filter P l = filter Q l.
Proof.
  induction 1 as [|x l Hx _ IH]; [done|].
  destruct (decide (P x)) as [HP|HP].
  - rewrite !filter_cons_True by tauto. by rewrite IH.
  - rewrite !filter_cons_False by tauto. done.
Qed.

(** X8. The presence events route counts safety concerns over all events
    of the time range, not over the page it returns: whenever it answers,
    whether the datetimes of the request have an offset or not, the count
    is the number of events of the range (by the wall-clock fields of its
    datetimes) lasting 600 seconds or more; it is at least the number of
    flagged events on the page and at most the total count; and with a
    minimum duration of 600 seconds or more it equals the total count. *)
Theorem presence_events_page db now sensor_id zone_id start end_ min_duration limit body :
  1 ≤ limit →
  list_presence_events db now sensor_id zone_id start end_ min_duration limit
    = Respond body →
  let end' := PyDatetime.wall (default (PyDatetime.naive now) end_) in
  let start' := default (end' - timedelta_hours 24) (PyDatetime.wall <$> start) in
  let all := get_presence_events db start' end' sensor_id zone_id min_duration in
  PresenceEventsResponse.events body = take (Z.to_nat limit) all
  ∧ PresenceEventsResponse.total_count body = Z.of_nat (length all)
  ∧ PresenceEventsResponse.safety_concerns_count body
    = Z.of_nat (length (filter (λ e, 600 ≤ PresenceEvent.duration_seconds e) all))
  ∧ Z.of_nat (length (filter (λ e, PresenceEvent.is_safety_concern e = true)
                        (PresenceEventsResponse.events body)))
    ≤ PresenceEventsResponse.safety_concerns_count body
  ∧ PresenceEventsResponse.safety_concerns_count body
    ≤ PresenceEventsResponse.total_count body
  ∧ (600 ≤ min_duration →
       PresenceEventsResponse.safety_concerns_count body
       = PresenceEventsResponse.total_count body).
Proof.
  intros Hlimit Hbody end' start' all.
  unfold list_presence_events in Hbody.
  destruct (time_range now start end_ MAX_EVENTS_DAYS)
    as [[range_start range_end]| |] eqn:Hrange; [|done..].
  apply time_range_respond in Hrange as [-> Hstart].
  destruct (RequestEvents.get_presence_events _ _ _ _ _ _) as [events|] eqn:Hevents;
    [|done].
  apply request_presence_events_ok in Hevents. rewrite Hstart in Hevents.
  fold end' in Hevents. fold start' in Hevents. fold all in Hevents. subst events.
  injection Hbody as <-.
  cbn [PresenceEventsResponse.events PresenceEventsResponse.total_count
       PresenceEventsResponse.safety_concerns_count].
  destruct (slice_to_take all limit) as [Htake Hlen]; [lia|].
  assert (Hflag : filter (λ e, PresenceEvent.is_safety_concern e = true) all
                  = filter (λ e, 600 ≤ PresenceEvent.duration_seconds e) all).
  { apply filter_ext_elem.
    eapply Forall_impl; [apply (PresenceFacts.events_of_flagged end' min_duration)|].
    intros e Hfl. unfold flagged in Hfl.
    rewrite Hfl. unfold SAFETY_CONCERN_THRESHOLD_SECONDS.
    by rewrite bool_decide_eq_true. }
  split_and!; try done.
  - by rewrite Hflag.
  - rewrite Htake. apply inj_le, filter_take_length.
  - apply inj_le, filter_length_le.
  - intros Hmd. f_equal. rewrite Hflag, filter_all; [done|].
    eapply Forall_impl; [apply presence_events_at_least|]. simpl. intros e He. lia.
Qed.

Lemma presence_events_page_witness :
  ∃ body,
    list_presence_events motion_db (seconds 3600) None None (Some (PyDatetime.naive 0))
      None 0 1 = Respond body
    ∧ PresenceEventsResponse.safety_concerns_count body = 1
    ∧ PresenceEventsResponse.total_count body = 2.
Proof.
  eexists. split; [vm_compute; reflexivity|].
  edestruct (presence_events_page motion_db (seconds 3600) None None
               (Some (PyDatetime.naive 0)) None 0 1)
    as (_ & Htotal & Hconcerns & _); [lia|vm_compute; reflexivity|].
  split; [exact Hconcerns|exact Htotal].
Defined.

End RouteProperties.

(** * The readings accessor *)

Module ReadingsProperties.
Import Registry ReadingsService Samples Statistics ReadingsNotions.

Global Instance by_timestamp_trans {model} : Transitive (@by_timestamp model).
Proof. intros x y z. unfold by_timestamp. lia. Qed.

Global Instance by_timestamp_total {model} : Total (@by_timestamp model).
Proof. intros x y. unfold by_timestamp. lia. Qed.

Lemma select_sensor_id db sensor_id sensor :
  select_sensor db sensor_id = [sensor] → Sensor.id sensor = sensor_id.
Proof.
  intros Hs. assert (Hin : sensor ∈ select_sensor db sensor_id).
  { rewrite Hs. apply list_elem_of_here. }
  by apply list_elem_of_filter in Hin as [? _].
Qed.

Lemma StronglySorted_fmap {A B} (f : A → B) (R1 : relation A) (R2 : relation B) l :
  (∀ x y, R1 x y → R2 (f x) (f y)) →
  StronglySorted R1 l → StronglySorted R2 (f <$> l).
Proof.
  intros Hf. induction 1 as [|x l Hl IH Hx]; simpl; constructor; [done|].
  apply Forall_fmap. eapply Forall_impl; [exact Hx|]. intros y. apply Hf.
Qed.

(** X9. For a sensor of a registered type and any interval other than
    "1h" and "1d", the readings returned are the rows of the sensor within
    the closed time range, each row once, in ascending order of time; the
    secondary value is present exactly when the type has a secondary
    column. *)
Theorem raw_readings_ordered {H : PythonFloat} db sensor_id sensor config start end_
    interval :
  select_sensor db sensor_id = [sensor] →
  SENSOR_TYPE_REGISTRY !! Sensor.sensor_type sensor = Some config →
  interval ≠ "1h" → interval ≠ "1d" →
  ∃ response,
    get_sensor_readings db sensor_id start end_ interval = Ok (Some response)
    ∧ ReadingsResponse.sensor_id response = sensor_id
    ∧ ReadingsResponse.sensor_type response = Sensor.sensor_type sensor
    ∧ ReadingsResponse.interval response = interval
    ∧ StronglySorted (λ p q, ReadingPoint.timestamp p ≤ ReadingPoint.timestamp q)
        (ReadingsResponse.readings response)
    ∧ Forall (λ p, start ≤ ReadingPoint.timestamp p ∧ ReadingPoint.timestamp p ≤ end_
                   ∧ (is_Some (ReadingPoint.humidity p)
                      ↔ is_Some (secondary_column config)))
        (ReadingsResponse.readings response)
    ∧ ReadingsResponse.readings response
      ≡ₚ (λ row, ReadingPoint.mk (timestamp row) (cell (value_column config) row)
                   ((λ column, cell column row) <$> secondary_column config))
         <$> select_window db (model config) sensor_id start end_.
Proof.
  intros Hsensor Hconfig H1h H1d.
  pose proof (select_sensor_id db sensor_id sensor Hsensor) as Hid.
  unfold get_sensor_readings. rewrite Hsensor. cbn [one_or_none result_bind].
  rewrite Hconfig.
  assert (Hraw : (if decide (interval = "raw") then
                    _get_raw_readings db sensor config start end_
                  else if decide (interval = "1h") then
                    _get_aggregated_readings db sensor config start end_
                      "%Y-%m-%d %H:00:00" (timedelta_hours 1)
                  else if decide (interval = "1d") then
                    _get_aggregated_readings db sensor config start end_
                      "%Y-%m-%d" (timedelta_days 1)
                  else _get_raw_readings db sensor config start end_)
                 = _get_raw_readings db sensor config start end_).
  { repeat case_decide; done. }
  cbv zeta. rewrite Hraw. eexists. split; [reflexivity|].
  cbn [ReadingsResponse.sensor_id ReadingsResponse.sensor_type ReadingsResponse.interval
       ReadingsResponse.readings].
  unfold _get_raw_readings. rewrite Hid. split_and!; try done.
  - eapply StronglySorted_fmap; [|apply (StronglySorted_merge_sort by_timestamp)].
    intros x y Hxy. exact Hxy.
  - apply Forall_fmap, Forall_forall. intros row Hrow. simpl.
    rewrite merge_sort_Permutation in Hrow.
    apply list_elem_of_filter in Hrow as [(_ & ? & ?) _]. split_and!; try done.
    destruct (secondary_column config); simpl; by rewrite ?is_Some_alt.
  - by rewrite merge_sort_Permutation.
Qed.

Lemma raw_readings_ordered_witness :
  ∃ response,
    get_sensor_readings (H := sample_float) facility_db "cold-b-temp" 0 (seconds 7200) "raw"
      = Ok (Some response)
    ∧ length (ReadingsResponse.readings response) = 3%nat.
Proof.
  destruct (raw_readings_ordered (H := sample_float) facility_db "cold-b-temp"
              (Sensor.mk "cold-b-temp" "cold-b" "environmental" "Temperature"
                 (Some (decimal (-18) 1)) (Some (decimal (-10) 1)))
              {| model := EnvironmentalReadingModel; value_column := Temperature;
                 unit := "°C"; secondary_column := Some Humidity;
                 secondary_unit := Some "%"; format_value := None;
                 supports_aggregation := true |}
              0 (seconds 7200) "raw")
    as (response & Hr & _ & _ & _ & _ & _ & Hperm); [reflexivity|reflexivity|done|done|].
  exists response. split; [exact Hr|]. rewrite Hperm. reflexivity.
Defined.

(** ** Aggregation by hour and by day *)

Lemma sorted_le_NoDup_lt (l : list Z) :
  StronglySorted Z.le l → NoDup l → StronglySorted Z.lt l.
Proof.
  induction 1 as [|x l Hl IH Hx]; intros Hnd; constructor.
  - apply IH. by apply NoDup_cons in Hnd as [_ ?].
  - apply NoDup_cons in Hnd as [Hx' _].
    apply Forall_forall. intros y Hy. rewrite Forall_forall in Hx.
    specialize (Hx y Hy). destruct (decide (x = y)) as [->|]; [done|lia].
Qed.

Lemma group_by_keys_sorted {A} (key : A → Z) (rows : list A) :
  StronglySorted Z.lt (merge_sort Z.le (remove_dups (key <$> rows))).
Proof.
  apply sorted_le_NoDup_lt.
  - apply (StronglySorted_merge_sort Z.le).
  - rewrite merge_sort_Permutation. apply NoDup_remove_dups.
Qed.

Lemma omap_cons {A B} (f : A → option B) (x : A) (l : list A) :
  omap f (x :: l) = match f x with Some y => y :: omap f l | None => omap f l end.
Proof. reflexivity. Qed.

Lemma aggregated_bucketed {H : PythonFloat} db sensor config start end_ strftime_format
    bucket_delta :
  bucketed (bucket_of strftime_format)
    (if decide (bucket_delta = timedelta_hours 1) then timedelta_hours 1
     else timedelta_days 1)
    config (select_window db (model config) (Sensor.id sensor) start end_)
    (_get_aggregated_readings db sensor config start end_ strftime_format bucket_delta).
Proof.
  unfold _get_aggregated_readings. cbv zeta.
  set (rows := select_window db (model config) (Sensor.id sensor) start end_).
  set (bucket := bucket_of strftime_format).
  set (width := if decide (bucket_delta = timedelta_hours 1) then timedelta_hours 1
                else timedelta_days 1).
  assert (Hwidth : 0 < width).
  { unfold width. case_decide; done. }
  assert (Hstart : ∀ b, bucket_start bucket_delta b = b * width).
  { intros b. unfold bucket_start, width.
    destruct (decide (bucket_delta = timedelta_hours 1));
      [rewrite ?decide_True by done|rewrite ?decide_False by done]; done. }
  set (keys := merge_sort Z.le (remove_dups ((λ r, bucket (timestamp r)) <$> rows))).
  assert (Hkeys : ∀ b, b ∈ keys ↔ ∃ r, r ∈ rows ∧ bucket (timestamp r) = b).
  { intros b. unfold keys. rewrite merge_sort_Permutation, elem_of_remove_dups,
      list_elem_of_fmap. split; intros (r & ? & ?); exists r; by split. }
  set (point := λ b,
         let values := cell (value_column config) <$>
                         filter (λ r, bucket (timestamp r) = b) rows in
         ReadingPoint.mk (b * width)
           (round (if supports_aggregation config then arithmetic_mean values
                   else total values) 2) None).
  assert (Heq : omap (λ bk : Z * list (row (model config)),
                        (λ v, ReadingPoint.mk (bucket_start bucket_delta bk.1) (round v 2) None)
                          <$> (if supports_aggregation config
                               then sql_avg (cell (value_column config) <$> bk.2)
                               else match cell (value_column config) <$> bk.2 with
                                    | [] => None
                                    | _ => Some (sql_sum (cell (value_column config) <$> bk.2))
                                    end))
                     (group_by (λ r, bucket (timestamp r)) rows)
                = point <$> keys).
  { unfold group_by. fold keys.
    assert (Hall : Forall (λ b, ∃ r, r ∈ rows ∧ bucket (timestamp r) = b) keys).
    { apply Forall_forall. intros b. apply Hkeys. }
    clear Hkeys. clearbody keys.
    induction Hall as [|b ks (r & Hr & Hb) _ IH]; [done|].
    rewrite !fmap_cons, omap_cons, IH. cbn [fst snd].
    assert (Hne : cell (value_column config) <$>
                    filter (λ r, bucket (timestamp r) = b) rows ≠ []).
    { intros Hnil%fmap_nil_inv.
      assert (Hin : r ∈ filter (λ r, bucket (timestamp r) = b) rows).
      { by apply list_elem_of_filter. }
      rewrite Hnil in Hin. by apply elem_of_nil in Hin. }
    rewrite Hstart. subst point. cbv beta zeta.
    destruct (supports_aggregation config).
    - by rewrite (BaselineTheorems.sql_avg_mean _ Hne).
    - rewrite BaselineTheorems.sql_sum_total.
      destruct (cell (value_column config) <$> _) eqn:Hvalues; [by destruct Hne|done]. }
  rewrite Heq. split_and!.
  - eapply StronglySorted_fmap; [|apply group_by_keys_sorted].
    intros x y Hxy. unfold point. simpl. nia.
  - apply Forall_fmap, Forall_forall. intros b [r [Hr Hb]]%Hkeys.
    split; [done|]. exists b. split; [done|]. cbv zeta. split; [|done].
    intros Hnil%fmap_nil_inv.
    assert (Hin : r ∈ filter (λ r, bucket (timestamp r) = b) rows).
    { by apply list_elem_of_filter. }
    rewrite Hnil in Hin. by apply elem_of_nil in Hin.
  - intros r Hr. exists (point (bucket (timestamp r))). split; [|done].
    apply list_elem_of_fmap. eexists. split; [done|]. apply Hkeys. by exists r.
Qed.

(** X10. With the interval "1h" (and likewise "1d") the readings of a
    sensor of a registered type are one per hour (day) that has rows in the
    time range, in strictly ascending order, each at the instant its hour
    (day) begins and without secondary value; hours without rows are left
    out.  The value is the mean of the hour's rows rounded to two places
    for a type that supports aggregation, and their rounded sum
    otherwise. *)
Theorem aggregated_readings_buckets {H : PythonFloat} db sensor_id sensor config
    start end_ :
  select_sensor db sensor_id = [sensor] →
  SENSOR_TYPE_REGISTRY !! Sensor.sensor_type sensor = Some config →
  let rows := select_window db (model config) sensor_id start end_ in
  (∃ response,
     get_sensor_readings db sensor_id start end_ "1h" = Ok (Some response)
     ∧ bucketed hour_bucket (timedelta_hours 1) config rows
         (ReadingsResponse.readings response))
  ∧ (∃ response,
       get_sensor_readings db sensor_id start end_ "1d" = Ok (Some response)
       ∧ bucketed day_bucket (timedelta_days 1) config rows
           (ReadingsResponse.readings response)).
Proof.
  intros Hsensor Hconfig rows.
  pose proof (select_sensor_id db sensor_id sensor Hsensor) as Hid.
  unfold get_sensor_readings. rewrite Hsensor. cbn [one_or_none result_bind].
  rewrite Hconfig. cbv zeta. split.
  - eexists. split; [reflexivity|]. cbn [ReadingsResponse.readings].
    rewrite decide_False by done. rewrite decide_True by done.
    pose proof (aggregated_bucketed db sensor config start end_ "%Y-%m-%d %H:00:00"
                  (timedelta_hours 1)) as Hb.
    rewrite Hid in Hb. exact Hb.
  - eexists. split; [reflexivity|]. cbn [ReadingsResponse.readings].
    rewrite decide_False by done. rewrite decide_False by done.
    rewrite decide_True by done.
    pose proof (aggregated_bucketed db sensor config start end_ "%Y-%m-%d"
                  (timedelta_days 1)) as Hb.
    rewrite Hid in Hb. exact Hb.
Qed.

Lemma aggregated_readings_buckets_witness :
  ∃ response,
    get_sensor_readings (H := sample_float) facility_db "cold-b-temp" 0 (seconds 7200) "1h"
      = Ok (Some response)
    ∧ ReadingPoint.timestamp <$> ReadingsResponse.readings response
      = [seconds 3600; seconds 7200].
Proof.
  destruct (aggregated_readings_buckets (H := sample_float) facility_db "cold-b-temp"
              (Sensor.mk "cold-b-temp" "cold-b" "environmental" "Temperature"
                 (Some (decimal (-18) 1)) (Some (decimal (-10) 1)))
              {| model := EnvironmentalReadingModel; value_column := Temperature;
                 unit := "°C"; secondary_column := Some Humidity;
                 secondary_unit := Some "%"; format_value := None;
                 supports_aggregation := true |}
              0 (seconds 7200))
    as [(response & Hr & _) _]; [reflexivity|reflexivity|].
  exists response. split; [exact Hr|].
  vm_compute in Hr. injection Hr as <-. reflexivity.
Defined.

(** ** Boolean sensors: sums are counts *)

Lemma float_of_int_succ n : (1 + float_of_int n)%Qc = float_of_int (n + 1).
Proof.
  apply Qc_is_canon. unfold float_of_int. simpl.
  rewrite !Qred_correct, inject_Z_plus. simpl. ring.
Qed.

Lemma total_indicator (states : list bool) :
  total (float_of_bool <$> states)
  = float_of_int (Z.of_nat (length (filter (λ b, b = true) states))).
Proof.
  induction states as [|b states IH]; [by apply Qc_is_canon|].
  rewrite fmap_cons. cbn [total]. rewrite IH. destruct b.
  - rewrite filter_cons_True by done. cbn [length float_of_bool].
    rewrite float_of_int_succ. f_equal. lia.
  - rewrite filter_cons_False by done. cbn [float_of_bool]. ring.
Qed.

(** X11. For a door sensor the value of an hourly reading is the number of
    the hour's samples that report the door open, rounded to two places:
    samples are counted, not openings. *)
Theorem door_hourly_counts_open_samples {H : PythonFloat} db sensor_id sensor start end_ :
  select_sensor db sensor_id = [sensor] →
  Sensor.sensor_type sensor = "door" →
  ∃ response,
    get_sensor_readings db sensor_id start end_ "1h" = Ok (Some response)
    ∧ Forall (λ p, ∃ b,
                ReadingPoint.timestamp p = b * timedelta_hours 1
                ∧ ReadingPoint.value p
                  = round (float_of_int
                             (Z.of_nat
                                (length
                                   (filter (λ r, hour_bucket (DoorReading.timestamp r) = b
                                                 ∧ DoorReading.is_open r = true)
                                      (select_window db DoorReadingModel sensor_id
                                         start end_))))) 2)
        (ReadingsResponse.readings response).
Proof.
  intros Hsensor Htype.
  pose proof (select_sensor_id db sensor_id sensor Hsensor) as Hid.
  set (config := {| model := DoorReadingModel; value_column := IsOpen;
                    unit := "events"; secondary_column := None;
                    secondary_unit := None; format_value := Some _format_door;
                    supports_aggregation := false |}).
  assert (Hconfig : SENSOR_TYPE_REGISTRY !! Sensor.sensor_type sensor = Some config).
  { by rewrite Htype. }
  unfold get_sensor_readings. rewrite Hsensor. cbn [one_or_none result_bind].
  rewrite Hconfig. cbv zeta. eexists. split; [reflexivity|].
  cbn [ReadingsResponse.readings].
  rewrite decide_False by done. rewrite decide_True by done.
  destruct (aggregated_bucketed db sensor config start end_ "%Y-%m-%d %H:00:00"
              (timedelta_hours 1)) as (_ & Hagg & _).
  rewrite Hid in Hagg. eapply Forall_impl; [exact Hagg|].
  intros p (_ & b & Hts & _ & Hvalue). exists b. split; [exact Hts|].
  rewrite Hvalue. f_equal. cbn [supports_aggregation config value_column cell model].
  rewrite (list_fmap_compose DoorReading.is_open float_of_bool), total_indicator.
  do 2 f_equal.
  rewrite (filter_fmap DoorReading.is_open (λ b, b = true)
             (λ r, DoorReading.is_open r = true)) by done.
  rewrite length_fmap, list_filter_filter. f_equal.
  apply list_filter_iff. intros r. tauto.
Qed.

Lemma door_hourly_counts_open_samples_witness :
  ∃ response,
    get_sensor_readings (H := sample_float) facility_db "dock-door" 0 (seconds 7200) "1h"
      = Ok (Some response)
    ∧ (λ p, (ReadingPoint.timestamp p, this (ReadingPoint.value p)))
        <$> ReadingsResponse.readings response
      = [(seconds 3600, 1%Q)].
Proof.
  destruct (door_hourly_counts_open_samples (H := sample_float) facility_db "dock-door"
              (Sensor.mk "dock-door" "loading" "door" "Dock door" None None)
              0 (seconds 7200))
    as (response & Hr & _); [reflexivity|reflexivity|].
  exists response. split; [exact Hr|].
  vm_compute in Hr. injection Hr as <-. vm_compute. reflexivity.
Defined.

End ReadingsProperties.

(** * The sensor routes *)

Module SensorRouteProperties.
Import Registry Routes Samples.

Lemma select_sensor_cases db sensor_id :
  NoDup (Sensor.id <$> sensors db) →
  (select_sensor db sensor_id = [] ∧ ∀ s, s ∈ sensors db → Sensor.id s ≠ sensor_id)
  ∨ ∃ s, select_sensor db sensor_id = [s] ∧ s ∈ sensors db ∧ Sensor.id s = sensor_id.
Proof.
  intros Hnd. unfold select_sensor.
  destruct (SummaryTheorems.filter_at_most_one Sensor.id (λ s, Sensor.id s = sensor_id)
              (sensors db) Hnd) as [Hnil|[s Hs]].
  - congruence.
  - left. split; [done|]. intros s Hs Hid.
    assert (Hin : s ∈ filter (λ s, Sensor.id s = sensor_id) (sensors db)).
    { by apply list_elem_of_filter. }
    rewrite Hnil in Hin. by apply elem_of_nil in Hin.
  - right. exists s. split; [done|].
    assert (Hin : s ∈ filter (λ s, Sensor.id s = sensor_id) (sensors db)).
    { rewrite Hs. apply list_elem_of_here. }
    apply list_elem_of_filter in Hin as [? ?]. done.
Qed.

(** X12. Sensor ids being unique, for a request whose datetimes are naive
    (when it names no start, the 24 hours before its end must begin at a
    datetime that Python can represent), the readings route answers 400 for
    an empty time range or one of more than 30 days, whatever the sensor;
    otherwise 404 exactly when no sensor of a registered type has the id
    asked for, and else the readings of that sensor with its type and the
    interval asked for.  No exception gets through. *)
Theorem readings_route {H : PythonFloat} db now sensor_id (start end_ : option datetime)
    interval :
  NoDup (Sensor.id <$> sensors db) →
  let end' := default now end_ in
  let start' := default (end' - timedelta_hours 24) start in
  (start = None → representable start') →
  let response :=
    get_readings db now sensor_id (PyDatetime.naive <$> start)
      (PyDatetime.naive <$> end_) interval in
  let registered :=
    ∃ s, s ∈ sensors db ∧ Sensor.id s = sensor_id
         ∧ is_Some (SENSOR_TYPE_REGISTRY !! Sensor.sensor_type s) in
  (end' ≤ start' ∨ timedelta_days MAX_READINGS_DAYS < end' - start' →
     ∃ detail, response = HTTPException 400 detail)
  ∧ (start' < end' → end' - start' ≤ timedelta_days MAX_READINGS_DAYS →
       (¬ registered → response = HTTPException 404 "Sensor not found")
       ∧ ∀ s, s ∈ sensors db → Sensor.id s = sensor_id →
              is_Some (SENSOR_TYPE_REGISTRY !! Sensor.sensor_type s) →
              ∃ body, response = Respond body
                ∧ ReadingsResponse.sensor_id body = sensor_id
                ∧ ReadingsResponse.sensor_type body = Sensor.sensor_type s
                ∧ ReadingsResponse.interval body = interval)
  ∧ ∀ e, response ≠ Unhandled e.
Proof.
  intros Hnd end' start' Hrange response registered.
  unfold response, get_readings.
  destruct (RouteProperties.time_range_cases now start end_ MAX_READINGS_DAYS Hrange)
    as [(Hlt & Hle & ->)|[Hbad (detail & ->)]];
    fold end' in Hlt, Hle || fold end' in Hbad; fold start' in Hlt, Hle || fold start' in Hbad.
  2:{ split_and!; [by eexists|lia|done]. }
  unfold ReadingsService.get_sensor_readings.
  destruct (select_sensor_cases db sensor_id Hnd) as [[-> Hnone]|(s & -> & Hs & Hid)];
    cbn [one_or_none result_bind].
  - split_and!; [lia| |done]. intros _ _. split; [done|].
    intros s Hs Hid. by destruct (Hnone s Hs).
  - destruct (SENSOR_TYPE_REGISTRY !! Sensor.sensor_type s) as [config|] eqn:Hconfig.
    + split_and!; [lia| |done]. intros _ _. split.
      * intros Hno. destruct Hno. exists s. by rewrite Hconfig.
      * intros s' Hs' Hid' _.
        rewrite (SummaryTheorems.unique_by_id (sensors db) s' s Hnd Hs' Hs) by congruence.
        by eexists.
    + split_and!; [lia| |done]. intros _ _. split; [done|].
      intros s' Hs' Hid' Hreg.
      rewrite (SummaryTheorems.unique_by_id (sensors db) s' s Hnd Hs' Hs) in Hreg
        by congruence.
      rewrite Hconfig in Hreg. by destruct Hreg.
Qed.

Lemma readings_route_witness :
  ∃ detail,
    get_readings (H := sample_float) facility_db (seconds 7200) "no-such-sensor"
      (Some (PyDatetime.naive (seconds 7200))) (Some (PyDatetime.naive 0)) "raw"
    = HTTPException 400 detail.
Proof.
  apply (proj1 (readings_route (H := sample_float) facility_db (seconds 7200)
                  "no-such-sensor" (Some (seconds 7200)) (Some 0) "raw"
                  ltac:(apply (bool_decide_eq_true_1 _); vm_compute; reflexivity)
                  ltac:(discriminate))).
  left. vm_compute. discriminate.
Defined.

(** X13. Sensor ids being unique and the number of hours at least 1, the
    baseline route answers with a baseline exactly when a sensor has the id
    asked for, its type supports aggregation, and it has at least one sample
    in the hours up to now; the baseline then names the sensor, the hours,
    the unit of the type and a sample count of at least 1.  In every other
    case the answer is 404; no exception of the service layer gets
    through. *)
Theorem baseline_route {H : PythonFloat} {Real : SqliteReal} db now sensor_id hours :
  NoDup (Sensor.id <$> sensors db) → 1 ≤ hours →
  let response := get_baseline db now sensor_id hours in
  let sampled :=
    ∃ s config,
      s ∈ sensors db ∧ Sensor.id s = sensor_id
      ∧ SENSOR_TYPE_REGISTRY !! Sensor.sensor_type s = Some config
      ∧ supports_aggregation config = true
      ∧ select_window db (model config) sensor_id (now - timedelta_hours hours) now ≠ [] in
  (¬ sampled → response = HTTPException 404 "Sensor not found or no data")
  ∧ (∀ s config,
       s ∈ sensors db → Sensor.id s = sensor_id →
       SENSOR_TYPE_REGISTRY !! Sensor.sensor_type s = Some config →
       supports_aggregation config = true →
       select_window db (model config) sensor_id (now - timedelta_hours hours) now ≠ [] →
       ∃ body, response = Respond body
         ∧ SensorBaseline.sensor_id body = sensor_id
         ∧ SensorBaseline.period_hours body = hours
         ∧ SensorBaseline.unit body = unit config
         ∧ 1 ≤ SensorBaseline.sample_count body)
  ∧ ∀ e, response ≠ Unhandled e.
Proof.
  intros Hnd Hhours response sampled.
  unfold response, get_baseline, BaselineService.get_sensor_baseline.
  rewrite decide_False by lia.
  destruct (select_sensor_cases db sensor_id Hnd) as [[-> Hnone]|(s & -> & Hs & Hid)];
    cbn [one_or_none result_bind].
  { split_and!; [done| |done]. intros s config Hs Hid. by destruct (Hnone s Hs). }
  assert (Huniq : ∀ s', s' ∈ sensors db → Sensor.id s' = sensor_id → s' = s).
  { intros s' Hs' Hid'. apply (SummaryTheorems.unique_by_id (sensors db)); congruence. }
  destruct (SENSOR_TYPE_REGISTRY !! Sensor.sensor_type s) as [config|] eqn:Hconfig.
  2:{ split_and!; [done| |done]. intros s' config' Hs' Hid' Hc.
      rewrite (Huniq s' Hs' Hid') in Hc. congruence. }
  destruct (supports_aggregation config) eqn:Hagg; cbn [negb].
  2:{ split_and!; [done| |done]. intros s' config' Hs' Hid' Hc Ha.
      rewrite (Huniq s' Hs' Hid') in Hc. congruence. }
  cbv zeta.
  set (rows := select_window db (model config) sensor_id (now - timedelta_hours hours) now).
  destruct rows as [|row rows'] eqn:Hrows.
  { split_and!; [done| |done]. intros s' config' Hs' Hid' Hc Ha Hne.
      rewrite (Huniq s' Hs' Hid') in Hc. rewrite Hconfig in Hc. injection Hc as <-.
      fold rows in Hne. by rewrite Hrows in Hne. }
  assert (Hne : cell (value_column config) <$> row :: rows' ≠ []) by done.
  destruct (BaselineTheorems.sql_min_spec _ Hne) as (lo & -> & _).
  destruct (BaselineTheorems.sql_max_spec _ Hne) as (hi & -> & _).
  cbn [BaselineService.avg fmap list_fmap].
  rewrite decide_False by (unfold sql_count; simpl; lia).
  split_and!; [| |done].
  - intros Hno. destruct Hno. exists s, config. split_and!; try done.
    fold rows. by rewrite Hrows.
  - intros s' config' Hs' Hid' Hc Ha _.
    rewrite (Huniq s' Hs' Hid') in Hc. rewrite Hconfig in Hc. injection Hc as <-.
    eexists. split; [reflexivity|]. simpl. split_and!; try done.
    unfold sql_count. simpl. lia.
Qed.

Lemma baseline_route_witness :
  get_baseline (H := binary64) (Real := binary64_sqlite) facility_db (seconds 7200)
    "dock-door" 24
  = HTTPException 404 "Sensor not found or no data".
Proof.
  apply (proj1 (baseline_route (H := binary64) (Real := binary64_sqlite)
                  facility_db (seconds 7200)
                  "dock-door" 24
                  ltac:(apply (bool_decide_eq_true_1 _); vm_compute; reflexivity)
                  ltac:(lia))).
  intros (s & config & Hs & Hid & Hconfig & Hagg & _).
  assert (Hdoor : s = Sensor.mk "dock-door" "loading" "door" "Dock door" None None).
  { vm_compute in Hs. repeat (apply elem_of_cons in Hs as [->|Hs]; [done||discriminate|]).
    by apply elem_of_nil in Hs. }
  subst s. vm_compute in Hconfig. injection Hconfig as <-. discriminate.
Defined.

End SensorRouteProperties.

(** * Further properties of the summary builder *)

Module SummaryProperties.
Import Registry SensorService Samples SummaryInvariants SummaryNotions.

(** ** Which sensors have a latest reading *)

Lemma newest_is_Some {model} (rows : list (row model)) :
  rows ≠ [] → is_Some (newest rows).
Proof.
  unfold newest.
  assert (Hgen : ∀ (l : list (row model)) (best : option (row model)), is_Some best →
    is_Some (foldl (λ best r,
                      match best with
                      | Some b => if decide (timestamp b < timestamp r) then Some r else Some b
                      | None => Some r
                      end) best l)).
  { induction l as [|x l IH]; intros best Hb; simpl; [done|].
    apply IH. destruct Hb as [b ->]. by case_decide. }
  destruct rows as [|x rows]; [done|]. intros _. simpl. by apply Hgen.
Qed.

Lemma select_latest_table db model sensor_ids (r : row model) :
  r ∈ select_latest db model sensor_ids → r ∈ table db model.
Proof.
  unfold select_latest. intros (sid & _ & Hnew)%list_elem_of_omap.
  apply SummaryTheorems.newest_elem in Hnew.
  apply list_elem_of_filter in Hnew as [_ Hr].
  by apply list_elem_of_filter in Hr as [_ ?].
Qed.

Lemma select_latest_has db model sensor_ids sid :
  sid ∈ sensor_ids → (∃ r : row model, r ∈ table db model ∧ sensor_id r = sid) →
  ∃ r, r ∈ select_latest db model sensor_ids ∧ sensor_id r = sid.
Proof.
  intros Hsid (r & Hr & Hid). unfold select_latest.
  set (rows := filter (λ r : row model, sensor_id r ∈ sensor_ids) (table db model)).
  assert (Hin : r ∈ rows).
  { apply list_elem_of_filter. by rewrite Hid. }
  destruct (newest_is_Some (filter (λ r : row model, sensor_id r = sid) rows)) as [l Hl].
  { intros Hnil. assert (Hr' : r ∈ filter (λ r : row model, sensor_id r = sid) rows).
    { by apply list_elem_of_filter. }
    rewrite Hnil in Hr'. by apply elem_of_nil in Hr'. }
  exists l. split.
  - apply list_elem_of_omap. exists sid. split; [|done].
    apply elem_of_remove_dups, list_elem_of_fmap. by exists r.
  - apply SummaryTheorems.newest_elem in Hl. by apply list_elem_of_filter in Hl as [? _].
Qed.

Lemma select_latest_joined_has db model sensor_ids sid :
  sid ∈ sensor_ids → (∃ r : row model, r ∈ table db model ∧ sensor_id r = sid) →
  ∃ rw, rw ∈ select_latest_joined db model sensor_ids ∧ sensor_id rw.1 = sid.
Proof.
  intros Hsid Hrow.
  destruct (select_latest_has db model sensor_ids sid Hsid Hrow) as (l & Hl & Hid).
  exists (l, l). split; [|done]. unfold select_latest_joined.
  apply list_elem_of_bind. exists l. split; [|done].
  apply list_elem_of_bind. exists l. split; [apply list_elem_of_here|].
  apply list_elem_of_filter. split; [done|]. by apply select_latest_table in Hl.
Qed.

Lemma select_latest_joined_table db model sensor_ids (rw : row model * row model) :
  rw ∈ select_latest_joined db model sensor_ids → rw.1 ∈ table db model.
Proof.
  unfold select_latest_joined.
  intros (l & (m & ->%list_elem_of_singleton & _)%list_elem_of_bind & Hl)%list_elem_of_bind.
  by apply select_latest_table in Hl.
Qed.

Lemma foldl_insert_dom {A V} (key : A → string) (value : A → V) (rows : list A)
    (results : gmap string V) sid :
  is_Some (foldl (λ results r, <[key r := value r]> results) results rows !! sid)
  ↔ is_Some (results !! sid) ∨ ∃ r, r ∈ rows ∧ key r = sid.
Proof.
  split.
  - apply (SummaryTheorems.foldl_insert_keys key value
             (λ sid, is_Some (results !! sid) ∨ ∃ r, r ∈ rows ∧ key r = sid)).
    + by left.
    + apply Forall_forall. intros r Hr. right. by exists r.
  - intros [Hres|(r & Hr & <-)].
    + by apply SummaryTheorems.foldl_insert_mono.
    + by apply SummaryTheorems.foldl_insert_is_Some.
Qed.

Lemma latest_for_type_dom db results group log :
  ∃ results' log',
    latest_for_type db results group log = (Ok results', log')
    ∧ ∀ sid, is_Some (results' !! sid) ↔ is_Some (results !! sid) ∨ fetched db group sid.
Proof.
  unfold latest_for_type, fetched.
  destruct (SENSOR_TYPE_REGISTRY !! group.1) as [config|] eqn:Hconfig.
  2:{ exists results, log. split; [done|]. intros sid. split; [by left|].
      by intros [?|(? & ? & _)]. }
  destruct (secondary_column config) as [secondary|]; simpl.
  - eexists _, _. split; [reflexivity|]. intros sid.
    rewrite (foldl_insert_dom (λ row : row (model config) * row (model config),
                                 sensor_id row.1)
               (λ row, (cell (value_column config) row.1, Some (cell secondary row.2),
                        timestamp row.1))).
    split; (intros [?|Hnew]; [by left|right]).
    + destruct Hnew as (rw & Hrw & <-). exists config. split_and!; [done| |].
      * by apply (SummaryTheorems.select_latest_joined_ids db).
      * exists rw.1. split; [|done]. by apply select_latest_joined_table in Hrw.
    + destruct Hnew as (config' & [= <-] & Hsid & Hrow).
      by apply select_latest_joined_has.
  - eexists _, _. split; [reflexivity|]. intros sid.
    rewrite (foldl_insert_dom (λ row : row (model config), sensor_id row)
               (λ row, (cell (value_column config) row, @None Qc, timestamp row))).
    split; (intros [?|Hnew]; [by left|right]).
    + destruct Hnew as (r & Hr & <-). exists config. split_and!; [done| |].
      * by apply (SummaryTheorems.select_latest_ids db).
      * exists r. split; [|done]. by apply select_latest_table in Hr.
    + destruct Hnew as (config' & [= <-] & Hsid & Hrow).
      by apply select_latest_has.
Qed.

Lemma for_each_latest_dom db groups : ∀ results log,
  ∃ results' log',
    for_each (latest_for_type db) groups results log = (Ok results', log')
    ∧ ∀ sid, is_Some (results' !! sid)
             ↔ is_Some (results !! sid) ∨ ∃ g, g ∈ groups ∧ fetched db g sid.
Proof.
  induction groups as [|g groups IH]; intros results log; simpl.
  - exists results, log. split; [done|]. intros sid. split; [by left|].
    intros [?|(g & Hg & _)]; [done|]. by apply elem_of_nil in Hg.
  - unfold mbind, session_mbind, session_bind.
    destruct (latest_for_type_dom db results g log) as (results1 & log1 & -> & H1).
    destruct (IH results1 log1) as (results' & log' & -> & H2).
    exists results', log'. split; [done|]. intros sid. rewrite H2, H1. split.
    + intros [[?|?]|(g' & Hg' & ?)]; [by left|right..].
      * exists g. split; [apply list_elem_of_here|done].
      * exists g'. split; [by apply list_elem_of_further|done].
    + intros [?|(g' & [->|Hg']%elem_of_cons & ?)]; [by left; left|by left; right|].
      right. by exists g'.
Qed.

(** Every sensor is in the group of its type. *)
Lemma setdefault_append_member groups s s' :
  (s' = s ∨ ∃ g, g ∈ groups ∧ g.1 = Sensor.sensor_type s' ∧ s' ∈ g.2) →
  ∃ g, g ∈ setdefault_append groups s ∧ g.1 = Sensor.sensor_type s' ∧ s' ∈ g.2.
Proof.
  induction groups as [|[k members] groups IH]; intros Hs'; simpl.
  - destruct Hs' as [->|(g & Hg & _)]; [|by apply elem_of_nil in Hg].
    eexists. split; [apply list_elem_of_here|]. split; [done|]. apply list_elem_of_here.
  - case_decide as Hk.
    + destruct Hs' as [->|(g & [->|Hg]%elem_of_cons & Htype & Hin)].
      * eexists. split; [apply list_elem_of_here|]. simpl. split; [done|].
        apply elem_of_app. right. apply list_elem_of_here.
      * eexists. split; [apply list_elem_of_here|]. simpl in *. split; [done|].
        apply elem_of_app. by left.
      * exists g. split; [by apply list_elem_of_further|done].
    + destruct Hs' as [->|(g & [->|Hg]%elem_of_cons & Htype & Hin)].
      * destruct IH as (g & Hg & ?); [by left|].
        exists g. split; [by apply list_elem_of_further|done].
      * eexists. split; [apply list_elem_of_here|done].
      * destruct IH as (g' & Hg' & ?); [right; by exists g|].
        exists g'. split; [by apply list_elem_of_further|done].
Qed.

Lemma sensors_by_type_member sensors s :
  s ∈ sensors →
  ∃ g, g ∈ sensors_by_type sensors ∧ g.1 = Sensor.sensor_type s ∧ s ∈ g.2.
Proof.
  unfold sensors_by_type.
  assert (Hgen : ∀ l groups,
            (s ∈ l ∨ ∃ g, g ∈ groups ∧ g.1 = Sensor.sensor_type s ∧ s ∈ g.2) →
            ∃ g, g ∈ foldl setdefault_append groups l
                 ∧ g.1 = Sensor.sensor_type s ∧ s ∈ g.2).
  { induction l as [|x l IH]; intros groups Hs; simpl.
    - destruct Hs as [Hs|?]; [by apply elem_of_nil in Hs|done].
    - apply IH. destruct Hs as [[->|Hs]%elem_of_cons|Hg].
      + right. apply setdefault_append_member. by left.
      + by left.
      + right. apply setdefault_append_member. by right. }
  intros Hs. apply Hgen. by left.
Qed.

(** The batched fetch knows exactly the sensors that have a reading. *)
Lemma latest_readings_dom db sensors log :
  ∃ results log',
    _get_latest_readings_batch db sensors log = (Ok results, log')
    ∧ ∀ sid, is_Some (results !! sid)
             ↔ ∃ s, s ∈ sensors ∧ Sensor.id s = sid ∧ has_reading db s.
Proof.
  unfold _get_latest_readings_batch.
  destruct (for_each_latest_dom db (sensors_by_type sensors) ∅ log)
    as (results & log' & -> & Hdom).
  exists results, log'. split; [done|]. intros sid. rewrite Hdom.
  destruct (SummaryTheorems.sensors_by_type_grouped sensors) as [_ Hall].
  rewrite Forall_forall in Hall. split.
  - intros [Hempty|(g & Hg & config & Hconfig & Hsid & Hrow)].
    { rewrite lookup_empty in Hempty. by destruct Hempty. }
    apply list_elem_of_fmap in Hsid as (s & -> & Hs).
    destruct (Hall g Hg) as [_ Hmem]. rewrite Forall_forall in Hmem.
    destruct (Hmem s Hs) as [Htype Hin].
    exists s. split_and!; [done|done|]. exists config. by rewrite Htype.
  - intros (s & Hs & <- & config & Hconfig & Hrow). right.
    destruct (sensors_by_type_member sensors s Hs) as (g & Hg & Htype & Hin).
    exists g. split; [done|]. exists config. split_and!; [by rewrite Htype| |done].
    by apply list_elem_of_fmap_2.
Qed.

(** ** Trends have 24 points *)

Lemma trend_of_length {H : PythonFloat} config hourly end_time :
  length (trend_of config hourly end_time) = 24%nat.
Proof. unfold trend_of. by rewrite !length_fmap, length_seq. Qed.

Lemma trends_for_type_length {H : PythonFloat} db now end_times results group log :
  group.2 ≠ [] →
  (∀ sid trend, results !! sid = Some trend → length trend = 24%nat) →
  ∃ results' log',
    trends_for_type db now end_times results group log = (Ok results', log')
    ∧ ∀ sid trend, results' !! sid = Some trend → length trend = 24%nat.
Proof.
  intros Hne Hlen. unfold trends_for_type.
  destruct (SENSOR_TYPE_REGISTRY !! group.1) as [config|]; [|by eexists _, _].
  set (sensor_ids := Sensor.id <$> group.2).
  destruct (SummaryTheorems.minimum_ok
              ((λ sid, default now (end_times !! sid)) <$> sensor_ids))
    as [min_end Hmin].
  { unfold sensor_ids. by destruct (group.2). }
  unfold mbind, session_mbind, session_bind, lift. rewrite Hmin.
  set (start_time := min_end - timedelta_hours TREND_HOURS).
  assert (Hrows : ∃ statement rows,
    (if supports_aggregation config
     then execute (SelectHourlyAvg (model config) sensor_ids start_time)
            (select_hourly db (model config) (value_column config) sql_avg
               sensor_ids start_time)
     else execute (SelectHourlySum (model config) sensor_ids start_time)
            (select_hourly db (model config) (value_column config)
               (λ values, Some (sql_sum values)) sensor_ids start_time)) log
    = (Ok rows, log ++ [statement])
    ∧ Forall (λ rw : string * Z * option Qc, rw.1.1 ∈ sensor_ids) rows).
  { destruct (supports_aggregation config); eexists _, _; (split; [reflexivity|]);
      apply Forall_forall; intros rw Hrw;
      by apply SummaryTheorems.select_hourly_ids in Hrw. }
  destruct Hrows as (statement & rows & -> & Hrows).
  pose proof (SummaryTheorems.result_for_each_ok
                (λ (hourly_data : gmap string (gmap Z Qc)) (row : string * Z * option Qc),
                   match row.2 with
                   | Some avg_value =>
                       result_bind (getitem hourly_data row.1.1) (λ hourly,
                         Ok (<[row.1.1 := <[row.1.2 := avg_value]> hourly]> hourly_data))
                   | None => Ok hourly_data
                   end)
                (λ rw, rw.1.1 ∈ sensor_ids)
                (λ hourly_data : gmap string (gmap Z Qc),
                   ∀ sid, sid ∈ sensor_ids → is_Some (hourly_data !! sid))) as Hfill.
  destruct Hfill with (items := rows)
                      (st := (list_to_map ((λ sid, (sid, ∅)) <$> sensor_ids)
                              : gmap string (gmap Z Qc)))
    as (hourly_data & -> & Hdata); [| |done|].
  { intros hourly_data [[sid bucket] [avg_value|]] Hall Hsid; simpl in *; [|by eexists].
    unfold getitem. destruct (Hall sid Hsid) as [hourly ->]. simpl.
    eexists. split; [reflexivity|].
    intros sid' Hsid'. apply lookup_insert_is_Some'. right. by apply Hall. }
  { intros sid Hsid.
    destruct (list_to_map _ !! sid) eqn:Hl; [done|].
    apply not_elem_of_list_to_map_2 in Hl. destruct Hl.
    rewrite <- list_fmap_compose. simpl. by rewrite list_fmap_id. }
  pose proof (SummaryTheorems.result_for_each_ok
                (λ (results : gmap string (list Qc)) (sensor_id : string),
                   result_bind (getitem hourly_data sensor_id) (λ hourly,
                     Ok (<[sensor_id :=
                             trend_of config hourly
                               (default now (end_times !! sensor_id))]> results)))
                (λ sid, sid ∈ sensor_ids)
                (λ results : gmap string (list Qc),
                   ∀ sid trend, results !! sid = Some trend → length trend = 24%nat))
    as Hread.
  destruct Hread with (items := sensor_ids) (st := results)
    as (results' & -> & Hlen'); [|done|by apply Forall_forall|by eexists _, _].
  intros st sid Hst Hsid. unfold getitem. destruct (Hdata sid Hsid) as [hourly ->].
  simpl. eexists. split; [reflexivity|].
  intros sid' trend [[_ <-]|[_ Hl]]%lookup_insert_Some.
  - apply trend_of_length.
  - by eapply Hst.
Qed.

Lemma trends_length {H : PythonFloat} db now sensors end_times log :
  ∃ trends log',
    _get_24h_trends_batch db now sensors end_times log = (Ok trends, log')
    ∧ ∀ sid, length (default zero_trend (trends !! sid)) = 24%nat.
Proof.
  unfold _get_24h_trends_batch.
  pose proof (SummaryTheorems.for_each_ok (trends_for_type db now end_times)
                (λ group, group.2 ≠ [])
                (λ results : gmap string (list Qc),
                   ∀ sid trend, results !! sid = Some trend → length trend = 24%nat))
    as Hloop.
  destruct Hloop with (items := sensors_by_type sensors)
                      (st := (list_to_map ((λ s, (Sensor.id s, zero_trend)) <$> sensors)
                              : gmap string (list Qc)))
                      (log := log)
    as (trends & log' & -> & Hlen).
  - intros st group log0 Hst Hne.
    by apply trends_for_type_length.
  - intros sid trend Hl. apply elem_of_list_to_map_2 in Hl.
    by apply list_elem_of_fmap in Hl as (s & [= _ ->] & _).
  - destruct (SummaryTheorems.sensors_by_type_grouped sensors) as [_ Hall].
    eapply Forall_impl; [exact Hall|]. by intros g [? _].
  - exists trends, log'. split; [done|]. intros sid.
    destruct (trends !! sid) as [trend|] eqn:Hl; simpl; [by eapply Hlen|done].
Qed.

(** ** Assembly, record by record *)

Lemma result_for_each_rel {A C} (body : list C → A → Result (list C))
    (P : A → Prop) (R : A → C → Prop) :
  (∀ acc x, P x → ∃ c, body acc x = Ok (acc ++ [c]) ∧ R x c) →
  ∀ items acc, Forall P items →
    ∃ cs, result_for_each body items acc = Ok (acc ++ cs) ∧ Forall2 R items cs.
Proof.
  intros Hbody. induction items as [|x items IH]; intros acc Hitems; simpl.
  - exists []. by rewrite app_nil_r.
  - apply Forall_cons in Hitems as [Hx Hitems].
    destruct (Hbody acc x Hx) as (c & -> & Hc). simpl.
    destruct (IH (acc ++ [c]) Hitems) as (cs & -> & Hcs).
    exists (c :: cs). split; [by rewrite <- app_assoc|by constructor].
Qed.

Lemma build_sensor_config_describes {H : PythonFloat} sensor zone reading trend stats :
  is_Some (SENSOR_TYPE_REGISTRY !! Sensor.sensor_type sensor) →
  length trend = 24%nat →
  ∃ sensor_config,
    _build_sensor_config sensor zone reading trend stats = Ok sensor_config
    ∧ describes sensor sensor_config.
Proof.
  intros [config Hconfig] Hlen. unfold _build_sensor_config. rewrite Hconfig.
  destruct reading as [[value secondary_value] ts].
  destruct (compute_status _ _ _) as [status status_text].
  eexists. split; [reflexivity|]. by split_and!.
Qed.

Lemma assemble_records {H : PythonFloat} db now rows log :
  (∀ s s', s ∈ rows.*1 → s' ∈ rows.*1 → Sensor.id s = Sensor.id s' → s = s') →
  ∃ sensor_configs log' listed,
    assemble db now rows log = (Ok sensor_configs, log')
    ∧ Forall2 describes listed sensor_configs
    ∧ listed `sublist_of` rows.*1
    ∧ ∀ s, s ∈ listed ↔ s ∈ rows.*1 ∧ has_reading db s.
Proof.
  intros Hunique. unfold assemble.
  unfold mbind, session_mbind, session_bind.
  destruct (latest_readings_dom db rows.*1 log) as (latest_readings & log1 & -> & Hlatest).
  set (listed := filter (λ s, is_Some (latest_readings !! Sensor.id s)) rows.*1).
  assert (Hlisted : ∀ s, s ∈ listed ↔ s ∈ rows.*1 ∧ has_reading db s).
  { intros s. unfold listed. rewrite list_elem_of_filter, Hlatest. split.
    - intros [(s' & Hs' & Hid & Hr) Hs]. split; [done|].
      by rewrite <- (Hunique s' s Hs' Hs Hid).
    - intros [Hs Hr]. split; [|done]. by exists s. }
  assert (Hsub : listed `sublist_of` rows.*1) by apply sublist_filter.
  assert (Hwith : Forall (λ s, s ∈ rows.*1 ∧ is_Some (latest_readings !! Sensor.id s)
                               ∧ has_reading db s) listed).
  { apply Forall_forall. intros s Hs. pose proof Hs as Hs'.
    apply list_elem_of_filter in Hs as [? ?]. apply Hlisted in Hs' as [_ ?]. done. }
  clearbody listed. destruct listed as [|s0 others].
  { exists [], log1, []. split_and!; [done|constructor|done|done]. }
  set (sensors_with_readings := s0 :: others) in *.
  destruct (trends_length db now sensors_with_readings
              ((λ data : latest, data.2) <$> latest_readings) log1)
    as (trends & log2 & -> & Htrends).
  destruct (SummaryTheorems.stats_ok db now sensors_with_readings
              ((λ data : latest, data.2) <$> latest_readings) log2)
    as (stats & log3 & ->).
  unfold lift.
  set (zones_by_sensor :=
         foldl (λ zones (row : Sensor.t * Zone.t), <[Sensor.id row.1 := row.2]> zones)
               (∅ : gmap string Zone.t) rows).
  destruct (result_for_each_rel
              (λ sensor_configs sensor,
                 result_bind (getitem latest_readings (Sensor.id sensor)) (λ reading,
                 result_bind (getitem zones_by_sensor (Sensor.id sensor)) (λ zone,
                 result_bind
                   (_build_sensor_config sensor zone reading
                      (default zero_trend (trends !! Sensor.id sensor))
                      (default (SensorStats.mk 0%Qc 0%Qc 0%Qc "")
                               (stats !! Sensor.id sensor)))
                   (λ sensor_config, Ok (sensor_configs ++ [sensor_config])))))
              (λ s, s ∈ rows.*1 ∧ is_Some (latest_readings !! Sensor.id s)
                    ∧ has_reading db s)
              describes) with (items := sensors_with_readings) (acc := @nil SensorConfig.t)
    as (sensor_configs & -> & Hconfigs); [|done|].
  - intros acc s (Hs & [reading Hreading] & (config & Hconfig & _)).
    unfold getitem. rewrite Hreading. simpl.
    assert (Hzone : is_Some (zones_by_sensor !! Sensor.id s)).
    { apply list_elem_of_fmap in Hs as (rw & -> & Hrw).
      apply (SummaryTheorems.foldl_insert_is_Some
               (λ row : Sensor.t * Zone.t, Sensor.id row.1) snd rows ∅ rw Hrw). }
    destruct Hzone as [zone ->]. simpl.
    destruct (build_sensor_config_describes s zone reading
                (default zero_trend (trends !! Sensor.id s))
                (default (SensorStats.mk 0%Qc 0%Qc 0%Qc "") (stats !! Sensor.id s)))
      as (sensor_config & -> & Hdesc); [by eexists|apply Htrends|].
    simpl. by exists sensor_config.
  - exists sensor_configs, log3, sensors_with_readings. by split_and!.
Qed.

(** ** The rows of the sensor query *)

Lemma select_sensors_with_zones_elem db keep s :
  s ∈ (select_sensors_with_zones db keep).*1
  ↔ s ∈ sensors db ∧ keep s = true ∧ has_zone db s.
Proof.
  unfold select_sensors_with_zones, has_zone. rewrite list_elem_of_fmap. split.
  - intros (rw & -> & Hrw).
    apply list_elem_of_bind in Hrw as (s & Hz & [Hkeep Hs]%list_elem_of_filter).
    apply list_elem_of_bind in Hz as (z & Hrw & [Hid Hz]%list_elem_of_filter).
    apply list_elem_of_singleton in Hrw as ->. simpl.
    split_and!; [done..|]. by exists z.
  - intros (Hs & Hkeep & z & Hz & Hid). exists (s, z). split; [done|].
    apply list_elem_of_bind. exists s. split; [|by apply list_elem_of_filter].
    apply list_elem_of_bind. exists z. split; [apply list_elem_of_here|].
    by apply list_elem_of_filter.
Qed.

Lemma select_sensors_with_zones_sublist db keep :
  NoDup (Zone.id <$> zones db) →
  (select_sensors_with_zones db keep).*1 `sublist_of` sensors db.
Proof.
  intros Hnd. unfold select_sensors_with_zones.
  induction (sensors db) as [|s l IH]; [done|].
  assert (Hone : ∀ s, (z ← filter (λ z, Zone.id z = Sensor.zone_id s) (zones db);
                       [(s, z)]).*1 = [] ∨
                      (z ← filter (λ z, Zone.id z = Sensor.zone_id s) (zones db);
                       [(s, z)]).*1 = [s]).
  { intros s'.
    destruct (SummaryTheorems.filter_at_most_one Zone.id
                (λ z, Zone.id z = Sensor.zone_id s') (zones db) Hnd) as [->|[z ->]];
      [congruence|by left|by right]. }
  destruct (decide (keep s = true)) as [Hkeep|Hkeep].
  - rewrite filter_cons_True by done. rewrite bind_cons, fmap_app.
    destruct (Hone s) as [->| ->]; simpl; [by apply sublist_cons|by apply sublist_skip].
  - rewrite filter_cons_False by done. by apply sublist_cons.
Qed.

Lemma summary_of_rows {H : PythonFloat} db now keep log :
  NoDup (Sensor.id <$> sensors db) → NoDup (Zone.id <$> zones db) →
  ∃ sensor_configs log' listed,
    match select_sensors_with_zones db keep with
    | [] => session_ret []
    | _ => assemble db now (select_sensors_with_zones db keep)
    end log = (Ok sensor_configs, log')
    ∧ Forall2 describes listed sensor_configs
    ∧ listed `sublist_of` sensors db
    ∧ ∀ s, s ∈ listed
           ↔ s ∈ sensors db ∧ keep s = true ∧ has_zone db s ∧ has_reading db s.
Proof.
  intros Hsensors Hzones.
  pose proof (select_sensors_with_zones_sublist db keep Hzones) as Hsub.
  pose proof (select_sensors_with_zones_elem db keep) as Helem.
  pose proof (SummaryTheorems.rows_unique db keep Hsensors) as Hunique.
  destruct (select_sensors_with_zones db keep) as [|rw rows] eqn:Hrows.
  - exists [], log, []. split_and!; [done|constructor|apply sublist_nil_l|].
    intros s. split; [by intros ?%elem_of_nil|].
    intros (Hs & Hkeep & Hz & _).
    assert (Hin : s ∈ ([] : list (Sensor.t * Zone.t)).*1) by (by apply Helem).
    by apply elem_of_nil in Hin.
  - destruct (assemble_records db now (rw :: rows) log Hunique)
      as (sensor_configs & log' & listed & -> & Hdesc & Hlisted & Hin).
    exists sensor_configs, log', listed. split_and!; [done|done|by etransitivity|].
    intros s. rewrite Hin, Helem. tauto.
Qed.

(** X14. Sensor ids and zone ids being unique, the list of all sensors
    holds one record for each sensor that has a zone in the zone table, a
    registered type and at least one reading, in the order of the sensor
    table, and for no other; each record carries the id, type, label and
    thresholds of its sensor and a trend of exactly 24 points.  A sensor
    without readings is left out, not shown empty. *)
Theorem dashboard_lists_sensors_with_readings {H : PythonFloat} db now log :
  NoDup (Sensor.id <$> sensors db) → NoDup (Zone.id <$> zones db) →
  ∃ sensor_configs log' listed,
    get_all_sensors db now log = (Ok sensor_configs, log')
    ∧ Forall2 describes listed sensor_configs
    ∧ listed `sublist_of` sensors db
    ∧ ∀ s, s ∈ listed ↔ s ∈ sensors db ∧ has_zone db s ∧ has_reading db s.
Proof.
  intros Hsensors Hzones. unfold get_all_sensors.
  unfold mbind, session_mbind, session_bind, execute.
  destruct (summary_of_rows db now (λ _, true) (log ++ [SelectSensorsWithZones])
              Hsensors Hzones)
    as (sensor_configs & log' & listed & Hrun & Hdesc & Hsub & Hin).
  exists sensor_configs, log', listed. split_and!; [done..|].
  intros s. rewrite Hin. tauto.
Qed.

Lemma dashboard_lists_sensors_with_readings_witness :
  ∃ sensor_configs log',
    get_all_sensors (H := sample_float) facility_db (seconds 7200) []
      = (Ok sensor_configs, log')
    ∧ SensorConfig.id <$> sensor_configs = ["cold-b-temp"; "dock-door"].
Proof.
  destruct (dashboard_lists_sensors_with_readings (H := sample_float) facility_db
              (seconds 7200) [])
    as (sensor_configs & log' & listed & Hrun & _);
    [apply (bool_decide_eq_true_1 _); vm_compute; reflexivity..|].
  exists sensor_configs, log'. split; [exact Hrun|].
  vm_compute in Hrun. injection Hrun as <- _. reflexivity.
Defined.

(** X15. Sensor ids and zone ids being unique, the list of the sensors of
    a zone holds one record for each sensor of the sensor table that is in
    that zone, is of the type asked for when one is given (an empty string
    counts as none), has its zone in the zone table, a registered type and
    at least one reading; in the order of the sensor table, and for no
    other sensor. *)
Theorem zone_lists_sensors_with_readings {H : PythonFloat} db now zone_id sensor_type log :
  NoDup (Sensor.id <$> sensors db) → NoDup (Zone.id <$> zones db) →
  ∃ sensor_configs log' listed,
    get_sensors_by_zone db now zone_id sensor_type log = (Ok sensor_configs, log')
    ∧ Forall2 describes listed sensor_configs
    ∧ listed `sublist_of` sensors db
    ∧ ∀ s, s ∈ listed
           ↔ s ∈ sensors db ∧ Sensor.zone_id s = zone_id
             ∧ (truthy sensor_type = true → Some (Sensor.sensor_type s) = sensor_type)
             ∧ has_zone db s ∧ has_reading db s.
Proof.
  intros Hsensors Hzones. unfold get_sensors_by_zone.
  unfold mbind, session_mbind, session_bind, execute.
  destruct (summary_of_rows db now
              (λ s, bool_decide (Sensor.zone_id s = zone_id)
                    && (if truthy sensor_type
                        then bool_decide (Some (Sensor.sensor_type s) = sensor_type)
                        else true))
              (log ++ [SelectZoneSensors zone_id sensor_type]) Hsensors Hzones)
    as (sensor_configs & log' & listed & Hrun & Hdesc & Hsub & Hin).
  exists sensor_configs, log', listed. split_and!; [done..|].
  intros s. rewrite Hin, andb_true_iff, bool_decide_eq_true.
  destruct (truthy sensor_type); rewrite ?bool_decide_eq_true; intuition congruence.
Qed.

Lemma zone_lists_sensors_with_readings_witness :
  ∃ sensor_configs log',
    get_sensors_by_zone (H := sample_float) facility_db (seconds 7200) "loading"
      (Some "") [] = (Ok sensor_configs, log')
    ∧ SensorConfig.id <$> sensor_configs = ["dock-door"].
Proof.
  destruct (zone_lists_sensors_with_readings (H := sample_float) facility_db
              (seconds 7200) "loading" (Some "") [])
    as (sensor_configs & log' & listed & Hrun & _);
    [apply (bool_decide_eq_true_1 _); vm_compute; reflexivity..|].
  exists sensor_configs, log'. split; [exact Hrun|].
  vm_compute in Hrun. injection Hrun as <- _. reflexivity.
Defined.

(** ** One sensor *)

Lemma one_or_none_cases {A} (rows : list A) row :
  one_or_none rows = Ok row →
  (rows = [] ∧ row = None) ∨ ∃ x, rows = [x] ∧ row = Some x.
Proof.
  destruct rows as [|x [|y rows]]; simpl; intros [= <-]; [by left|right; by exists x].
Qed.

Lemma sensor_by_id_cases {H : PythonFloat} db now sensor_id log :
  NoDup (Sensor.id <$> sensors db) → NoDup (Zone.id <$> zones db) →
  ((¬ ∃ s, s ∈ sensors db ∧ Sensor.id s = sensor_id ∧ has_zone db s ∧ has_reading db s)
   ∧ ∃ log', get_sensor_by_id db now sensor_id log = (Ok None, log'))
  ∨ ∃ s sensor_config log',
      s ∈ sensors db ∧ Sensor.id s = sensor_id ∧ has_zone db s ∧ has_reading db s
      ∧ get_sensor_by_id db now sensor_id log = (Ok (Some sensor_config), log')
      ∧ describes s sensor_config.
Proof.
  intros Hsensors Hzones. unfold get_sensor_by_id.
  unfold mbind, session_mbind, session_bind, execute, lift.
  pose proof (select_sensors_with_zones_elem db
                (λ s, bool_decide (Sensor.id s = sensor_id))) as Helem.
  destruct (SummaryTheorems.select_one_sensor db sensor_id Hsensors Hzones) as [row Hrow].
  rewrite Hrow.
  destruct (one_or_none_cases _ _ Hrow) as [[Hrows ->]|([s zone] & Hrows & ->)].
  { left. split; [|by eexists].
    intros (s & Hs & Hid & Hz & _).
    assert (Hin : s ∈ (select_sensors_with_zones db
                         (λ s, bool_decide (Sensor.id s = sensor_id))).*1).
    { apply Helem. split_and!; [done| |done]. by apply bool_decide_eq_true. }
    rewrite Hrows in Hin. by apply elem_of_nil in Hin. }
  assert (Hs : s ∈ sensors db ∧ Sensor.id s = sensor_id ∧ has_zone db s).
  { destruct (Helem s) as [Hto _]. rewrite Hrows in Hto.
    destruct Hto as (? & ?%bool_decide_eq_true & ?); [apply list_elem_of_here|done]. }
  destruct Hs as (Hs & Hid & Hz).
  destruct (latest_readings_dom db [s] (log ++ [SelectSensorWithZone sensor_id]))
    as (latest_readings & log1 & -> & Hlatest).
  destruct (latest_readings !! Sensor.id s) as [reading|] eqn:Hreading.
  2:{ left. split; [|by eexists].
      intros (s' & Hs' & Hid' & _ & Hr).
      assert (s' = s) as ->.
      { apply (SummaryTheorems.unique_by_id (sensors db)); congruence. }
      assert (Hsome : is_Some (latest_readings !! Sensor.id s)).
      { apply Hlatest. exists s. split_and!; [apply list_elem_of_here|done|done]. }
      destruct Hsome as [reading Hsome].
      discriminate (eq_trans (eq_sym Hsome) Hreading). }
  assert (Hr : has_reading db s).
  { destruct (Hlatest (Sensor.id s)) as [Hto _].
    destruct Hto as (s' & ->%list_elem_of_singleton & _ & ?); [by eexists|done]. }
  destruct (trends_length db now [s] {[Sensor.id s := reading.2]} log1)
    as (trends & log2 & -> & Htrends).
  destruct (SummaryTheorems.stats_ok db now [s] {[Sensor.id s := reading.2]} log2)
    as (stats & log3 & ->).
  destruct (build_sensor_config_describes s zone reading
              (default zero_trend (trends !! Sensor.id s))
              (default (SensorStats.mk 0%Qc 0%Qc 0%Qc "") (stats !! Sensor.id s)))
    as (sensor_config & -> & Hdesc); [by destruct Hr as (? & -> & _)|apply Htrends|].
  right. exists s, sensor_config, log3. by split_and!.
Qed.

(** X16. Sensor ids and zone ids being unique, the route of one sensor
    answers with the record of the sensor that has the id asked for when
    that sensor has its zone in the zone table, a registered type and at
    least one reading; it answers 404 when there is no such sensor, be it
    that the id is unknown or that the sensor has no reading yet.  No
    exception of the service layer gets through. *)
Theorem sensor_route {H : PythonFloat} db now sensor_id log :
  NoDup (Sensor.id <$> sensors db) → NoDup (Zone.id <$> zones db) →
  let response := Routes.get_sensor db now sensor_id log in
  (∀ s, s ∈ sensors db → Sensor.id s = sensor_id → has_zone db s → has_reading db s →
        ∃ body, response = Routes.Respond body ∧ describes s body)
  ∧ ((¬ ∃ s, s ∈ sensors db ∧ Sensor.id s = sensor_id ∧ has_zone db s ∧ has_reading db s) →
       response = Routes.HTTPException 404 "Sensor not found")
  ∧ ∀ e, response ≠ Routes.Unhandled e.
Proof.
  intros Hsensors Hzones response. unfold response, Routes.get_sensor.
  destruct (sensor_by_id_cases db now sensor_id log Hsensors Hzones)
    as [[Hno [log' ->]]|(s & sensor_config & log' & Hs & Hid & Hz & Hr & -> & Hdesc)];
    simpl.
  - split_and!; [|done|done]. intros s Hs Hid Hz Hr. destruct Hno. by exists s.
  - split_and!; [| |done].
    + intros s' Hs' Hid' _ _.
      assert (s' = s) as ->.
      { apply (SummaryTheorems.unique_by_id (sensors db)); congruence. }
      by exists sensor_config.
    + intros Hno. destruct Hno. by exists s.
Qed.

Lemma sensor_route_witness :
  Routes.get_sensor (H := sample_float) facility_db (seconds 7200) "dock-co2" []
  = Routes.HTTPException 404 "Sensor not found".
Proof.
  apply (proj1 (proj2 (sensor_route (H := sample_float) facility_db (seconds 7200)
                         "dock-co2" []
                         ltac:(apply (bool_decide_eq_true_1 _); vm_compute; reflexivity)
                         ltac:(apply (bool_decide_eq_true_1 _); vm_compute; reflexivity)))).
  intros (s & Hs & Hid & _ & config & Hconfig & r & Hr & _).
  assert (s = Sensor.mk "dock-co2" "loading" "air_quality" "CO2" None None) as ->.
  { vm_compute in Hs. repeat (apply elem_of_cons in Hs as [->|Hs]; [done||discriminate|]).
    by apply elem_of_nil in Hs. }
  vm_compute in Hconfig. injection Hconfig as <-. by apply elem_of_nil in Hr.
Defined.

(** ** The number of statements *)

Lemma sum_list_fmap_cons {A} (cost : A → nat) (x : A) (items : list A) :
  sum_list (cost <$> x :: items) = (cost x + sum_list (cost <$> items))%nat.
Proof. reflexivity. Qed.

Lemma for_each_cost {A S} (body : S → A → Session S) (cost : A → nat) :
  (∀ st x log, ∃ new, (body st x log).2 = log ++ new ∧ (length new ≤ cost x)%nat) →
  ∀ items st log,
    ∃ new, (for_each body items st log).2 = log ++ new
           ∧ (length new ≤ sum_list (cost <$> items))%nat.
Proof.
  intros Hbody. induction items as [|x items IH]; intros st log.
  - exists []. simpl. by rewrite app_nil_r.
  - rewrite sum_list_fmap_cons. cbn [for_each].
    unfold mbind, session_mbind, session_bind.
    destruct (Hbody st x log) as (new1 & Hlog1 & Hlen1).
    destruct (body st x log) as [[st'|e] log1]; simpl in Hlog1; subst log1.
    + destruct (IH st' (log ++ new1)) as (new2 & -> & Hlen2).
      exists (new1 ++ new2). rewrite app_assoc, length_app. split; [done|lia].
    + exists new1. split; [done|lia].
Qed.

Lemma cost_bound (cost : string → nat) (keys among : list string) :
  NoDup keys →
  (∀ k, (cost k ≤ 1)%nat) → (∀ k, cost k ≠ 0%nat → k ∈ among) →
  (sum_list (cost <$> keys) ≤ length among)%nat.
Proof.
  intros Hnd Hone Hamong.
  assert (Hsum : sum_list (cost <$> keys)
                 = length (filter (λ k, cost k ≠ 0%nat) keys)).
  { clear Hnd. induction keys as [|k keys IH]; [done|]. rewrite fmap_cons.
    rewrite <- fmap_cons, sum_list_fmap_cons, IH. destruct (decide (cost k ≠ 0%nat)) as [Hk|Hk].
    - rewrite filter_cons_True by done. cbn [length]. specialize (Hone k). lia.
    - rewrite filter_cons_False by done. lia. }
  rewrite Hsum. apply submseteq_length, NoDup_submseteq.
  - by apply NoDup_filter.
  - intros k [Hk _]%list_elem_of_filter. by apply Hamong.
Qed.

Lemma registered_keys k :
  is_Some (SENSOR_TYPE_REGISTRY !! k) →
  k ∈ ["environmental"; "air_quality"; "door"; "motion"].
Proof.
  intros [config Hk]. apply elem_of_list_to_map_2 in Hk.
  apply (list_elem_of_fmap_2 fst) in Hk. exact Hk.
Qed.

Lemma aggregating_keys k config :
  SENSOR_TYPE_REGISTRY !! k = Some config → supports_aggregation config = true →
  k ∈ ["environmental"; "air_quality"].
Proof.
  intros Hk Hagg. apply elem_of_list_to_map_2 in Hk.
  repeat (apply elem_of_cons in Hk as [Hk|Hk];
          [injection Hk as -> ->;
           first [discriminate Hagg|apply list_elem_of_here
                 |apply list_elem_of_further, list_elem_of_here]|]).
  by apply elem_of_nil in Hk.
Qed.

Lemma registered_cost_bound sensors :
  (sum_list (registered_cost <$> sensors_by_type sensors) ≤ 4)%nat.
Proof.
  destruct (SummaryTheorems.sensors_by_type_grouped sensors) as [Hnd _].
  pose proof (cost_bound (λ k, match SENSOR_TYPE_REGISTRY !! k with
                               | Some _ => 1
                               | None => 0
                               end)%nat
                (sensors_by_type sensors).*1
                ["environmental"; "air_quality"; "door"; "motion"] Hnd) as Hb.
  rewrite <- list_fmap_compose in Hb. apply Hb.
  - intros k. destruct (SENSOR_TYPE_REGISTRY !! k); lia.
  - intros k Hk. apply registered_keys. by destruct (SENSOR_TYPE_REGISTRY !! k).
Qed.

Lemma aggregating_cost_bound sensors :
  (sum_list (aggregating_cost <$> sensors_by_type sensors) ≤ 2)%nat.
Proof.
  destruct (SummaryTheorems.sensors_by_type_grouped sensors) as [Hnd _].
  pose proof (cost_bound (λ k, match SENSOR_TYPE_REGISTRY !! k with
                               | Some config => if supports_aggregation config then 1 else 0
                               | None => 0
                               end)%nat
                (sensors_by_type sensors).*1 ["environmental"; "air_quality"] Hnd) as Hb.
  rewrite <- list_fmap_compose in Hb. apply Hb.
  - intros k. destruct (SENSOR_TYPE_REGISTRY !! k) as [config|]; [|lia].
    destruct (supports_aggregation config); lia.
  - intros k Hk. destruct (SENSOR_TYPE_REGISTRY !! k) as [config|] eqn:Hconfig; [|done].
    apply (aggregating_keys k config Hconfig). by destruct (supports_aggregation config).
Qed.

Lemma latest_for_type_cost db results group log :
  ∃ new, (latest_for_type db results group log).2 = log ++ new
         ∧ (length new ≤ registered_cost group)%nat.
Proof.
  unfold latest_for_type, registered_cost.
  destruct (SENSOR_TYPE_REGISTRY !! group.1) as [config|].
  - destruct (secondary_column config); simpl;
      (eexists; split; [reflexivity|simpl; lia]).
  - exists []. simpl. rewrite app_nil_r. split; [done|lia].
Qed.

Lemma trends_for_type_cost {H : PythonFloat} db now end_times results group log :
  ∃ new, (trends_for_type db now end_times results group log).2 = log ++ new
         ∧ (length new ≤ registered_cost group)%nat.
Proof.
  unfold registered_cost.
  destruct (SummaryTheorems.trends_for_type_log db now end_times results group log)
    as (new & Hnew & _ & Hlen).
  destruct (SENSOR_TYPE_REGISTRY !! group.1) as [config|] eqn:Hconfig; [by exists new|].
  unfold trends_for_type. rewrite Hconfig. exists []. simpl. rewrite app_nil_r.
  split; [done|lia].
Qed.

Lemma stats_for_type_cost {H : PythonFloat} db now end_times results group log :
  ∃ new, (stats_for_type db now end_times results group log).2 = log ++ new
         ∧ (length new ≤ aggregating_cost group)%nat.
Proof.
  unfold stats_for_type, aggregating_cost.
  destruct (SENSOR_TYPE_REGISTRY !! group.1) as [config|].
  2:{ exists []. simpl. by rewrite app_nil_r. }
  destruct (supports_aggregation config); simpl.
  2:{ exists []. rewrite app_nil_r. split; [done|simpl; lia]. }
  unfold mbind, session_mbind, session_bind, lift, execute.
  destruct (minimum _) as [min_end|e]; simpl.
  - eexists. split; [reflexivity|]. simpl. lia.
  - exists []. rewrite app_nil_r. split; [done|simpl; lia].
Qed.

Lemma batches_cost {H : PythonFloat} db now sensors end_times log :
  (∃ new, (_get_latest_readings_batch db sensors log).2 = log ++ new
          ∧ (length new ≤ 4)%nat)
  ∧ (∃ new, (_get_24h_trends_batch db now sensors end_times log).2 = log ++ new
            ∧ (length new ≤ 4)%nat)
  ∧ (∃ new, (_get_24h_stats_batch db now sensors end_times log).2 = log ++ new
            ∧ (length new ≤ 2)%nat).
Proof.
  pose proof (registered_cost_bound sensors) as Hr.
  pose proof (aggregating_cost_bound sensors) as Ha.
  split_and!.
  - destruct (for_each_cost (latest_for_type db) registered_cost
                (latest_for_type_cost db) (sensors_by_type sensors) ∅ log)
      as (new & Hnew & Hlen).
    exists new. split; [done|lia].
  - destruct (for_each_cost (trends_for_type db now end_times) registered_cost
                (trends_for_type_cost db now end_times) (sensors_by_type sensors)
                (list_to_map ((λ s, (Sensor.id s, zero_trend)) <$> sensors)) log)
      as (new & Hnew & Hlen).
    exists new. split; [done|lia].
  - destruct (for_each_cost (stats_for_type db now end_times) aggregating_cost
                (stats_for_type_cost db now end_times) (sensors_by_type sensors) ∅ log)
      as (new & Hnew & Hlen).
    exists new. split; [done|lia].
Qed.

Lemma assemble_cost {H : PythonFloat} db now rows log :
  ∃ new, (assemble db now rows log).2 = log ++ new ∧ (length new ≤ 10)%nat.
Proof.
  unfold assemble. unfold mbind, session_mbind, session_bind.
  destruct (batches_cost db now rows.*1 ∅ log) as [(new1 & Hnew1 & Hlen1) _].
  destruct (SummaryTheorems.latest_readings_ok db rows.*1 log)
    as (latest_readings & log1 & Hlatest & _).
  rewrite Hlatest in Hnew1 |- *. simpl in Hnew1. subst log1.
  destruct (filter _ rows.*1) as [|s0 others].
  { exists new1. split; [done|lia]. }
  set (sensors_with_readings := s0 :: others).
  set (end_times := (λ data : latest, data.2) <$> latest_readings).
  destruct (batches_cost db now sensors_with_readings end_times (log ++ new1))
    as (_ & (new2 & Hnew2 & Hlen2) & _).
  destruct (SummaryTheorems.trends_ok db now sensors_with_readings end_times (log ++ new1))
    as (trends & log2 & Htrends).
  rewrite Htrends in Hnew2 |- *. simpl in Hnew2. subst log2.
  destruct (batches_cost db now sensors_with_readings end_times ((log ++ new1) ++ new2))
    as (_ & _ & (new3 & Hnew3 & Hlen3)).
  destruct (SummaryTheorems.stats_ok db now sensors_with_readings end_times
              ((log ++ new1) ++ new2))
    as (stats & log3 & Hstats).
  rewrite Hstats in Hnew3 |- *. simpl in Hnew3. subst log3.
  exists (new1 ++ new2 ++ new3). unfold lift. simpl.
  rewrite !length_app, !app_assoc. split; [done|lia].
Qed.

(** X17. Whatever the number of sensors and readings, building the list of
    all sensors sends at most 11 statements to the database, and so does
    building the list of a zone: one for the sensors, at most four for the
    latest readings, four for the trends and two for the statistics.
    Building the record of one sensor sends at most 4. *)
Theorem summary_statement_budget {H : PythonFloat} db now log :
  (∃ new, (get_all_sensors db now log).2 = log ++ new ∧ (length new ≤ 11)%nat)
  ∧ (∀ zone_id sensor_type,
       ∃ new, (get_sensors_by_zone db now zone_id sensor_type log).2 = log ++ new
              ∧ (length new ≤ 11)%nat)
  ∧ (∀ sensor_id,
       ∃ new, (get_sensor_by_id db now sensor_id log).2 = log ++ new
              ∧ (length new ≤ 4)%nat).
Proof.
  split_and!.
  - unfold get_all_sensors. unfold mbind, session_mbind, session_bind, execute.
    destruct (select_sensors_with_zones db (λ _, true)) as [|rw rows].
    { exists [SelectSensorsWithZones]. simpl. split; [done|lia]. }
    destruct (assemble_cost db now (rw :: rows) (log ++ [SelectSensorsWithZones]))
      as (new & -> & Hlen).
    exists (SelectSensorsWithZones :: new). rewrite <- app_assoc. simpl. split; [done|lia].
  - intros zone_id sensor_type. unfold get_sensors_by_zone.
    unfold mbind, session_mbind, session_bind, execute.
    destruct (select_sensors_with_zones db _) as [|rw rows].
    { exists [SelectZoneSensors zone_id sensor_type]. simpl. split; [done|lia]. }
    destruct (assemble_cost db now (rw :: rows)
                (log ++ [SelectZoneSensors zone_id sensor_type]))
      as (new & -> & Hlen).
    exists (SelectZoneSensors zone_id sensor_type :: new).
    rewrite <- app_assoc. simpl. split; [done|lia].
  - intros sensor_id. unfold get_sensor_by_id.
    unfold mbind, session_mbind, session_bind, execute, lift.
    set (log0 := log ++ [SelectSensorWithZone sensor_id]).
    destruct (one_or_none _) as [[[s zone]|]|e].
    2:{ exists [SelectSensorWithZone sensor_id]. simpl. split; [done|lia]. }
    2:{ exists [SelectSensorWithZone sensor_id]. simpl. split; [done|lia]. }
    assert (Hone : (length (sensors_by_type [s]) ≤ 1)%nat).
    { apply (SummaryTheorems.sensors_by_type_same [s] (Sensor.sensor_type s)).
      by apply Forall_singleton. }
    destruct (SummaryTheorems.for_each_log (latest_for_type db) latest_statement
                (SummaryTheorems.latest_for_type_log db) (sensors_by_type [s]) ∅ log0)
      as (new1 & Hnew1 & _ & Hlen1).
    destruct (SummaryTheorems.latest_readings_ok db [s] log0)
      as (latest_readings & log1 & Hlatest & _).
    unfold _get_latest_readings_batch in Hlatest |- *.
    rewrite Hlatest in Hnew1 |- *. simpl in Hnew1. subst log1.
    destruct (latest_readings !! Sensor.id s) as [reading|].
    2:{ exists (SelectSensorWithZone sensor_id :: new1). unfold log0.
        rewrite <- app_assoc. simpl. split; [done|lia]. }
    set (end_times := ({[Sensor.id s := reading.2]} : gmap string datetime)).
    destruct (for_each_cost (trends_for_type db now end_times) registered_cost
                (trends_for_type_cost db now end_times) (sensors_by_type [s])
                (list_to_map ((λ s, (Sensor.id s, zero_trend)) <$> [s])) (log0 ++ new1))
      as (new2 & Hnew2 & Hlen2).
    destruct (SummaryTheorems.trends_ok db now [s] end_times (log0 ++ new1))
      as (trends & log2 & Htrends).
    unfold _get_24h_trends_batch in Htrends |- *.
    rewrite Htrends in Hnew2 |- *. simpl in Hnew2. subst log2.
    destruct (for_each_cost (stats_for_type db now end_times) aggregating_cost
                (stats_for_type_cost db now end_times) (sensors_by_type [s]) ∅
                ((log0 ++ new1) ++ new2))
      as (new3 & Hnew3 & Hlen3).
    destruct (SummaryTheorems.stats_ok db now [s] end_times ((log0 ++ new1) ++ new2))
      as (stats & log3 & Hstats).
    unfold _get_24h_stats_batch in Hstats |- *.
    rewrite Hstats in Hnew3 |- *. simpl in Hnew3. subst log3.
    assert (Hc2 : (sum_list (registered_cost <$> sensors_by_type [s]) ≤ 1)%nat).
    { destruct (sensors_by_type [s]) as [|g [|g' gs]]; simpl in *; try lia.
      unfold registered_cost. destruct (SENSOR_TYPE_REGISTRY !! g.1); lia. }
    assert (Hc3 : (sum_list (aggregating_cost <$> sensors_by_type [s]) ≤ 1)%nat).
    { destruct (sensors_by_type [s]) as [|g [|g' gs]]; simpl in *; try lia.
      unfold aggregating_cost. destruct (SENSOR_TYPE_REGISTRY !! g.1) as [config|]; [|lia].
      destruct (supports_aggregation config); lia. }
    destruct (_build_sensor_config _ _ _ _ _); simpl;
      exists (SelectSensorWithZone sensor_id :: new1 ++ new2 ++ new3); unfold log0;
      rewrite <- !app_assoc; simpl; rewrite !length_app; (split; [done|lia]).
Qed.

End SummaryProperties.

(** * Status and formatting *)

Module StatusProperties.
Import Registry SensorService Samples StatusNotions.

(** X18. The status is one of "normal", "warning" and "critical", and it
    never gets milder as the value rises: for the same thresholds a higher
    value has a status at least as severe. *)
Theorem status_monotone {H : PythonFloat} (value1 value2 : Qc)
    (warning_threshold critical_threshold : option Qc) :
  (value1 ≤ value2)%Qc →
  let status1 := (compute_status value1 warning_threshold critical_threshold).1 in
  let status2 := (compute_status value2 warning_threshold critical_threshold).1 in
  (severity status1 ≤ severity status2)%nat
  ∧ status1 ∈ ["normal"; "warning"; "critical"].
Proof.
  intros Hle status1 status2. unfold status1, status2, compute_status.
  destruct warning_threshold as [w|]; [|split; [done|set_solver]].
  cbv zeta.
  assert (Hup : ∀ t, (t < value1)%Qc → (t < value2)%Qc).
  { intros t Ht. by eapply Qclt_le_trans. }
  destruct critical_threshold as [c|].
  - destruct (bool_decide (c < value1)%Qc) eqn:Hc1.
    + apply bool_decide_eq_true in Hc1. rewrite (bool_decide_eq_true_2 _ (Hup c Hc1)).
      simpl. split; [done|set_solver].
    + destruct (bool_decide (w < value1)%Qc) eqn:Hw1.
      * apply bool_decide_eq_true in Hw1.
        rewrite (bool_decide_eq_true_2 _ (Hup w Hw1)).
        destruct (bool_decide (c < value2)%Qc), (decide (w < 0)%Qc); simpl;
          (split; [unfold severity; simpl; lia|set_solver]).
      * simpl. split; [unfold severity; simpl; lia|set_solver].
  - destruct (bool_decide (w < value1)%Qc) eqn:Hw1.
    + apply bool_decide_eq_true in Hw1. rewrite (bool_decide_eq_true_2 _ (Hup w Hw1)).
      destruct (decide (w < 0)%Qc); simpl; (split; [done|set_solver]).
    + simpl. split; [unfold severity; simpl; lia|set_solver].
Qed.

Lemma status_monotone_witness :
  (severity (compute_status (H := sample_float) (decimal (-19) 1)
               (Some (decimal (-18) 1)) (Some (decimal (-10) 1))).1
   ≤ severity (compute_status (H := sample_float) (decimal (-9) 1)
                 (Some (decimal (-18) 1)) (Some (decimal (-10) 1))).1)%nat.
Proof.
  apply (status_monotone (H := sample_float) (decimal (-19) 1) (decimal (-9) 1)).
  by vm_compute.
Defined.

(** X19. In the record of a door sensor the text of the reading and the
    raw flag agree: the text is "Open" exactly when [isOpen] is true, that
    is when the latest value is not zero; there is no unit.  The record of
    a sensor of another type has no raw values. *)
Theorem door_record_consistent {H : PythonFloat} sensor zone reading trend stats :
  is_Some (SENSOR_TYPE_REGISTRY !! Sensor.sensor_type sensor) →
  ∃ sensor_config,
    _build_sensor_config sensor zone reading trend stats = Ok sensor_config
    ∧ (Sensor.sensor_type sensor = "door" →
         ∃ is_open,
           SensorReading.raw_values (SensorConfig.reading sensor_config)
             = Some [("isOpen", is_open)]
           ∧ (is_open = true ↔ reading.1.1 ≠ 0%Qc)
           ∧ SensorReading.value (SensorConfig.reading sensor_config)
             = (if is_open then "Open" else "Closed")
           ∧ SensorReading.unit (SensorConfig.reading sensor_config) = None)
    ∧ (Sensor.sensor_type sensor ≠ "door" →
         SensorReading.raw_values (SensorConfig.reading sensor_config) = None).
Proof.
  intros [config Hconfig]. unfold _build_sensor_config. rewrite Hconfig.
  destruct reading as [[value secondary_value] ts].
  destruct (compute_status _ _ _) as [status status_text].
  eexists. split; [reflexivity|].
  cbn [SensorConfig.reading SensorReading.raw_values SensorReading.value
       SensorReading.unit fst]. split.
  - intros Hdoor. rewrite decide_True by done.
    exists (bool_decide (value ≠ 0%Qc)). split; [done|].
    rewrite bool_decide_eq_true. split; [done|].
    assert (Hreg : SENSOR_TYPE_REGISTRY !! "door"
                   = Some {| model := DoorReadingModel; value_column := IsOpen;
                             unit := "events"; secondary_column := None;
                             secondary_unit := None; format_value := Some _format_door;
                             supports_aggregation := false |}) by reflexivity.
    rewrite Hdoor, Hreg in Hconfig. injection Hconfig as <-.
    unfold format_reading_value, format_reading_unit.
    cbn [format_value secondary_column unit]. unfold _format_door.
    split; [|by rewrite decide_False].
    case_decide as Hv.
    + by rewrite bool_decide_eq_false_2 by tauto.
    + by rewrite bool_decide_eq_true_2.
  - intros Hother. by rewrite decide_False.
Qed.

Lemma door_record_consistent_witness :
  ∃ sensor_config,
    _build_sensor_config (H := sample_float)
      (Sensor.mk "dock-door" "loading" "door" "Dock door" None None)
      (Zone.mk "loading" "Loading Bay" "loading" None None)
      (1%Qc, None, seconds 6900) zero_trend (SensorStats.mk 0%Qc 1%Qc (decimal 1 2) "events")
    = Ok sensor_config
    ∧ SensorReading.value (SensorConfig.reading sensor_config) = "Open".
Proof.
  destruct (door_record_consistent (H := sample_float)
              (Sensor.mk "dock-door" "loading" "door" "Dock door" None None)
              (Zone.mk "loading" "Loading Bay" "loading" None None)
              (1%Qc, None, seconds 6900) zero_trend
              (SensorStats.mk 0%Qc 1%Qc (decimal 1 2) "events"))
    as (sensor_config & Hc & Hdoor & _); [by eexists|].
  exists sensor_config. split; [exact Hc|].
  destruct (Hdoor eq_refl) as (is_open & _ & Hopen & -> & _).
  by rewrite (proj2 Hopen).
Defined.

End StatusProperties.

(** * Helpers of the agent *)

Module AgentProperties.
Import Registry AgentConfig AgentTools AgentNodes Samples NodeNotions.

(** X20. From one minute on, a duration is shown in whole minutes: the
    seconds beyond the last whole minute do not show. *)
Theorem format_duration_whole_minutes (seconds : Z) :
  60 ≤ seconds →
  _format_duration seconds = _format_duration (seconds - seconds mod 60).
Proof.
  intros Hs.
  set (whole := seconds - seconds mod 60).
  assert (Hq : whole / 60 = seconds / 60).
  { unfold whole. Z.div_mod_to_equations. lia. }
  assert (Hh : whole / 3600 = seconds / 3600).
  { unfold whole. Z.div_mod_to_equations. lia. }
  assert (Hm : whole mod 3600 / 60 = seconds mod 3600 / 60).
  { unfold whole. Z.div_mod_to_equations. lia. }
  assert (Hlt : whole < 3600 ↔ seconds < 3600).
  { unfold whole. Z.div_mod_to_equations. lia. }
  assert (Hge : 60 ≤ whole).
  { unfold whole. Z.div_mod_to_equations. lia. }
  unfold _format_duration. cbv zeta. rewrite Hq, Hh, Hm.
  rewrite !(decide_False (P := _ < 60)) by lia.
  destruct (decide (seconds < 3600)) as [Hs'|Hs'].
  - by rewrite (decide_True (P := whole < 3600)) by tauto.
  - by rewrite (decide_False (P := whole < 3600)) by tauto.
Qed.

Lemma format_duration_whole_minutes_witness :
  _format_duration 3725 = "1 hour 2 min".
Proof.
  rewrite (format_duration_whole_minutes 3725) by lia. reflexivity.
Defined.

(** ** The latest temperature of a zone *)

Lemma StronglySorted_last {A} (R : relation A) (l : list A) x :
  StronglySorted R l → last l = Some x → ∀ y, y ∈ l → y = x ∨ R y x.
Proof.
  induction 1 as [|a l Hl IH Ha]; intros Hlast y Hy; [done|].
  destruct l as [|b l].
  - injection Hlast as <-. apply list_elem_of_singleton in Hy. by left.
  - change (last (b :: l) = Some x) in Hlast.
    apply elem_of_cons in Hy as [->|Hy]; [|by apply IH].
    right. rewrite Forall_forall in Ha. apply Ha.
    by apply last_Some_elem_of.
Qed.

Lemma last_value_latest {H : PythonFloat} db sensor_id start end_ :
  NoDup (Sensor.id <$> sensors db) →
  ∃ result,
    ReadingsService.get_sensor_readings db sensor_id start end_ "raw" = Ok result
    ∧ latest_in_window db sensor_id start end_ (last_value result).
Proof.
  intros Hnd. unfold ReadingsService.get_sensor_readings.
  destruct (SensorRouteProperties.select_sensor_cases db sensor_id Hnd)
    as [[-> Hnone]|(s & -> & Hs & Hid)]; cbn [one_or_none result_bind].
  { eexists. split; [reflexivity|]. simpl. intros s config Hs Hid.
    by destruct (Hnone s Hs). }
  assert (Huniq : ∀ s', s' ∈ sensors db → Sensor.id s' = sensor_id → s' = s).
  { intros s' Hs' Hid'. apply (SummaryTheorems.unique_by_id (sensors db)); congruence. }
  destruct (SENSOR_TYPE_REGISTRY !! Sensor.sensor_type s) as [config|] eqn:Hconfig.
  2:{ eexists. split; [reflexivity|]. simpl. intros s' config' Hs' Hid' Hc.
      rewrite (Huniq s' Hs' Hid') in Hc. congruence. }
  cbv zeta. rewrite decide_True by done. eexists. split; [reflexivity|].
  unfold last_value, ReadingsService._get_raw_readings.
  cbn [ReadingsResponse.readings]. rewrite Hid, fmap_last, <- option_fmap_compose.
  set (rows := select_window db (model config) sensor_id start end_).
  destruct (last (merge_sort ReadingsService.by_timestamp rows)) as [row|] eqn:Hlast.
  - simpl. exists s, config, row. split_and!; try done.
    + rewrite <- (merge_sort_Permutation ReadingsService.by_timestamp).
      by apply last_Some_elem_of.
    + intros row' Hrow'.
      rewrite <- (merge_sort_Permutation ReadingsService.by_timestamp) in Hrow'.
      destruct (StronglySorted_last ReadingsService.by_timestamp _ row
                  (StronglySorted_merge_sort _ rows) Hlast row' Hrow') as [->|Hle];
        [done|exact Hle].
  - simpl. intros s' config' Hs' Hid' Hc.
    rewrite (Huniq s' Hs' Hid'), Hconfig in Hc. injection Hc as <-.
    apply last_None in Hlast. fold rows.
    apply Permutation_nil_r. by rewrite <- Hlast, merge_sort_Permutation.
Qed.

(** X21. Sensor ids being unique, the zone health data has one entry per
    zone of the configuration, in its order, with the zone's name and
    targets.  The current temperature of an entry is the value of a
    reading of the zone's sensor within the last hour than which none is
    later, and the status compares it with the targets; when the sensor
    is not known or has no reading in the last hour there is no
    temperature and the status is "normal". *)
Theorem zone_health_entries {H : PythonFloat} db simulated_now :
  NoDup (Sensor.id <$> sensors db) →
  ∃ zones_data,
    _fetch_zone_health_data db simulated_now = Ok zones_data
    ∧ Forall2 (λ (zone : string * ZoneConfig) entry,
                 ZoneHealth.id entry = zone.1
                 ∧ ZoneHealth.name entry = name zone.2
                 ∧ ZoneHealth.targetMin entry = temp_min zone.2
                 ∧ ZoneHealth.targetMax entry = temp_max zone.2
                 ∧ latest_in_window db (sensor_id zone.2)
                     (simulated_now - timedelta_hours 1) simulated_now
                     (ZoneHealth.currentTemp entry)
                 ∧ ZoneHealth.status entry
                   = zone_status (ZoneHealth.currentTemp entry)
                       (temp_min zone.2) (temp_max zone.2))
        ZONES zones_data.
Proof.
  intros Hnd. unfold _fetch_zone_health_data.
  destruct (SummaryProperties.result_for_each_rel
              (λ zones_data (item : string * ZoneConfig),
                 let '(zone_id, zone_config) := item in
                 let sensor_id := sensor_id zone_config in
                 let target_min := temp_min zone_config in
                 let target_max := temp_max zone_config in
                 let zone_name := name zone_config in
                 result_bind
                   (ReadingsService.get_sensor_readings db sensor_id
                      (simulated_now - timedelta_hours 1) simulated_now "raw")
                   (λ result,
                      let current_temp := last_value result in
                      let status :=
                        match current_temp with
                        | Some current_temp =>
                            if decide (current_temp < float_of_int target_min)%Qc then "cold"
                            else if decide (float_of_int target_max < current_temp)%Qc
                                 then "warm"
                                 else "normal"
                        | None => "normal"
                        end in
                      Ok (zones_data ++
                            [ZoneHealth.mk zone_id zone_name current_temp target_min
                               target_max status])))
              (λ _, True)
              (λ (zone : string * ZoneConfig) entry,
                 ZoneHealth.id entry = zone.1
                 ∧ ZoneHealth.name entry = name zone.2
                 ∧ ZoneHealth.targetMin entry = temp_min zone.2
                 ∧ ZoneHealth.targetMax entry = temp_max zone.2
                 ∧ latest_in_window db (sensor_id zone.2)
                     (simulated_now - timedelta_hours 1) simulated_now
                     (ZoneHealth.currentTemp entry)
                 ∧ ZoneHealth.status entry
                   = zone_status (ZoneHealth.currentTemp entry)
                       (temp_min zone.2) (temp_max zone.2)))
    with (items := ZONES) (acc := @nil ZoneHealth.t)
    as (zones_data & Hrun & Hentries).
  - intros acc [zone_id zone_config] _. cbv zeta.
    destruct (last_value_latest db (sensor_id zone_config)
                (simulated_now - timedelta_hours 1) simulated_now Hnd)
      as (result & -> & Hlatest).
    cbn [result_bind]. eexists. split; [reflexivity|]. by split_and!.
  - by apply Forall_forall.
  - exists zones_data. split; [exact Hrun|exact Hentries].
Qed.

Lemma zone_health_entries_witness :
  ∃ zones_data,
    _fetch_zone_health_data (H := sample_float) facility_db (seconds 7200) = Ok zones_data
    ∧ (λ entry, (ZoneHealth.id entry, this <$> ZoneHealth.currentTemp entry,
                 ZoneHealth.status entry)) <$> zones_data
      = [("Z1", None, "normal"); ("Z2", None, "normal");
         ("Z3", Some (-35 # 2)%Q, "normal"); ("Z4", None, "normal")].
Proof.
  destruct (zone_health_entries (H := sample_float) facility_db (seconds 7200))
    as (zones_data & Hrun & _);
    [apply (bool_decide_eq_true_1 _); vm_compute; reflexivity|].
  exists zones_data. split; [exact Hrun|].
  vm_compute in Hrun. injection Hrun as <-. reflexivity.
Defined.

(** X22. Sensor ids being unique, the comparison data has one entry per
    zone id asked for, in the order asked, whether or not the zone is
    configured.  For a configured zone the entry has the zone's name and
    the latest temperature of its sensor within the last hour; for any
    other id the entry is named by the id itself and shows the latest
    temperature of the sensor "cold-a-temp". *)
Theorem comparison_entries {H : PythonFloat} db zones simulated_now :
  NoDup (Sensor.id <$> sensors db) →
  ∃ comparison_data,
    _fetch_comparison_data db zones simulated_now = Ok comparison_data
    ∧ Forall2 (λ zone_id entry,
                 ZoneComparison.id entry = zone_id
                 ∧ match zones_get zone_id with
                   | Some zone =>
                       ZoneComparison.name entry = name zone
                       ∧ latest_in_window db (sensor_id zone)
                           (simulated_now - timedelta_hours 1) simulated_now
                           (ZoneComparison.temp entry)
                   | None =>
                       ZoneComparison.name entry = zone_id
                       ∧ latest_in_window db "cold-a-temp"
                           (simulated_now - timedelta_hours 1) simulated_now
                           (ZoneComparison.temp entry)
                   end)
        zones comparison_data.
Proof.
  intros Hnd. unfold _fetch_comparison_data.
  destruct (SummaryProperties.result_for_each_rel
              (λ comparison_data zone_id,
                 let zone_config := zones_get zone_id in
                 let sensor_id := default "cold-a-temp" (sensor_id <$> zone_config) in
                 let zone_name := default zone_id (name <$> zone_config) in
                 result_bind
                   (ReadingsService.get_sensor_readings db sensor_id
                      (simulated_now - timedelta_hours 1) simulated_now "raw")
                   (λ result,
                      let temp := last_value result in
                      Ok (comparison_data ++ [ZoneComparison.mk zone_id zone_name temp])))
              (λ _, True)
              (λ zone_id entry,
                 ZoneComparison.id entry = zone_id
                 ∧ match zones_get zone_id with
                   | Some zone =>
                       ZoneComparison.name entry = name zone
                       ∧ latest_in_window db (sensor_id zone)
                           (simulated_now - timedelta_hours 1) simulated_now
                           (ZoneComparison.temp entry)
                   | None =>
                       ZoneComparison.name entry = zone_id
                       ∧ latest_in_window db "cold-a-temp"
                           (simulated_now - timedelta_hours 1) simulated_now
                           (ZoneComparison.temp entry)
                   end))
    with (items := zones) (acc := @nil ZoneComparison.t)
    as (comparison_data & Hrun & Hentries).
  - intros acc zone_id _. cbv zeta.
    destruct (zones_get zone_id) as [zone|];
      cbn -[ReadingsService.get_sensor_readings timedelta_hours Z.sub].
    + destruct (last_value_latest db (sensor_id zone)
                  (simulated_now - timedelta_hours 1) simulated_now Hnd)
        as (result & -> & Hlatest).
      cbn [result_bind]. eexists. split; [reflexivity|]. by split_and!.
    + destruct (last_value_latest db "cold-a-temp"
                  (simulated_now - timedelta_hours 1) simulated_now Hnd)
        as (result & -> & Hlatest).
      cbn [result_bind]. eexists. split; [reflexivity|]. by split_and!.
  - by apply Forall_forall.
  - exists comparison_data. split; [exact Hrun|exact Hentries].
Qed.

Lemma comparison_entries_witness :
  ∃ comparison_data,
    _fetch_comparison_data (H := sample_float) facility_db ["Z3"; "Z9"] (seconds 7200)
      = Ok comparison_data
    ∧ (λ entry, (ZoneComparison.id entry, ZoneComparison.name entry,
                 this <$> ZoneComparison.temp entry)) <$> comparison_data
      = [("Z3", "Cold Room B", Some (-35 # 2)%Q); ("Z9", "Z9", None)].
Proof.
  destruct (comparison_entries (H := sample_float) facility_db ["Z3"; "Z9"] (seconds 7200))
    as (comparison_data & Hrun & _);
    [apply (bool_decide_eq_true_1 _); vm_compute; reflexivity|].
  exists comparison_data. split; [exact Hrun|].
  vm_compute in Hrun. injection Hrun as <-. reflexivity.
Defined.

End AgentProperties.

(** * The order and the durations of events *)

Module EventOrderProperties.
Import EventService Samples DoorInvariants PresenceInvariants EventOrderNotions.

Lemma sensor_le_refl s : sensor_le s s.
Proof. by right. Qed.

Lemma sensor_le_trans s1 s2 s3 : sensor_le s1 s2 → sensor_le s2 s3 → sensor_le s1 s3.
Proof.
  intros [H1| ->] [H2| ->]; [left; by etransitivity|by left|by left|by right].
Qed.

Lemma StronglySorted_snoc {A} (R : relation A) (l : list A) x :
  StronglySorted R l → Forall (λ y, R y x) l → StronglySorted R (l ++ [x]).
Proof.
  induction 1 as [|a l Hl IH Ha]; intros Hx; simpl.
  - repeat constructor.
  - apply Forall_cons in Hx as [Hax Hx]. constructor; [by apply IH|].
    apply Forall_app. split; [done|]. by apply Forall_singleton.
Qed.

Lemma still_open_sensor end_ st e :
  e ∈ Door.still_open end_ st → Door.current_sensor_id st = Some (DoorEvent.sensor_id e).
Proof.
  unfold Door.still_open.
  destruct (Door.current_event_start st), (Door.current_sensor_id st);
    intros He; try (by apply elem_of_nil in He).
  by apply list_elem_of_singleton in He as ->.
Qed.

Lemma flush_ordered end_ st b :
  ordered st → (∀ c, Door.current_sensor_id st = Some c → sensor_le c b) →
  StronglySorted (λ e1 e2, sensor_le (DoorEvent.sensor_id e1) (DoorEvent.sensor_id e2))
    (Door.events st ++ Door.still_open end_ st)
  ∧ Forall (λ e, sensor_le (DoorEvent.sensor_id e) b)
      (Door.events st ++ Door.still_open end_ st).
Proof.
  intros [Hsorted Hcur] Hb.
  destruct (Door.current_sensor_id st) as [c|] eqn:Hc.
  2:{ unfold Door.still_open. rewrite Hc, Hcur.
      destruct (Door.current_event_start st); simpl; split; constructor. }
  specialize (Hb c eq_refl).
  assert (Hso : Door.still_open end_ st = []
                ∨ ∃ e, Door.still_open end_ st = [e] ∧ DoorEvent.sensor_id e = c).
  { unfold Door.still_open. rewrite Hc.
    destruct (Door.current_event_start st); [right; by eexists|by left]. }
  assert (Hall : Forall (λ e, sensor_le (DoorEvent.sensor_id e) b) (Door.events st)).
  { eapply Forall_impl; [exact Hcur|]. intros e He.
    exact (sensor_le_trans _ _ _ He Hb). }
  destruct Hso as [->|(e & -> & He)].
  - by rewrite app_nil_r.
  - split.
    + apply StronglySorted_snoc; [done|]. by rewrite He.
    + apply Forall_app. split; [done|]. apply Forall_singleton. by rewrite He.
Qed.

Lemma body_ordered end_ st r :
  (∀ c, Door.current_sensor_id st = Some c → sensor_le c (DoorReading.sensor_id r)) →
  ordered st → ordered (Door.body end_ st r).
Proof.
  intros Hb Hord.
  destruct (flush_ordered end_ st (DoorReading.sensor_id r) Hord Hb) as [Hfs Hfa].
  destruct Hord as [Hsorted Hcur].
  unfold Door.body. case_decide as Hd; simpl.
  - destruct (DoorReading.is_open r); simpl; by split.
  - assert (Hc : Door.current_sensor_id st = Some (DoorReading.sensor_id r)).
    { by destruct (decide (Door.current_sensor_id st = Some (DoorReading.sensor_id r)));
        [|destruct Hd]. }
    rewrite Hc in Hcur.
    destruct (Door.prev_is_open st) as [[]|], (DoorReading.is_open r); simpl;
      try (by split; simpl; rewrite ?Hc).
    destruct (Door.current_event_start st); simpl; [|by split; simpl; rewrite ?Hc].
    split; simpl; rewrite ?Hc.
    + apply StronglySorted_snoc; [done|]. done.
    + apply Forall_app. split; [done|]. apply Forall_singleton. apply sensor_le_refl.
Qed.

Lemma run_ordered end_ l : ∀ st,
  StronglySorted (order_by Door.key) l →
  (∀ c, Door.current_sensor_id st = Some c →
        Forall (λ r, sensor_le c (DoorReading.sensor_id r)) l) →
  ordered st → ordered (fold_left (Door.body end_) l st).
Proof.
  induction l as [|r l IH]; intros st Hl Hb Hord; simpl; [done|].
  apply StronglySorted_inv in Hl as [Hl Hr].
  apply IH; [done| |].
  - intros c Hc. rewrite DoorFacts.body_current in Hc. injection Hc as <-.
    eapply Forall_impl; [exact Hr|]. intros r' Hle.
    apply key_leb_cases in Hle as [Hlt|[Heq _]]; [by left|by right].
  - apply body_ordered; [|done]. intros c Hc.
    specialize (Hb c Hc). by apply Forall_cons in Hb as [? _].
Qed.

Lemma events_of_ordered end_ l :
  StronglySorted (order_by Door.key) l →
  StronglySorted (λ e1 e2, sensor_le (DoorEvent.sensor_id e1) (DoorEvent.sensor_id e2))
    (Door.events_of end_ l).
Proof.
  intros Hl. unfold Door.events_of.
  set (st := fold_left (Door.body end_) l Door.initial).
  assert (Hord : ordered st).
  { apply run_ordered; [done|done|]. split; [constructor|done]. }
  destruct (Door.current_sensor_id st) as [c|] eqn:Hc.
  - apply (flush_ordered end_ st c Hord). intros c' Hc'.
    rewrite Hc in Hc'. injection Hc' as <-. apply sensor_le_refl.
  - apply (flush_ordered end_ st "" Hord). intros c' Hc'. congruence.
Qed.

(** X23. Door events come grouped by sensor, the sensors in the lexical
    order of their ids, and so do presence events: the list is not in order
    of time across sensors, and a prefix of it holds the events of the
    first sensors. *)
Theorem events_grouped_by_sensor db start end_ sensor_id zone_id min_duration_seconds :
  StronglySorted (λ e1 e2, sensor_le (DoorEvent.sensor_id e1) (DoorEvent.sensor_id e2))
    (get_door_events db start end_ sensor_id zone_id)
  ∧ StronglySorted
      (λ e1 e2, sensor_le (PresenceEvent.sensor_id e1) (PresenceEvent.sensor_id e2))
      (get_presence_events db start end_ sensor_id zone_id min_duration_seconds).
Proof.
  split.
  - apply events_of_ordered, DoorFacts.query_sorted.
  - unfold get_presence_events.
    apply (EventTheorems.StronglySorted_fmap_inv forget _
             (λ e1 e2, sensor_le (DoorEvent.sensor_id e1) (DoorEvent.sensor_id e2)));
      [done|].
    rewrite PresenceFacts.events_of_simulates.
    apply StronglySorted_filter, events_of_ordered, EventTheorems.presence_query_sorted.
Qed.

(** ** Durations *)

Lemma body_measuring end_ st r :
  measuring end_ st → measuring end_ (Door.body end_ st r).
Proof.
  intros Hm. unfold measuring in *.
  assert (Hso : Forall (measured end_) (Door.still_open end_ st)).
  { unfold Door.still_open.
    destruct (Door.current_event_start st), (Door.current_sensor_id st);
      try constructor; [done|constructor]. }
  unfold Door.body. case_decide; simpl.
  - destruct (DoorReading.is_open r); simpl; by apply Forall_app.
  - destruct (Door.prev_is_open st) as [[]|], (DoorReading.is_open r); simpl; try done.
    destruct (Door.current_event_start st); simpl; [|done].
    apply Forall_app. split; [done|]. by apply Forall_singleton.
Qed.

Lemma events_of_measured end_ l : Forall (measured end_) (Door.events_of end_ l).
Proof.
  unfold Door.events_of.
  assert (Hm : ∀ st, measuring end_ st → measuring end_ (fold_left (Door.body end_) l st)).
  { induction l as [|r l IH]; intros st Hst; simpl; [done|]. by apply IH, body_measuring. }
  specialize (Hm Door.initial). apply Forall_app. split.
  - apply Hm. constructor.
  - unfold Door.still_open.
    destruct (Door.current_event_start (fold_left (Door.body end_) l Door.initial)),
      (Door.current_sensor_id (fold_left (Door.body end_) l Door.initial));
      try constructor; [done|constructor].
Qed.

(** X24. The duration of every door event and of every presence event is
    the number of whole seconds from its start to its end, or to the end of
    the window asked for while it has no end: durations are never carried
    over from another event or measured against the clock. *)
Theorem durations_measured db start end_ sensor_id zone_id min_duration_seconds :
  Forall (measured end_) (get_door_events db start end_ sensor_id zone_id)
  ∧ Forall (λ e, measured end_ (forget e))
      (get_presence_events db start end_ sensor_id zone_id min_duration_seconds).
Proof.
  split; [apply events_of_measured|].
  unfold get_presence_events.
  assert (Hall : Forall (measured end_)
                   (forget <$> Presence.events_of end_ min_duration_seconds
                                 (Presence.query db start end_ sensor_id zone_id))).
  { rewrite PresenceFacts.events_of_simulates.
    apply Forall_forall. intros e [_ He]%list_elem_of_filter.
    pose proof (events_of_measured end_
                  (to_door <$> Presence.query db start end_ sensor_id zone_id)) as Hm.
    rewrite Forall_forall in Hm. by apply Hm. }
  by rewrite Forall_fmap in Hall.
Qed.

End EventOrderProperties.

(** * The baseline service: the hourly statement that SQLite refuses *)

Module BaselineProperties.
Import Registry BaselineService Samples.

(** X25. For a positive number of days (the window beginning at a datetime
    that Python can represent) and a sensor whose type supports
    aggregation, the hourly baselines are not returned: the call raises
    the error with which SQLite refuses the second grouped statement, where
    a window function stands within the argument of an aggregate function.
    The statement is refused when it is prepared, so whatever the rows. *)
Theorem hourly_baselines_rejected {H : PythonFloat} {Real : SqliteReal} db now sensor_id
    days sensor config :
  0 < days → representable now → representable (now - timedelta_days days) →
  select_sensor db sensor_id = [sensor] →
  SENSOR_TYPE_REGISTRY !! Sensor.sensor_type sensor = Some config →
  supports_aggregation config = true →
  get_hourly_baselines db now sensor_id days
  = Raise (OperationalError "misuse of window function avg()").
Proof.
  intros Hdays _ _ Hsensor Hconfig Hagg. unfold get_hourly_baselines.
  rewrite decide_False by lia. rewrite Hsensor. cbn [one_or_none result_bind].
  rewrite Hconfig, Hagg. cbn [negb]. cbv zeta.
  destruct (BaselineTheorems.hourly_statements_prepared (value_column config))
    as [-> ->].
  reflexivity.
Qed.

Lemma hourly_baselines_rejected_witness :
  get_hourly_baselines (H := binary64) (Real := binary64_sqlite) facility_db
    (timedelta_days 30) "cold-b-temp" 7
  = Raise (OperationalError "misuse of window function avg()").
Proof.
  apply (hourly_baselines_rejected (H := binary64) (Real := binary64_sqlite) facility_db
           (timedelta_days 30) "cold-b-temp" 7
           (Sensor.mk "cold-b-temp" "cold-b" "environmental" "Temperature"
              (Some (decimal (-18) 1)) (Some (decimal (-10) 1)))
           {| model := EnvironmentalReadingModel; value_column := Temperature;
              unit := "°C"; secondary_column := Some Humidity;
              secondary_unit := Some "%"; format_value := None;
              supports_aggregation := true |});
    [lia|vm_compute; split; discriminate|vm_compute; split; discriminate
    |reflexivity..].
Defined.

End BaselineProperties.

(** * Requests whose datetimes have an offset, or lie at the edge of the range *)

Module RequestProperties.
Import EventService Routes Samples.

Lemma time_range_refused now start end_ max_days :
  let end' := default (PyDatetime.naive now) end_ in
  (∀ s, start = Some s →
        (PyDatetime.utcoffset s = None ↔ is_Some (PyDatetime.utcoffset end')) →
        time_range now start end_ max_days
        = Unhandled (TypeError "can't compare offset-naive and offset-aware datetimes"))
  ∧ (start = None →
       ¬ representable (PyDatetime.wall end' - timedelta_hours 24) →
       time_range now start end_ max_days
       = Unhandled (OverflowError "date value out of range")).
Proof.
  intros end'. unfold time_range. cbv zeta. fold end'. split.
  - intros s -> Hmixed. unfold PyDatetime.ge.
    destruct (PyDatetime.utcoffset s) as [offset|],
      (PyDatetime.utcoffset end') as [offset'|]; try done.
    + destruct Hmixed as [_ Hmixed]. by specialize (Hmixed ltac:(by eexists)).
    + destruct Hmixed as [Hmixed _]. by destruct (Hmixed eq_refl).
  - intros -> Hrange. unfold PyDatetime.minus_timedelta.
    by rewrite decide_False.
Qed.

(** X26. The three handlers that take a time range let an exception through
    for two kinds of request.  When the start is given and exactly one of
    start and end has an offset (the end being the naive clock when the
    request names none), the comparison of the two raises a [TypeError];
    when no start is given and the end is less than 24 hours after the
    least datetime, the default start raises an [OverflowError]. *)
Theorem request_datetimes_refused {H : PythonFloat} db now sensor_id zone_id start end_
    min_duration limit readings_sensor_id interval :
  let end' := default (PyDatetime.naive now) end_ in
  let refused e :=
    list_door_events db now sensor_id zone_id start end_ limit = Unhandled e
    ∧ list_presence_events db now sensor_id zone_id start end_ min_duration limit
      = Unhandled e
    ∧ get_readings db now readings_sensor_id start end_ interval = Unhandled e in
  (∀ s, start = Some s →
        (PyDatetime.utcoffset s = None ↔ is_Some (PyDatetime.utcoffset end')) →
        refused (TypeError "can't compare offset-naive and offset-aware datetimes"))
  ∧ (start = None →
       ¬ representable (PyDatetime.wall end' - timedelta_hours 24) →
       refused (OverflowError "date value out of range")).
Proof.
  intros end' refused. unfold refused, list_door_events, list_presence_events, get_readings.
  split.
  - intros s Hs Hmixed.
    pose proof (λ max_days, proj1 (time_range_refused now start end_ max_days) s Hs Hmixed)
      as Hrefused.
    by rewrite !Hrefused.
  - intros Hs Hrange.
    pose proof (λ max_days, proj2 (time_range_refused now start end_ max_days) Hs Hrange)
      as Hrefused.
    by rewrite !Hrefused.
Qed.

Lemma request_datetimes_refused_witness :
  list_door_events door_db (seconds 90000) None None
    (Some (PyDatetime.mk (seconds 3600) (Some 0))) None 100
  = Unhandled (TypeError "can't compare offset-naive and offset-aware datetimes")
  ∧ get_readings (H := sample_float) facility_db (seconds 90000) "cold-b-temp" None
      (Some (PyDatetime.naive (seconds 7200))) "raw"
    = Unhandled (OverflowError "date value out of range").
Proof.
  split.
  - apply (proj1 (request_datetimes_refused (H := sample_float) door_db (seconds 90000)
                    None None (Some (PyDatetime.mk (seconds 3600) (Some 0))) None 0 100
                    "cold-b-temp" "raw") (PyDatetime.mk (seconds 3600) (Some 0)) eq_refl).
    split; [discriminate|]. intros [? [=]].
  - apply (proj2 (request_datetimes_refused (H := sample_float) facility_db
                    (seconds 90000) None None None
                    (Some (PyDatetime.naive (seconds 7200))) 0 100 "cold-b-temp" "raw")
           eq_refl).
    vm_compute. intros [Hmin _]. by apply Hmin.
Defined.

(** ** An end with an offset and a door still open *)

Abbreviation still_open_event := (λ e : DoorEvent.t, DoorEvent.closed_at e = None).

Lemma flush_offset end_ offset current_event_start current_sensor_id :
  PyDatetime.utcoffset end_ = Some offset →
  RequestEvents.flush end_ current_event_start current_sensor_id
  = match Door.still_open (PyDatetime.wall end_)
            (Door.mk [] current_sensor_id current_event_start None) with
    | [] => Ok ()
    | _ => Raise (TypeError "can't subtract offset-naive and offset-aware datetimes")
    end.
Proof.
  intros Hoffset. unfold RequestEvents.flush, Door.still_open, PyDatetime.minus. simpl.
  rewrite Hoffset. by destruct current_event_start, current_sensor_id.
Qed.

Lemma still_open_events end_ st :
  Forall still_open_event (Door.still_open end_ st).
Proof.
  unfold Door.still_open.
  destruct (Door.current_event_start st), (Door.current_sensor_id st);
    repeat constructor.
Qed.

Lemma still_open_state end_ st :
  Door.still_open end_ st
  = Door.still_open end_
      (Door.mk [] (Door.current_sensor_id st) (Door.current_event_start st) None).
Proof. reflexivity. Qed.

(** One reading: either the subtraction is refused, and the loop on naive
    datetimes appends an event still open; or the step is that of the loop
    on naive datetimes, and appends closed events only. *)
Lemma door_body_offset end_ offset st r :
  PyDatetime.utcoffset end_ = Some offset →
  (RequestEvents.door_body end_ st r
   = Raise (TypeError "can't subtract offset-naive and offset-aware datetimes")
   ∧ Exists still_open_event (Door.events (Door.body (PyDatetime.wall end_) st r)))
  ∨ (RequestEvents.door_body end_ st r = Ok (Door.body (PyDatetime.wall end_) st r)
     ∧ ∃ more, Door.events (Door.body (PyDatetime.wall end_) st r)
               = Door.events st ++ more
               ∧ Forall (λ e, ¬ still_open_event e) more).
Proof.
  intros Hoffset. unfold RequestEvents.door_body.
  rewrite (flush_offset end_ offset) by done. rewrite <- still_open_state.
  pose proof (still_open_events (PyDatetime.wall end_) st) as Hopen.
  destruct (decide (Some (DoorReading.sensor_id r) ≠ Door.current_sensor_id st))
    as [Hswitch|Hsame].
  - rewrite (DoorFacts.body_switch (PyDatetime.wall end_) st r) by congruence.
    rewrite DoorFacts.body_first. cbn [DoorInvariants.prepend Door.events].
    rewrite app_nil_r.
    destruct (Door.still_open (PyDatetime.wall end_) st) as [|e more] eqn:Hflush.
    + right. split; [done|]. exists []. split; [done|constructor].
    + left. split; [done|]. apply Forall_cons in Hopen as [He _].
      apply Exists_app. right. by apply Exists_cons_hd.
  - right. split; [done|]. unfold Door.body. rewrite decide_False by done.
    destruct (Door.prev_is_open st) as [[]|], (DoorReading.is_open r),
      (Door.current_event_start st); cbn;
      try (exists []; split; [by rewrite app_nil_r|constructor]).
    eexists. split; [reflexivity|]. by repeat constructor.
Qed.

Lemma door_run_offset end_ offset l : ∀ st,
  PyDatetime.utcoffset end_ = Some offset →
  (SensorService.result_for_each (RequestEvents.door_body end_) l st
   = Raise (TypeError "can't subtract offset-naive and offset-aware datetimes")
   ∧ Exists still_open_event
       (Door.events (fold_left (Door.body (PyDatetime.wall end_)) l st)))
  ∨ (SensorService.result_for_each (RequestEvents.door_body end_) l st
     = Ok (fold_left (Door.body (PyDatetime.wall end_)) l st)
     ∧ ∃ more, Door.events (fold_left (Door.body (PyDatetime.wall end_)) l st)
               = Door.events st ++ more
               ∧ Forall (λ e, ¬ still_open_event e) more).
Proof.
  induction l as [|r l IH]; intros st Hoffset; simpl.
  { right. split; [done|]. exists []. by rewrite app_nil_r. }
  destruct (door_body_offset end_ offset st r Hoffset)
    as [[-> Hopen]|[-> (more & Hmore & Hclosed)]]; simpl.
  - left. split; [done|].
    destruct (DoorFacts.run_grow (PyDatetime.wall end_) l
                (Door.body (PyDatetime.wall end_) st r)) as [later ->].
    apply Exists_app. by left.
  - destruct (IH (Door.body (PyDatetime.wall end_) st r) Hoffset)
      as [[-> Hopen]|[-> (later & Hlater & Hclosed')]].
    + by left.
    + right. split; [done|]. rewrite Hlater, Hmore.
      exists (more ++ later). split; [by rewrite <- app_assoc|]. by apply Forall_app.
Qed.

(** X27. Called with an end that has an offset, [get_door_events] raises a
    [TypeError] exactly when a door is still open where the loop flushes
    it, that is when the events by the wall-clock fields of the range
    include one without a close; otherwise it returns those events. *)
Theorem door_events_offset_end db start end_ sensor_id zone_id :
  is_Some (PyDatetime.utcoffset end_) →
  let events :=
    get_door_events db (PyDatetime.wall start) (PyDatetime.wall end_) sensor_id zone_id in
  RequestEvents.get_door_events db start end_ sensor_id zone_id
  = if decide (Exists (λ e, DoorEvent.closed_at e = None) events) then
      Raise (TypeError "can't subtract offset-naive and offset-aware datetimes")
    else Ok events.
Proof.
  intros [offset Hoffset] events. subst events.
  unfold RequestEvents.get_door_events, get_door_events, Door.events_of.
  set (l := Door.query db (PyDatetime.wall start) (PyDatetime.wall end_) sensor_id zone_id).
  destruct (door_run_offset end_ offset l Door.initial Hoffset)
    as [[-> Hopen]|[-> (more & Hmore & Hclosed)]]; simpl.
  - rewrite decide_True; [done|]. apply Exists_app. by left.
  - rewrite (flush_offset end_ offset) by done. rewrite <- still_open_state.
    pose proof (still_open_events (PyDatetime.wall end_)
                  (fold_left (Door.body (PyDatetime.wall end_)) l Door.initial)) as Hopen.
    simpl in Hmore. rewrite Hmore.
    destruct (Door.still_open _ _) as [|e rest]; simpl.
    + rewrite decide_False; [done|]. rewrite app_nil_r.
      intros (e & He & Hopen')%Exists_exists.
      rewrite Forall_forall in Hclosed. by apply (Hclosed e He).
    + rewrite decide_True; [done|]. apply Exists_app. right.
      apply Forall_cons in Hopen as [He _]. by apply Exists_cons_hd.
Qed.

Lemma door_events_offset_end_witness :
  RequestEvents.get_door_events door_db (PyDatetime.mk 0 (Some 0))
    (PyDatetime.mk (seconds 3600) (Some 0)) None None
  = Raise (TypeError "can't subtract offset-naive and offset-aware datetimes")
  ∧ RequestEvents.get_door_events door_db (PyDatetime.mk 0 (Some 0))
      (PyDatetime.mk (seconds 200) (Some 0)) None None
    = Ok [ DoorEvent.mk "cold-door" (seconds 0) (Some (seconds 120)) 120;
           DoorEvent.mk "dock-door" (seconds 20) (Some (seconds 95)) 75 ].
Proof.
  split.
  - rewrite (door_events_offset_end door_db (PyDatetime.mk 0 (Some 0))
               (PyDatetime.mk (seconds 3600) (Some 0)) None None ltac:(by eexists)).
    reflexivity.
  - rewrite (door_events_offset_end door_db (PyDatetime.mk 0 (Some 0))
               (PyDatetime.mk (seconds 200) (Some 0)) None None ltac:(by eexists)).
    reflexivity.
Defined.

End RequestProperties.
